(** * Observability assistant router: a shallow embedding and its properties

    The development follows the layout of the Python package [router]:
    configuration, mention parser, session store, semantic matcher, drift
    detector, routing decision engine, retry policy, streaming proxy, chat
    pipeline and the A2A translator.  Part I holds the embedding of the
    code, Part II the lemmas and theorems about it.

    Modelling conventions.
    - Text is a [string] of 8-bit code points (the Latin-1 range of Python's
      [str]); [Py] gives the few [str] methods the router relies on.
    - Python [int] is [Z]; counters that only count up from zero are [nat].
    - Python [float] scores and thresholds are exact rationals [Q]: every
      finite float is one.  The numerics of the embedding model and of
      numpy's dot product stay abstract (fields of [SentenceTransformer]).
    - Exceptions are values of [Exn]; a call that may raise returns a
      [Result].
    - Generators are modelled by the finite trace they produce when the
      consumer reads them to the end. *)

From Stdlib Require Import ZArith QArith List String Ascii Bool Lia.
From Stdlib Require Import Permutation Sorted DecimalString Lqa.
From stdpp Require Import base gmap strings list.

Local Open Scope Z_scope.
Local Open Scope list_scope.

(* stdpp freezes [String.append] under [simpl]; the proofs below compute
   with it. *)
#[local] Arguments String.append !s1 s2 / : simpl nomatch.

(* ===================================================================== *)
(** * Part I: the embedding                                               *)
(* ===================================================================== *)

(** ** Python built-ins *)

Module Py.

(** Exceptions the router raises or catches. *)
Inductive Exn :=
| RuntimeError (msg : string)
| ValueError (msg : string)
| IndexError
| LLMFallbackError (msg : string).

Inductive Result (A : Type) :=
| Ok (a : A)
| Raise (e : Exn).
Arguments Ok {A} a.
Arguments Raise {A} e.

(** [c.isspace()] on code points below 256. *)
Definition isspace (c : ascii) : bool :=
  let n := N_of_ascii c in
  (((9 <=? n) && (n <=? 13)) || ((28 <=? n) && (n <=? 32))
   || (n =? 133) || (n =? 160))%N.

(** [c.lower()] on code points below 256. *)
Definition lower_char (c : ascii) : ascii :=
  let n := N_of_ascii c in
  if (((65 <=? n) && (n <=? 90))
      || ((192 <=? n) && (n <=? 222) && negb (n =? 215)))%N
  then ascii_of_N (n + 32) else c.

Fixpoint lower (s : string) : string :=
  match s with
  | EmptyString => EmptyString
  | String c s' => String (lower_char c) (lower s')
  end.

(** [s.startswith(p)]. *)
Definition startswith (s p : string) : bool := String.prefix p s.

(** [needle in hay]. *)
Fixpoint contains (needle hay : string) : bool :=
  String.prefix needle hay
  || match hay with
     | EmptyString => false
     | String _ hay' => contains needle hay'
     end.

(** [s.strip() == ""], that is, every character is whitespace. *)
Fixpoint isblank (s : string) : bool :=
  match s with
  | EmptyString => true
  | String c s' => isspace c && isblank s'
  end.

(** [s.split()]: the maximal runs of non-whitespace characters. *)
Fixpoint split (s : string) : list string :=
  match s with
  | EmptyString => []
  | String c s' =>
      if isspace c then split s'
      else match s' with
           | EmptyString => [String c EmptyString]
           | String c' _ =>
               if isspace c' then String c EmptyString :: split s'
               else match split s' with
                    | w :: ws => String c w :: ws
                    | [] => [String c EmptyString]
                    end
           end
  end.

(** [sep.join(parts)]. *)
Definition join (sep : string) (parts : list string) : string :=
  String.concat sep parts.

(** [str(n)] for a non-negative [int]. *)
Definition str_of_nat (n : nat) : string :=
  NilEmpty.string_of_uint (Nat.to_uint n).

(** Truthiness of a [str]. *)
Definition truthy (s : string) : bool :=
  match s with EmptyString => false | _ => true end.

End Py.

(** ** router.config.agents *)

Module Config.

Inductive AgentProtocol := A2A | AG_UI.

Record AgentRoutingConfig := {
  priority : Z;
  threshold : Q;
  examples : list string
}.

Record AgentConfig := {
  id : string;
  name : string;
  handles : list string;
  url : string;
  protocol : AgentProtocol;
  routing : option AgentRoutingConfig;
  description : string
}.

Record SessionConfig := {
  sticky_enabled : bool;
  timeout_minutes : Z;
  topic_drift_threshold : Q
}.

(** [default_agent] is the [id] held by [DefaultAgentConfig]. *)
Record AgentsConfig := {
  session : SessionConfig;
  default_agent : string;
  agents : list AgentConfig
}.

Definition get_agent_by_id (cfg : AgentsConfig) (agent_id : string)
  : option AgentConfig :=
  List.find (fun agent => String.eqb (id agent) agent_id) (agents cfg).

Definition get_agent_by_handle (cfg : AgentsConfig) (handle : string)
  : option AgentConfig :=
  let handle_lower := Py.lower handle in
  List.find
    (fun agent => existsb (String.eqb handle_lower) (handles agent))
    (agents cfg).

(** Raises [ValueError] when the default id does not resolve. *)
Definition get_default_agent (cfg : AgentsConfig) : Py.Result AgentConfig :=
  match get_agent_by_id cfg (default_agent cfg) with
  | Some agent => Py.Ok agent
  | None =>
      Py.Raise
        (Py.ValueError
           ("Default agent '" +:+ default_agent cfg +:+ "' not found")%string)
  end.

Definition is_default_agent (cfg : AgentsConfig) (agent : AgentConfig)
  : bool :=
  String.eqb (id agent) (default_agent cfg).

(** What the pydantic validators of [AgentConfig] and [AgentsConfig]
    guarantee for a loaded catalog: every agent has at least one handle,
    the catalog is not empty, and the default id names an agent. *)
Definition validated (cfg : AgentsConfig) : bool :=
  forallb (fun agent => negb (Nat.eqb (List.length (handles agent)) 0))
          (agents cfg)
  && negb (Nat.eqb (List.length (agents cfg)) 0)
  && existsb (fun agent => String.eqb (id agent) (default_agent cfg))
             (agents cfg).

End Config.

(** ** router.routing.mention *)

Module Mention.

(** The character class [[a-zA-Z0-9_-]]. *)
Definition is_handle_char (c : ascii) : bool :=
  let n := N_of_ascii c in
  (((97 <=? n) && (n <=? 122)) || ((65 <=? n) && (n <=? 90))
   || ((48 <=? n) && (n <=? 57)) || (n =? 95) || (n =? 45))%N.

Definition is_at (c : ascii) : bool := (N_of_ascii c =? 64)%N.

(** The longest run of handle characters at the start of [s]. *)
Fixpoint take_handle (s : string) : string :=
  match s with
  | EmptyString => EmptyString
  | String c s' =>
      if is_handle_char c then String c (take_handle s') else EmptyString
  end.

(** [MENTION_PATTERN.search(message)]: group 1 of the leftmost match of
    [@([a-zA-Z0-9_-]+)]. *)
Fixpoint search (message : string) : option string :=
  match message with
  | EmptyString => None
  | String c rest =>
      if is_at c && Py.truthy (take_handle rest)
      then Some (take_handle rest)
      else search rest
  end.

Definition parse_mention (message : string) : option string :=
  if negb (Py.truthy message) then None
  else match search message with
       | Some handle => Some (Py.lower handle)
       | None => None
       end.

(** [MENTION_PATTERN.sub("", message)].  [in_match] tells that the
    characters read so far end inside a match, so that further handle
    characters belong to it (the quantifier is greedy). *)
Fixpoint sub_empty (in_match : bool) (message : string) : string :=
  match message with
  | EmptyString => EmptyString
  | String c rest =>
      if in_match && is_handle_char c then sub_empty true rest
      else if is_at c && Py.truthy (take_handle rest)
           then sub_empty true rest
           else String c (sub_empty false rest)
  end.

Definition strip_mentions (message : string) : string :=
  if negb (Py.truthy message) then message
  else Py.join " " (Py.split (sub_empty false message)).

Definition strip_mention := strip_mentions.

End Mention.

(** ** router.session *)

Module Session.

(** Times are [datetime] values counted in microseconds. *)
Record SessionState := {
  thread_id : string;
  agent_id : string;
  agent_handle : string;
  created_at : Z;
  last_activity : Z
}.

(** [timedelta(minutes=m)]. *)
Definition minutes (m : Z) : Z := m * 60000000.

(** [SessionState.is_expired]; [now] is the reading of [datetime.now()].
    The expiry time is computed as an integer: this is the method for a
    session whose expiry time is a [datetime] (module [SessionRange]); for
    any other, Python raises [OverflowError]. *)
Definition is_expired (now : Z) (s : SessionState) (timeout_minutes : Z)
  : bool :=
  let expiry_time := last_activity s + minutes timeout_minutes in
  expiry_time <? now.

(** [SessionState.touch]. *)
Definition touch_state (now : Z) (s : SessionState) : SessionState :=
  {| thread_id := thread_id s; agent_id := agent_id s;
     agent_handle := agent_handle s; created_at := created_at s;
     last_activity := now |}.

Record SessionStore := {
  _sessions : gmap string SessionState;
  _timeout_minutes : Z
}.

Definition with_sessions (store : SessionStore)
           (m : gmap string SessionState) : SessionStore :=
  {| _sessions := m; _timeout_minutes := _timeout_minutes store |}.

Definition init (timeout_minutes : Z) : SessionStore :=
  {| _sessions := ∅; _timeout_minutes := timeout_minutes |}.

(** [SessionStore.get]: the session, if any, and the store afterwards. *)
Definition get (now : Z) (store : SessionStore) (tid : string)
  : option SessionState * SessionStore :=
  match _sessions store !! tid with
  | None => (None, store)
  | Some session =>
      if is_expired now session (_timeout_minutes store)
      then (None, with_sessions store (delete tid (_sessions store)))
      else (Some session, store)
  end.

(** [SessionStore.set].  The two default factories of [SessionState]
    read the clock one after the other. *)
Definition set (now_created now_activity : Z) (store : SessionStore)
           (tid aid handle : string) : SessionState * SessionStore :=
  let session :=
    {| thread_id := tid; agent_id := aid; agent_handle := handle;
       created_at := now_created; last_activity := now_activity |} in
  (session, with_sessions store (<[tid := session]> (_sessions store))).

(** [SessionStore.touch]: the expiry test and the update read the clock
    separately. *)
Definition touch (now_check now_touch : Z) (store : SessionStore)
           (tid : string) : bool * SessionStore :=
  match _sessions store !! tid with
  | None => (false, store)
  | Some session =>
      if is_expired now_check session (_timeout_minutes store)
      then (false, with_sessions store (delete tid (_sessions store)))
      else (true,
            with_sessions store
              (<[tid := touch_state now_touch session]> (_sessions store)))
  end.

(** [SessionStore.delete]. *)
Definition delete_session (store : SessionStore) (tid : string)
  : bool * SessionStore :=
  match _sessions store !! tid with
  | Some _ => (true, with_sessions store (delete tid (_sessions store)))
  | None => (false, store)
  end.

End Session.

(** ** router.routing.semantic *)

Module Semantic.
Import Py.

Definition MAX_MESSAGE_LENGTH : Z := 10000.

Definition Vec := list Q.

(** The embedding back end.  [encode] is [SentenceTransformer.encode] on
    one text with [normalize_embeddings=True]; encoding a batch encodes
    each text.  [dot] is numpy's dot product of one row and the query;
    the product of a matrix and a vector takes it row by row. *)
Record SentenceTransformer := {
  encode : string -> Vec;
  dot : Vec -> Vec -> Q
}.

Record RouteMatch := {
  agent : Config.AgentConfig;
  score : Q;
  example : string
}.

Record SemanticRouter := {
  _model : option SentenceTransformer;
  _agents : list Config.AgentConfig;
  _embeddings : option (list Vec);
  _example_to_agent : list (nat * string)
}.

Definition Qlt_b (x y : Q) : bool := negb (Qle_bool y x).

Definition is_loaded (self : SemanticRouter) : bool :=
  match _model self, _embeddings self with
  | Some _, Some _ => true
  | _, _ => false
  end.

(** The loop of [build_index] over [enumerate(self._agents)], started at
    index [agent_idx]. *)
Fixpoint collect_examples (agent_idx : nat)
         (agents : list Config.AgentConfig) : list (nat * string) :=
  match agents with
  | [] => []
  | agent :: rest =>
      match Config.routing agent with
      | None => collect_examples (S agent_idx) rest
      | Some r =>
          match Config.examples r with
          | [] => collect_examples (S agent_idx) rest
          | exs => map (pair agent_idx) exs
                   ++ collect_examples (S agent_idx) rest
          end
      end
  end.

Definition build_index (self : SemanticRouter) (config : Config.AgentsConfig)
  : Result SemanticRouter :=
  match _model self with
  | None => Raise (RuntimeError "Model not loaded. Call load_model() first.")
  | Some model =>
      let agents := Config.agents config in
      let example_to_agent := collect_examples 0 agents in
      let all_examples := map snd example_to_agent in
      match all_examples with
      | [] => Ok {| _model := Some model; _agents := agents;
                    _embeddings := Some [];
                    _example_to_agent := example_to_agent |}
      | _ => Ok {| _model := Some model; _agents := agents;
                   _embeddings := Some (map (encode model) all_examples);
                   _example_to_agent := example_to_agent |}
      end
  end.

(** The two input checks shared by [match] and [compute_similarity]. *)
Definition check_message (message : string) : Result unit :=
  if negb (truthy message) || isblank message
  then Raise (ValueError "Message cannot be empty")
  else if MAX_MESSAGE_LENGTH <? Z.of_nat (String.length message)
       then Raise
              (ValueError
                 ("Message exceeds maximum length of "
                  +:+ str_of_nat (Z.to_nat MAX_MESSAGE_LENGTH)
                  +:+ " characters")%string)
       else Ok tt.

(** [agent_best_scores]: a dict keeps its keys in insertion order, and
    assigning to a key already present keeps the key in place. *)
Definition Best := list (nat * (Q * string)).

Fixpoint dict_get (k : nat) (d : Best) : option (Q * string) :=
  match d with
  | [] => None
  | (k', v) :: d' => if Nat.eqb k' k then Some v else dict_get k d'
  end.

Fixpoint dict_set (k : nat) (v : Q * string) (d : Best) : Best :=
  match d with
  | [] => [(k, v)]
  | (k', v') :: d' =>
      if Nat.eqb k' k then (k, v) :: d' else (k', v') :: dict_set k v d'
  end.

(** The body of the loop over the similarities: keep the better of the
    agent's current best and this row. *)
Definition update_best (agent_best_scores : Best) (similarity : Q)
           (agent_idx : nat) (ex : string) : Best :=
  match dict_get agent_idx agent_best_scores with
  | None => dict_set agent_idx (similarity, ex) agent_best_scores
  | Some current_best =>
      if Qlt_b (fst current_best) similarity
      then dict_set agent_idx (similarity, ex) agent_best_scores
      else agent_best_scores
  end.

(** The loop over [enumerate(similarities)], started at row [idx]. *)
Fixpoint best_scores (example_to_agent : list (nat * string)) (idx : nat)
         (similarities : list Q) (agent_best_scores : Best) : Result Best :=
  match similarities with
  | [] => Ok agent_best_scores
  | similarity :: rest =>
      match nth_error example_to_agent idx with
      | None => Raise IndexError
      | Some (agent_idx, ex) =>
          best_scores example_to_agent (S idx) rest
            (update_best agent_best_scores similarity agent_idx ex)
      end
  end.

(** The loop over [agent_best_scores.items()] that filters by threshold. *)
Fixpoint above_threshold (agents : list Config.AgentConfig) (items : Best)
  : Result (list RouteMatch) :=
  match items with
  | [] => Ok []
  | (agent_idx, (sc, ex)) :: rest =>
      match nth_error agents agent_idx with
      | None => Raise IndexError
      | Some a =>
          match above_threshold agents rest with
          | Raise e => Raise e
          | Ok matches =>
              match Config.routing a with
              | None => Ok matches
              | Some r =>
                  if Qle_bool (Config.threshold r) sc
                  then Ok ({| agent := a; score := sc; example := ex |}
                           :: matches)
                  else Ok matches
              end
          end
      end
  end.

(** The sort key [(-m.score, priority)] and the order of Python tuples. *)
Definition sort_key (m : RouteMatch) : Q * Z :=
  (Qopp (score m),
   match Config.routing (agent m) with
   | Some r => Config.priority r
   | None => 1
   end).

Definition key_lt (k1 k2 : Q * Z) : bool :=
  Qlt_b (fst k1) (fst k2)
  || (Qeq_bool (fst k1) (fst k2) && (snd k1 <? snd k2)).

(** [list.sort(key=...)] is stable; so is this insertion sort, and a
    stable sort has one result. *)
Fixpoint insert_sorted (m : RouteMatch) (l : list RouteMatch)
  : list RouteMatch :=
  match l with
  | [] => [m]
  | m' :: l' =>
      if key_lt (sort_key m') (sort_key m) then m' :: insert_sorted m l'
      else m :: m' :: l'
  end.

Definition sort_matches (l : list RouteMatch) : list RouteMatch :=
  fold_right insert_sorted [] l.

(** [SemanticRouter.match]. *)
Definition match_ (self : SemanticRouter) (message : string)
  : Result (list RouteMatch) :=
  match _model self, _embeddings self with
  | Some model, Some embeddings =>
      match check_message message with
      | Raise e => Raise e
      | Ok _ =>
          match embeddings with
          | [] => Ok []
          | _ =>
              let query_embedding := encode model message in
              let similarities :=
                map (fun row => dot model row query_embedding) embeddings in
              match best_scores (_example_to_agent self) 0 similarities []
              with
              | Raise e => Raise e
              | Ok agent_best_scores =>
                  match above_threshold (_agents self) agent_best_scores
                  with
                  | Raise e => Raise e
                  | Ok matches => Ok (sort_matches matches)
                  end
              end
          end
      end
  | _, _ =>
      Raise (RuntimeError
               "Router not initialized. Call load_model() and build_index().")
  end.

Definition match_best (self : SemanticRouter) (message : string)
  : Result (option RouteMatch) :=
  match match_ self message with
  | Raise e => Raise e
  | Ok [] => Ok None
  | Ok (m :: _) => Ok (Some m)
  end.

(** [np.max] of a one-dimensional array; it raises on an empty one. *)
Definition np_max (xs : list Q) : Result Q :=
  match xs with
  | [] => Raise (ValueError "zero-size array to reduction operation")
  | x :: rest =>
      Ok (fold_left (fun acc y => if Qlt_b acc y then y else acc) rest x)
  end.

(** The first index [idx] with [self._agents[idx].id == agent.id]. *)
Fixpoint find_agent_idx (agent_id : string) (idx : nat)
         (agents : list Config.AgentConfig) : option nat :=
  match agents with
  | [] => None
  | a :: rest =>
      if String.eqb (Config.id a) agent_id then Some idx
      else find_agent_idx agent_id (S idx) rest
  end.

(** [[i for i, (idx, _) in enumerate(rows) if idx == agent_idx]]. *)
Fixpoint example_indices (agent_idx : nat) (i : nat)
         (rows : list (nat * string)) : list nat :=
  match rows with
  | [] => []
  | (idx, _) :: rest =>
      if Nat.eqb idx agent_idx
      then i :: example_indices agent_idx (S i) rest
      else example_indices agent_idx (S i) rest
  end.

(** [self._embeddings[example_indices]]. *)
Fixpoint take_rows (embeddings : list Vec) (indices : list nat)
  : Result (list Vec) :=
  match indices with
  | [] => Ok []
  | i :: rest =>
      match nth_error embeddings i, take_rows embeddings rest with
      | Some row, Ok rows => Ok (row :: rows)
      | None, _ => Raise IndexError
      | _, Raise e => Raise e
      end
  end.

(** The last part of [compute_similarity]: embed the agent's examples on
    demand and return the best score. *)
Definition similarity_on_demand (model : SentenceTransformer)
           (query_embedding : Vec) (examples : list string) : Result Q :=
  let example_embeddings := map (encode model) examples in
  let similarities :=
    map (fun row => dot model row query_embedding) example_embeddings in
  np_max similarities.

(** The look-up of the cached rows in [compute_similarity]: the rows of
    the first agent of the index with the same id, if there are any. *)
Definition cached_indices (self : SemanticRouter)
           (agent : Config.AgentConfig) : option (list nat) :=
  match find_agent_idx (Config.id agent) 0 (_agents self) with
  | None => None
  | Some agent_idx =>
      match example_indices agent_idx 0 (_example_to_agent self) with
      | [] => None
      | indices => Some indices
      end
  end.

(** The cached branch: the best score over the cached rows. *)
Definition similarity_cached (model : SentenceTransformer)
           (embeddings : list Vec) (query_embedding : Vec)
           (indices : list nat) : Result Q :=
  match take_rows embeddings indices with
  | Raise e => Raise e
  | Ok example_embeddings =>
      np_max (map (fun row => dot model row query_embedding)
                  example_embeddings)
  end.

(** [SemanticRouter.compute_similarity]. *)
Definition compute_similarity (self : SemanticRouter) (message : string)
           (agent : Config.AgentConfig) : Result Q :=
  match _model self, _embeddings self with
  | Some model, Some embeddings =>
      match check_message message with
      | Raise e => Raise e
      | Ok _ =>
          match Config.routing agent with
          | None => Ok 0%Q
          | Some r =>
              match Config.examples r with
              | [] => Ok 0%Q
              | exs =>
                  let query_embedding := encode model message in
                  match cached_indices self agent with
                  | Some indices =>
                      similarity_cached model embeddings query_embedding
                        indices
                  | None => similarity_on_demand model query_embedding exs
                  end
              end
          end
      end
  | _, _ =>
      Raise (RuntimeError
               "Router not initialized. Call load_model() and build_index().")
  end.

End Semantic.

(** ** router.routing.drift *)

Module Drift.
Import Py.

Record DriftResult := {
  drifted : bool;
  similarity_score : Q;
  threshold : Q
}.

(** [ValueError] and [RuntimeError] of the matcher are caught and read as
    drift; nothing else is caught. *)
Definition detect_topic_drift (message : string)
           (agent : Config.AgentConfig)
           (semantic_router : Semantic.SemanticRouter)
           (drift_threshold : Q) : Result DriftResult :=
  match Semantic.compute_similarity semantic_router message agent with
  | Ok similarity =>
      Ok {| drifted := Semantic.Qlt_b similarity drift_threshold;
            similarity_score := similarity;
            threshold := drift_threshold |}
  | Raise (ValueError _) | Raise (RuntimeError _) =>
      Ok {| drifted := true; similarity_score := 0%Q;
            threshold := drift_threshold |}
  | Raise e => Raise e
  end.

End Drift.

(** ** router.agui.models *)

Module Agui.

(** The AG-UI events the router builds itself, and one variant for every
    other event, which it hands on as it is. *)
Inductive Event :=
| RunStarted (thread_id run_id : string) (display_name : option string)
| RunFinished (thread_id run_id : string)
| RunError (message : string)
| TextMessageStart (message_id role : string)
| TextMessageContent (message_id delta : string)
| TextMessageEnd (message_id : string)
| Passthrough (type payload : string).

(** One item of a list-valued message content: an item with a [text]
    attribute, or one without. *)
Inductive ContentItem :=
| TextInputContent (text : string)
| BinaryInputContent (data : string).

Inductive Content :=
| ContentStr (s : string)
| ContentList (items : list ContentItem)
| ContentNone.

Record Message := {
  id : string;
  role : string;
  content : Content
}.

(** [extras] stands for [tools], [context] and [state], which the router
    never looks into. *)
Record ChatRequest := {
  thread_id : string;
  messages : list Message;
  extras : string
}.

End Agui.

(** ** router.agui.endpoint: the routing decision engine *)

Module Routing.
Import Py.

Record RoutingInfo := {
  method : string;
  score : option Q;
  topic_drift : bool
}.

(** What [classify_with_llm] does for this request: it returns an agent,
    returns [None], or raises [LLMFallbackError]. *)
Inductive LLMAnswer :=
| Classified (agent : Config.AgentConfig)
| NoMatch
| Failed (msg : string).

(** The readings of [datetime.now()] at the places where routing may
    consult the clock: in [get], in the two steps of [touch], and in the
    two default factories of the session that [set] builds. *)
Record Clock := {
  at_get : Z;
  at_touch_check : Z;
  at_touch : Z;
  at_created : Z;
  at_activity : Z
}.

(** The local variables of [_route_with_sessions]. *)
Record Locals := {
  agent : option Config.AgentConfig;
  routing_method : string;
  routing_score : option Q;
  topic_drift_detected : bool
}.

Definition initial : Locals :=
  {| agent := None; routing_method := "semantic"; routing_score := None;
     topic_drift_detected := false |}.

(** Step 1: check for an @mention override. *)
Definition step1_mention (user_message : string)
           (agents_config : Config.AgentsConfig) (l : Locals) : Locals :=
  match Mention.parse_mention user_message with
  | Some mentioned_handle =>
      if truthy mentioned_handle then
        match Config.get_agent_by_handle agents_config mentioned_handle with
        | Some a =>
            {| agent := Some a; routing_method := "mention";
               routing_score := routing_score l;
               topic_drift_detected := topic_drift_detected l |}
        | None => l
        end
      else l
  | None => l
  end.

(** Step 2: check the existing session, if no mention chose an agent. *)
Definition step2_sticky (clock : Clock) (user_message tid : string)
           (agents_config : Config.AgentsConfig)
           (semantic_router : Semantic.SemanticRouter)
           (session_store : option Session.SessionStore) (l : Locals)
  : Result Locals * option Session.SessionStore :=
  match agent l, session_store with
  | None, Some store =>
      let '(session, store1) := Session.get (at_get clock) store tid in
      match session with
      | None => (Ok l, Some store1)
      | Some s =>
          match Config.get_agent_by_id agents_config (Session.agent_id s)
          with
          | None => (Ok l, Some store1)
          | Some sticky_agent =>
              let drift_threshold :=
                Config.topic_drift_threshold (Config.session agents_config)
              in
              match Drift.detect_topic_drift user_message sticky_agent
                      semantic_router drift_threshold with
              | Raise e => (Raise e, Some store1)
              | Ok drift_result =>
                  if negb (Drift.drifted drift_result) then
                    (Ok {| agent := Some sticky_agent;
                           routing_method := "sticky";
                           routing_score :=
                             Some (Drift.similarity_score drift_result);
                           topic_drift_detected := topic_drift_detected l |},
                     Some (snd (Session.touch (at_touch_check clock)
                                  (at_touch clock) store1 tid)))
                  else
                    (Ok {| agent := agent l;
                           routing_method := routing_method l;
                           routing_score := routing_score l;
                           topic_drift_detected := true |},
                     Some (snd (Session.delete_session store1 tid)))
              end
          end
      end
  | _, _ => (Ok l, session_store)
  end.

(** Step 3: semantic routing, then the LLM classifier, then the default
    agent.  After it an agent is chosen. *)
Definition step3_semantic (llm : LLMAnswer) (user_message : string)
           (agents_config : Config.AgentsConfig)
           (semantic_router : Semantic.SemanticRouter) (l : Locals)
  : Result (Config.AgentConfig * Locals) :=
  match agent l with
  | Some a => Ok (a, l)
  | None =>
      match Semantic.match_best semantic_router user_message with
      | Raise e => Raise e
      | Ok (Some m) =>
          Ok (Semantic.agent m,
              {| agent := Some (Semantic.agent m);
                 routing_method := "semantic";
                 routing_score := Some (Semantic.score m);
                 topic_drift_detected := topic_drift_detected l |})
      | Ok None =>
          match Config.get_default_agent agents_config with
          | Raise e => Raise e
          | Ok default_agent =>
              let classified :=
                match Config.agents agents_config with
                | [] => None
                | _ => match llm with
                       | Classified a => Some a
                       | NoMatch => None
                       | Failed _ => None
                       end
                end in
              match classified with
              | Some a =>
                  Ok (a, {| agent := Some a;
                            routing_method := "llm_fallback";
                            routing_score := routing_score l;
                            topic_drift_detected := topic_drift_detected l |})
              | None =>
                  Ok (default_agent,
                      {| agent := Some default_agent;
                         routing_method := "default";
                         routing_score := routing_score l;
                         topic_drift_detected := topic_drift_detected l |})
              end
          end
      end
  end.

(** Steps 1 to 3: the selection. *)
Definition select_agent (clock : Clock) (llm : LLMAnswer)
           (user_message tid : string)
           (agents_config : Config.AgentsConfig)
           (semantic_router : Semantic.SemanticRouter)
           (session_store : option Session.SessionStore)
  : Result (Config.AgentConfig * Locals) * option Session.SessionStore :=
  let l1 := step1_mention user_message agents_config initial in
  match step2_sticky clock user_message tid agents_config semantic_router
          session_store l1 with
  | (Raise e, store) => (Raise e, store)
  | (Ok l2, store) =>
      (step3_semantic llm user_message agents_config semantic_router l2,
       store)
  end.

(** Step 4: update the session, if sessions are enabled.  [handles[0]]
    raises [IndexError] on an agent without handles. *)
Definition step4_update_session (clock : Clock) (tid : string)
           (agents_config : Config.AgentsConfig)
           (chosen : Config.AgentConfig)
           (session_store : option Session.SessionStore)
  : Result unit * option Session.SessionStore :=
  match session_store with
  | Some store =>
      if Config.sticky_enabled (Config.session agents_config) then
        match Config.handles chosen with
        | [] => (Raise IndexError, session_store)
        | primary :: _ =>
            (Ok tt,
             Some (snd (Session.set (at_created clock) (at_activity clock)
                          store tid (Config.id chosen) primary)))
        end
      else (Ok tt, session_store)
  | None => (Ok tt, session_store)
  end.

Definition _route_with_sessions (clock : Clock) (llm : LLMAnswer)
           (user_message tid : string)
           (agents_config : Config.AgentsConfig)
           (semantic_router : Semantic.SemanticRouter)
           (session_store : option Session.SessionStore)
  : Result (Config.AgentConfig * RoutingInfo)
    * option Session.SessionStore :=
  match select_agent clock llm user_message tid agents_config
          semantic_router session_store with
  | (Raise e, store) => (Raise e, store)
  | (Ok (chosen, l), store) =>
      match step4_update_session clock tid agents_config chosen store with
      | (Raise e, store') => (Raise e, store')
      | (Ok _, store') =>
          (Ok (chosen,
               {| method := routing_method l;
                  score := routing_score l;
                  topic_drift := topic_drift_detected l |}),
           store')
      end
  end.

End Routing.

(** ** router.agents.retry *)

Module Retry.

Record RetryConfig := {
  max_attempts : Z;
  base_delay_ms : Z;
  max_delay_ms : Z
}.

Definition get_delay_ms (self : RetryConfig) (attempt : Z) : Z :=
  if attempt <=? 0 then 0
  else
    let delay := base_delay_ms self * 2 ^ (attempt - 1) in
    Z.min delay (max_delay_ms self).

(** What the proxy does that can be observed from outside: it sleeps, it
    starts a call to the agent, it yields an event downstream. *)
Inductive Action :=
| Sleep (delay_ms : Z)
| CallAgent (attempt : nat)
| Yield (event : Agui.Event).

(** [wait_before_retry]: the sleep, if any. *)
Definition wait_before_retry (self : RetryConfig) (attempt : Z)
  : list Action :=
  let delay_ms := get_delay_ms self attempt in
  if 0 <? delay_ms then [Sleep delay_ms] else [].

(** An error as [is_retryable_error] sees it: [str(error)] and the
    [status_code] attribute, [None] when the attribute is missing or
    holds [None]. *)
Record Error := {
  message : string;
  status_code : option Z
}.

Definition is_retryable_error (error : Error) : bool :=
  let error_str := Py.lower (message error) in
  if existsb (fun term => Py.contains term error_str)
       ["timeout"; "timed out"; "connection"; "connect"; "unavailable";
        "network"]%string
  then true
  else if Py.contains "429" error_str then true
  else if Py.contains "5" error_str
          && existsb (fun code => Py.contains code error_str)
               ["500"; "502"; "503"; "504"]%string
  then true
  else match status_code error with
       | Some code =>
           if (code =? 429) || ((500 <=? code) && (code <? 600)) then true
           else if (400 <=? code) && (code <? 500) then false
           else false
       | None => false
       end.

End Retry.

(** ** router.agents.proxy *)

Module Proxy.
Import Retry.

Record AgentProxyError := {
  error_message : string;
  agent_id : option string;
  agent_name : option string;
  attempts : nat;
  is_retryable : bool
}.

(** How one call of [_forward_with_protocol] ends once its events have
    been yielded: normally, with an [AGUIClientError] or [A2AClientError],
    or with any other exception. *)
Inductive CallEnd :=
| Completed
| ClientError (e : Error)
| OtherException (msg : string).

Record Call := {
  yielded : list Agui.Event;
  ending : CallEnd
}.

(** How [forward_request] ends. *)
Inductive ProxyEnd :=
| Returned
| ProxyErrorRaised (e : AgentProxyError)
| Propagated (msg : string).

Definition str_of_last_error (last_error : option Error) : string :=
  match last_error with
  | Some e => message e
  | None => "None"
  end.

(** The code after the loop: all retries exhausted or a non-retryable
    error. *)
Definition exhausted (agent : Config.AgentConfig) (attempts_made : nat)
           (last_error : option Error) : list Action * ProxyEnd :=
  let error_msg :=
    ("Agent " +:+ Config.name agent +:+ " failed after "
     +:+ Py.str_of_nat attempts_made +:+ " attempt(s): "
     +:+ str_of_last_error last_error)%string in
  ([Yield (Agui.RunError error_msg)],
   ProxyErrorRaised
     {| error_message := error_msg;
        agent_id := Some (Config.id agent);
        agent_name := Some (Config.name agent);
        attempts := attempts_made;
        is_retryable :=
          match last_error with
          | Some e => is_retryable_error e
          | None => false
          end |}).

(** The loop [for attempt in range(max_attempts)], with [remaining]
    rounds to go; [backend attempt] is what the agent call of that round
    does. *)
Fixpoint attempt_loop (retry_config : RetryConfig)
         (agent : Config.AgentConfig) (backend : nat -> Call)
         (remaining : nat) (attempt : nat) (attempts_made : nat)
         (last_error : option Error) : list Action * ProxyEnd :=
  match remaining with
  | O => exhausted agent attempts_made last_error
  | S remaining' =>
      let attempts_now := (attempt + 1)%nat in
      let waited :=
        if (0 <? attempt)%nat
        then wait_before_retry retry_config (Z.of_nat attempt)
        else [] in
      let call := backend attempt in
      let streamed :=
        waited ++ CallAgent attempt :: map Yield (yielded call) in
      match ending call with
      | Completed => (streamed, Returned)
      | OtherException msg => (streamed, Propagated msg)
      | ClientError e =>
          if negb (is_retryable_error e) then
            let '(last, fin) := exhausted agent attempts_now (Some e) in
            (streamed ++ last, fin)
          else
            let '(rest, fin) :=
              attempt_loop retry_config agent backend remaining'
                (S attempt) attempts_now (Some e) in
            (streamed ++ rest, fin)
      end
  end.

Definition forward_request (retry_config : RetryConfig)
           (agent : Config.AgentConfig) (backend : nat -> Call)
  : list Action * ProxyEnd :=
  attempt_loop retry_config agent backend
    (Z.to_nat (max_attempts retry_config)) 0 0 None.

(** Projections of a trace. *)
Definition is_control (a : Action) : bool :=
  match a with Yield _ => false | _ => true end.

Fixpoint events_of (trace : list Action) : list Agui.Event :=
  match trace with
  | [] => []
  | Yield e :: rest => e :: events_of rest
  | _ :: rest => events_of rest
  end.

(** The number of agent calls in a trace. *)
Fixpoint calls_made (trace : list Action) : nat :=
  match trace with
  | [] => O
  | CallAgent _ :: rest => S (calls_made rest)
  | _ :: rest => calls_made rest
  end.

(** Some call starts after an event has been yielded. *)
Fixpoint call_after_yield (seen_yield : bool) (trace : list Action) : bool :=
  match trace with
  | [] => false
  | Yield _ :: rest => call_after_yield true rest
  | CallAgent _ :: rest => seen_yield || call_after_yield seen_yield rest
  | Sleep _ :: rest => call_after_yield seen_yield rest
  end.

End Proxy.

(** ** router.agui.endpoint: the event generator of [chat] *)

Module Pipeline.
Import Proxy.

(** What the generator does: it forwards a request to an agent through
    the proxy, or emits an event into the outbound stream. *)
Inductive Out :=
| Forward (agent : Config.AgentConfig) (request : Agui.ChatRequest)
| Emit (event : Agui.Event).

(** [_yield_fallback_context]; [message_id] is the fresh UUID. *)
Definition _yield_fallback_context (message_id failure_context : string)
  : list Agui.Event :=
  let fallback_message :=
    ("[Notice: " +:+ failure_context +:+ "Routing to general assistant.]"
     +:+ String "010" (String "010" EmptyString))%string in
  [Agui.TextMessageStart message_id "assistant";
   Agui.TextMessageContent message_id fallback_message;
   Agui.TextMessageEnd message_id].

(** [e.agent_name or agent.name]. *)
Definition name_or (agent_name : option string) (fallback : string)
  : string :=
  match agent_name with
  | Some n => if Py.truthy n then n else fallback
  | None => fallback
  end.

(** [chat.event_generator].  [proxy agent request] is the run of
    [agent_proxy.forward_request]: the events it yields and how it
    ends. *)
Definition event_generator (agents_config : Config.AgentsConfig)
           (agent default_agent : Config.AgentConfig)
           (forwarding_request : Agui.ChatRequest)
           (proxy : Config.AgentConfig -> Agui.ChatRequest
                    -> list Agui.Event * ProxyEnd)
           (message_id : string) : list Out :=
  let '(events, fin) := proxy agent forwarding_request in
  let primary := Forward agent forwarding_request :: map Emit events in
  let after_failure (failure_context : string) : list Out :=
    if negb (Config.is_default_agent agents_config agent) then
      let notice :=
        map Emit (_yield_fallback_context message_id failure_context) in
      let '(events2, fin2) := proxy default_agent forwarding_request in
      let fallback :=
        Forward default_agent forwarding_request :: map Emit events2 in
      match fin2 with
      | Returned => notice ++ fallback
      | ProxyErrorRaised fallback_error =>
          notice ++ fallback
          ++ [Emit (Agui.RunError
                      ("All agents unavailable. Primary: "
                       +:+ failure_context +:+ "Fallback: "
                       +:+ error_message fallback_error)%string)]
      | Propagated _ =>
          notice ++ fallback
          ++ [Emit (Agui.RunError "Internal server error during fallback")]
      end
    else
      [Emit (Agui.RunError
               ("Default agent unavailable: " +:+ failure_context)%string)]
  in
  match fin with
  | Returned => primary
  | ProxyErrorRaised e =>
      primary
      ++ after_failure
           ("Agent '" +:+ name_or (agent_name e) (Config.name agent)
            +:+ "' unavailable after " +:+ Py.str_of_nat (attempts e)
            +:+ " attempt(s). ")%string
  | Propagated _ =>
      primary
      ++ after_failure
           ("Agent '" +:+ Config.name agent
            +:+ "' encountered an error. ")%string
  end.

End Pipeline.

(** ** router.a2a.translator *)

Module Translator.
Import Py.

(** The A2A frames, as far as the translator reads them. *)
Inductive Part :=
| TextPart (text : string)
| OtherPart.

Inductive Role := agent | user.

Record Message := {
  role : Role;
  parts : list Part
}.

Record Task := { history : option (list Message) }.
Record TaskStatus := { message : option Message }.
Record TaskStatusUpdateEvent := { status : option TaskStatus }.
Record Artifact := { artifact_parts : option (list Part) }.
Record TaskArtifactUpdateEvent := { artifact : option Artifact }.

Inductive StreamResult :=
| IsTask (t : Task)
| IsStatusUpdate (e : TaskStatusUpdateEvent)
| IsArtifactUpdate (e : TaskArtifactUpdateEvent)
| IsMessage.

(** [response.root]: a success wrapper around a result, or anything
    else. *)
Inductive Response :=
| Success (result : StreamResult)
| Failure.

(** The inner loop shared by the three extractors: the text of the first
    [TextPart]. *)
Fixpoint first_text (ps : list Part) : option string :=
  match ps with
  | [] => None
  | TextPart t :: _ => Some t
  | OtherPart :: rest => first_text rest
  end.

Fixpoint first_agent_text (msgs : list Message) : option string :=
  match msgs with
  | [] => None
  | msg :: rest =>
      match role msg with
      | agent =>
          match first_text (parts msg) with
          | Some t => Some t
          | None => first_agent_text rest
          end
      | user => first_agent_text rest
      end
  end.

Definition _extract_task_text (task : Task) : option string :=
  match history task with
  | Some msgs => first_agent_text msgs
  | None => None
  end.

Definition _extract_status_text (event : TaskStatusUpdateEvent)
  : option string :=
  match status event with
  | Some st =>
      match message st with
      | Some msg => first_text (parts msg)
      | None => None
      end
  | None => None
  end.

Definition _extract_artifact_text (event : TaskArtifactUpdateEvent)
  : option string :=
  match artifact event with
  | Some art =>
      match artifact_parts art with
      | Some ps => first_text ps
      | None => None
      end
  | None => None
  end.

(** The loop over [zip(text, accumulated_text)] that counts the equal
    leading characters. *)
Fixpoint common_prefix (text accumulated_text : string) : nat :=
  match text, accumulated_text with
  | String a text', String b acc' =>
      if Ascii.eqb a b then S (common_prefix text' acc') else O
  | _, _ => O
  end.

Definition normalized (s : string) : string := join " " (split s).

Definition Qnat (n : nat) : Q := inject_Z (Z.of_nat n).

(** The float tests of the last heuristic are taken over the exact
    rationals: [len(text) / len(accumulated_text)] is the quotient, and
    [0.9], [1.1], [0.8] are 9/10, 11/10 and 8/10. *)
Definition _is_duplicate_content (text accumulated_text : string) : bool :=
  if negb (truthy accumulated_text) then false
  else if String.eqb text accumulated_text then true
  else if contains text accumulated_text then true
  else if startswith accumulated_text text then true
  else if startswith text accumulated_text then false
  else
    let text_normalized := normalized text in
    let accumulated_normalized := normalized accumulated_text in
    if String.eqb text_normalized accumulated_normalized then true
    else if (50 <? String.length accumulated_text)%nat
            && (let length_ratio :=
                  (Qnat (String.length text)
                   / Qnat (String.length accumulated_text))%Q in
                Qle_bool (9 # 10) length_ratio
                && Qle_bool length_ratio (11 # 10))
            && Semantic.Qlt_b
                 (Qnat (String.length accumulated_text) * (8 # 10))%Q
                 (Qnat (common_prefix text accumulated_text))
    then true
    else false.

(** [text[n:]]. *)
Fixpoint drop (n : nat) (s : string) : string :=
  match n, s with
  | O, _ => s
  | S n', String _ s' => drop n' s'
  | S _, EmptyString => EmptyString
  end.

(** One element of the lists the translator passes around: the event,
    the new [message_started] and the new [accumulated_text]. *)
Definition Step := (option Agui.Event * bool * string)%type.

Definition _emit_text_events (text message_id : string)
           (message_started : bool) (accumulated_text : string)
  : list Step :=
  let start :=
    if negb message_started
    then [(Some (Agui.TextMessageStart message_id "assistant"), true,
           accumulated_text)]
    else [] in
  let '(new_content, new_accumulated) :=
    if startswith text accumulated_text
    then (drop (String.length accumulated_text) text, text)
    else (text, (accumulated_text +:+ text)%string) in
  let content :=
    if truthy new_content
    then [(Some (Agui.TextMessageContent message_id new_content), true,
           new_accumulated)]
    else [] in
  start ++ content.

(** The shared tail of the three branches: the emitted steps, or the
    current state when nothing was emitted. *)
Definition or_current (results : list Step) (message_started : bool)
           (accumulated_text : string) : list Step :=
  match results with
  | [] => [(None, message_started, accumulated_text)]
  | _ => results
  end.

Definition emit_and_append (text message_id : string)
           (message_started : bool) (accumulated_text : string)
  : list Step :=
  or_current
    (_emit_text_events text message_id message_started accumulated_text)
    true (accumulated_text +:+ text)%string.

Definition text_of (extracted : option string) : option string :=
  match extracted with
  | Some t => if truthy t then Some t else None
  | None => None
  end.

Definition _translate_response (response : Response) (message_id : string)
           (message_started : bool) (accumulated_text : string)
  : list Step :=
  match response with
  | Failure => [(None, message_started, accumulated_text)]
  | Success (IsTask task) =>
      match text_of (_extract_task_text task) with
      | Some text =>
          if negb (_is_duplicate_content text accumulated_text)
          then emit_and_append text message_id message_started
                 accumulated_text
          else [(None, message_started, accumulated_text)]
      | None => [(None, message_started, accumulated_text)]
      end
  | Success (IsStatusUpdate event) =>
      match text_of (_extract_status_text event) with
      | Some text =>
          emit_and_append text message_id message_started accumulated_text
      | None => [(None, message_started, accumulated_text)]
      end
  | Success (IsArtifactUpdate event) =>
      match text_of (_extract_artifact_text event) with
      | Some text =>
          emit_and_append text message_id message_started accumulated_text
      | None => [(None, message_started, accumulated_text)]
      end
  | Success IsMessage => [(None, message_started, accumulated_text)]
  end.

(** The inner loop of [_translate_stream] over the steps of one
    response: the events to yield and the state afterwards. *)
Fixpoint run_steps (steps : list Step) (message_started : bool)
         (accumulated_text : string)
  : list Agui.Event * bool * string :=
  match steps with
  | [] => ([], message_started, accumulated_text)
  | (event, new_started, new_text) :: rest =>
      let '(events, started, text) := run_steps rest new_started new_text in
      (match event with Some e => e :: events | None => events end,
       started, text)
  end.

(** How the A2A stream ends: it is exhausted, or reading it raises. *)
Inductive StreamEnd :=
| Exhausted
| Raised (msg : string).

(** The loop [async for response in stream] and what follows it. *)
Fixpoint translate_from (stream : list Response) (fin : StreamEnd)
         (tid run_id message_id : string) (message_started : bool)
         (accumulated_text : string) : list Agui.Event :=
  match stream with
  | [] =>
      match fin with
      | Exhausted =>
          (if message_started then [Agui.TextMessageEnd message_id] else [])
          ++ [Agui.RunFinished tid run_id]
      | Raised msg =>
          [Agui.RunError ("Error processing agent response: " +:+ msg)%string]
      end
  | response :: rest =>
      let '(events, started, text) :=
        run_steps (_translate_response response message_id message_started
                     accumulated_text)
                  message_started accumulated_text in
      events ++ translate_from rest fin tid run_id message_id started text
  end.

Definition _translate_stream (stream : list Response) (fin : StreamEnd)
           (tid run_id : string) (display_name : option string)
           (message_id : string) : list Agui.Event :=
  Agui.RunStarted tid run_id
    (match display_name with
     | Some n => if truthy n then Some n else None
     | None => None
     end)
  :: translate_from stream fin tid run_id message_id false EmptyString.

(** The deltas carried by the [TEXT_MESSAGE_CONTENT] events of a
    stream. *)
Fixpoint content_deltas (events : list Agui.Event) : list string :=
  match events with
  | [] => []
  | Agui.TextMessageContent _ delta :: rest => delta :: content_deltas rest
  | _ :: rest => content_deltas rest
  end.

(** A status update that carries [text] as its only part. *)
Definition status_update (text : string) : Response :=
  Success (IsStatusUpdate
             {| status := Some {| message :=
                  Some {| role := agent; parts := [TextPart text] |} |} |}).

(** A final task whose history holds one agent message with [text]. *)
Definition final_task (text : string) : Response :=
  Success (IsTask
             {| history := Some [{| role := agent;
                                    parts := [TextPart text] |}] |}).

End Translator.

(** ** router.agui.endpoint: the forwarding request *)

Module Forwarding.
Import Agui.

(** *** The request as a Python object graph

    The request, its message list, the messages, their item lists and
    the items are objects on a heap; strings are immutable values.  An
    address is an index into the heap, and a new object goes to its
    end. *)

Abbreviation addr := nat (only parsing).

Inductive ContentRef :=
| IsStr (s : string)
| IsList (items : addr)
| IsNone.

Inductive Obj :=
| ItemObj (item : ContentItem)
| ListObj (elems : list addr)
| MessageObj (id role : string) (content : ContentRef)
| RequestObj (thread_id : string) (messages : addr) (extras : string).

Abbreviation Heap := (list Obj) (only parsing).

Definition alloc (o : Obj) (h : Heap) : addr * Heap :=
  (List.length h, h ++ [o]).

(** The loop over the items of a list-valued content: an item with a
    [text] gets a stripped copy, any other item is appended as it is. *)
Fixpoint strip_items (items : list addr) (h : Heap)
  : option (list addr * Heap) :=
  match items with
  | [] => Some ([], h)
  | a :: rest =>
      match h !! a with
      | Some (ItemObj (TextInputContent t)) =>
          let '(item_copy, h1) :=
            alloc (ItemObj (TextInputContent (Mention.strip_mention t))) h
          in
          match strip_items rest h1 with
          | Some (stripped_items, h2) =>
              Some (item_copy :: stripped_items, h2)
          | None => None
          end
      | Some (ItemObj (BinaryInputContent _)) =>
          match strip_items rest h with
          | Some (stripped_items, h2) => Some (a :: stripped_items, h2)
          | None => None
          end
      | _ => None
      end
  end.

Definition strip_content (c : ContentRef) (h : Heap)
  : option (ContentRef * Heap) :=
  match c with
  | IsStr s => Some (IsStr (Mention.strip_mention s), h)
  | IsList items =>
      match h !! items with
      | Some (ListObj elems) =>
          match strip_items elems h with
          | Some (stripped_items, h1) =>
              let '(l, h2) := alloc (ListObj stripped_items) h1 in
              Some (IsList l, h2)
          | None => None
          end
      | _ => None
      end
  | IsNone => Some (IsNone, h)
  end.

(** The loop over [request.messages]. *)
Fixpoint strip_messages (msgs : list addr) (h : Heap)
  : option (list addr * Heap) :=
  match msgs with
  | [] => Some ([], h)
  | a :: rest =>
      match h !! a with
      | Some (MessageObj i r c) =>
          if String.eqb r "user" then
            match strip_content c h with
            | Some (stripped_content, h1) =>
                let '(stripped_message, h2) :=
                  alloc (MessageObj i r stripped_content) h1 in
                match strip_messages rest h2 with
                | Some (stripped_messages, h3) =>
                    Some (stripped_message :: stripped_messages, h3)
                | None => None
                end
            | None => None
            end
          else
            match strip_messages rest h with
            | Some (stripped_messages, h3) =>
                Some (a :: stripped_messages, h3)
            | None => None
            end
      | _ => None
      end
  end.

(** [_strip_mentions_from_request]: the address of the new request and
    the heap afterwards; [None] when [request] is not the address of a
    well-formed request. *)
Definition _strip_mentions_from_request (request : addr) (h : Heap)
  : option (addr * Heap) :=
  match h !! request with
  | Some (RequestObj tid msgs extras) =>
      match h !! msgs with
      | Some (ListObj elems) =>
          match strip_messages elems h with
          | Some (stripped_messages, h1) =>
              let '(l, h2) := alloc (ListObj stripped_messages) h1 in
              Some (alloc (RequestObj tid l extras) h2)
          | None => None
          end
      | _ => None
      end
  | _ => None
  end.

(** *** The value an address stands for *)

Fixpoint read_all {A : Type} (read : addr -> option A) (l : list addr)
  : option (list A) :=
  match l with
  | [] => Some []
  | a :: rest =>
      match read a, read_all read rest with
      | Some x, Some xs => Some (x :: xs)
      | _, _ => None
      end
  end.

Definition read_item (h : Heap) (a : addr) : option ContentItem :=
  match h !! a with
  | Some (ItemObj it) => Some it
  | _ => None
  end.

Definition read_content (h : Heap) (c : ContentRef) : option Content :=
  match c with
  | IsStr s => Some (ContentStr s)
  | IsList items =>
      match h !! items with
      | Some (ListObj elems) =>
          match read_all (read_item h) elems with
          | Some its => Some (ContentList its)
          | None => None
          end
      | _ => None
      end
  | IsNone => Some ContentNone
  end.

Definition read_message (h : Heap) (a : addr) : option Message :=
  match h !! a with
  | Some (MessageObj i r c) =>
      match read_content h c with
      | Some c' => Some {| id := i; role := r; content := c' |}
      | None => None
      end
  | _ => None
  end.

Definition read_request (h : Heap) (a : addr) : option ChatRequest :=
  match h !! a with
  | Some (RequestObj tid msgs ex) =>
      match h !! msgs with
      | Some (ListObj elems) =>
          match read_all (read_message h) elems with
          | Some ms =>
              Some {| thread_id := tid; messages := ms; extras := ex |}
          | None => None
          end
      | _ => None
      end
  | _ => None
  end.

(** *** The forwarding request as a value *)

Definition stripped_item (it : ContentItem) : ContentItem :=
  match it with
  | TextInputContent t => TextInputContent (Mention.strip_mention t)
  | BinaryInputContent d => BinaryInputContent d
  end.

Definition stripped_content (c : Content) : Content :=
  match c with
  | ContentStr s => ContentStr (Mention.strip_mention s)
  | ContentList items => ContentList (map stripped_item items)
  | ContentNone => ContentNone
  end.

Definition stripped_message (m : Message) : Message :=
  if String.eqb (role m) "user"
  then {| id := id m; role := role m;
          content := stripped_content (content m) |}
  else m.

Definition forwarding_request (r : ChatRequest) : ChatRequest :=
  {| thread_id := thread_id r;
     messages := map stripped_message (messages r);
     extras := extras r |}.

(** The texts a content holds. *)
Definition texts_of (c : Content) : list string :=
  match c with
  | ContentStr s => [s]
  | ContentList items =>
      flat_map (fun it => match it with
                          | TextInputContent t => [t]
                          | BinaryInputContent _ => []
                          end) items
  | ContentNone => []
  end.

End Forwarding.

(** ** The claims in the words of the specification *)

Module Spec.

(** Section 4.9: the delay for attempt [k], counted from zero. *)
Definition backoff (cfg : Retry.RetryConfig) (k : Z) : Z :=
  if k =? 0 then 0
  else Z.min (Retry.base_delay_ms cfg * 2 ^ (k - 1)) (Retry.max_delay_ms cfg).

(** A sleep of [d] milliseconds; none when [d] is not positive. *)
Definition sleeping (d : Z) : list Retry.Action :=
  if 0 <? d then [Retry.Sleep d] else [].

(** The sleeps and agent calls of a request that takes [n] attempts. *)
Definition schedule (cfg : Retry.RetryConfig) (n : nat)
  : list Retry.Action :=
  flat_map (fun k => sleeping (backoff cfg (Z.of_nat k))
                     ++ [Retry.CallAgent k])
           (seq 0 n).

(** Section 4.13: the notice shown before falling back. *)
Definition notice_text (agent_name : string) (attempts : nat) : string :=
  ("[Notice: Agent '" +:+ agent_name +:+ "' unavailable after "
   +:+ Py.str_of_nat attempts
   +:+ " attempt(s). Routing to general assistant.]")%string.

Definition newline : string := String "010" EmptyString.

(** Section 4.8: the routing cascade.  A step raises, does not qualify, or
    qualifies with an agent and, for some steps, a score. *)
Definition StepOutcome : Type :=
  Py.Result (option (Config.AgentConfig * option Q)).

(** The earliest qualifying step of an ordered list of named steps, and the
    default agent when none qualifies.  The steps are tried in order, so a
    step that raises ends the cascade. *)
Fixpoint earliest_qualifying (steps : list (string * StepOutcome))
         (default_agent : Config.AgentConfig)
  : Py.Result (Config.AgentConfig * string * option Q) :=
  match steps with
  | [] => Py.Ok (default_agent, "default"%string, None)
  | (_, Py.Raise e) :: _ => Py.Raise e
  | (step, Py.Ok (Some (a, sc))) :: _ => Py.Ok (a, step, sc)
  | (_, Py.Ok None) :: rest => earliest_qualifying rest default_agent
  end.

(** Mention override: the message holds a handle that resolves. *)
Definition mention_step (user_message : string)
           (cfg : Config.AgentsConfig) : StepOutcome :=
  match Mention.parse_mention user_message with
  | Some handle =>
      match Config.get_agent_by_handle cfg handle with
      | Some a => Py.Ok (Some (a, None))
      | None => Py.Ok None
      end
  | None => Py.Ok None
  end.

(** Sticky session: sessions are on, a session that has not expired exists
    for the thread, its agent is still in the catalog, and the drift
    detector reports no drift. *)
Definition sticky_step (clock : Routing.Clock) (user_message tid : string)
           (cfg : Config.AgentsConfig) (router : Semantic.SemanticRouter)
           (session_store : option Session.SessionStore) : StepOutcome :=
  match session_store with
  | None => Py.Ok None
  | Some store =>
      match fst (Session.get (Routing.at_get clock) store tid) with
      | None => Py.Ok None
      | Some s =>
          match Config.get_agent_by_id cfg (Session.agent_id s) with
          | None => Py.Ok None
          | Some a =>
              match Drift.detect_topic_drift user_message a router
                      (Config.topic_drift_threshold (Config.session cfg))
              with
              | Py.Raise e => Py.Raise e
              | Py.Ok r =>
                  if Drift.drifted r then Py.Ok None
                  else Py.Ok (Some (a, Some (Drift.similarity_score r)))
              end
          end
      end
  end.

(** Semantic match: the best match above its threshold. *)
Definition semantic_step (user_message : string)
           (router : Semantic.SemanticRouter) : StepOutcome :=
  match Semantic.match_best router user_message with
  | Py.Raise e => Py.Raise e
  | Py.Ok None => Py.Ok None
  | Py.Ok (Some m) => Py.Ok (Some (Semantic.agent m, Some (Semantic.score m)))
  end.

(** LLM fallback: with agents available, the classifier names one. *)
Definition llm_step (llm : Routing.LLMAnswer) (cfg : Config.AgentsConfig)
  : StepOutcome :=
  match Config.agents cfg with
  | [] => Py.Ok None
  | _ => match llm with
         | Routing.Classified a => Py.Ok (Some (a, None))
         | _ => Py.Ok None
         end
  end.

Definition cascade (clock : Routing.Clock) (llm : Routing.LLMAnswer)
           (user_message tid : string) (cfg : Config.AgentsConfig)
           (router : Semantic.SemanticRouter)
           (session_store : option Session.SessionStore)
           (default_agent : Config.AgentConfig)
  : Py.Result (Config.AgentConfig * string * option Q) :=
  earliest_qualifying
    [("mention"%string, mention_step user_message cfg);
     ("sticky"%string,
      sticky_step clock user_message tid cfg router session_store);
     ("semantic"%string, semantic_step user_message router);
     ("llm_fallback"%string, llm_step llm cfg)]
    default_agent.

(** What a routing result says about agent, method and score. *)
Definition decision (r : Py.Result (Config.AgentConfig * Routing.RoutingInfo))
  : Py.Result (Config.AgentConfig * string * option Q) :=
  match r with
  | Py.Ok (a, info) => Py.Ok (a, Routing.method info, Routing.score info)
  | Py.Raise e => Py.Raise e
  end.

Definition selection (r : Py.Result (Config.AgentConfig * Routing.Locals))
  : Py.Result (Config.AgentConfig * string * option Q) :=
  match r with
  | Py.Ok (a, l) =>
      Py.Ok (a, Routing.routing_method l, Routing.routing_score l)
  | Py.Raise e => Py.Raise e
  end.

(** Section 4.11: the duplicate-suppression rule, in the order of the
    specification; the last heuristic in whole numbers. *)
Definition is_duplicate (t accumulated : string) : bool :=
  let lt := Z.of_nat (String.length t) in
  let la := Z.of_nat (String.length accumulated) in
  let common := Z.of_nat (Translator.common_prefix t accumulated) in
  match accumulated with
  | EmptyString => false
  | _ =>
      if String.eqb t accumulated then true
      else if Py.contains t accumulated then true
      else if Py.startswith t accumulated then false
      else if String.eqb (Translator.normalized t)
                (Translator.normalized accumulated) then true
      else if (50 <? la) && (9 * la <=? 10 * lt) && (10 * lt <=? 11 * la)
              && (8 * la <? 10 * common) then true
      else false
  end.

(** Deltas the translator takes as deltas: none is empty, and none begins
    with the text accumulated before it (such a text is taken as the
    cumulative text so far). *)
Fixpoint plain_deltas (accumulated : string) (deltas : list string) : bool :=
  match deltas with
  | [] => true
  | d :: rest =>
      Py.truthy d
      && (negb (Py.truthy accumulated) || negb (Py.startswith d accumulated))
      && plain_deltas (accumulated +:+ d)%string rest
  end.

(** A response is a status update that carries the text [d]. *)
Definition carries (r : Translator.Response) (d : string) : Prop :=
  exists e, r = Translator.Success (Translator.IsStatusUpdate e)
            /\ Translator._extract_status_text e = Some d.

(** A response is a task whose history text is [t]. *)
Definition task_with (r : Translator.Response) (t : string) : Prop :=
  exists task, r = Translator.Success (Translator.IsTask task)
               /\ Translator._extract_task_text task = Some t.

(** A text begins with a handle character. *)
Definition starts_handle (s : string) : bool :=
  match s with
  | String c _ => Mention.is_handle_char c
  | EmptyString => false
  end.

(** Section 4.4: the pattern [@([A-Za-z0-9_-]+)].  A handle is one or
    more characters of this alphabet. *)
Definition HANDLE_ALPHABET : string :=
  "ABCDEFGHIJKLMNOPQRSTUVWXYZabcdefghijklmnopqrstuvwxyz0123456789_-".

Fixpoint char_in (c : ascii) (alphabet : string) : bool :=
  match alphabet with
  | EmptyString => false
  | String d rest => Ascii.eqb c d || char_in c rest
  end.

Definition handle_char (c : ascii) : bool := char_in c HANDLE_ALPHABET.

Definition at_sign (c : ascii) : bool := Ascii.eqb c "@".

Fixpoint handle_chars (s : string) : bool :=
  match s with
  | EmptyString => true
  | String c rest => handle_char c && handle_chars rest
  end.

Definition is_handle (s : string) : bool :=
  match s with
  | EmptyString => false
  | String _ _ => handle_chars s
  end.

(** A text goes on with a character of the alphabet. *)
Definition begins_handle (s : string) : bool :=
  match s with
  | String c _ => handle_char c
  | EmptyString => false
  end.

(** A text holds no match of the pattern: no [@] in it is followed by a
    character of the alphabet. *)
Fixpoint match_free (s : string) : bool :=
  match s with
  | EmptyString => true
  | String c rest => negb (at_sign c && begins_handle rest) && match_free rest
  end.

(** A text cut at the matches of the pattern: the text before the first
    match and, for every match, its handle and the text from there to the
    next match. *)
Record Cut := {
  before_first : string;
  segments : list (string * string)
}.

(** The text that is cut. *)
Definition assemble (cut : Cut) : string :=
  (before_first cut
   +:+ String.concat ""
         (map (fun segment => "@" +:+ fst segment +:+ snd segment)
              (segments cut)))%string.

(** What is left of it when the matches are removed. *)
Definition kept (cut : Cut) : string :=
  (before_first cut +:+ String.concat "" (map snd (segments cut)))%string.

(** The cut is at the matches, all of them, each as long as it can be: the
    pieces between the matches hold no match, every handle is a handle, and
    no piece after a handle goes on with a character of the alphabet. *)
Definition cut_at_matches (cut : Cut) : Prop :=
  match_free (before_first cut) = true
  /\ Forall (fun segment =>
               is_handle (fst segment) = true
               /\ match_free (snd segment) = true
               /\ begins_handle (snd segment) = false)
            (segments cut).

(** The words of a text: its maximal runs of characters that are not
    whitespace.  [word] is the run read so far. *)
Fixpoint words_from (word : string) (s : string) : list string :=
  match s with
  | EmptyString => if Py.truthy word then [word] else []
  | String c rest =>
      if Py.isspace c
      then if Py.truthy word then word :: words_from EmptyString rest
           else words_from EmptyString rest
      else words_from (word +:+ String c EmptyString) rest
  end.

Definition words (s : string) : list string := words_from EmptyString s.

(** Whitespace runs collapsed to single spaces, and trimmed. *)
Definition collapsed (s : string) : string := String.concat " " (words s).

(** Section 4.4, [strip_mentions]: "removes all matches of the same
    pattern, then collapses whitespace runs to single spaces and
    trims". *)
Definition strips_to (text result : string) : Prop :=
  exists cut,
    assemble cut = text
    /\ cut_at_matches cut
    /\ result = collapsed (kept cut).

(** An item and a content of a user message, and what the forwarding
    request holds for them: every text stripped, everything else as it
    was. *)
Definition item_forwarded_as (it it' : Agui.ContentItem) : Prop :=
  match it, it' with
  | Agui.TextInputContent t, Agui.TextInputContent t' => strips_to t t'
  | Agui.BinaryInputContent d, Agui.BinaryInputContent d' => d' = d
  | _, _ => False
  end.

Definition content_forwarded_as (c c' : Agui.Content) : Prop :=
  match c, c' with
  | Agui.ContentStr s, Agui.ContentStr s' => strips_to s s'
  | Agui.ContentList items, Agui.ContentList items' =>
      Forall2 item_forwarded_as items items'
  | Agui.ContentNone, Agui.ContentNone => True
  | _, _ => False
  end.

(** Section 4.13, step 6: what the forwarding request holds for a message
    [m] of the original request. *)
Definition forwarded_as (m m' : Agui.Message) : Prop :=
  Agui.id m' = Agui.id m
  /\ Agui.role m' = Agui.role m
  /\ (Agui.role m <> "user"%string -> m' = m)
  /\ (Agui.role m = "user"%string ->
      content_forwarded_as (Agui.content m) (Agui.content m')
      /\ Forall (fun t => match_free t = true /\ collapsed t = t)
                (Forwarding.texts_of (Agui.content m'))).

(** Every key of the dict is below [n]. *)
Definition keys_below (n : nat) (d : Semantic.Best) : Prop :=
  List.Forall (fun e => (fst e < n)%nat) d.

(** Section 4.5: the semantic matcher.  The similarity of an example to
    the message. *)
Definition sim (model : Semantic.SentenceTransformer) (message ex : string)
  : Q :=
  Semantic.dot model (Semantic.encode model ex)
    (Semantic.encode model message).

Definition examples_of (a : Config.AgentConfig) : list string :=
  match Config.routing a with
  | Some r => Config.examples r
  | None => []
  end.

(** The maximum-scoring example among [cur] and [exs]; the earliest one
    when several score the same. *)
Fixpoint best_example (score_of : string -> Q) (cur : Q * string)
         (exs : list string) : Q * string :=
  match exs with
  | [] => cur
  | ex :: rest =>
      best_example score_of
        (if Semantic.Qlt_b (fst cur) (score_of ex) then (score_of ex, ex)
         else cur)
        rest
  end.

(** The best score and example of every agent that has examples, with
    the index of the agent. *)
Fixpoint best_per_agent (score_of : string -> Q) (agent_idx : nat)
         (agents : list Config.AgentConfig) : Semantic.Best :=
  match agents with
  | [] => []
  | a :: rest =>
      match examples_of a with
      | [] => best_per_agent score_of (S agent_idx) rest
      | ex :: exs =>
          (agent_idx, best_example score_of (score_of ex, ex) exs)
          :: best_per_agent score_of (S agent_idx) rest
      end
  end.

(** The match of an agent: its best score and example, when the agent has
    examples and the best score reaches its threshold. *)
Definition agent_match (score_of : string -> Q) (a : Config.AgentConfig)
  : option Semantic.RouteMatch :=
  match Config.routing a with
  | None => None
  | Some r =>
      match Config.examples r with
      | [] => None
      | ex :: exs =>
          let best := best_example score_of (score_of ex, ex) exs in
          if Qle_bool (Config.threshold r) (fst best)
          then Some {| Semantic.agent := a; Semantic.score := fst best;
                       Semantic.example := snd best |}
          else None
      end
  end.

Fixpoint qualifying (score_of : string -> Q)
         (agents : list Config.AgentConfig) : list Semantic.RouteMatch :=
  match agents with
  | [] => []
  | a :: rest =>
      match agent_match score_of a with
      | Some m => m :: qualifying score_of rest
      | None => qualifying score_of rest
      end
  end.

Definition priority_of (m : Semantic.RouteMatch) : Z :=
  match Config.routing (Semantic.agent m) with
  | Some r => Config.priority r
  | None => 1
  end.

(** [m1] may stand before [m2] in the result: its score is not lower, and
    on equal scores its priority is not higher. *)
Definition before (m1 m2 : Semantic.RouteMatch) : Prop :=
  (Semantic.score m2 <= Semantic.score m1)%Q
  /\ ((Semantic.score m1 == Semantic.score m2)%Q ->
      priority_of m1 <= priority_of m2).

(** A message the matcher accepts: not empty, not only whitespace, at most
    10,000 characters. *)
Definition valid_message (message : string) : Prop :=
  Py.isblank message = false
  /\ Z.of_nat (String.length message) <= 10000.

End Spec.

(** ** Sample inputs *)

Module Samples.

Definition metrics : Config.AgentConfig :=
  {| Config.id := "metrics-agent"; Config.name := "Metrics Agent";
     Config.handles := ["metrics"%string];
     Config.url := "http://metrics:8080";
     Config.protocol := Config.AG_UI;
     Config.routing :=
       Some {| Config.priority := 1; Config.threshold := 8 # 10;
               Config.examples := ["show cpu usage"%string] |};
     Config.description := "Metrics" |}.

Definition retry3 : Retry.RetryConfig :=
  {| Retry.max_attempts := 3; Retry.base_delay_ms := 500;
     Retry.max_delay_ms := 5000 |}.

Definition run_started : Agui.Event := Agui.RunStarted "t1" "r1" None.

(** An AG-UI agent whose first response streams one event and then
    times out; the second call succeeds. *)
Definition timeout_mid_stream (attempt : nat) : Proxy.Call :=
  match attempt with
  | O => {| Proxy.yielded := [run_started];
            Proxy.ending :=
              Proxy.ClientError
                {| Retry.message := "Request timed out: ReadTimeout";
                   Retry.status_code := None |} |}
  | S _ => {| Proxy.yielded := [run_started; Agui.RunFinished "t1" "r1"];
              Proxy.ending := Proxy.Completed |}
  end.

(** The error the AG-UI client raises for a 404 response whose body
    mentions the number 5000. *)
Definition not_found_5000 : Retry.Error :=
  {| Retry.message := "Agent returned HTTP 404: item 5000 not found";
     Retry.status_code := Some 404 |}.

Definition general : Config.AgentConfig :=
  {| Config.id := "general-agent"; Config.name := "General Assistant";
     Config.handles := ["general"; "help"]%string;
     Config.url := "http://general:8080";
     Config.protocol := Config.A2A;
     Config.routing := None;
     Config.description := "General" |}.

Definition catalog : Config.AgentsConfig :=
  {| Config.session :=
       {| Config.sticky_enabled := true; Config.timeout_minutes := 30;
          Config.topic_drift_threshold := 1 # 2 |};
     Config.default_agent := "general-agent";
     Config.agents := [metrics; general] |}.

Definition request : Agui.ChatRequest :=
  {| Agui.thread_id := "t1";
     Agui.messages :=
       [{| Agui.id := "m0"; Agui.role := "system";
           Agui.content := Agui.ContentStr "You are @assistant" |};
        {| Agui.id := "m1"; Agui.role := "user";
           Agui.content := Agui.ContentStr "@metrics  show cpu" |}];
     Agui.extras := "" |}.

(** An agent that refuses every connection, and one that answers. *)
Definition refusing (attempt : nat) : Proxy.Call :=
  {| Proxy.yielded := [];
     Proxy.ending :=
       Proxy.ClientError {| Retry.message := "Request failed: Connection refused";
                            Retry.status_code := None |} |}.

Definition answering (attempt : nat) : Proxy.Call :=
  {| Proxy.yielded := [run_started; Agui.RunFinished "t1" "r1"];
     Proxy.ending := Proxy.Completed |}.

(** The proxy in front of these two: the metrics agent is down, the
    general agent is up. *)
Definition proxy_metrics_down (agent : Config.AgentConfig)
           (request : Agui.ChatRequest) : list Agui.Event * Proxy.ProxyEnd :=
  let run :=
    Proxy.forward_request retry3 agent
      (if String.eqb (Config.id agent) "metrics-agent" then refusing
       else answering) in
  (Proxy.events_of (fst run), snd run).

(** A toy embedding model: a text is embedded as its length, and two
    vectors are similar (score 1) when they are equal, else not (score 0). *)
Definition toy_model : Semantic.SentenceTransformer :=
  {| Semantic.encode :=
       fun text => [inject_Z (Z.of_nat (String.length text))];
     Semantic.dot :=
       fun u v =>
         match u, v with
         | [x], [y] => if Qeq_bool x y then 1%Q else 0%Q
         | _, _ => 0%Q
         end |}.

Definition unbuilt : Semantic.SemanticRouter :=
  {| Semantic._model := Some toy_model; Semantic._agents := [];
     Semantic._embeddings := None; Semantic._example_to_agent := [] |}.

Definition router : Semantic.SemanticRouter :=
  match Semantic.build_index unbuilt catalog with
  | Py.Ok r => r
  | Py.Raise _ => unbuilt
  end.

Definition clock : Routing.Clock :=
  {| Routing.at_get := 1000; Routing.at_touch_check := 1001;
     Routing.at_touch := 1002; Routing.at_created := 1003;
     Routing.at_activity := 1004 |}.

(** A store that holds a fresh session of thread t1 with the metrics
    agent. *)
Definition store_t1 : Session.SessionStore :=
  snd (Session.set 10 11 (Session.init 30) "t1" "metrics-agent" "metrics").

(** The object graph of [request]: two messages, their list, and the
    request object at address 3. *)
Definition request_heap : list Forwarding.Obj :=
  [Forwarding.MessageObj "m0" "system"
     (Forwarding.IsStr "You are @assistant");
   Forwarding.MessageObj "m1" "user"
     (Forwarding.IsStr "@metrics  show cpu");
   Forwarding.ListObj [0%nat; 1%nat];
   Forwarding.RequestObj "t1" 2 ""].

(** An agent whose threshold is 1, the score of an exact match. *)
Definition strict : Config.AgentConfig :=
  {| Config.id := "strict-agent"; Config.name := "Strict Agent";
     Config.handles := ["strict"%string];
     Config.url := "http://strict:8080";
     Config.protocol := Config.A2A;
     Config.routing :=
       Some {| Config.priority := 1; Config.threshold := 1;
               Config.examples := ["abc"%string] |};
     Config.description := "Strict" |}.

Definition catalog_strict : Config.AgentsConfig :=
  {| Config.session := Config.session catalog;
     Config.default_agent := "general-agent";
     Config.agents := [strict; general] |}.

Definition router_strict : Semantic.SemanticRouter :=
  match Semantic.build_index unbuilt catalog_strict with
  | Py.Ok r => r
  | Py.Raise _ => unbuilt
  end.

(** An agent with two examples, in a catalog where another agent's
    example comes first in the index. *)
Definition logs : Config.AgentConfig :=
  {| Config.id := "logs-agent"; Config.name := "Logs Agent";
     Config.handles := ["logs"%string];
     Config.url := "http://logs:8080";
     Config.protocol := Config.AG_UI;
     Config.routing :=
       Some {| Config.priority := 2; Config.threshold := 8 # 10;
               Config.examples := ["show logs"; "tail the log file"]%string |};
     Config.description := "Logs" |}.

Definition catalog_logs : Config.AgentsConfig :=
  {| Config.session := Config.session catalog;
     Config.default_agent := "general-agent";
     Config.agents := [metrics; logs; general] |}.

Definition router_logs : Semantic.SemanticRouter :=
  match Semantic.build_index unbuilt catalog_logs with
  | Py.Ok r => r
  | Py.Raise _ => unbuilt
  end.

End Samples.

(** ** More Python built-ins *)

Module PyStr.
Import Py.

(** [s.lstrip(chars)] and [s.rstrip(chars)], the set [chars] given by its
    membership test. *)
Fixpoint lstrip_chars (chars : ascii -> bool) (s : string) : string :=
  match s with
  | EmptyString => EmptyString
  | String c s' => if chars c then lstrip_chars chars s' else s
  end.

Fixpoint rstrip_chars (chars : ascii -> bool) (s : string) : string :=
  match s with
  | EmptyString => EmptyString
  | String c s' =>
      match rstrip_chars chars s' with
      | EmptyString => if chars c then EmptyString else String c EmptyString
      | r => String c r
      end
  end.

Definition strip_chars (chars : ascii -> bool) (s : string) : string :=
  rstrip_chars chars (lstrip_chars chars s).

(** [s.strip()]. *)
Definition strip (s : string) : string := strip_chars isspace s.

(** [s[:n]] for [n >= 0]. *)
Fixpoint slice_to (n : nat) (s : string) : string :=
  match n, s with
  | S n', String c s' => String c (slice_to n' s')
  | _, _ => EmptyString
  end.

(** [s[n:]] for [n >= 0]. *)
Fixpoint slice_from (n : nat) (s : string) : string :=
  match n, s with
  | S n', String _ s' => slice_from n' s'
  | _, _ => s
  end.

Definition newline : string := String "010" EmptyString.

(** [all(p(c) for c in s)]. *)
Fixpoint all_chars (p : ascii -> bool) (s : string) : bool :=
  match s with
  | EmptyString => true
  | String c s' => p c && all_chars p s'
  end.

(** [s.split("\n")[0]]: the text before the first line feed. *)
Fixpoint first_line (s : string) : string :=
  match s with
  | EmptyString => EmptyString
  | String c s' =>
      if (N_of_ascii c =? 10)%N then EmptyString
      else String c (first_line s')
  end.

End PyStr.

(** ** router.session.store: the maintenance methods *)

Module SessionAdmin.
Import Session.

(** The first loop of [cleanup_expired]: the ids of the sessions found
    expired.  Every test reads the clock; [now tid] is the reading taken
    for the session of [tid]. *)
Definition expired_ids (now : string -> Z) (store : SessionStore)
  : list string :=
  map fst
    (List.filter
       (fun item => is_expired (now (fst item)) (snd item)
                      (_timeout_minutes store))
       (map_to_list (_sessions store))).

(** [SessionStore.cleanup_expired]: the number of sessions removed and
    the store afterwards. *)
Definition cleanup_expired (now : string -> Z) (store : SessionStore)
  : nat * SessionStore :=
  let ids := expired_ids now store in
  (List.length ids,
   with_sessions store
     (fold_left (fun sessions tid => delete tid sessions) ids
                (_sessions store))).

(** [SessionStore.count]. *)
Definition count (store : SessionStore) : nat := size (_sessions store).

(** [SessionStore.clear]. *)
Definition clear (store : SessionStore) : SessionStore :=
  with_sessions store ∅.

End SessionAdmin.

(** ** The range of [datetime]

    [is_expired] adds a [timedelta] to a [datetime], and Python raises
    [OverflowError] when the [timedelta] cannot be built or the sum leaves
    the range of [datetime].  [Session.is_expired] computes the sum as an
    integer; these tests tell when Python computes it too. *)

Module SessionRange.
Import Session.

(** [datetime.max], in microseconds counted from [datetime.min]
    (0001-01-01 00:00:00 to 9999-12-31 23:59:59.999999). *)
Definition DATETIME_MAX : Z := 315537897599999999.

(** [timedelta(minutes=m)] is built: its days, [m // 1440], have a
    magnitude of at most 999999999. *)
Definition timedelta_ok (timeout_minutes : Z) : bool :=
  (-999999999 <=? timeout_minutes / 1440)
  && (timeout_minutes / 1440 <=? 999999999).

(** [last_activity + timedelta(minutes=timeout_minutes)] is a
    [datetime]. *)
Definition expiry_in_range (last_activity timeout_minutes : Z) : bool :=
  timedelta_ok timeout_minutes
  && (0 <=? last_activity + minutes timeout_minutes)
  && (last_activity + minutes timeout_minutes <=? DATETIME_MAX).

(** The session of a thread, if the store holds one, has its expiry time
    in range: [get] and [touch] on the thread do not raise. *)
Definition session_in_range (store : SessionStore) (tid : string) : bool :=
  match _sessions store !! tid with
  | Some session =>
      expiry_in_range (last_activity session) (_timeout_minutes store)
  | None => true
  end.

(** The same for the store that routing is given, if any. *)
Definition thread_in_range (session_store : option SessionStore)
           (tid : string) : bool :=
  match session_store with
  | Some store => session_in_range store tid
  | None => true
  end.

(** Every session of the store has its expiry time in range:
    [cleanup_expired] does not raise. *)
Definition store_in_range (store : SessionStore) : bool :=
  forallb
    (fun item =>
       expiry_in_range (last_activity (snd item)) (_timeout_minutes store))
    (map_to_list (_sessions store)).

End SessionRange.

(** ** router.config.agents: the validators *)

Module Validators.

(** The field validator [handles_lowercase] of [AgentConfig]. *)
Definition handles_lowercase (v : list string) : list string :=
  map Py.lower v.

(** An agent as [AgentConfig] holds it once the validator has run on the
    handles read from the file. *)
Definition with_validated_handles (raw : Config.AgentConfig)
  : Config.AgentConfig :=
  {| Config.id := Config.id raw; Config.name := Config.name raw;
     Config.handles := handles_lowercase (Config.handles raw);
     Config.url := Config.url raw; Config.protocol := Config.protocol raw;
     Config.routing := Config.routing raw;
     Config.description := Config.description raw |}.

End Validators.

(** ** The last user message of a request *)

Module UserMessage.
Import Py Agui.

(** The loop over the items of a list-valued content: the [text] of
    every item that has one. *)
Fixpoint item_texts (items : list ContentItem) : list string :=
  match items with
  | [] => []
  | TextInputContent t :: rest => t :: item_texts rest
  | BinaryInputContent _ :: rest => item_texts rest
  end.

(** [_extract_user_message] of router.agui.endpoint: the loop over
    [reversed(request.messages)]. *)
Fixpoint scan_reversed (reversed_messages : list Message) : option string :=
  match reversed_messages with
  | [] => None
  | message :: rest =>
      if String.eqb (role message) "user" then
        match content message with
        | ContentStr s => Some s
        | ContentList items =>
            match item_texts items with
            | [] => scan_reversed rest
            | texts => Some (join " " texts)
            end
        | ContentNone => scan_reversed rest
        end
      else scan_reversed rest
  end.

Definition _extract_user_message (request : ChatRequest) : option string :=
  scan_reversed (rev (messages request)).

(** [A2ATranslator.extract_last_user_message] of router.a2a.translator:
    the same search, but it raises when nothing is found. *)
Fixpoint search_reversed (reversed_messages : list Message)
  : Result string :=
  match reversed_messages with
  | [] => Raise (ValueError "No user message found in request")
  | message :: rest =>
      if String.eqb (role message) "user" then
        match content message with
        | ContentStr s => Ok s
        | ContentList items =>
            match item_texts items with
            | [] => search_reversed rest
            | texts => Ok (join " " texts)
            end
        | ContentNone => search_reversed rest
        end
      else search_reversed rest
  end.

Definition extract_last_user_message (request : ChatRequest)
  : Result string :=
  search_reversed (rev (messages request)).

(** The text a message content stands for in these two searches, if it
    has one. *)
Definition text_of_content (c : Content) : option string :=
  match c with
  | ContentStr s => Some s
  | ContentList items =>
      match item_texts items with
      | [] => None
      | texts => Some (join " " texts)
      end
  | ContentNone => None
  end.

(** [A2ATranslator.thread_id_to_context_id]. *)
Definition thread_id_to_context_id (thread_id : string) : string :=
  thread_id.

End UserMessage.

(** ** router.routing.llm_fallback *)

Module LLMFallback.
Import Py PyStr.

Definition is_quote (c : ascii) : bool :=
  ((N_of_ascii c =? 34) || (N_of_ascii c =? 39))%N.

(** The cleaning of the response: its first line, without surrounding
    whitespace and quotes. *)
Definition clean (response : string) : string :=
  let response_text := strip (first_line (strip response)) in
  strip_chars is_quote response_text.

Section Parse.

(** [re.search(rf"\b{re.escape(agent_id)}\b", response_text,
    re.IGNORECASE)] finds a match. *)
Variable re_search_word : string -> string -> bool.

(** [parse_llm_response]: three passes over the agents. *)
Definition parse_llm_response (response : string)
           (agents : list Config.AgentConfig) : option Config.AgentConfig :=
  if negb (truthy response) || isblank response then None
  else
    let response_text := clean response in
    match List.find (fun agent => String.eqb (Config.id agent) response_text)
                    agents with
    | Some agent => Some agent
    | None =>
        let response_lower := lower response_text in
        match List.find
                (fun agent => String.eqb (lower (Config.id agent))
                                         response_lower)
                agents with
        | Some agent => Some agent
        | None =>
            List.find
              (fun agent => re_search_word (Config.id agent) response_text)
              agents
        end
    end.

End Parse.

End LLMFallback.

(** ** JSON values *)

Module PyJson.
Import Py.

(** The value of a member of a JSON object, as far as the router looks
    at it: a string; a list, by its truth value; or a value of another
    type (null, a boolean, a number, an object), by its truth value. *)
Inductive JsonValue :=
| JString (s : string)
| JList (nonempty : bool)
| JOther (truth : bool).

(** What [json.loads] returns: an object with its members, or a value
    that is no object and so has no [get]; [type_name] is the name of its
    Python type. *)
Inductive Json :=
| Object (members : gmap string JsonValue)
| NoObject (type_name : string).

Definition value_truthy (v : JsonValue) : bool :=
  match v with
  | JString s => truthy s
  | JList nonempty => nonempty
  | JOther truth => truth
  end.

(** The text of the [AttributeError] that [data.get] raises on a value
    that is no object. *)
Definition no_get (type_name : string) : string :=
  ("'" +:+ type_name +:+ "' object has no attribute 'get'")%string.

End PyJson.

(** ** router.agui.client *)

Module AguiClient.
Import Py PyStr PyJson.

Definition SSE_LINE_PREFIX : string := "data: ".
Definition SSE_EVENT_PREFIX : string := "event: ".

(** The errors [send_message] raises: for a response with status 400 or
    more, for an [httpx.TimeoutException] and for any other
    [httpx.RequestError]; [e] is the text of the httpx exception. *)
Definition http_error (status_code : nat) (error_msg : string)
  : Retry.Error :=
  {| Retry.message :=
       ("Agent returned HTTP " +:+ str_of_nat status_code +:+ ": "
        +:+ slice_to 200 error_msg)%string;
     Retry.status_code := Some (Z.of_nat status_code) |}.

Definition timeout_error (e : string) : Retry.Error :=
  {| Retry.message := ("Request timed out: " +:+ e)%string;
     Retry.status_code := None |}.

Definition request_error (e : string) : Retry.Error :=
  {| Retry.message := ("Request failed: " +:+ e)%string;
     Retry.status_code := None |}.

(** What [_parse_event] does: it returns an event, returns [None], or
    lets the [AttributeError] of [event_data.get] escape. *)
Inductive Parsed :=
| AnEvent (event : Agui.Event)
| NoEvent
| AttributeError (msg : string).

(** What a generator of events does: the events it yields and, when it
    raises, the text of the exception. *)
Definition Stream : Type := list Agui.Event * option string.

(** One stream after the other: the second runs when the first has not
    raised. *)
Definition and_then (first second : Stream) : Stream :=
  match snd first with
  | Some _ => first
  | None => (fst first ++ fst second, snd second)
  end.

Section Parse.

(** [json.loads]; [None] when it raises [JSONDecodeError]. *)
Variable json_loads : string -> option Json.

(** The construction of [BaseEvent] from the members of [event_data];
    [None] when it raises. *)
Variable base_event : gmap string JsonValue -> option Agui.Event.

Definition _parse_event (data : string) (event_type : option string)
  : Parsed :=
  if negb (truthy data) || String.eqb data "[DONE]" then NoEvent
  else
    match json_loads data with
    | None => NoEvent
    | Some (NoObject type_name) => AttributeError (no_get type_name)
    | Some (Object event_data) =>
        let has_type :=
          match event_data !! "type"%string with
          | Some v => value_truthy v
          | None => false
          end in
        let has_header :=
          match event_type with
          | Some t => truthy t
          | None => false
          end in
        if negb has_type && negb has_header then NoEvent
        else
          let event_data :=
            if negb has_type && has_header
            then <["type"%string := JString (default ""%string event_type)]>
                   event_data
            else event_data in
          match base_event event_data with
          | Some event => AnEvent event
          | None => NoEvent
          end
    end.

(** The event of the block read so far, if it has data lines. *)
Definition flush (current_event_type : option string)
           (current_data_lines : list string) : Stream :=
  match current_data_lines with
  | [] => ([], None)
  | _ =>
      match _parse_event (join newline current_data_lines)
                         current_event_type with
      | AnEvent event => ([event], None)
      | NoEvent => ([], None)
      | AttributeError msg => ([], Some msg)
      end
  end.

(** [_parse_sse_stream]: the loop over the lines of the response.
    [completed] tells that the response was read to its end; the data
    left over is handled only then. *)
Fixpoint parse_lines (lines : list string) (completed : bool)
         (current_event_type : option string)
         (current_data_lines : list string) : Stream :=
  match lines with
  | [] =>
      if completed then flush current_event_type current_data_lines
      else ([], None)
  | raw :: rest =>
      let line := strip raw in
      if negb (truthy line) then
        and_then (flush current_event_type current_data_lines)
                 (parse_lines rest completed None [])
      else if startswith line SSE_EVENT_PREFIX then
        parse_lines rest completed
          (Some (strip (slice_from (String.length SSE_EVENT_PREFIX) line)))
          current_data_lines
      else if startswith line SSE_LINE_PREFIX then
        parse_lines rest completed current_event_type
          (current_data_lines
           ++ [slice_from (String.length SSE_LINE_PREFIX) line])
      else parse_lines rest completed current_event_type current_data_lines
  end.

Definition _parse_sse_stream (lines : list string) (completed : bool)
  : Stream :=
  parse_lines lines completed None [].

(** What the HTTP exchange of one [send_message] call does.  The request
    fails before any answer; or the agent answers with a status and then
    with its body (read when the status is 400 or more) or the lines of
    its stream (read otherwise), and [fault] is the exception, if any,
    that ends this reading: a timeout, another request error, or an
    exception that is no request error. *)
Inductive Fault :=
| Timeout (e : string)
| RequestError (e : string)
| OtherFault (e : string).

Inductive Exchange :=
| Answered (status_code : nat) (body : string) (lines : list string)
           (fault : option Fault)
| Unanswered (fault : Fault).

(** The two [except] clauses of [send_message]. *)
Definition ending_of (fault : Fault) : Proxy.CallEnd :=
  match fault with
  | Timeout e => Proxy.ClientError (timeout_error e)
  | RequestError e => Proxy.ClientError (request_error e)
  | OtherFault e => Proxy.OtherException e
  end.

(** [send_message]: the events it yields and how it ends. *)
Definition send_message (exchange : Exchange) : Proxy.Call :=
  match exchange with
  | Unanswered fault =>
      {| Proxy.yielded := []; Proxy.ending := ending_of fault |}
  | Answered status_code body lines fault =>
      if (400 <=? status_code)%nat then
        {| Proxy.yielded := [];
           Proxy.ending :=
             match fault with
             | None => Proxy.ClientError (http_error status_code body)
             | Some f => ending_of f
             end |}
      else
        let '(events, raised) :=
          _parse_sse_stream lines
            match fault with None => true | Some _ => false end in
        {| Proxy.yielded := events;
           Proxy.ending :=
             match raised, fault with
             | Some msg, _ => Proxy.OtherException msg
             | None, None => Proxy.Completed
             | None, Some f => ending_of f
             end |}
  end.

End Parse.

End AguiClient.

(** ** router.agents.proxy: the two protocols *)

Module Protocol.
Import Py.

(** [AgentProxy._forward_a2a].  [a2a content context_id] is the stream
    of [send_message_streaming]: the responses it yields and how it
    ends. *)
Definition _forward_a2a (agent : Config.AgentConfig)
           (request : Agui.ChatRequest)
           (a2a : string -> string
                  -> list Translator.Response * Translator.StreamEnd)
           (run_id message_id : string) : Proxy.Call :=
  match UserMessage.extract_last_user_message request with
  | Raise (ValueError e) =>
      {| Proxy.yielded := [Agui.RunError ("Invalid request: " +:+ e)%string];
         Proxy.ending := Proxy.Completed |}
  | Raise _ =>
      {| Proxy.yielded := [];
         Proxy.ending := Proxy.OtherException "" |}
  | Ok content =>
      let context_id :=
        UserMessage.thread_id_to_context_id (Agui.thread_id request) in
      let '(stream, fin) := a2a content context_id in
      {| Proxy.yielded :=
           Translator._translate_stream stream fin (Agui.thread_id request)
             run_id (Some (Config.name agent)) message_id;
         Proxy.ending := Proxy.Completed |}
  end.

(** [AgentProxy._forward_with_protocol]; [agui] is the run of
    [_forward_agui]. *)
Definition _forward_with_protocol (agent : Config.AgentConfig)
           (request : Agui.ChatRequest) (agui : Proxy.Call)
           (a2a : string -> string
                  -> list Translator.Response * Translator.StreamEnd)
           (run_id message_id : string) : Proxy.Call :=
  match Config.protocol agent with
  | Config.AG_UI => agui
  | Config.A2A => _forward_a2a agent request a2a run_id message_id
  end.

(** The milliseconds a trace of the proxy spends sleeping. *)
Fixpoint slept_ms (trace : list Retry.Action) : Z :=
  match trace with
  | [] => 0
  | Retry.Sleep delay_ms :: rest => delay_ms + slept_ms rest
  | _ :: rest => slept_ms rest
  end.

End Protocol.

(** ** router.observability.buffer *)

Module Buffer.
Import Py PyStr PyJson.

(** An SSE event is a dict of strings, with the keys [event] and
    [data]. *)
Abbreviation Event := (gmap string string) (only parsing).

Record StreamFrame := {
  event_type : string;
  data : Json;
  timestamp : Q;
  sequence_num : nat
}.

Record BufferedMessage := {
  message_id : JsonValue;
  thread_id : string;
  run_id : string;
  frames : list StreamFrame;
  complete : bool;
  start_time : option Q;
  completion_time : option Q;
  accumulated_content : string
}.

Record StreamBuffer := {
  _thread_id : string;
  _run_id : string;
  _request_id : string;
  _max_content_size : Z;
  _message : option BufferedMessage;
  _sequence_num : nat;
  _content_size : Z
}.

(** How a method ends: it returns, or it raises ([AttributeError] for
    [get] on a value that is no object, [TypeError] or [KeyError] for a
    slice of a value that has none, [TypeError] for a list added to a
    string).  Either way the buffer object is left in the state given. *)
Inductive Step :=
| Done (self : StreamBuffer)
| Raised (self : StreamBuffer).

Definition state_of (step : Step) : StreamBuffer :=
  match step with
  | Done self => self
  | Raised self => self
  end.

Definition init (thread_id run_id request_id : string)
           (max_content_size : Z) : StreamBuffer :=
  {| _thread_id := thread_id; _run_id := run_id;
     _request_id := request_id; _max_content_size := max_content_size;
     _message := None; _sequence_num := 0; _content_size := 0 |}.

Definition get_message (self : StreamBuffer) : option BufferedMessage :=
  _message self.

Definition is_complete (self : StreamBuffer) : bool :=
  match _message self with
  | Some m => complete m
  | None => false
  end.

(** [data.get("messageId") or data.get("message_id", "")]. *)
Definition message_id_of (members : gmap string JsonValue) : JsonValue :=
  let second := default (JString "") (members !! "message_id"%string) in
  match members !! "messageId"%string with
  | Some v => if value_truthy v then v else second
  | None => second
  end.

Definition new_message (self : StreamBuffer) (frame : StreamFrame)
           (members : gmap string JsonValue) : BufferedMessage :=
  {| message_id := message_id_of members; thread_id := _thread_id self;
     run_id := _run_id self; frames := [frame]; complete := false;
     start_time := Some (timestamp frame); completion_time := None;
     accumulated_content := "" |}.

Definition with_message (self : StreamBuffer) (m : option BufferedMessage)
           (content_size : Z) : StreamBuffer :=
  {| _thread_id := _thread_id self; _run_id := _run_id self;
     _request_id := _request_id self;
     _max_content_size := _max_content_size self;
     _message := m; _sequence_num := _sequence_num self;
     _content_size := content_size |}.

(** [message.frames.append(frame)]. *)
Definition append_frame (m : BufferedMessage) (frame : StreamFrame)
  : BufferedMessage :=
  {| message_id := message_id m; thread_id := thread_id m;
     run_id := run_id m; frames := frames m ++ [frame];
     complete := complete m; start_time := start_time m;
     completion_time := completion_time m;
     accumulated_content := accumulated_content m |}.

Definition _handle_message_start (self : StreamBuffer) (frame : StreamFrame)
           (data : Json) : Step :=
  match data with
  | NoObject _ => Raised self
  | Object members =>
      Done (with_message self (Some (new_message self frame members)) 0)
  end.

Definition _handle_message_content (self : StreamBuffer)
           (frame : StreamFrame) (data : Json) : Step :=
  match data with
  | NoObject _ =>
      match _message self with
      | None => Raised self
      | Some m =>
          Raised (with_message self (Some (append_frame m frame))
                    (_content_size self))
      end
  | Object members =>
      let m :=
        match _message self with
        | None => new_message self frame members
        | Some m => m
        end in
      let m := append_frame m frame in
      let self1 := with_message self (Some m) (_content_size self) in
      let delta := default (JString "") (members !! "delta"%string) in
      if value_truthy delta && (_content_size self <? _max_content_size self)
      then
        let remaining := _max_content_size self - _content_size self in
        match delta with
        | JString delta =>
            let truncated_delta := slice_to (Z.to_nat remaining) delta in
            Done
              (with_message self
                 (Some {| message_id := message_id m;
                          thread_id := thread_id m;
                          run_id := run_id m; frames := frames m;
                          complete := complete m;
                          start_time := start_time m;
                          completion_time := completion_time m;
                          accumulated_content :=
                            (accumulated_content m
                             +:+ truncated_delta)%string |})
                 (_content_size self
                  + Z.of_nat (String.length truncated_delta)))
        | JList _ | JOther _ => Raised self1
        end
      else Done self1
  end.

(** The common part of [_handle_message_end] and [_handle_error]. *)
Definition close_message (self : StreamBuffer) (frame : StreamFrame)
  : StreamBuffer :=
  match _message self with
  | None => self
  | Some m =>
      with_message self
        (Some {| message_id := message_id m; thread_id := thread_id m;
                 run_id := run_id m; frames := frames m ++ [frame];
                 complete := true; start_time := start_time m;
                 completion_time := Some (timestamp frame);
                 accumulated_content := accumulated_content m |})
        (_content_size self)
  end.

Definition _handle_message_end (self : StreamBuffer) (frame : StreamFrame)
  : Step :=
  Done (close_message self frame).

(** After the message is closed, [error_msg[:100]] is evaluated for the
    log record. *)
Definition _handle_error (self : StreamBuffer) (frame : StreamFrame)
           (data : Json) : Step :=
  let self1 := close_message self frame in
  match data with
  | NoObject _ => Raised self1
  | Object members =>
      match default (JString "Unknown error") (members !! "message"%string)
      with
      | JString _ | JList _ => Done self1
      | JOther _ => Raised self1
      end
  end.

Section Process.

(** [json.loads]; [None] when it raises [JSONDecodeError]. *)
Variable json_loads : string -> option Json.

(** The first lines of [_process_event]: the data of the event, parsed;
    the empty object when there is no data or it does not parse. *)
Definition parse_data (event : Event) : Json :=
  let data_str := default ""%string (event !! "data"%string) in
  if truthy data_str then default (Object ∅) (json_loads data_str)
  else Object ∅.

(** [_process_event]; [now] is the reading of [time.time()]. *)
Definition _process_event (now : Q) (event : Event) (self : StreamBuffer)
  : Step :=
  let event_type := default ""%string (event !! "event"%string) in
  let data := parse_data event in
  let frame :=
    {| event_type := event_type; data := data; timestamp := now;
       sequence_num := _sequence_num self |} in
  let self :=
    {| _thread_id := _thread_id self; _run_id := _run_id self;
       _request_id := _request_id self;
       _max_content_size := _max_content_size self;
       _message := _message self;
       _sequence_num := S (_sequence_num self);
       _content_size := _content_size self |} in
  if String.eqb event_type "TEXT_MESSAGE_START" then
    _handle_message_start self frame data
  else if String.eqb event_type "TEXT_MESSAGE_CONTENT" then
    _handle_message_content self frame data
  else if String.eqb event_type "TEXT_MESSAGE_END" then
    _handle_message_end self frame
  else if String.eqb event_type "RUN_ERROR" then
    _handle_error self frame data
  else Done self.

(** [process_stream]: the events handed on, and how the generator ends;
    an event is handed on after the buffer has processed it.  [clock n] is
    the reading of the clock for the event numbered [n]. *)
Fixpoint process_stream (clock : nat -> Q) (event_stream : list Event)
         (self : StreamBuffer) : list Event * Step :=
  match event_stream with
  | [] => ([], Done self)
  | event :: rest =>
      match _process_event (clock (_sequence_num self)) event self with
      | Raised self1 => ([], Raised self1)
      | Done self1 =>
          let '(yielded, fin) := process_stream clock rest self1 in
          (event :: yielded, fin)
      end
  end.

End Process.

End Buffer.

(** ** router.agui.endpoint: the chat endpoint *)

Module Chat.
Import Py.

(** How [chat] answers: with an HTTP error, with an exception that
    escapes the handler, or with the stream of [event_generator]. *)
Inductive Answer :=
| HttpError (status_code : nat) (detail : string)
| Escaped (e : Exn)
| Streaming (stream : list Pipeline.Out).

(** [chat], from the reading of its dependencies on.  [agents_config]
    and [semantic_router] are what the application state holds, if
    anything.  The forwarding request is the value of
    [_strip_mentions_from_request]; the stream of the answer is that of
    [event_generator], which the stream buffer, when it is enabled, hands
    on (module [Buffer]). *)
Definition chat (clock : Routing.Clock) (llm : Routing.LLMAnswer)
           (agents_config : option Config.AgentsConfig)
           (semantic_router : option Semantic.SemanticRouter)
           (session_store : option Session.SessionStore)
           (chat_request : Agui.ChatRequest)
           (proxy : Config.AgentConfig -> Agui.ChatRequest
                    -> list Agui.Event * Proxy.ProxyEnd)
           (message_id : string)
  : Answer * option Session.SessionStore :=
  match agents_config, semantic_router with
  | None, _ => (HttpError 503 "Configuration not loaded", session_store)
  | Some _, None =>
      (HttpError 503 "Semantic router not initialized", session_store)
  | Some agents_config, Some semantic_router =>
      match UserMessage._extract_user_message chat_request with
      | None => (HttpError 400 "No user message found", session_store)
      | Some user_message =>
          if negb (truthy user_message)
          then (HttpError 400 "No user message found", session_store)
          else
            match Routing._route_with_sessions clock llm user_message
                    (Agui.thread_id chat_request) agents_config
                    semantic_router session_store with
            | (Raise e, store) => (Escaped e, store)
            | (Ok (agent, _), store) =>
                let forwarding_request :=
                  Forwarding.forwarding_request chat_request in
                match Config.get_default_agent agents_config with
                | Raise e => (Escaped e, store)
                | Ok default_agent =>
                    (Streaming
                       (Pipeline.event_generator agents_config agent
                          default_agent forwarding_request proxy
                          message_id),
                     store)
                end
            end
      end
  end.

(** The proxy that [chat] uses: [forward_request] over the calls
    [backend agent request] makes, seen by its events and its end. *)
Definition proxy_of (retry_config : Retry.RetryConfig)
           (backend : Config.AgentConfig -> Agui.ChatRequest -> nat
                      -> Proxy.Call)
           (agent : Config.AgentConfig) (request : Agui.ChatRequest)
  : list Agui.Event * Proxy.ProxyEnd :=
  let run := Proxy.forward_request retry_config agent (backend agent request)
  in (Proxy.events_of (fst run), snd run).

End Chat.

(** ** Invariants of the stream buffer *)

Module BufferInv.
Import PyStr PyJson Buffer.

(** The accumulated content is as long as the buffer counts it, and the
    count stays within the limit. *)
Definition within_limit (self : StreamBuffer) : Prop :=
  0 <= _content_size self <= Z.max 0 (_max_content_size self)
  /\ match _message self with
     | Some m =>
         Z.of_nat (String.length (accumulated_content m))
         = _content_size self
     | None => _content_size self = 0
     end.

(** Data as the events of the endpoint carry them: an object whose
    [delta], if it has one, is a string or falsy, and whose [message], if
    it has one, is a string or a list. *)
Definition plain (data : Json) : bool :=
  match data with
  | NoObject _ => false
  | Object members =>
      match members !! "delta"%string with
      | Some (JString _) | None => true
      | Some v => negb (value_truthy v)
      end
      && match members !! "message"%string with
         | Some (JOther _) => false
         | _ => true
         end
  end.

(** The text that a content event adds. *)
Definition delta_text (data : Json) : string :=
  match data with
  | Object members =>
      match members !! "delta"%string with
      | Some (JString delta) => delta
      | _ => ""%string
      end
  | NoObject _ => ""%string
  end.

(** The state of the buffer while it reads the content events of an open
    message: what it has accumulated is the text received since the start,
    cut at the limit. *)
Definition reading (self : StreamBuffer) (mid : JsonValue) (total : string)
           (n_frames : nat) : Prop :=
  exists m,
    _message self = Some m
    /\ message_id m = mid
    /\ complete m = false
    /\ accumulated_content m
       = slice_to (Z.to_nat (_max_content_size self)) total
    /\ _content_size self
       = Z.of_nat (String.length (accumulated_content m))
    /\ List.length (frames m) = n_frames.

End BufferInv.

(* ===================================================================== *)
(** * Part II: properties                                                 *)
(* ===================================================================== *)

(** ** Retry policy and streaming proxy *)

Section RetryFacts.
Import Retry Proxy.

Lemma get_delay_ms_backoff (cfg : RetryConfig) (k : Z) :
  0 <= k -> get_delay_ms cfg k = Spec.backoff cfg k.
Proof.
  intros Hk. unfold get_delay_ms, Spec.backoff.
  destruct (Z.eqb_spec k 0) as [->|Hne]; [reflexivity|].
  destruct (Z.leb_spec k 0); [lia|reflexivity].
Qed.

Lemma wait_before_retry_sleeping (cfg : RetryConfig) (k : nat) :
  wait_before_retry cfg (Z.of_nat k)
  = Spec.sleeping (Spec.backoff cfg (Z.of_nat k)).
Proof.
  unfold wait_before_retry, Spec.sleeping.
  rewrite get_delay_ms_backoff by lia. reflexivity.
Qed.

Lemma control_yields (es : list Agui.Event) :
  List.filter is_control (map Yield es) = [].
Proof. induction es as [|e es IH]; simpl; auto. Qed.

Lemma control_sleeping (d : Z) :
  List.filter is_control (Spec.sleeping d) = Spec.sleeping d.
Proof. unfold Spec.sleeping. destruct (0 <? d); reflexivity. Qed.

Lemma control_exhausted agent n e :
  List.filter is_control (fst (exhausted agent n e)) = [].
Proof. reflexivity. Qed.

Lemma schedule_from_cons (cfg : RetryConfig) (k n : nat) :
  flat_map (fun k => Spec.sleeping (Spec.backoff cfg (Z.of_nat k))
                     ++ [CallAgent k]) (seq k (S n))
  = Spec.sleeping (Spec.backoff cfg (Z.of_nat k)) ++ CallAgent k
    :: flat_map (fun k => Spec.sleeping (Spec.backoff cfg (Z.of_nat k))
                          ++ [CallAgent k]) (seq (S k) n).
Proof. simpl. rewrite <- app_assoc. reflexivity. Qed.

(** The round of attempt [k] contributes its sleep and its call, and the
    loop never runs more rounds than it has left. *)
Lemma attempt_loop_schedule (cfg : RetryConfig) agent backend :
  forall remaining k made last,
    exists n, (n <= remaining)%nat
              /\ (1 <= remaining -> 1 <= n)%nat
              /\ List.filter is_control
                   (fst (attempt_loop cfg agent backend remaining k made
                           last))
                 = flat_map
                     (fun k => Spec.sleeping (Spec.backoff cfg (Z.of_nat k))
                               ++ [CallAgent k])
                     (seq k n).
Proof.
  induction remaining as [|r IH]; intros k made last.
  - exists O. split; [lia|]. split; [lia|]. reflexivity.
  - assert (Hw : List.filter is_control
                   ((if (0 <? k)%nat
                     then wait_before_retry cfg (Z.of_nat k) else [])
                    ++ CallAgent k :: map Yield (yielded (backend k)))
                 = Spec.sleeping (Spec.backoff cfg (Z.of_nat k))
                   ++ [CallAgent k]).
    { rewrite List.filter_app. simpl. rewrite control_yields.
      f_equal.
      destruct k as [|k'].
      - reflexivity.
      - change (0 <? S k')%nat with true. cbv iota.
        rewrite wait_before_retry_sleeping. apply control_sleeping. }
    simpl attempt_loop.
    destruct (ending (backend k)) as [| e | msg].
    + exists 1%nat. split; [lia|]. split; [lia|].
      cbn [fst]. rewrite Hw. simpl. rewrite app_nil_r. reflexivity.
    + destruct (is_retryable_error e); cbn [negb].
      * destruct (IH (S k) (k + 1)%nat (Some e)) as (n & Hn & _ & Hf).
        destruct (attempt_loop cfg agent backend r (S k) (k + 1) (Some e))
          as [rest fin].
        exists (S n). split; [lia|]. split; [lia|].
        cbn [fst] in *. rewrite List.filter_app, Hw, Hf.
        rewrite schedule_from_cons, <- app_assoc. reflexivity.
      * exists 1%nat. split; [lia|]. split; [lia|].
        cbn [exhausted fst]. rewrite List.filter_app, Hw. simpl.
        rewrite app_nil_r. reflexivity.
    + exists 1%nat. split; [lia|]. split; [lia|].
      cbn [fst]. rewrite Hw. simpl. rewrite app_nil_r. reflexivity.
Qed.

End RetryFacts.

(** C5.  For a retry configuration with [max_attempts >= 1]: the delay of
    attempt [k], counted from zero, is 0 for [k = 0] and
    [min (base_delay_ms * 2^(k-1)) max_delay_ms] otherwise; and a forwarded
    request takes [n] attempts with [1 <= n <= max_attempts], attempt [k]
    of them being preceded by a sleep of exactly that delay and by nothing
    else (a delay that is not positive is no sleep). *)
Theorem retry_delay_and_attempt_bound
        (cfg : Retry.RetryConfig) (agent : Config.AgentConfig)
        (backend : nat -> Proxy.Call) :
  1 <= Retry.max_attempts cfg ->
  (forall k, 0 <= k ->
             Retry.get_delay_ms cfg k
             = if k =? 0 then 0
               else Z.min (Retry.base_delay_ms cfg * 2 ^ (k - 1))
                          (Retry.max_delay_ms cfg))
  /\ exists n : nat,
      (1 <= n)%nat /\ Z.of_nat n <= Retry.max_attempts cfg
      /\ List.filter Proxy.is_control
           (fst (Proxy.forward_request cfg agent backend))
         = Spec.schedule cfg n.
Proof.
  intros Hmax. split.
  - intros k Hk. apply get_delay_ms_backoff; assumption.
  - unfold Proxy.forward_request.
    destruct (attempt_loop_schedule cfg agent backend
                (Z.to_nat (Retry.max_attempts cfg)) 0 0 None)
      as (n & Hn & Hpos & Hf).
    exists n. repeat split.
    + apply Hpos. lia.
    + lia.
    + exact Hf.
Qed.

Lemma retry_delay_and_attempt_bound_witness :
  1 <= Retry.max_attempts Samples.retry3
  /\ Retry.get_delay_ms Samples.retry3 2 = 1000
  /\ exists n : nat,
      (1 <= n)%nat /\ Z.of_nat n <= 3
      /\ List.filter Proxy.is_control
           (fst (Proxy.forward_request Samples.retry3 Samples.metrics
                   Samples.timeout_mid_stream))
         = Spec.schedule Samples.retry3 n.
Proof.
  assert (H : 1 <= Retry.max_attempts Samples.retry3) by (simpl; lia).
  split; [exact H|].
  destruct (retry_delay_and_attempt_bound Samples.retry3 Samples.metrics
              Samples.timeout_mid_stream H) as [Hd Hn].
  split; [rewrite (Hd 2) by lia; reflexivity | exact Hn].
Defined.

(** C2 (the code departs from it).  With the default policy of three
    attempts, an AG-UI agent that streams one event and then times out is
    called a second time: the proxy has already yielded the event of the
    first attempt downstream when the retry starts. *)
Theorem forward_request_retries_after_yield :
  fst (Proxy.forward_request Samples.retry3 Samples.metrics
         Samples.timeout_mid_stream)
  = [Retry.CallAgent 0; Retry.Yield Samples.run_started;
     Retry.Sleep 500;
     Retry.CallAgent 1; Retry.Yield Samples.run_started;
     Retry.Yield (Agui.RunFinished "t1" "r1")]
  /\ Proxy.call_after_yield false
       (fst (Proxy.forward_request Samples.retry3 Samples.metrics
               Samples.timeout_mid_stream)) = true.
Proof. split; vm_compute; reflexivity. Qed.

(** C6 (the code departs from it).  The error of a 404 response whose body
    holds the digits 500 mentions no timeout, connection or network term
    and carries the status 404, yet it is classified as retryable. *)
Theorem is_retryable_error_404_with_digits :
  existsb (fun term => Py.contains term
                         (Py.lower (Retry.message Samples.not_found_5000)))
          ["timeout"; "timed out"; "connection"; "connect"; "unavailable";
           "network"]%string = false
  /\ Retry.status_code Samples.not_found_5000 = Some 404
  /\ Retry.is_retryable_error Samples.not_found_5000 = true.
Proof. repeat split; vm_compute; reflexivity. Qed.

(** ** Session store *)

Section SessionFacts.
Import Session.

Lemma is_expired_iff (now : Z) (s : SessionState) (timeout : Z) :
  is_expired now s timeout = true
  <-> now - last_activity s > minutes timeout.
Proof. unfold is_expired. rewrite Z.ltb_lt. lia. Qed.

Lemma get_absent (now : Z) (store : SessionStore) (tid : string) :
  _sessions store !! tid = None -> get now store tid = (None, store).
Proof. intros H. unfold get. rewrite H. reflexivity. Qed.

Lemma get_expired (now : Z) (store : SessionStore) (tid : string)
      (s : SessionState) :
  _sessions store !! tid = Some s ->
  now - last_activity s > minutes (_timeout_minutes store) ->
  get now store tid
  = (None, with_sessions store (delete tid (_sessions store))).
Proof.
  intros H Hexp. unfold get. rewrite H.
  apply is_expired_iff in Hexp. rewrite Hexp. reflexivity.
Qed.

Lemma get_live (now : Z) (store : SessionStore) (tid : string)
      (s : SessionState) :
  _sessions store !! tid = Some s ->
  now - last_activity s <= minutes (_timeout_minutes store) ->
  get now store tid = (Some s, store).
Proof.
  intros H Hlive. unfold get. rewrite H.
  destruct (is_expired now s (_timeout_minutes store)) eqn:E.
  - apply is_expired_iff in E. lia.
  - reflexivity.
Qed.

Lemma set_lookup (n1 n2 : Z) (store : SessionStore) (tid aid h : string) :
  _sessions (snd (set n1 n2 store tid aid h)) !! tid
  = Some {| thread_id := tid; agent_id := aid; agent_handle := h;
            created_at := n1; last_activity := n2 |}.
Proof. simpl. apply lookup_insert_eq. Qed.

Lemma delete_session_lookup (store : SessionStore) (tid : string) :
  _sessions (snd (delete_session store tid)) !! tid = None.
Proof.
  unfold delete_session.
  destruct (_sessions store !! tid) eqn:E; simpl.
  - apply lookup_delete_eq.
  - exact E.
Qed.

End SessionFacts.

(** C8.  [get] on thread [tid] returns nothing exactly when the store holds
    no session for [tid] (none was set, or it was deleted since) or
    [now - last_activity > timeout_minutes].  The comparison is strict: a
    session probed at [now = last_activity + timeout] is returned.  A [get]
    that finds an expired session removes it from the store and returns
    nothing; any other [get] leaves the store as it is. *)
Theorem session_get_ttl (now : Z) (store : Session.SessionStore)
        (tid : string) :
  (fst (Session.get now store tid) = None
   <-> (Session._sessions store !! tid = None
        \/ exists s, Session._sessions store !! tid = Some s
                     /\ now - Session.last_activity s
                        > Session.minutes (Session._timeout_minutes store)))
  /\ (forall s, Session._sessions store !! tid = Some s ->
                now = Session.last_activity s
                      + Session.minutes (Session._timeout_minutes store) ->
                Session.get now store tid = (Some s, store))
  /\ (forall s, Session._sessions store !! tid = Some s ->
                now - Session.last_activity s
                > Session.minutes (Session._timeout_minutes store) ->
                Session.get now store tid
                = (None,
                   Session.with_sessions store
                     (delete tid (Session._sessions store)))
                /\ Session._sessions (snd (Session.get now store tid)) !! tid
                   = None)
  /\ (fst (Session.get now store tid) <> None ->
      snd (Session.get now store tid) = store)
  /\ (forall timeout, Session._sessions (Session.init timeout) !! tid = None)
  /\ (forall n1 n2 aid h,
         Session._sessions (snd (Session.set n1 n2 store tid aid h)) !! tid
         <> None)
  /\ Session._sessions (snd (Session.delete_session store tid)) !! tid = None.
Proof.
  split.
  { split.
    - intros Hnone.
      destruct (Session._sessions store !! tid) as [s|] eqn:E; [|now left].
      right. exists s. split; [reflexivity|].
      destruct (Z_le_gt_dec (now - Session.last_activity s)
                  (Session.minutes (Session._timeout_minutes store)))
        as [Hle|Hgt]; [|exact Hgt].
      rewrite (get_live now store tid s E Hle) in Hnone. discriminate.
    - intros [Habs | (s & Hs & Hexp)].
      + rewrite (get_absent now store tid Habs). reflexivity.
      + rewrite (get_expired now store tid s Hs Hexp). reflexivity. }
  split.
  { intros s Hs Hnow. apply get_live; [exact Hs | lia]. }
  split.
  { intros s Hs Hexp. rewrite (get_expired now store tid s Hs Hexp).
    split; [reflexivity|]. simpl. apply lookup_delete_eq. }
  split.
  { intros Hsome.
    destruct (Session._sessions store !! tid) as [s|] eqn:E.
    - destruct (Z_le_gt_dec (now - Session.last_activity s)
                  (Session.minutes (Session._timeout_minutes store)))
        as [Hle|Hgt].
      + rewrite (get_live now store tid s E Hle). reflexivity.
      + rewrite (get_expired now store tid s E Hgt) in Hsome.
        exfalso. apply Hsome. reflexivity.
    - rewrite (get_absent now store tid E). reflexivity. }
  split.
  { intros timeout. apply lookup_empty. }
  split.
  { intros n1 n2 aid h. rewrite set_lookup. discriminate. }
  apply delete_session_lookup.
Qed.

(** ** Chat pipeline: fallback after a proxy failure *)

Section PipelineFacts.
Import Pipeline.

Lemma append_assoc (a b c : string) :
  ((a +:+ b) +:+ c = a +:+ (b +:+ c))%string.
Proof. induction a as [|x a IH]; simpl; [reflexivity | now rewrite IH]. Qed.

Lemma fallback_message_notice (agent_name : string) (attempts : nat) :
  ("[Notice: "
   +:+ ("Agent '" +:+ agent_name +:+ "' unavailable after "
        +:+ Py.str_of_nat attempts +:+ " attempt(s). ")
   +:+ "Routing to general assistant.]"
   +:+ String "010" (String "010" EmptyString))%string
  = (Spec.notice_text agent_name attempts +:+ Spec.newline
     +:+ Spec.newline)%string.
Proof.
  unfold Spec.notice_text, Spec.newline.
  simpl. rewrite !append_assoc. simpl. rewrite !append_assoc. simpl.
  reflexivity.
Qed.

End PipelineFacts.

Section ProxyErrorFacts.
Import Retry Proxy.

Lemma calls_made_app (t1 t2 : list Action) :
  calls_made (t1 ++ t2) = (calls_made t1 + calls_made t2)%nat.
Proof.
  induction t1 as [|a t1 IH]; simpl; [reflexivity|].
  destruct a; simpl; rewrite IH; reflexivity.
Qed.

Lemma calls_made_yields (es : list Agui.Event) :
  calls_made (map Yield es) = O.
Proof. induction es as [|e es IH]; simpl; auto. Qed.

Lemma calls_made_wait (cfg : RetryConfig) (k : Z) :
  calls_made (wait_before_retry cfg k) = O.
Proof.
  unfold wait_before_retry. destruct (0 <? get_delay_ms cfg k); reflexivity.
Qed.

Lemma calls_made_round (cfg : RetryConfig) (backend : nat -> Call) (k : nat) :
  calls_made
    ((if (0 <? k)%nat then wait_before_retry cfg (Z.of_nat k) else [])
     ++ CallAgent k :: map Yield (yielded (backend k))) = 1%nat.
Proof.
  rewrite calls_made_app. simpl. rewrite calls_made_yields.
  destruct (0 <? k)%nat; [rewrite calls_made_wait|]; reflexivity.
Qed.

(** The error raised by the proxy names the agent and counts the calls
    that were made. *)
Lemma attempt_loop_error (cfg : RetryConfig) agent backend :
  forall remaining k last trace e,
    attempt_loop cfg agent backend remaining k k last
    = (trace, ProxyErrorRaised e) ->
    agent_name e = Some (Config.name agent)
    /\ attempts e = (k + calls_made trace)%nat.
Proof.
  induction remaining as [|r IH]; intros k last trace e H.
  - simpl in H. injection H as <- <-. simpl. split; [reflexivity | lia].
  - simpl attempt_loop in H.
    pose proof (calls_made_round cfg backend k) as Hr.
    destruct (ending (backend k)) as [| err | msg]; try discriminate.
    destruct (is_retryable_error err); cbn [negb] in H.
    + replace (k + 1)%nat with (S k) in H by lia.
      destruct (attempt_loop cfg agent backend r (S k) (S k) (Some err))
        as [rest fin] eqn:E.
      injection H as <- ->.
      destruct (IH _ _ _ _ E) as [Hn Ha]. split; [exact Hn|].
      rewrite calls_made_app, Hr, Ha. lia.
    + cbn [exhausted] in H. injection H as <- <-. cbn [agent_name attempts].
      split; [reflexivity|].
      rewrite calls_made_app, Hr. simpl. lia.
Qed.

Lemma forward_request_error (cfg : RetryConfig) agent backend e :
  snd (forward_request cfg agent backend) = ProxyErrorRaised e ->
  agent_name e = Some (Config.name agent)
  /\ attempts e = calls_made (fst (forward_request cfg agent backend)).
Proof.
  unfold forward_request. intros H.
  destruct (attempt_loop cfg agent backend
              (Z.to_nat (max_attempts cfg)) 0 0 None) as [trace fin] eqn:E.
  simpl in H. subst fin. apply attempt_loop_error in E. simpl. exact E.
Qed.

Lemma name_or_same (n : string) : Pipeline.name_or (Some n) n = n.
Proof. unfold Pipeline.name_or. destruct (Py.truthy n); reflexivity. Qed.

End ProxyErrorFacts.

(** C4 (as the code has it).  When the proxy raises [AgentProxyError] for
    an agent that is not the default agent, the pipeline emits, after the
    events the proxy had yielded, exactly three events in order,
    TEXT_MESSAGE_START, TEXT_MESSAGE_CONTENT and TEXT_MESSAGE_END; the delta
    of the second is the notice "[Notice: Agent '<name>' unavailable after N
    attempt(s). Routing to general assistant.]" followed by two newline
    characters, N being the attempt count of the error; it then forwards
    the same request to the default agent.  When the failed agent is the
    default agent it emits a single RUN_ERROR and forwards nothing more.
    For an error raised by [forward_request], <name> is the agent's name
    and N the number of calls made to it. *)
Theorem fallback_after_proxy_error
        (cfg : Config.AgentsConfig) (agent default_agent : Config.AgentConfig)
        (request : Agui.ChatRequest)
        (proxy : Config.AgentConfig -> Agui.ChatRequest
                 -> list Agui.Event * Proxy.ProxyEnd)
        (message_id : string) (events : list Agui.Event)
        (e : Proxy.AgentProxyError) :
  proxy agent request = (events, Proxy.ProxyErrorRaised e) ->
  (Config.is_default_agent cfg agent = false ->
   exists tail,
     Pipeline.event_generator cfg agent default_agent request proxy
       message_id
     = Pipeline.Forward agent request :: map Pipeline.Emit events
       ++ [Pipeline.Emit (Agui.TextMessageStart message_id "assistant");
           Pipeline.Emit
             (Agui.TextMessageContent message_id
                (Spec.notice_text
                   (Pipeline.name_or (Proxy.agent_name e) (Config.name agent))
                   (Proxy.attempts e)
                 +:+ Spec.newline +:+ Spec.newline)%string);
           Pipeline.Emit (Agui.TextMessageEnd message_id)]
       ++ Pipeline.Forward default_agent request
          :: map Pipeline.Emit (fst (proxy default_agent request))
       ++ tail
     /\ (tail = [] \/ exists msg, tail = [Pipeline.Emit (Agui.RunError msg)]))
  /\ (Config.is_default_agent cfg agent = true ->
      exists msg,
        Pipeline.event_generator cfg agent default_agent request proxy
          message_id
        = Pipeline.Forward agent request :: map Pipeline.Emit events
          ++ [Pipeline.Emit (Agui.RunError msg)])
  /\ (forall retry_config backend,
         snd (Proxy.forward_request retry_config agent backend)
         = Proxy.ProxyErrorRaised e ->
         Pipeline.name_or (Proxy.agent_name e) (Config.name agent)
         = Config.name agent
         /\ Proxy.attempts e
            = Proxy.calls_made
                (fst (Proxy.forward_request retry_config agent backend))).
Proof.
  intros Hp. split; [|split].
  - intros Hnd. unfold Pipeline.event_generator. rewrite Hp, Hnd.
    cbn [negb]. unfold Pipeline._yield_fallback_context.
    rewrite fallback_message_notice.
    destruct (proxy default_agent request) as [events2 fin2].
    cbn [fst map].
    destruct fin2 as [| fe | msg].
    + exists []. split; [|now left].
      rewrite app_nil_r. reflexivity.
    + eexists. split; [|right; eexists; reflexivity].
      simpl. reflexivity.
    + eexists. split; [|right; eexists; reflexivity].
      simpl. reflexivity.
  - intros Hd. unfold Pipeline.event_generator. rewrite Hp, Hd.
    cbn [negb]. eexists. reflexivity.
  - intros rc backend Hfin.
    destruct (forward_request_error rc agent backend e Hfin) as [Hn Ha].
    rewrite Hn, name_or_same. split; [reflexivity | exact Ha].
Qed.

(** ** Routing decision engine *)

Section RoutingFacts.
Import Py Routing.

Lemma search_truthy (s h : string) :
  Mention.search s = Some h -> truthy h = true.
Proof.
  induction s as [|c s IH]; simpl; [discriminate|].
  destruct (Mention.is_at c && truthy (Mention.take_handle s)) eqn:E.
  - intros [= <-]. apply andb_true_iff in E. tauto.
  - exact IH.
Qed.

Lemma lower_truthy (s : string) : truthy (lower s) = truthy s.
Proof. destruct s; reflexivity. Qed.

Lemma parse_mention_truthy (msg h : string) :
  Mention.parse_mention msg = Some h -> truthy h = true.
Proof.
  unfold Mention.parse_mention.
  destruct (negb (truthy msg)); [discriminate|].
  destruct (Mention.search msg) as [h'|] eqn:E; [|discriminate].
  intros [= <-]. rewrite lower_truthy. eapply search_truthy; eassumption.
Qed.

Lemma step3_cascade llm msg cfg router d drift :
  Config.get_default_agent cfg = Ok d ->
  Spec.selection
    (step3_semantic llm msg cfg router
       {| agent := None; routing_method := "semantic";
          routing_score := None; topic_drift_detected := drift |})
  = Spec.earliest_qualifying
      [("semantic"%string, Spec.semantic_step msg router);
       ("llm_fallback"%string, Spec.llm_step llm cfg)] d.
Proof.
  intros Hd. unfold step3_semantic, Spec.semantic_step, Spec.llm_step.
  cbn [agent].
  destruct (Semantic.match_best router msg) as [[m|]|e]; try reflexivity.
  rewrite Hd. cbn [topic_drift_detected routing_score].
  destruct (Config.agents cfg); [reflexivity|].
  destruct llm; reflexivity.
Qed.

Lemma after_mention_cascade clock llm msg tid cfg router store d :
  Config.get_default_agent cfg = Ok d ->
  Spec.selection
    (fst (let (r, store0) :=
            step2_sticky clock msg tid cfg router store initial in
          match r with
          | Ok l2 => (step3_semantic llm msg cfg router l2, store0)
          | Raise e => (Raise e, store0)
          end))
  = Spec.earliest_qualifying
      [("sticky"%string, Spec.sticky_step clock msg tid cfg router store);
       ("semantic"%string, Spec.semantic_step msg router);
       ("llm_fallback"%string, Spec.llm_step llm cfg)] d.
Proof.
  intros Hd. unfold step2_sticky, Spec.sticky_step. cbn [agent initial].
  destruct store as [st|]; [|apply step3_cascade; exact Hd].
  destruct (Session.get (at_get clock) st tid) as [[s|] st1];
    cbn [fst]; [|apply step3_cascade; exact Hd].
  destruct (Config.get_agent_by_id cfg (Session.agent_id s)) as [a|];
    [|apply step3_cascade; exact Hd].
  destruct (Drift.detect_topic_drift msg a router
              (Config.topic_drift_threshold (Config.session cfg)))
    as [r|e]; [|reflexivity].
  destruct (Drift.drifted r); cbn [negb fst].
  - apply step3_cascade; exact Hd.
  - reflexivity.
Qed.

Lemma select_agent_cascade clock llm msg tid cfg router store d :
  Config.get_default_agent cfg = Ok d ->
  Spec.selection (fst (select_agent clock llm msg tid cfg router store))
  = Spec.cascade clock llm msg tid cfg router store d.
Proof.
  intros Hd.
  unfold select_agent, Spec.cascade, Spec.mention_step, step1_mention.
  destruct (Mention.parse_mention msg) as [h|] eqn:Hm.
  - rewrite (parse_mention_truthy _ _ Hm).
    destruct (Config.get_agent_by_handle cfg h) as [a|] eqn:Hh.
    + unfold step2_sticky. cbn [agent]. destruct store; reflexivity.
    + apply after_mention_cascade; exact Hd.
  - apply after_mention_cascade; exact Hd.
Qed.

End RoutingFacts.

Section RoutingStoreFacts.
Import Py Routing.

Lemma get_some_store (now : Z) (st : Session.SessionStore) (tid : string)
      (s : Session.SessionState) :
  fst (Session.get now st tid) = Some s ->
  Session.get now st tid = (Some s, st)
  /\ Session._sessions st !! tid = Some s.
Proof.
  unfold Session.get.
  destruct (Session._sessions st !! tid) as [s'|]; [|discriminate].
  destruct (Session.is_expired now s' (Session._timeout_minutes st));
    [discriminate|].
  intros [= ->]. split; reflexivity.
Qed.

(** When the sticky step qualifies after the mention step did not, the
    store after the selection is the store after [touch]. *)
Lemma sticky_selection_touches clock llm msg tid cfg router st a sc :
  Spec.mention_step msg cfg = Ok None ->
  Spec.sticky_step clock msg tid cfg router (Some st) = Ok (Some (a, sc)) ->
  snd (select_agent clock llm msg tid cfg router (Some st))
  = Some (snd (Session.touch (at_touch_check clock) (at_touch clock) st tid)).
Proof.
  intros Hm Hs.
  assert (H1 : step1_mention msg cfg initial = initial).
  { unfold Spec.mention_step in Hm. unfold step1_mention.
    destruct (Mention.parse_mention msg) as [h|]; [|reflexivity].
    destruct (truthy h); [|reflexivity].
    destruct (Config.get_agent_by_handle cfg h); [discriminate|reflexivity]. }
  unfold select_agent. rewrite H1.
  unfold Spec.sticky_step in Hs. unfold step2_sticky. cbn [agent initial].
  destruct (fst (Session.get (at_get clock) st tid)) as [s|] eqn:Hg;
    [|discriminate].
  destruct (get_some_store _ _ _ _ Hg) as [Hget _]. rewrite Hget.
  destruct (Config.get_agent_by_id cfg (Session.agent_id s)) as [a'|];
    [|discriminate].
  destruct (Drift.detect_topic_drift msg a' router
              (Config.topic_drift_threshold (Config.session cfg)))
    as [r|e]; [|discriminate].
  destruct (Drift.drifted r); [discriminate|].
  reflexivity.
Qed.

Lemma touch_live (n1 n2 : Z) (st : Session.SessionStore) (tid : string)
      (s : Session.SessionState) :
  Session._sessions st !! tid = Some s ->
  Session.is_expired n1 s (Session._timeout_minutes st) = false ->
  Session._sessions (snd (Session.touch n1 n2 st tid)) !! tid
  = Some (Session.touch_state n2 s).
Proof.
  intros Hs He. unfold Session.touch. rewrite Hs, He. simpl.
  apply lookup_insert_eq.
Qed.

(** The selection leaves a store in place when there was one. *)
Lemma select_agent_keeps_store clock llm msg tid cfg router st :
  exists st1,
    snd (select_agent clock llm msg tid cfg router (Some st)) = Some st1.
Proof.
  unfold select_agent, step2_sticky.
  destruct (agent (step1_mention msg cfg initial)).
  { eexists. reflexivity. }
  destruct (Session.get (at_get clock) st tid) as [[s|] st1].
  2:{ eexists. reflexivity. }
  destruct (Config.get_agent_by_id cfg (Session.agent_id s)) as [a|].
  2:{ eexists. reflexivity. }
  destruct (Drift.detect_topic_drift msg a router
              (Config.topic_drift_threshold (Config.session cfg)))
    as [r|e].
  2:{ eexists. reflexivity. }
  destruct (Drift.drifted r); eexists; reflexivity.
Qed.

Lemma select_agent_no_store clock llm msg tid cfg router :
  snd (select_agent clock llm msg tid cfg router None) = None.
Proof.
  unfold select_agent, step2_sticky.
  destruct (agent (step1_mention msg cfg initial)); reflexivity.
Qed.

End RoutingStoreFacts.

(** C1 (as the code has it).  The decision engine tries the steps in the
    fixed order mention, sticky, semantic, llm_fallback, default and
    returns the earliest that qualifies: a resolvable @mention handle wins;
    otherwise the agent of a session that has not expired and has not
    drifted, and the session is touched; otherwise the best semantic match
    above its threshold; otherwise the agent the LLM classifier returns;
    otherwise the default agent.  A step that raises ends the cascade with
    that exception, so no decision is made then.  After a selection, when a
    session store is present and sticky sessions are enabled, the session
    of the thread is written (created or overwritten) with the chosen
    agent and its first handle; otherwise the store stays as the selection
    left it. *)
Theorem routing_cascade_precedence
        (clock : Routing.Clock) (llm : Routing.LLMAnswer)
        (msg tid : string) (cfg : Config.AgentsConfig)
        (router : Semantic.SemanticRouter)
        (store : option Session.SessionStore) (d : Config.AgentConfig) :
  Config.get_default_agent cfg = Py.Ok d ->
  Spec.selection
    (fst (Routing.select_agent clock llm msg tid cfg router store))
  = Spec.cascade clock llm msg tid cfg router store d
  /\ (forall a info store',
         Routing._route_with_sessions clock llm msg tid cfg router store
         = (Py.Ok (a, info), store') ->
         Spec.cascade clock llm msg tid cfg router store d
         = Py.Ok (a, Routing.method info, Routing.score info))
  /\ (forall a l store1 primary rest,
         Routing.select_agent clock llm msg tid cfg router store
         = (Py.Ok (a, l), store1) ->
         Config.handles a = primary :: rest ->
         exists store',
           Routing._route_with_sessions clock llm msg tid cfg router store
           = (Py.Ok (a, {| Routing.method := Routing.routing_method l;
                           Routing.score := Routing.routing_score l;
                           Routing.topic_drift :=
                             Routing.topic_drift_detected l |}),
              store')
           /\ (forall st,
                  store = Some st ->
                  Config.sticky_enabled (Config.session cfg) = true ->
                  exists st',
                    store' = Some st'
                    /\ Session._sessions st' !! tid
                       = Some {| Session.thread_id := tid;
                                 Session.agent_id := Config.id a;
                                 Session.agent_handle := primary;
                                 Session.created_at :=
                                   Routing.at_created clock;
                                 Session.last_activity :=
                                   Routing.at_activity clock |})
           /\ (store = None
               \/ Config.sticky_enabled (Config.session cfg) = false ->
               store' = store1))
  /\ (forall st a sc,
         store = Some st ->
         Spec.mention_step msg cfg = Py.Ok None ->
         Spec.sticky_step clock msg tid cfg router store
         = Py.Ok (Some (a, sc)) ->
         snd (Routing.select_agent clock llm msg tid cfg router store)
         = Some (snd (Session.touch (Routing.at_touch_check clock)
                        (Routing.at_touch clock) st tid))
         /\ forall s,
             Session._sessions st !! tid = Some s ->
             Session.is_expired (Routing.at_touch_check clock) s
               (Session._timeout_minutes st) = false ->
             Session._sessions
               (snd (Session.touch (Routing.at_touch_check clock)
                       (Routing.at_touch clock) st tid)) !! tid
             = Some (Session.touch_state (Routing.at_touch clock) s)).
Proof.
  intros Hd.
  pose proof (select_agent_cascade clock llm msg tid cfg router store d Hd)
    as Hsel.
  split; [exact Hsel|]. split; [|split].
  - intros a info store' Hr. rewrite <- Hsel.
    unfold Routing._route_with_sessions in Hr.
    destruct (Routing.select_agent clock llm msg tid cfg router store)
      as [[[a' l]|e] store1]; [|discriminate].
    destruct (Routing.step4_update_session clock tid cfg a' store1)
      as [[u|e] store2]; [|discriminate].
    injection Hr as <- <- <-. reflexivity.
  - intros a l store1 primary rest Hs Hh.
    unfold Routing._route_with_sessions. rewrite Hs.
    unfold Routing.step4_update_session. rewrite Hh.
    destruct store as [st|].
    + destruct (select_agent_keeps_store clock llm msg tid cfg router st)
        as [st1 Hst1].
      rewrite Hs in Hst1. simpl in Hst1. subst store1.
      destruct (Config.sticky_enabled (Config.session cfg)).
      * eexists. split; [reflexivity|]. split.
        -- intros st0 _ _. eexists. split; [reflexivity|].
           apply set_lookup.
        -- intros [H|H]; discriminate.
      * eexists. split; [reflexivity|]. split.
        -- intros st0 _ H. discriminate.
        -- intros _. reflexivity.
    + pose proof (select_agent_no_store clock llm msg tid cfg router) as Hn.
      rewrite Hs in Hn. simpl in Hn. subst store1.
      eexists. split; [reflexivity|]. split.
      * intros st H. discriminate.
      * intros _. reflexivity.
  - intros st a sc -> Hm Hst. split.
    + eapply sticky_selection_touches; eassumption.
    + intros s Hs He. apply touch_live; assumption.
Qed.

Lemma routing_cascade_precedence_witness :
  Config.get_default_agent Samples.catalog = Py.Ok Samples.general
  /\ Spec.selection
       (fst (Routing.select_agent Samples.clock Routing.NoMatch
               "show mem usage" "t1" Samples.catalog Samples.router
               (Some Samples.store_t1)))
     = Py.Ok (Samples.metrics, "sticky"%string, Some 1%Q)
  /\ Session._sessions
       (snd (Session.touch 1001 1002 Samples.store_t1 "t1")) !! "t1"%string
     = Some {| Session.thread_id := "t1"; Session.agent_id := "metrics-agent";
               Session.agent_handle := "metrics"; Session.created_at := 10;
               Session.last_activity := 1002 |}.
Proof.
  assert (Hd : Config.get_default_agent Samples.catalog
               = Py.Ok Samples.general) by reflexivity.
  destruct (routing_cascade_precedence Samples.clock Routing.NoMatch
              "show mem usage" "t1" Samples.catalog Samples.router
              (Some Samples.store_t1) Samples.general Hd)
    as (Hsel & _ & _ & Hsticky).
  split; [exact Hd|]. split.
  - rewrite Hsel. vm_compute. reflexivity.
  - assert (Hm : Spec.mention_step "show mem usage" Samples.catalog
                 = Py.Ok None) by (vm_compute; reflexivity).
    assert (Hs : Spec.sticky_step Samples.clock "show mem usage" "t1"
                   Samples.catalog Samples.router (Some Samples.store_t1)
                 = Py.Ok (Some (Samples.metrics, Some 1%Q)))
      by (vm_compute; reflexivity).
    destruct (Hsticky Samples.store_t1 Samples.metrics (Some 1%Q)
                eq_refl Hm Hs) as [_ Htouch].
    apply (Htouch {| Session.thread_id := "t1";
                     Session.agent_id := "metrics-agent";
                     Session.agent_handle := "metrics";
                     Session.created_at := 10;
                     Session.last_activity := 11 |}).
    + vm_compute. reflexivity.
    + vm_compute. reflexivity.
Defined.

(** A message of one space reaches the semantic step, which rejects it:
    no step qualifies before, and the engine raises instead of choosing
    the default agent. *)
Lemma blank_message_gets_no_decision :
  Spec.mention_step " " Samples.catalog = Py.Ok None
  /\ Spec.sticky_step Samples.clock " " "t1" Samples.catalog Samples.router
       None = Py.Ok None
  /\ fst (Routing._route_with_sessions Samples.clock Routing.NoMatch " " "t1"
            Samples.catalog Samples.router None)
     = Py.Raise (Py.ValueError "Message cannot be empty").
Proof. repeat split; vm_compute; reflexivity. Qed.

Lemma fallback_after_proxy_error_witness :
  exists events e,
    Samples.proxy_metrics_down Samples.metrics Samples.request
    = (events, Proxy.ProxyErrorRaised e)
    /\ Config.is_default_agent Samples.catalog Samples.metrics = false
    /\ exists tail,
        Pipeline.event_generator Samples.catalog Samples.metrics
          Samples.general Samples.request Samples.proxy_metrics_down "n1"
        = Pipeline.Forward Samples.metrics Samples.request
          :: map Pipeline.Emit events
          ++ [Pipeline.Emit (Agui.TextMessageStart "n1" "assistant");
              Pipeline.Emit
                (Agui.TextMessageContent "n1"
                   (Spec.notice_text "Metrics Agent" 3
                    +:+ Spec.newline +:+ Spec.newline)%string);
              Pipeline.Emit (Agui.TextMessageEnd "n1")]
          ++ Pipeline.Forward Samples.general Samples.request
             :: map Pipeline.Emit
                  (fst (Samples.proxy_metrics_down Samples.general
                          Samples.request))
          ++ tail.
Proof.
  eexists. eexists.
  assert (Hp : Samples.proxy_metrics_down Samples.metrics Samples.request
               = (?[events], Proxy.ProxyErrorRaised ?[e]))
    by (vm_compute; reflexivity).
  split; [exact Hp|]. split; [reflexivity|].
  destruct (fallback_after_proxy_error Samples.catalog Samples.metrics
              Samples.general Samples.request Samples.proxy_metrics_down
              "n1" _ _ Hp) as (Hnd & _ & _).
  destruct (Hnd eq_refl) as (tail & Heq & _).
  exists tail. exact Heq.
Defined.

(** The delta of the notice is not the bare notice of the claim: two
    newline characters follow it. *)
Lemma notice_delta_has_trailing_newlines :
  exists delta,
    nth_error
      (Pipeline.event_generator Samples.catalog Samples.metrics
         Samples.general Samples.request Samples.proxy_metrics_down "n1") 3
    = Some (Pipeline.Emit (Agui.TextMessageContent "n1" delta))
    /\ delta
       <> "[Notice: Agent 'Metrics Agent' unavailable after 3 attempt(s). Routing to general assistant.]"%string.
Proof.
  eexists. split; [vm_compute; reflexivity|].
  intros H. apply (f_equal String.length) in H. vm_compute in H.
  discriminate H.
Qed.

(** ** A2A translator *)

Section TranslatorFacts.
Import Py Translator.

Lemma prefix_contains (p s : string) :
  String.prefix p s = true -> contains p s = true.
Proof. intros H. destruct s; cbn [contains]; rewrite H; reflexivity. Qed.

Lemma Qnat_pos (n : nat) : (0 < n)%nat -> exists p, Qnat n = (Zpos p # 1)%Q.
Proof.
  intros H. unfold Qnat, inject_Z.
  destruct (Z.of_nat n) as [|p|p] eqn:E; try lia. exists p. reflexivity.
Qed.

Lemma ratio_ge (lt la : nat) (a b : positive) :
  (0 < la)%nat ->
  Qle_bool (Zpos a # b) (Qnat lt / Qnat la)
  = (Zpos a * Z.of_nat la <=? Zpos b * Z.of_nat lt).
Proof.
  intros Hla. apply eq_true_iff_eq. rewrite Qle_bool_iff, Z.leb_le.
  destruct (Qnat_pos la Hla) as [p Hp].
  assert (Hz : Z.of_nat la = Zpos p).
  { unfold Qnat, inject_Z in Hp. congruence. }
  rewrite Hp, Hz. unfold Qnat, inject_Z, Qle, Qdiv, Qmult, Qinv. simpl.
  rewrite Pos.mul_1_l. lia.
Qed.

Lemma ratio_le (lt la : nat) (a b : positive) :
  (0 < la)%nat ->
  Qle_bool (Qnat lt / Qnat la) (Zpos a # b)
  = (Zpos b * Z.of_nat lt <=? Zpos a * Z.of_nat la).
Proof.
  intros Hla. apply eq_true_iff_eq. rewrite Qle_bool_iff, Z.leb_le.
  destruct (Qnat_pos la Hla) as [p Hp].
  assert (Hz : Z.of_nat la = Zpos p).
  { unfold Qnat, inject_Z in Hp. congruence. }
  rewrite Hp, Hz. unfold Qnat, inject_Z, Qle, Qdiv, Qmult, Qinv. simpl.
  rewrite Pos.mul_1_l. lia.
Qed.

Lemma overlap_gt (la c : nat) :
  Semantic.Qlt_b (Qnat la * (8 # 10)) (Qnat c)
  = (8 * Z.of_nat la <? 10 * Z.of_nat c).
Proof.
  unfold Semantic.Qlt_b. apply eq_true_iff_eq.
  rewrite negb_true_iff, Z.ltb_lt, <- not_true_iff_false, Qle_bool_iff.
  unfold Qnat, inject_Z, Qle, Qmult. simpl. lia.
Qed.

Lemma is_duplicate_content_spec (text accumulated : string) :
  _is_duplicate_content text accumulated = Spec.is_duplicate text accumulated.
Proof.
  unfold _is_duplicate_content, Spec.is_duplicate.
  destruct accumulated as [|c acc]; [reflexivity|].
  cbn [truthy negb].
  destruct (String.eqb text (String c acc)); [reflexivity|].
  destruct (contains text (String c acc)) eqn:Hc; [reflexivity|].
  assert (Hp : startswith (String c acc) text = false).
  { unfold startswith.
    destruct (String.prefix text (String c acc)) eqn:E; [|reflexivity].
    apply prefix_contains in E. congruence. }
  rewrite Hp.
  destruct (startswith text (String c acc)); [reflexivity|].
  destruct (String.eqb (normalized text) (normalized (String c acc)));
    [reflexivity|].
  rewrite ratio_ge, ratio_le, overlap_gt by (simpl; lia).
  replace (50 <? String.length (String c acc))%nat
    with (50 <? Z.of_nat (String.length (String c acc))).
  2:{ apply eq_true_iff_eq. rewrite Z.ltb_lt, Nat.ltb_lt. lia. }
  rewrite <- !andb_assoc. reflexivity.
Qed.

Lemma append_nil_r (s : string) : (s +:+ "")%string = s.
Proof. induction s as [|c s IH]; simpl; [reflexivity | now rewrite IH]. Qed.

Lemma drop_length_prefix (p s : string) : drop (String.length p) (p +:+ s) = s.
Proof. induction p as [|c p IH]; simpl; [reflexivity | exact IH]. Qed.

Lemma eqb_refl (s : string) : String.eqb s s = true.
Proof. apply String.eqb_eq. reflexivity. Qed.

(** What one plain delta does to the translator. *)
Lemma emit_plain_delta (d mid : string) (started : bool) (acc : string) :
  truthy d = true ->
  negb (truthy acc) || negb (startswith d acc) = true ->
  run_steps (emit_and_append d mid started acc) started acc
  = ((if started then [] else [Agui.TextMessageStart mid "assistant"])
     ++ [Agui.TextMessageContent mid d],
     true, (acc +:+ d)%string).
Proof.
  intros Hd Hfresh. unfold emit_and_append, _emit_text_events.
  destruct acc as [|c acc].
  - assert (Hs : startswith d "" = true) by (destruct d; reflexivity).
    rewrite Hs. cbn [String.length drop]. rewrite Hd.
    destruct started; reflexivity.
  - cbn [truthy negb orb] in Hfresh. apply negb_true_iff in Hfresh.
    rewrite Hfresh, Hd. destruct started; reflexivity.
Qed.

Lemma translate_status carries_d mid started acc r :
  Spec.carries r carries_d -> truthy carries_d = true ->
  _translate_response r mid started acc
  = emit_and_append carries_d mid started acc.
Proof.
  intros (e & -> & He) Hd. unfold _translate_response, text_of.
  rewrite He, Hd. reflexivity.
Qed.

Lemma concat_cons_app (d : string) (ds : list string) :
  String.concat "" (d :: ds) = (d +:+ String.concat "" ds)%string.
Proof.
  destruct ds as [|d' ds]; simpl.
  - symmetry. apply append_nil_r.
  - reflexivity.
Qed.

(** The run of the translator over plain deltas. *)
Lemma translate_plain_deltas fin tid rid mid rest :
  forall rs ds started acc,
    Forall2 Spec.carries rs ds ->
    Spec.plain_deltas acc ds = true ->
    translate_from (rs ++ rest) fin tid rid mid started acc
    = match ds with
      | [] => translate_from rest fin tid rid mid started acc
      | _ =>
          (if started then [] else [Agui.TextMessageStart mid "assistant"])
          ++ map (Agui.TextMessageContent mid) ds
          ++ translate_from rest fin tid rid mid true
               (acc +:+ String.concat "" ds)%string
      end.
Proof.
  induction rs as [|r rs IH]; intros ds started acc HF Hp.
  - inversion HF; subst. reflexivity.
  - inversion HF as [|r' d rs' ds' Hc HF']; subst.
    cbn [Spec.plain_deltas] in Hp.
    apply andb_true_iff in Hp as [Hp Hrest].
    apply andb_true_iff in Hp as [Hd Hfresh].
    cbn [app translate_from].
    rewrite (translate_status d mid started acc r Hc Hd).
    rewrite (emit_plain_delta d mid started acc Hd Hfresh).
    rewrite (IH ds' true (acc +:+ d)%string HF' Hrest).
    rewrite concat_cons_app.
    destruct ds' as [|d2 ds2].
    + cbn [String.concat map]. rewrite append_nil_r.
      rewrite <- app_assoc. reflexivity.
    + rewrite <- app_assoc. cbn [app map].
      rewrite append_assoc. reflexivity.
Qed.

End TranslatorFacts.

Section TranslatorStreamFacts.
Import Py Translator.

Lemma content_deltas_app (es1 es2 : list Agui.Event) :
  content_deltas (es1 ++ es2) = content_deltas es1 ++ content_deltas es2.
Proof.
  induction es1 as [|e es1 IH]; simpl; [reflexivity|].
  destruct e; simpl; rewrite ?IH; reflexivity.
Qed.

Lemma content_deltas_contents (mid : string) (ds : list string) :
  content_deltas (map (Agui.TextMessageContent mid) ds) = ds.
Proof. induction ds as [|d ds IH]; simpl; [reflexivity | now rewrite IH]. Qed.

Lemma plain_deltas_concat_truthy (acc d : string) (ds : list string) :
  Spec.plain_deltas acc (d :: ds) = true ->
  truthy (String.concat "" (d :: ds)) = true.
Proof.
  intros H. cbn [Spec.plain_deltas] in H.
  apply andb_true_iff in H as [H _]. apply andb_true_iff in H as [Hd _].
  rewrite concat_cons_app. destruct d; [discriminate | reflexivity].
Qed.

(** A final task that repeats the accumulated text adds nothing. *)
Lemma translate_duplicate_task (final : Response) (text mid : string) :
  Spec.task_with final text -> truthy text = true ->
  _translate_response final mid true text = [(None, true, text)].
Proof.
  intros (task & -> & Ht) Htext. unfold _translate_response, text_of.
  rewrite Ht, Htext, is_duplicate_content_spec. unfold Spec.is_duplicate.
  destruct text as [|c text]; [discriminate|].
  rewrite eqb_refl. reflexivity.
Qed.

Lemma translate_empty_task (final : Response) (mid : string) :
  Spec.task_with final "" ->
  _translate_response final mid false "" = [(None, false, ""%string)].
Proof.
  intros (task & -> & Ht). unfold _translate_response, text_of.
  rewrite Ht. reflexivity.
Qed.

End TranslatorStreamFacts.

(** C3 (as the code has it).  The duplicate-suppression predicate decides
    in this order: not duplicate when nothing is accumulated; duplicate on
    equality; duplicate when the task text is a substring of the
    accumulated text; not duplicate when the accumulated text is a proper
    prefix of the task text; duplicate when both are equal after
    whitespace normalization; duplicate when the accumulated text is longer
    than 50, the length ratio lies in [0.9, 1.1] and the number of equal
    leading characters exceeds 0.8 times the accumulated length; not
    duplicate otherwise.  For a stream of N status updates that carry
    deltas d1..dN, each of them non-empty and none of them beginning with
    the text accumulated before it, followed by a final task whose history
    text is d1+...+dN, the translator emits exactly N content events, with
    the deltas d1..dN. *)
Theorem duplicate_suppression :
  (forall text accumulated,
      Translator._is_duplicate_content text accumulated
      = Spec.is_duplicate text accumulated)
  /\ (forall (rs : list Translator.Response) (ds : list string)
             (final : Translator.Response)
             (tid rid mid : string) (display_name : option string),
         Forall2 Spec.carries rs ds ->
         Spec.plain_deltas "" ds = true ->
         Spec.task_with final (String.concat "" ds) ->
         Translator.content_deltas
           (Translator._translate_stream (rs ++ [final]) Translator.Exhausted
              tid rid display_name mid) = ds
         /\ exists started,
             Translator._translate_stream (rs ++ [final])
               Translator.Exhausted tid rid display_name mid
             = started
               :: match ds with
                  | [] => [Agui.RunFinished tid rid]
                  | _ =>
                      Agui.TextMessageStart mid "assistant"
                      :: map (Agui.TextMessageContent mid) ds
                      ++ [Agui.TextMessageEnd mid; Agui.RunFinished tid rid]
                  end).
Proof.
  split; [exact is_duplicate_content_spec|].
  intros rs ds final tid rid mid dn HF Hp Hfinal.
  assert (Hrun :
    Translator.translate_from (rs ++ [final]) Translator.Exhausted tid rid mid
      false ""
    = match ds with
      | [] => [Agui.RunFinished tid rid]
      | _ =>
          Agui.TextMessageStart mid "assistant"
          :: map (Agui.TextMessageContent mid) ds
          ++ [Agui.TextMessageEnd mid; Agui.RunFinished tid rid]
      end).
  { rewrite (translate_plain_deltas Translator.Exhausted tid rid mid [final]
               rs ds false "" HF Hp).
    destruct ds as [|d ds].
    - cbn [Translator.translate_from].
      rewrite (translate_empty_task final mid Hfinal). reflexivity.
    - cbn [Translator.translate_from app].
      change ("" +:+ String.concat "" (d :: ds))%string
        with (String.concat "" (d :: ds)).
      rewrite (translate_duplicate_task final _ mid Hfinal
                 (plain_deltas_concat_truthy "" d ds Hp)).
      reflexivity. }
  unfold Translator._translate_stream. rewrite Hrun. split.
  - destruct ds as [|d ds]; [reflexivity|].
    cbn [Translator.content_deltas].
    rewrite content_deltas_app, content_deltas_contents. simpl.
    rewrite app_nil_r. reflexivity.
  - eexists. reflexivity.
Qed.

Lemma duplicate_suppression_witness :
  Forall2 Spec.carries
    (map Translator.status_update
       ["Hello"; "!"; " How"; " are"; " you"; "?"]%string)
    ["Hello"; "!"; " How"; " are"; " you"; "?"]%string
  /\ Spec.plain_deltas ""
       ["Hello"; "!"; " How"; " are"; " you"; "?"]%string = true
  /\ Translator.content_deltas
       (Translator._translate_stream
          (map Translator.status_update
             ["Hello"; "!"; " How"; " are"; " you"; "?"]%string
           ++ [Translator.final_task "Hello! How are you?"])
          Translator.Exhausted "t1" "r1" None "m1")
     = ["Hello"; "!"; " How"; " are"; " you"; "?"]%string.
Proof.
  assert (HF : Forall2 Spec.carries
                 (map Translator.status_update
                    ["Hello"; "!"; " How"; " are"; " you"; "?"]%string)
                 ["Hello"; "!"; " How"; " are"; " you"; "?"]%string).
  { repeat constructor; eexists; split; reflexivity. }
  assert (Hp : Spec.plain_deltas ""
                 ["Hello"; "!"; " How"; " are"; " you"; "?"]%string = true)
    by reflexivity.
  split; [exact HF|]. split; [exact Hp|].
  apply (proj2 duplicate_suppression _ _
           (Translator.final_task "Hello! How are you?") "t1" "r1" "m1" None
           HF Hp).
  eexists. split; reflexivity.
Defined.

(** Two status updates that carry the same delta "ha", then a final task
    with "haha": the second delta counts as the cumulative text so far and
    is dropped, so one content event is emitted, not two. *)
Lemma repeated_delta_is_dropped :
  Forall2 Spec.carries
    [Translator.status_update "ha"; Translator.status_update "ha"]
    ["ha"; "ha"]%string
  /\ Spec.task_with (Translator.final_task "haha")
       (String.concat "" ["ha"; "ha"]%string)
  /\ Translator.content_deltas
       (Translator._translate_stream
          [Translator.status_update "ha"; Translator.status_update "ha";
           Translator.final_task "haha"]
          Translator.Exhausted "t1" "r1" None "m1")
     = ["ha"%string].
Proof.
  split; [|split].
  - repeat constructor; eexists; split; reflexivity.
  - eexists. split; reflexivity.
  - vm_compute. reflexivity.
Qed.

(** ** Mention stripping *)

Section MentionFacts.
Import Py Mention.

Lemma truthy_take_handle (s : string) :
  truthy (take_handle s) = Spec.starts_handle s.
Proof. destruct s as [|c s]; simpl; [reflexivity|]. destruct (is_handle_char c); reflexivity. Qed.

Lemma search_cons (c : ascii) (s : string) :
  search (String c s) = None
  <-> (is_at c && Spec.starts_handle s = false) /\ search s = None.
Proof.
  cbn [search]. rewrite truthy_take_handle.
  destruct (is_at c && Spec.starts_handle s); split; try tauto; try discriminate.
  intros [H _]. discriminate.
Qed.

(** After the substitution no mention is left. *)
Lemma sub_empty_no_mention (s : string) :
  forall b,
    search (sub_empty b s) = None
    /\ (b = true \/ Spec.starts_handle s = false ->
        Spec.starts_handle (sub_empty b s) = false).
Proof.
  induction s as [|c rest IH]; intros b.
  - split; reflexivity.
  - cbn [sub_empty]. rewrite truthy_take_handle.
    destruct (b && is_handle_char c) eqn:E1.
    { destruct (IH true) as [H1 H2]. split; [exact H1|]. intros _. apply H2. now left. }
    destruct (is_at c && Spec.starts_handle rest) eqn:E2.
    { destruct (IH true) as [H1 H2]. split; [exact H1|]. intros _. apply H2. now left. }
    destruct (IH false) as [H1 H2]. split.
    + apply search_cons. split; [|exact H1].
      destruct (is_at c); [|reflexivity]. cbn [andb] in *.
      apply H2. now right.
    + intros [-> | H]; cbn [Spec.starts_handle] in *.
      * exact E1.
      * exact H.
Qed.

Lemma space_not_at (c : ascii) : isspace c = true -> is_at c = false.
Proof.
  unfold isspace, is_at. destruct (N.eqb_spec (N_of_ascii c) 64) as [->|]; [|reflexivity].
  vm_compute. discriminate.
Qed.

Lemma space_not_handle (c : ascii) : isspace c = true -> is_handle_char c = false.
Proof.
  unfold isspace, is_handle_char. intros H.
  repeat rewrite orb_true_iff in H. repeat rewrite andb_true_iff in H.
  repeat rewrite N.leb_le in H. repeat rewrite N.eqb_eq in H.
  repeat rewrite orb_false_iff. repeat rewrite andb_false_iff.
  repeat rewrite N.leb_gt. repeat rewrite N.eqb_neq.
  lia.
Qed.

Lemma split_nonspace (c : ascii) (s : string) :
  isspace c = false -> exists w ws, split (String c s) = String c w :: ws.
Proof.
  intros Hc. cbn [split]. rewrite Hc.
  destruct s as [|c' r]; [eexists; eexists; reflexivity|].
  destruct (isspace c'); [eexists; eexists; reflexivity|].
  destruct (split (String c' r)); eexists; eexists; reflexivity.
Qed.

Lemma join_head (c : ascii) (w : string) (ws : list string) :
  exists r, join " " (String c w :: ws) = String c r.
Proof.
  unfold join. destruct ws as [|w' ws]; simpl; eexists; reflexivity.
Qed.

Lemma normalized_head (c : ascii) (s : string) :
  isspace c = false -> exists r, Translator.normalized (String c s) = String c r.
Proof.
  intros Hc. unfold Translator.normalized.
  destruct (split_nonspace c s Hc) as (w & ws & ->). apply join_head.
Qed.

Lemma join_cons_char (c : ascii) (w : string) (ws : list string) :
  join " " (String c w :: ws) = String c (join " " (w :: ws)).
Proof. unfold join. destruct ws; reflexivity. Qed.

(** The four cases of [normalized] on a non-empty text. *)
Lemma normalized_space (c : ascii) (s : string) :
  isspace c = true ->
  Translator.normalized (String c s) = Translator.normalized s.
Proof. intros Hc. unfold Translator.normalized. cbn [split]. rewrite Hc. reflexivity. Qed.

Lemma normalized_last (c : ascii) :
  isspace c = false ->
  Translator.normalized (String c "") = String c "".
Proof. intros Hc. unfold Translator.normalized. cbn [split]. rewrite Hc. reflexivity. Qed.

Lemma split_before_space (c c' : ascii) (r : string) :
  isspace c = false -> isspace c' = true ->
  split (String c (String c' r)) = String c "" :: split r.
Proof. intros Hc Hc'. cbn [split]. rewrite Hc, Hc'. reflexivity. Qed.

Lemma split_inside_word (c c' : ascii) (r : string) :
  isspace c = false -> isspace c' = false ->
  exists w ws, split (String c' r) = w :: ws
               /\ split (String c (String c' r)) = String c w :: ws.
Proof.
  intros Hc Hc'.
  destruct (split_nonspace c' r Hc') as (w & ws & Hs).
  exists (String c' w), ws. split; [exact Hs|].
  change (split (String c (String c' r)))
    with (if isspace c then split (String c' r)
          else if isspace c' then String c "" :: split (String c' r)
               else match split (String c' r) with
                    | w :: ws => String c w :: ws
                    | [] => [String c ""]
                    end).
  rewrite Hc, Hc', Hs. reflexivity.
Qed.

Lemma normalized_inside_word (c c' : ascii) (r : string) :
  isspace c = false -> isspace c' = false ->
  Translator.normalized (String c (String c' r))
  = String c (Translator.normalized (String c' r)).
Proof.
  intros Hc Hc'. unfold Translator.normalized.
  destruct (split_inside_word c c' r Hc Hc') as (w & ws & H1 & H2).
  rewrite H1, H2. apply join_cons_char.
Qed.

(** Normalizing whitespace brings in no mention. *)
Lemma search_normalized (s : string) :
  search s = None -> search (Translator.normalized s) = None.
Proof.
  induction s as [|c s IH]; [reflexivity|].
  intros H. apply search_cons in H as [Hat Hs].
  destruct (isspace c) eqn:Hc.
  { rewrite normalized_space by exact Hc. apply IH, Hs. }
  destruct s as [|c' r].
  { rewrite normalized_last by exact Hc. apply search_cons. split; [|reflexivity].
    apply andb_false_r. }
  destruct (isspace c') eqn:Hc'.
  - unfold Translator.normalized. rewrite split_before_space by assumption.
    specialize (IH Hs). rewrite normalized_space in IH by exact Hc'.
    unfold Translator.normalized in IH.
    unfold join. destruct (split r) as [|w ws] eqn:Er.
    + simpl. rewrite andb_false_r. reflexivity.
    + change (String.concat " " (String c "" :: w :: ws))
        with (String c (String " " (String.concat " " (w :: ws)))).
      apply search_cons. split; [apply andb_false_r|].
      apply search_cons. split; [reflexivity | exact IH].
  - rewrite normalized_inside_word by assumption.
    destruct (normalized_head c' r Hc') as [r' Hr'].
    apply search_cons. split.
    + rewrite Hr'. exact Hat.
    + apply IH, Hs.
Qed.

(** Normalizing whitespace keeps the words. *)
Lemma split_normalized (s : string) :
  split (Translator.normalized s) = split s.
Proof.
  induction s as [|c s IH]; [reflexivity|].
  destruct (isspace c) eqn:Hc.
  { rewrite normalized_space by exact Hc. rewrite IH. cbn [split]. rewrite Hc. reflexivity. }
  destruct s as [|c' r].
  { rewrite normalized_last by exact Hc. reflexivity. }
  destruct (isspace c') eqn:Hc'.
  - rewrite normalized_space in IH by exact Hc'.
    unfold Translator.normalized in *. rewrite split_before_space by assumption.
    assert (Hr : split (String c' r) = split r).
    { cbn [split]. rewrite Hc'. reflexivity. }
    rewrite Hr in IH.
    unfold join in *. destruct (split r) as [|w ws] eqn:Er.
    + simpl. cbn [split]. rewrite Hc. reflexivity.
    + change (String.concat " " (String c "" :: w :: ws))
        with (String c (String " " (String.concat " " (w :: ws)))).
      rewrite split_before_space by (exact Hc || reflexivity).
      rewrite IH. reflexivity.
  - rewrite normalized_inside_word by assumption.
    destruct (normalized_head c' r Hc') as [r' Hr'].
    destruct (split_inside_word c c' r Hc Hc') as (w & ws & H1 & H2).
    rewrite H2. rewrite Hr' in *.
    destruct (split_inside_word c c' r' Hc Hc') as (w2 & ws2 & H3 & H4).
    rewrite H4. rewrite IH, H1 in H3. injection H3 as <- <-. reflexivity.
Qed.

Lemma normalized_idempotent (s : string) :
  Translator.normalized (Translator.normalized s) = Translator.normalized s.
Proof.
  unfold Translator.normalized at 1. rewrite split_normalized. reflexivity.
Qed.

(** What [strip_mentions] returns holds no mention and has its whitespace
    collapsed. *)
Lemma strip_mentions_clean (s : string) :
  parse_mention (strip_mentions s) = None
  /\ Translator.normalized (strip_mentions s) = strip_mentions s.
Proof.
  unfold strip_mentions. destruct s as [|c s]; [split; reflexivity|].
  cbn [truthy negb]. fold (Translator.normalized (sub_empty false (String c s))).
  split.
  - unfold parse_mention.
    rewrite search_normalized by apply (sub_empty_no_mention _ false).
    destruct (negb _); reflexivity.
  - apply normalized_idempotent.
Qed.

(** *** The stripping in the words of the specification *)

Lemma handle_char_spec (c : ascii) : Spec.handle_char c = is_handle_char c.
Proof. destruct c as [[] [] [] [] [] [] [] []]; reflexivity. Qed.

Lemma at_sign_spec (c : ascii) : Spec.at_sign c = is_at c.
Proof. destruct c as [[] [] [] [] [] [] [] []]; reflexivity. Qed.

Lemma begins_handle_spec (s : string) :
  Spec.begins_handle s = Spec.starts_handle s.
Proof. destruct s; [reflexivity | apply handle_char_spec]. Qed.

Lemma match_free_search (s : string) :
  Spec.match_free s = true <-> search s = None.
Proof.
  induction s as [|c s IH]; [split; reflexivity|].
  cbn [Spec.match_free]. rewrite search_cons, andb_true_iff, negb_true_iff.
  rewrite at_sign_spec, begins_handle_spec, IH. reflexivity.
Qed.

Lemma words_from_split (s : string) :
  forall word,
    Spec.words_from word s
    = match s with
      | EmptyString => if truthy word then [word] else []
      | String c _ =>
          if isspace c
          then (if truthy word then [word] else []) ++ split s
          else match split s with
               | w :: ws => (word +:+ w)%string :: ws
               | [] => [word]
               end
      end.
Proof.
  induction s as [|c rest IH]; intros word; [reflexivity|].
  assert (Hrest : Spec.words_from "" rest = split rest).
  { rewrite IH. destruct rest as [|c' r]; [reflexivity|].
    destruct (isspace c') eqn:Hc'; [reflexivity|].
    destruct (split_nonspace c' r Hc') as (w & ws & ->). reflexivity. }
  cbn [Spec.words_from]. destruct (isspace c) eqn:Hc.
  - rewrite Hrest. cbn [split]. rewrite Hc.
    destruct (truthy word); reflexivity.
  - rewrite IH. destruct rest as [|c' r].
    + cbn [split]. rewrite Hc.
      destruct (word +:+ String c "")%string eqn:E; [|reflexivity].
      destruct word; discriminate E.
    + destruct (isspace c') eqn:Hc'.
      * rewrite (split_before_space c c' r Hc Hc').
        assert (Ht : truthy (word +:+ String c "") = true)
          by (destruct word; reflexivity).
        rewrite Ht. cbn [split app]. rewrite Hc'. reflexivity.
      * destruct (split_inside_word c c' r Hc Hc') as (w & ws & H1 & H2).
        rewrite H1, H2. rewrite append_assoc. reflexivity.
Qed.

Lemma words_split (s : string) : Spec.words s = split s.
Proof.
  unfold Spec.words. rewrite words_from_split.
  destruct s as [|c r]; [reflexivity|].
  destruct (isspace c) eqn:Hc; [reflexivity|].
  destruct (split_nonspace c r Hc) as (w & ws & ->). reflexivity.
Qed.

Lemma collapsed_normalized (s : string) :
  Spec.collapsed s = Translator.normalized s.
Proof.
  unfold Spec.collapsed, Translator.normalized, join.
  rewrite words_split. reflexivity.
Qed.

(** The longest run of handle characters at the start of a text, and the
    rest. *)
Lemma handle_prefix (s : string) :
  exists h rest,
    s = (h +:+ rest)%string
    /\ Spec.handle_chars h = true
    /\ Spec.begins_handle rest = false
    /\ (String.length rest <= String.length s)%nat
    /\ (Spec.begins_handle s = true -> Spec.is_handle h = true).
Proof.
  induction s as [|c s (h & rest & Hs & Hh & Hr & Hl & _)].
  - exists ""%string, ""%string. repeat split; try reflexivity. discriminate.
  - destruct (Spec.handle_char c) eqn:Hc.
    + exists (String c h), rest. cbn [String.append]. rewrite <- Hs.
      cbn [Spec.handle_chars Spec.is_handle String.length].
      rewrite Hc, Hh. repeat split; try assumption; try reflexivity. lia.
    + exists ""%string, (String c s).
      cbn [String.append Spec.begins_handle]. rewrite Hc.
      repeat split; try reflexivity. discriminate.
Qed.

Lemma begins_before_first (cut : Spec.Cut) :
  Spec.begins_handle (Spec.before_first cut) = true ->
  Spec.begins_handle (Spec.assemble cut) = true.
Proof.
  unfold Spec.assemble. destruct (Spec.before_first cut); [discriminate|].
  intros H. exact H.
Qed.

(** Every text has a cut at its matches. *)
Lemma every_text_has_a_cut (n : nat) :
  forall text,
    (String.length text <= n)%nat ->
    exists cut, Spec.assemble cut = text /\ Spec.cut_at_matches cut.
Proof.
  induction n as [|n IH]; intros text Hn.
  - destruct text; [|cbn [String.length] in Hn; lia].
    exists {| Spec.before_first := ""; Spec.segments := [] |}.
    split; [reflexivity|]. split; [reflexivity | constructor].
  - destruct text as [|c rest].
    { exists {| Spec.before_first := ""; Spec.segments := [] |}.
      split; [reflexivity|]. split; [reflexivity | constructor]. }
    cbn [String.length] in Hn.
    destruct (Spec.at_sign c && Spec.begins_handle rest) eqn:E.
    + apply andb_true_iff in E as [Hat Hb].
      destruct (handle_prefix rest) as (h & rest2 & Hs & Hh & Hr & Hl & Hi).
      destruct (IH rest2 ltac:(lia)) as ([p segs] & Ha & Hp & Hsegs).
      cbn [Spec.before_first Spec.segments] in *.
      exists {| Spec.before_first := "";
                Spec.segments := (h, p) :: segs |}.
      split.
      * unfold Spec.assemble in *.
        cbn [Spec.before_first Spec.segments map fst snd String.append] in *.
        rewrite concat_cons_app. cbn [String.append].
        apply Ascii.eqb_eq in Hat. subst c. f_equal.
        rewrite Hs, <- Ha, !append_assoc. reflexivity.
      * split; [reflexivity|]. constructor; [|exact Hsegs].
        cbn [fst snd]. split; [apply Hi, Hb|]. split; [exact Hp|].
        destruct (Spec.begins_handle p) eqn:Ep; [|reflexivity].
        pose proof (begins_before_first
                      {| Spec.before_first := p; Spec.segments := segs |}
                      Ep) as Hbb.
        rewrite Ha in Hbb. congruence.
    + destruct (IH rest ltac:(lia)) as ([p segs] & Ha & Hp & Hsegs).
      cbn [Spec.before_first Spec.segments] in *.
      exists {| Spec.before_first := String c p; Spec.segments := segs |}.
      split.
      * unfold Spec.assemble in *.
        cbn [Spec.before_first Spec.segments String.append] in *.
        rewrite Ha. reflexivity.
      * split; [|exact Hsegs].
        cbn [Spec.before_first Spec.match_free]. rewrite Hp, andb_true_r.
        apply negb_true_iff.
        destruct (Spec.begins_handle p) eqn:Ep; [|apply andb_false_r].
        pose proof (begins_before_first
                      {| Spec.before_first := p; Spec.segments := segs |}
                      Ep) as Hbb.
        rewrite Ha in Hbb. rewrite Hbb in E. exact E.
Qed.

(** The substitution on the pieces of a cut. *)
Lemma sub_empty_plain (p t : string) :
  Spec.match_free p = true ->
  Spec.begins_handle t = false ->
  sub_empty false (p +:+ t) = (p +:+ sub_empty false t)%string.
Proof.
  intros Hp Ht. induction p as [|c p IH]; [reflexivity|].
  cbn [Spec.match_free] in Hp. apply andb_true_iff in Hp as [Hc Hp].
  apply negb_true_iff in Hc.
  cbn [String.append sub_empty andb]. rewrite truthy_take_handle.
  assert (Hno : is_at c && Spec.starts_handle (p +:+ t) = false).
  { rewrite <- at_sign_spec, <- begins_handle_spec.
    destruct p as [|c' p']; [|exact Hc].
    cbn [String.append]. rewrite Ht. apply andb_false_r. }
  rewrite Hno, IH by exact Hp. reflexivity.
Qed.

Lemma sub_empty_run (h t : string) :
  Spec.handle_chars h = true ->
  sub_empty true (h +:+ t) = sub_empty true t.
Proof.
  induction h as [|c h IH]; intros Hh; [reflexivity|].
  cbn [Spec.handle_chars] in Hh. apply andb_true_iff in Hh as [Hc Hh].
  rewrite handle_char_spec in Hc.
  cbn [String.append sub_empty andb]. rewrite Hc. apply IH, Hh.
Qed.

Lemma sub_empty_after_run (t : string) :
  Spec.begins_handle t = false -> sub_empty true t = sub_empty false t.
Proof.
  destruct t as [|c t]; [reflexivity|]. cbn [Spec.begins_handle].
  rewrite handle_char_spec. intros Hc. cbn [sub_empty andb]. rewrite Hc.
  reflexivity.
Qed.

Lemma sub_empty_segments (segs : list (string * string)) :
  Forall (fun segment =>
            Spec.is_handle (fst segment) = true
            /\ Spec.match_free (snd segment) = true
            /\ Spec.begins_handle (snd segment) = false) segs ->
  Spec.begins_handle
    (String.concat ""
       (map (fun segment => "@" +:+ fst segment +:+ snd segment) segs))
  = false
  /\ sub_empty false
       (String.concat ""
          (map (fun segment => "@" +:+ fst segment +:+ snd segment) segs))
     = String.concat "" (map snd segs).
Proof.
  induction 1 as [|[h p] segs (Hh & Hp & Hb) _ [IHb IH]];
    [split; reflexivity|].
  cbn [map fst snd] in *. rewrite !concat_cons_app.
  set (tail := String.concat ""
                 (map (fun segment => "@" +:+ fst segment +:+ snd segment)
                      segs)) in *.
  split; [reflexivity|].
  destruct h as [|c h]; [discriminate Hh|].
  cbn [Spec.is_handle Spec.handle_chars] in Hh.
  apply andb_true_iff in Hh as [Hc Hh].
  change (("@" +:+ String c h +:+ p) +:+ tail)%string
    with (String "@" (String c ((h +:+ p) +:+ tail)))%string.
  assert (Hpt : Spec.begins_handle (p +:+ tail) = false).
  { destruct p as [|c' p']; [exact IHb | exact Hb]. }
  cbn [sub_empty andb take_handle]. rewrite <- handle_char_spec, Hc.
  cbn [truthy andb]. change (is_at "@") with true. cbv iota.
  rewrite append_assoc, (sub_empty_run h _ Hh).
  rewrite (sub_empty_after_run _ Hpt), (sub_empty_plain p tail Hp IHb), IH.
  reflexivity.
Qed.

Lemma sub_empty_kept (cut : Spec.Cut) :
  Spec.cut_at_matches cut ->
  sub_empty false (Spec.assemble cut) = Spec.kept cut.
Proof.
  intros [Hp Hsegs]. unfold Spec.assemble, Spec.kept.
  destruct (sub_empty_segments _ Hsegs) as [Hb Hs].
  rewrite (sub_empty_plain _ _ Hp Hb), Hs. reflexivity.
Qed.

(** [strip_mentions] does what the specification says, and nothing else
    does. *)
Lemma strip_mentions_strips_to (text : string) :
  Spec.strips_to text (strip_mentions text).
Proof.
  destruct (every_text_has_a_cut (String.length text) text (le_n _))
    as (cut & Ha & Hc).
  exists cut. split; [exact Ha|]. split; [exact Hc|].
  rewrite collapsed_normalized, <- (sub_empty_kept cut Hc), Ha.
  unfold strip_mentions. destruct text; reflexivity.
Qed.

Lemma strips_to_strip_mentions (text result : string) :
  Spec.strips_to text result -> result = strip_mentions text.
Proof.
  intros (cut & Ha & Hc & ->).
  rewrite collapsed_normalized, <- (sub_empty_kept cut Hc), Ha.
  unfold strip_mentions. destruct text; reflexivity.
Qed.

Lemma strip_mentions_match_free (text : string) :
  Spec.match_free (strip_mentions text) = true
  /\ Spec.collapsed (strip_mentions text) = strip_mentions text.
Proof.
  destruct (strip_mentions_clean text) as [Hp Hn]. split.
  - apply match_free_search. unfold parse_mention in Hp.
    destruct (strip_mentions text) as [|c t]; [reflexivity|].
    cbn [truthy negb] in Hp.
    destruct (search (String c t)); [discriminate | reflexivity].
  - rewrite collapsed_normalized. exact Hn.
Qed.

End MentionFacts.

(** ** The forwarding request *)

Section ForwardingFacts.
Import Agui Forwarding.

Lemma alloc_prefix (o : Obj) (h : Heap) : h `prefix_of` snd (alloc o h).
Proof. simpl. apply prefix_app_r. reflexivity. Qed.

Lemma alloc_lookup (o : Obj) (h : Heap) :
  snd (alloc o h) !! fst (alloc o h) = Some o.
Proof. simpl. apply list_lookup_middle. reflexivity. Qed.

Lemma read_all_mono {A : Type} (read read' : addr -> option A)
      (l : list addr) (xs : list A) :
  (forall a x, read a = Some x -> read' a = Some x) ->
  read_all read l = Some xs -> read_all read' l = Some xs.
Proof.
  intros Hm. revert xs. induction l as [|a l IH]; intros xs H; [exact H|].
  cbn [read_all] in *.
  destruct (read a) as [x|] eqn:Ea; [|discriminate].
  destruct (read_all read l) as [xs'|]; [|discriminate].
  rewrite (Hm _ _ Ea), (IH _ eq_refl). exact H.
Qed.

Lemma read_item_mono (h h' : Heap) (a : addr) (it : ContentItem) :
  h `prefix_of` h' -> read_item h a = Some it -> read_item h' a = Some it.
Proof.
  intros Hp. unfold read_item.
  destruct (h !! a) as [o|] eqn:E; [|discriminate].
  rewrite (prefix_lookup_Some _ _ _ _ E Hp). auto.
Qed.

Lemma read_content_mono (h h' : Heap) (c : ContentRef) (v : Content) :
  h `prefix_of` h' -> read_content h c = Some v -> read_content h' c = Some v.
Proof.
  intros Hp. destruct c as [s|items|]; cbn [read_content]; auto.
  destruct (h !! items) as [o|] eqn:E; [|discriminate].
  rewrite (prefix_lookup_Some _ _ _ _ E Hp).
  destruct o as [| elems | |]; try discriminate.
  destruct (read_all (read_item h) elems) as [its|] eqn:Er; [|discriminate].
  rewrite (read_all_mono _ (read_item h') _ _
             (fun a x => read_item_mono h h' a x Hp) Er).
  auto.
Qed.

Lemma read_message_mono (h h' : Heap) (a : addr) (m : Message) :
  h `prefix_of` h' -> read_message h a = Some m -> read_message h' a = Some m.
Proof.
  intros Hp. unfold read_message.
  destruct (h !! a) as [o|] eqn:E; [|discriminate].
  rewrite (prefix_lookup_Some _ _ _ _ E Hp).
  destruct o as [| | i r c |]; try discriminate.
  destruct (read_content h c) as [v|] eqn:Ec; [|discriminate].
  rewrite (read_content_mono _ _ _ _ Hp Ec). auto.
Qed.

Lemma read_request_mono (h h' : Heap) (a : addr) (r : ChatRequest) :
  h `prefix_of` h' -> read_request h a = Some r -> read_request h' a = Some r.
Proof.
  intros Hp. unfold read_request.
  destruct (h !! a) as [o|] eqn:E; [|discriminate].
  rewrite (prefix_lookup_Some _ _ _ _ E Hp).
  destruct o as [| | | tid msgs ex]; try discriminate.
  destruct (h !! msgs) as [o|] eqn:Em; [|discriminate].
  rewrite (prefix_lookup_Some _ _ _ _ Em Hp).
  destruct o as [| elems | |]; try discriminate.
  destruct (read_all (read_message h) elems) as [ms|] eqn:Er; [|discriminate].
  rewrite (read_all_mono _ (read_message h') _ _
             (fun a x => read_message_mono h h' a x Hp) Er).
  auto.
Qed.

Lemma strip_items_spec (items : list addr) :
  forall (h : Heap) (its : list ContentItem),
    read_all (read_item h) items = Some its ->
    exists l h',
      strip_items items h = Some (l, h')
      /\ h `prefix_of` h'
      /\ read_all (read_item h') l = Some (map stripped_item its).
Proof.
  induction items as [|a items IH]; intros h its H.
  - injection H as <-. exists [], h. repeat split; reflexivity.
  - cbn [read_all] in H.
    destruct (read_item h a) as [it|] eqn:Ea; [|discriminate].
    destruct (read_all (read_item h) items) as [its'|] eqn:Er; [|discriminate].
    injection H as <-.
    unfold read_item in Ea. cbn [strip_items].
    destruct (h !! a) as [o|] eqn:E; [|discriminate].
    destruct o; try discriminate. injection Ea as ->.
    destruct it as [t|d].
    + pose proof (alloc_prefix (ItemObj (TextInputContent (Mention.strip_mention t))) h) as Hp1.
      pose proof (alloc_lookup (ItemObj (TextInputContent (Mention.strip_mention t))) h) as Hl1.
      destruct (alloc (ItemObj (TextInputContent (Mention.strip_mention t))) h)
        as [a1 h1]. cbn [fst snd] in *.
      destruct (IH h1 its') as (l & h2 & Hs & Hp2 & Hr).
      { eapply read_all_mono; [|exact Er].
        intros; eapply read_item_mono; eassumption. }
      rewrite Hs. exists (a1 :: l), h2. split; [reflexivity|].
      split; [etransitivity; eassumption|].
      cbn [read_all map stripped_item]. unfold read_item at 1.
      rewrite (prefix_lookup_Some _ _ _ _ Hl1 Hp2), Hr. reflexivity.
    + destruct (IH h its' Er) as (l & h2 & Hs & Hp2 & Hr).
      rewrite Hs. exists (a :: l), h2. split; [reflexivity|].
      split; [exact Hp2|].
      cbn [read_all map stripped_item]. unfold read_item at 1.
      rewrite (prefix_lookup_Some _ _ _ _ E Hp2), Hr. reflexivity.
Qed.

Lemma strip_content_spec (c : ContentRef) (h : Heap) (v : Content) :
  read_content h c = Some v ->
  exists c' h',
    strip_content c h = Some (c', h')
    /\ h `prefix_of` h'
    /\ read_content h' c' = Some (stripped_content v).
Proof.
  destruct c as [s|items|]; cbn [read_content strip_content]; intros H.
  - injection H as <-. eexists; eexists. repeat split; reflexivity.
  - destruct (h !! items) as [o|] eqn:E; [|discriminate].
    destruct o as [| elems | |]; try discriminate.
    destruct (read_all (read_item h) elems) as [its|] eqn:Er; [|discriminate].
    injection H as <-.
    destruct (strip_items_spec elems h its Er) as (l & h1 & Hs & Hp1 & Hr).
    rewrite Hs.
    pose proof (alloc_prefix (ListObj l) h1) as Hp2.
    pose proof (alloc_lookup (ListObj l) h1) as Hl2.
    destruct (alloc (ListObj l) h1) as [a2 h2]. cbn [fst snd] in *.
    eexists; eexists. split; [reflexivity|].
    split; [etransitivity; eassumption|].
    cbn [read_content stripped_content]. rewrite Hl2.
    rewrite (read_all_mono _ (read_item h2) _ _
               (fun a x => read_item_mono h1 h2 a x Hp2) Hr).
    reflexivity.
  - injection H as <-. eexists; eexists. repeat split; reflexivity.
Qed.

Lemma strip_messages_spec (msgs : list addr) :
  forall (h : Heap) (ms : list Message),
    read_all (read_message h) msgs = Some ms ->
    exists l h',
      strip_messages msgs h = Some (l, h')
      /\ h `prefix_of` h'
      /\ read_all (read_message h') l = Some (map stripped_message ms).
Proof.
  induction msgs as [|a msgs IH]; intros h ms H.
  - injection H as <-. exists [], h. repeat split; reflexivity.
  - cbn [read_all] in H.
    destruct (read_message h a) as [m|] eqn:Ea; [|discriminate].
    destruct (read_all (read_message h) msgs) as [ms'|] eqn:Er;
      [|discriminate].
    injection H as <-.
    unfold read_message in Ea. cbn [strip_messages].
    destruct (h !! a) as [o|] eqn:E; [|discriminate].
    destruct o as [| | i r c |]; try discriminate.
    destruct (read_content h c) as [v|] eqn:Ec; [|discriminate].
    injection Ea as <-.
    destruct (String.eqb r "user") eqn:Eu.
    + destruct (strip_content_spec c h v Ec) as (c' & h1 & Hs & Hp1 & Hr1).
      rewrite Hs.
      pose proof (alloc_prefix (MessageObj i r c') h1) as Hp2.
      pose proof (alloc_lookup (MessageObj i r c') h1) as Hl2.
      destruct (alloc (MessageObj i r c') h1) as [a2 h2]. cbn [fst snd] in *.
      destruct (IH h2 ms') as (l & h3 & Hs3 & Hp3 & Hr3).
      { eapply read_all_mono; [|exact Er].
        intros; eapply read_message_mono; [|eassumption].
        etransitivity; eassumption. }
      rewrite Hs3. exists (a2 :: l), h3. split; [reflexivity|].
      split; [etransitivity; [eassumption|]; etransitivity; eassumption|].
      cbn [read_all]. unfold read_message at 1.
      rewrite (prefix_lookup_Some _ _ _ _ Hl2 Hp3).
      rewrite (read_content_mono h1 h3 c' _ (transitivity Hp2 Hp3) Hr1).
      cbn [map]. unfold stripped_message at 1. cbn [role id content].
      rewrite Eu, Hr3. reflexivity.
    + destruct (IH h ms' Er) as (l & h3 & Hs3 & Hp3 & Hr3).
      rewrite Hs3. exists (a :: l), h3. split; [reflexivity|].
      split; [exact Hp3|].
      cbn [read_all]. unfold read_message at 1.
      rewrite (prefix_lookup_Some _ _ _ _ E Hp3).
      rewrite (read_content_mono h h3 c _ Hp3 Ec).
      cbn [map]. unfold stripped_message at 1. cbn [role id content].
      rewrite Eu, Hr3. reflexivity.
Qed.

Lemma strip_request_spec (h : Heap) (a : addr) (r : ChatRequest) :
  read_request h a = Some r ->
  exists a' h',
    _strip_mentions_from_request a h = Some (a', h')
    /\ h `prefix_of` h'
    /\ read_request h' a' = Some (forwarding_request r).
Proof.
  unfold read_request, _strip_mentions_from_request. intros H.
  destruct (h !! a) as [o|] eqn:E; [|discriminate].
  destruct o as [| | | tid msgs ex]; try discriminate.
  destruct (h !! msgs) as [o|] eqn:Em; [|discriminate].
  destruct o as [| elems | |]; try discriminate.
  destruct (read_all (read_message h) elems) as [ms|] eqn:Er; [|discriminate].
  injection H as <-.
  destruct (strip_messages_spec elems h ms Er) as (l & h1 & Hs & Hp1 & Hr1).
  rewrite Hs.
  pose proof (alloc_prefix (ListObj l) h1) as Hp2.
  pose proof (alloc_lookup (ListObj l) h1) as Hl2.
  destruct (alloc (ListObj l) h1) as [a2 h2]. cbn [fst snd] in *.
  pose proof (alloc_prefix (RequestObj tid a2 ex) h2) as Hp3.
  pose proof (alloc_lookup (RequestObj tid a2 ex) h2) as Hl3.
  destruct (alloc (RequestObj tid a2 ex) h2) as [a3 h3]. cbn [fst snd] in *.
  exists a3, h3. split; [reflexivity|].
  split; [etransitivity; [eassumption|]; etransitivity; eassumption|].
  rewrite Hl3. rewrite (prefix_lookup_Some _ _ _ _ Hl2 Hp3).
  rewrite (read_all_mono _ (read_message h3) _ _
             (fun a x => read_message_mono h1 h3 a x (transitivity Hp2 Hp3))
             Hr1).
  reflexivity.
Qed.

End ForwardingFacts.

Section ForwardedFacts.
Import Agui Forwarding.

Lemma texts_of_stripped (c : Content) :
  texts_of (stripped_content c) = map Mention.strip_mentions (texts_of c).
Proof.
  destruct c as [s|items|]; [reflexivity| |reflexivity].
  cbn [stripped_content texts_of].
  induction items as [|it items IH]; [reflexivity|].
  cbn [map flat_map]. rewrite IH.
  destruct it; reflexivity.
Qed.

Lemma stripped_content_forwarded (c : Content) :
  Spec.content_forwarded_as c (stripped_content c).
Proof.
  destruct c as [s|items|]; cbn [stripped_content Spec.content_forwarded_as].
  - apply strip_mentions_strips_to.
  - induction items as [|it items IH]; constructor; [|exact IH].
    destruct it; cbn [stripped_item Spec.item_forwarded_as];
      [apply strip_mentions_strips_to | reflexivity].
  - exact I.
Qed.

Lemma stripped_message_forwarded (m : Message) :
  Spec.forwarded_as m (stripped_message m).
Proof.
  unfold Spec.forwarded_as, stripped_message.
  destruct (String.eqb_spec (role m) "user") as [Hu|Hu]; cbn [id role content].
  - split; [reflexivity|]. split; [reflexivity|]. split.
    + intros Hn. contradiction.
    + intros _. split; [apply stripped_content_forwarded|].
      rewrite texts_of_stripped. apply List.Forall_forall. intros t Ht.
      apply in_map_iff in Ht as (s & Hs & _). subst t.
      apply strip_mentions_match_free.
  - split; [reflexivity|]. split; [reflexivity|]. split.
    + intros _. reflexivity.
    + intros Hn. contradiction.
Qed.

Lemma forwarding_request_forwarded (r : ChatRequest) :
  Forall2 Spec.forwarded_as (messages r) (messages (forwarding_request r)).
Proof.
  cbn [forwarding_request messages].
  induction (messages r) as [|m ms IH]; constructor.
  - apply stripped_message_forwarded.
  - exact IH.
Qed.

End ForwardedFacts.

(** C9.  For a request at address [request] of the object heap, the
    forwarding request is a new object whose messages are, in order: for
    every message whose role is user, a copy in which every text is the
    text of the original with all its @mentions removed, the rest of the
    text kept, and its whitespace runs collapsed to single spaces and
    trimmed ([Spec.strips_to]; no mention is left in it), an item without
    text being kept as it is; for every other message, the message
    itself, with identical content.  Thread id and the other fields are
    kept.  The construction writes to no existing object: every object of
    the heap is unchanged afterwards, and the original request reads as
    before. *)
Theorem forwarding_request_strips_user_mentions
        (h : list Forwarding.Obj) (request : nat) (r : Agui.ChatRequest) :
  Forwarding.read_request h request = Some r ->
  exists forwarding h',
    Forwarding._strip_mentions_from_request request h = Some (forwarding, h')
    /\ Forwarding.read_request h' forwarding
       = Some (Forwarding.forwarding_request r)
    /\ Forall2 Spec.forwarded_as (Agui.messages r)
         (Agui.messages (Forwarding.forwarding_request r))
    /\ Agui.thread_id (Forwarding.forwarding_request r) = Agui.thread_id r
    /\ Agui.extras (Forwarding.forwarding_request r) = Agui.extras r
    /\ (forall a o, h !! a = Some o -> h' !! a = Some o)
    /\ Forwarding.read_request h' request = Some r.
Proof.
  intros Hr.
  destruct (strip_request_spec h request r Hr) as (a' & h' & Hs & Hp & Hf).
  exists a', h'. split; [exact Hs|]. split; [exact Hf|].
  split; [apply forwarding_request_forwarded|].
  split; [reflexivity|]. split; [reflexivity|]. split.
  - intros a o Ha. eapply prefix_lookup_Some; eassumption.
  - eapply read_request_mono; eassumption.
Qed.

Lemma forwarding_request_strips_user_mentions_witness :
  Forwarding.read_request Samples.request_heap 3 = Some Samples.request
  /\ exists forwarding h',
      Forwarding._strip_mentions_from_request 3 Samples.request_heap
      = Some (forwarding, h')
      /\ Forwarding.read_request h' forwarding
         = Some {| Agui.thread_id := "t1";
                   Agui.messages :=
                     [{| Agui.id := "m0"; Agui.role := "system";
                         Agui.content :=
                           Agui.ContentStr "You are @assistant" |};
                      {| Agui.id := "m1"; Agui.role := "user";
                         Agui.content := Agui.ContentStr "show cpu" |}];
                   Agui.extras := "" |}
      /\ Spec.strips_to "@metrics  show cpu" "show cpu"
      /\ Forwarding.read_request h' 3 = Some Samples.request.
Proof.
  assert (Hr : Forwarding.read_request Samples.request_heap 3
               = Some Samples.request) by reflexivity.
  split; [exact Hr|].
  destruct (forwarding_request_strips_user_mentions Samples.request_heap 3
              Samples.request Hr)
    as (a' & h' & Hs & Hf & Hfw & _ & _ & _ & Ho).
  exists a', h'. split; [exact Hs|]. split; [exact Hf|].
  split; [|exact Ho].
  inversion Hfw as [|m0 m0' ms ms' _ Hrest]; subst.
  inversion Hrest as [|m1 m1' ms1 ms1' (_ & _ & _ & Hu) _]; subst.
  exact (proj1 (Hu eq_refl)).
Defined.

(** ** Semantic matcher *)

Section DictFacts.
Import Py Semantic.

Lemma dict_get_above (n k : nat) (d : Best) :
  Spec.keys_below n d -> (n <= k)%nat -> dict_get k d = None.
Proof.
  intros Hd Hk. induction Hd as [|[k' v] d Hk' _ IH]; [reflexivity|].
  cbn [dict_get]. simpl in Hk'.
  destruct (Nat.eqb_spec k' k); [lia | exact IH].
Qed.

Lemma dict_set_absent (k : nat) (v : Q * string) (d : Best) :
  dict_get k d = None -> dict_set k v d = d ++ [(k, v)].
Proof.
  induction d as [|[k' v'] d IH]; intros H; [reflexivity|].
  cbn [dict_get dict_set] in *.
  destruct (Nat.eqb k' k); [discriminate|]. rewrite IH by exact H. reflexivity.
Qed.

Lemma dict_get_last (k : nat) (v : Q * string) (d : Best) :
  dict_get k d = None -> dict_get k (d ++ [(k, v)]) = Some v.
Proof.
  induction d as [|[k' v'] d IH]; intros H; cbn [dict_get app] in *.
  - rewrite Nat.eqb_refl. reflexivity.
  - destruct (Nat.eqb k' k); [discriminate | apply IH, H].
Qed.

Lemma dict_set_last (k : nat) (v v0 : Q * string) (d : Best) :
  dict_get k d = None -> dict_set k v (d ++ [(k, v0)]) = d ++ [(k, v)].
Proof.
  induction d as [|[k' v'] d IH]; intros H; cbn [dict_get dict_set app] in *.
  - rewrite Nat.eqb_refl. reflexivity.
  - destruct (Nat.eqb k' k); [discriminate|]. rewrite IH by exact H. reflexivity.
Qed.

Lemma update_best_absent (acc : Best) (s : Q) (i : nat) (ex : string) :
  dict_get i acc = None -> update_best acc s i ex = acc ++ [(i, (s, ex))].
Proof.
  intros H. unfold update_best. rewrite H. apply dict_set_absent, H.
Qed.

Lemma update_best_last (acc : Best) (cur : Q * string) (s : Q) (i : nat)
      (ex : string) :
  dict_get i acc = None ->
  update_best (acc ++ [(i, cur)]) s i ex
  = acc ++ [(i, if Qlt_b (fst cur) s then (s, ex) else cur)].
Proof.
  intros H. unfold update_best. rewrite (dict_get_last i cur acc H).
  destruct (Qlt_b (fst cur) s); [|reflexivity].
  apply dict_set_last, H.
Qed.

(** The rows of one agent, once the agent has an entry. *)
Lemma fold_agent_rows (f : string -> Q) (i : nat) (exs : list string) :
  forall (acc : Best) (cur : Q * string),
    dict_get i acc = None ->
    fold_left (fun acc row => update_best acc (f (snd row)) (fst row) (snd row))
              (map (pair i) exs) (acc ++ [(i, cur)])
    = acc ++ [(i, Spec.best_example f cur exs)].
Proof.
  induction exs as [|ex exs IH]; intros acc cur H; [reflexivity|].
  cbn [map fold_left fst snd Spec.best_example].
  rewrite (update_best_last acc cur (f ex) i ex H). apply IH, H.
Qed.

Lemma keys_below_snoc (n : nat) (d : Best) (v : Q * string) :
  Spec.keys_below n d -> Spec.keys_below (S n) (d ++ [(n, v)]).
Proof.
  intros H. apply List.Forall_app. split.
  - eapply List.Forall_impl; [|exact H]. simpl. intros; lia.
  - constructor; [simpl; lia | constructor].
Qed.

Lemma keys_below_S (n : nat) (d : Best) :
  Spec.keys_below n d -> Spec.keys_below (S n) d.
Proof. intros H. eapply List.Forall_impl; [|exact H]. simpl. intros; lia. Qed.

(** The loop over all rows of the index leaves, in agent order, the best
    score and example of every agent that has examples. *)
Lemma fold_collect_examples (f : string -> Q) (agents : list Config.AgentConfig) :
  forall (i0 : nat) (acc : Best),
    Spec.keys_below i0 acc ->
    fold_left (fun acc row => update_best acc (f (snd row)) (fst row) (snd row))
              (collect_examples i0 agents) acc
    = acc ++ Spec.best_per_agent f i0 agents.
Proof.
  induction agents as [|a agents IH]; intros i0 acc Hk.
  - simpl. symmetry. apply app_nil_r.
  - cbn [collect_examples Spec.best_per_agent]. unfold Spec.examples_of.
    destruct (Config.routing a) as [r|]; [|apply IH, keys_below_S, Hk].
    destruct (Config.examples r) as [|ex exs]; [apply IH, keys_below_S, Hk|].
    rewrite fold_left_app.
    assert (Hg : dict_get i0 acc = None) by (eapply dict_get_above; eauto).
    cbn [map fold_left fst snd].
    rewrite (update_best_absent acc (f ex) i0 ex Hg).
    rewrite (fold_agent_rows f i0 exs acc _ Hg).
    rewrite IH by (apply keys_below_snoc, Hk).
    rewrite <- app_assoc. reflexivity.
Qed.

Lemma best_scores_fold (f : nat * string -> Q) (rows : list (nat * string)) :
  forall (pre : list (nat * string)) (acc : Best),
    best_scores (pre ++ rows) (List.length pre) (map f rows) acc
    = Ok (fold_left (fun acc row => update_best acc (f row) (fst row) (snd row))
                    rows acc).
Proof.
  induction rows as [|[i ex] rows IH]; intros pre acc; [reflexivity|].
  cbn [map best_scores fold_left fst snd].
  rewrite nth_error_app2 by lia. rewrite Nat.sub_diag. cbn [nth_error].
  specialize (IH (pre ++ [(i, ex)])).
  rewrite <- app_assoc, length_app in IH. cbn [app List.length] in IH.
  rewrite Nat.add_1_r in IH. apply IH.
Qed.

Lemma above_threshold_qualifying (f : string -> Q)
      (agents : list Config.AgentConfig) :
  forall pre : list Config.AgentConfig,
    above_threshold (pre ++ agents)
      (Spec.best_per_agent f (List.length pre) agents)
    = Ok (Spec.qualifying f agents).
Proof.
  induction agents as [|a agents IH]; intros pre; [reflexivity|].
  specialize (IH (pre ++ [a])).
  rewrite <- app_assoc, length_app in IH. cbn [app List.length] in IH.
  rewrite Nat.add_1_r in IH.
  cbn [Spec.best_per_agent Spec.qualifying].
  unfold Spec.examples_of, Spec.agent_match.
  destruct (Config.routing a) as [r|] eqn:Er; [|exact IH].
  destruct (Config.examples r) as [|ex exs]; [exact IH|].
  cbn [above_threshold].
  rewrite nth_error_app2 by lia. rewrite Nat.sub_diag. cbn [nth_error].
  rewrite IH, Er.
  destruct (Spec.best_example f (f ex, ex) exs) as [sc best]. cbn [fst snd].
  destruct (Qle_bool (Config.threshold r) sc); reflexivity.
Qed.

End DictFacts.

Section SortFacts.
Import Py Semantic.

Lemma Qlt_b_iff (x y : Q) : Qlt_b x y = true <-> (x < y)%Q.
Proof.
  unfold Qlt_b. rewrite negb_true_iff, <- not_true_iff_false, Qle_bool_iff.
  split; [apply Qnot_le_lt | apply Qlt_not_le].
Qed.

Lemma Qlt_b_false (x y : Q) : Qlt_b x y = false <-> (y <= x)%Q.
Proof.
  unfold Qlt_b. rewrite negb_false_iff. apply Qle_bool_iff.
Qed.

Lemma key_lt_true_before (m1 m2 : RouteMatch) :
  key_lt (sort_key m1) (sort_key m2) = true -> Spec.before m1 m2.
Proof.
  unfold key_lt, sort_key, Spec.before, Spec.priority_of. cbn [fst snd].
  rewrite orb_true_iff, andb_true_iff, Qlt_b_iff, Qeq_bool_iff, Z.ltb_lt.
  intros [H | [H1 H2]]; split; intros; try lra; lia.
Qed.

Lemma key_lt_false_before (m1 m2 : RouteMatch) :
  key_lt (sort_key m1) (sort_key m2) = false -> Spec.before m2 m1.
Proof.
  unfold key_lt, sort_key, Spec.before, Spec.priority_of. cbn [fst snd].
  rewrite orb_false_iff, andb_false_iff, Qlt_b_false, Z.ltb_ge.
  intros [H1 [H2 | H2]]; split; try lra.
  - intros He. apply Qeq_bool_neq in H2. exfalso. apply H2. lra.
  - intros _. exact H2.
Qed.

Lemma before_trans (m1 m2 m3 : RouteMatch) :
  Spec.before m1 m2 -> Spec.before m2 m3 -> Spec.before m1 m3.
Proof.
  unfold Spec.before. intros [H1 H2] [H3 H4]. split; [lra|].
  intros He.
  assert (E12 : (score m1 == score m2)%Q) by lra.
  assert (E23 : (score m2 == score m3)%Q) by lra.
  specialize (H2 E12). specialize (H4 E23). lia.
Qed.

Lemma insert_sorted_perm (m : RouteMatch) (l : list RouteMatch) :
  Permutation (insert_sorted m l) (m :: l).
Proof.
  induction l as [|m' l IH]; [reflexivity|].
  cbn [insert_sorted].
  destruct (key_lt (sort_key m') (sort_key m)); [|reflexivity].
  rewrite IH. apply perm_swap.
Qed.

Lemma sort_matches_perm (l : list RouteMatch) :
  Permutation (sort_matches l) l.
Proof.
  induction l as [|m l IH]; [reflexivity|].
  cbn [sort_matches fold_right]. fold (sort_matches l).
  rewrite insert_sorted_perm. constructor. exact IH.
Qed.

Lemma insert_sorted_sorted (m : RouteMatch) (l : list RouteMatch) :
  StronglySorted Spec.before l ->
  StronglySorted Spec.before (insert_sorted m l).
Proof.
  induction 1 as [|m' l Hs IH Hall]; cbn [insert_sorted].
  - constructor; constructor.
  - destruct (key_lt (sort_key m') (sort_key m)) eqn:E.
    + constructor; [exact IH|].
      apply (Permutation_Forall (x := m :: l)).
      * symmetry. apply insert_sorted_perm.
      * constructor; [apply key_lt_true_before, E | exact Hall].
    + pose proof (key_lt_false_before _ _ E) as Hb.
      constructor; [constructor; assumption|].
      constructor; [exact Hb|].
      eapply List.Forall_impl; [|exact Hall].
      intros x Hx. eapply before_trans; eassumption.
Qed.

Lemma sort_matches_sorted (l : list RouteMatch) :
  StronglySorted Spec.before (sort_matches l).
Proof.
  induction l as [|m l IH]; [constructor|].
  cbn [sort_matches fold_right]. apply insert_sorted_sorted, IH.
Qed.

End SortFacts.

Section MatcherFacts.
Import Py Semantic.

Lemma build_index_inv (self router : SemanticRouter)
      (cfg : Config.AgentsConfig) (model : SentenceTransformer) :
  _model self = Some model ->
  build_index self cfg = Ok router ->
  router
  = {| _model := Some model;
       _agents := Config.agents cfg;
       _embeddings :=
         Some (map (encode model)
                   (map snd (collect_examples 0 (Config.agents cfg))));
       _example_to_agent := collect_examples 0 (Config.agents cfg) |}.
Proof.
  intros Hm. unfold build_index. rewrite Hm.
  destruct (map snd (collect_examples 0 (Config.agents cfg))) eqn:E;
    intros [= <-]; reflexivity.
Qed.

Lemma check_message_valid (msg : string) :
  Spec.valid_message msg -> check_message msg = Ok tt.
Proof.
  intros [Hb Hl]. unfold check_message. rewrite Hb.
  assert (Ht : truthy msg = true) by (destruct msg; [discriminate|reflexivity]).
  rewrite Ht. cbn [negb orb]. unfold MAX_MESSAGE_LENGTH.
  destruct (Z.ltb_spec 10000 (Z.of_nat (String.length msg))); [lia|reflexivity].
Qed.

Lemma collect_examples_nil (f : string -> Q) (agents : list Config.AgentConfig) :
  forall i, collect_examples i agents = [] -> Spec.qualifying f agents = [].
Proof.
  induction agents as [|a agents IH]; intros i H; [reflexivity|].
  cbn [collect_examples Spec.qualifying] in *. unfold Spec.agent_match.
  destruct (Config.routing a) as [r|]; [|eapply IH, H].
  destruct (Config.examples r) as [|ex exs]; [eapply IH, H|].
  discriminate H.
Qed.

(** On an index built from the catalog, [match] returns the qualifying
    matches, sorted. *)
Lemma match_built (self router : SemanticRouter) (cfg : Config.AgentsConfig)
      (model : SentenceTransformer) (msg : string) :
  _model self = Some model ->
  build_index self cfg = Ok router ->
  Spec.valid_message msg ->
  match_ router msg
  = Ok (sort_matches (Spec.qualifying (Spec.sim model msg) (Config.agents cfg))).
Proof.
  intros Hm Hb Hv. rewrite (build_index_inv _ _ _ _ Hm Hb).
  unfold match_. cbn [_model _embeddings _example_to_agent _agents].
  rewrite (check_message_valid msg Hv).
  destruct (collect_examples 0 (Config.agents cfg)) as [|row rows] eqn:Er.
  - cbn [map]. rewrite (collect_examples_nil _ _ 0 Er). reflexivity.
  - set (all := row :: rows) in *.
    assert (Hsim :
      map (fun v => dot model v (encode model msg))
          (map (encode model) (map snd all))
      = map (fun r => Spec.sim model msg (snd r)) all).
    { rewrite !map_map. reflexivity. }
    change (map (encode model) (map snd all))
      with (encode model (snd row) :: map (encode model) (map snd rows)).
    cbv iota.
    change (encode model (snd row) :: map (encode model) (map snd rows))
      with (map (encode model) (map snd all)).
    rewrite Hsim.
    pose proof (best_scores_fold (fun r => Spec.sim model msg (snd r))
                  all [] []) as Hbs.
    cbn [app List.length] in Hbs. rewrite Hbs.
    subst all. rewrite <- Er.
    rewrite (fold_collect_examples (Spec.sim model msg) (Config.agents cfg) 0 [])
      by constructor.
    cbn [app].
    pose proof (above_threshold_qualifying (Spec.sim model msg)
                  (Config.agents cfg) []) as Hat.
    cbn [app List.length] in Hat. rewrite Hat.
    reflexivity.
Qed.

Lemma best_example_spec (f : string -> Q) (exs : list string) :
  forall c : string,
    exists e, Spec.best_example f (f c, c) exs = (f e, e)
              /\ In e (c :: exs)
              /\ (f c <= f e)%Q
              /\ forall x, In x exs -> (f x <= f e)%Q.
Proof.
  induction exs as [|ex exs IH]; intros c.
  - exists c. repeat split; [now left | apply Qle_refl | intros x []].
  - cbn [Spec.best_example fst].
    destruct (Qlt_b (f c) (f ex)) eqn:E.
    + destruct (IH ex) as (e & He & Hin & Hle & Hall). exists e.
      apply Qlt_b_iff in E.
      repeat split; [exact He | right; exact Hin | lra |].
      intros x [<- | Hx]; [exact Hle | apply Hall, Hx].
    + destruct (IH c) as (e & He & Hin & Hle & Hall). exists e.
      apply Qlt_b_false in E.
      repeat split; [exact He | | exact Hle |].
      * destruct Hin as [<- | Hin]; [now left | right; right; exact Hin].
      * intros x [<- | Hx]; [lra | apply Hall, Hx].
Qed.

Lemma agent_match_spec (f : string -> Q) (a : Config.AgentConfig)
      (m : RouteMatch) :
  Spec.agent_match f a = Some m ->
  agent m = a
  /\ exists r, Config.routing a = Some r
               /\ In (example m) (Config.examples r)
               /\ score m = f (example m)
               /\ (forall ex, In ex (Config.examples r) ->
                              (f ex <= score m)%Q)
               /\ (Config.threshold r <= score m)%Q.
Proof.
  unfold Spec.agent_match.
  destruct (Config.routing a) as [r|] eqn:Er; [|discriminate].
  destruct (Config.examples r) as [|ex exs] eqn:Ex; [discriminate|].
  destruct (best_example_spec f exs ex) as (e & He & Hin & Hle & Hall).
  rewrite He. cbn [fst snd].
  destruct (Qle_bool (Config.threshold r) (f e)) eqn:Et; [|discriminate].
  intros [= <-]. cbn [agent score example]. split; [reflexivity|].
  exists r. rewrite Ex.
  split; [reflexivity|]. split; [exact Hin|]. split; [reflexivity|]. split.
  - intros x [<- | Hx]; [exact Hle | apply Hall, Hx].
  - apply Qle_bool_iff, Et.
Qed.

Lemma agent_match_some (f : string -> Q) (a : Config.AgentConfig)
      (r : Config.AgentRoutingConfig) (ex : string) :
  Config.routing a = Some r -> In ex (Config.examples r) ->
  (Config.threshold r <= f ex)%Q ->
  exists m, Spec.agent_match f a = Some m /\ agent m = a.
Proof.
  intros Hr Hin Ht. unfold Spec.agent_match. rewrite Hr.
  destruct (Config.examples r) as [|ex0 exs]; [destruct Hin|].
  destruct (best_example_spec f exs ex0) as (e & He & _ & Hle & Hall).
  rewrite He. cbn [fst snd].
  assert (Hb : (f ex <= f e)%Q).
  { destruct Hin as [<- | Hin]; [exact Hle | apply Hall, Hin]. }
  assert (Hq : Qle_bool (Config.threshold r) (f e) = true).
  { apply Qle_bool_iff. lra. }
  rewrite Hq. eexists. split; reflexivity.
Qed.

Lemma in_qualifying (f : string -> Q) (agents : list Config.AgentConfig)
      (m : RouteMatch) :
  In m (Spec.qualifying f agents)
  <-> exists a, In a agents /\ Spec.agent_match f a = Some m.
Proof.
  induction agents as [|a agents IH]; cbn [Spec.qualifying].
  - split; [intros [] | intros (a & [] & _)].
  - destruct (Spec.agent_match f a) as [m'|] eqn:E.
    + split.
      * intros [<- | H]; [exists a; split; [now left | exact E]|].
        apply IH in H as (a' & Ha' & Hm). exists a'. split; [now right | exact Hm].
      * intros (a' & [<- | Ha'] & Hm).
        -- rewrite E in Hm. injection Hm as <-. now left.
        -- right. apply IH. exists a'. split; assumption.
    + rewrite IH. split.
      * intros (a' & Ha' & Hm). exists a'. split; [now right | exact Hm].
      * intros (a' & [<- | Ha'] & Hm); [congruence|].
        exists a'. split; assumption.
Qed.

End MatcherFacts.

(** C7 (as the code has it).  For every valid message (not empty, not
    only whitespace, at most 10,000 characters) on a matcher whose index
    was built from the catalog, [match] returns exactly the agents whose
    best per-example score is at least that agent's own threshold; the
    score and example reported for an agent are those of its
    maximum-scoring example; and the list is sorted with scores
    non-increasing, ties broken by ascending agent priority. *)
Theorem match_returns_qualifying_agents_sorted
        (self router : Semantic.SemanticRouter) (cfg : Config.AgentsConfig)
        (model : Semantic.SentenceTransformer) (msg : string) :
  Semantic._model self = Some model ->
  Semantic.build_index self cfg = Py.Ok router ->
  Spec.valid_message msg ->
  exists ms,
    Semantic.match_ router msg = Py.Ok ms
    /\ Permutation ms
         (Spec.qualifying (Spec.sim model msg) (Config.agents cfg))
    /\ StronglySorted Spec.before ms
    /\ (forall m,
           In m ms ->
           exists r,
             In (Semantic.agent m) (Config.agents cfg)
             /\ Config.routing (Semantic.agent m) = Some r
             /\ In (Semantic.example m) (Config.examples r)
             /\ Semantic.score m = Spec.sim model msg (Semantic.example m)
             /\ (forall ex, In ex (Config.examples r) ->
                            (Spec.sim model msg ex <= Semantic.score m)%Q)
             /\ (Config.threshold r <= Semantic.score m)%Q)
    /\ (forall a r,
           In a (Config.agents cfg) ->
           Config.routing a = Some r ->
           ((exists m, In m ms /\ Semantic.agent m = a)
            <-> exists ex, In ex (Config.examples r)
                           /\ (Config.threshold r
                               <= Spec.sim model msg ex)%Q)).
Proof.
  intros Hm Hb Hv.
  exists (Semantic.sort_matches
            (Spec.qualifying (Spec.sim model msg) (Config.agents cfg))).
  split; [apply (match_built self router cfg model msg Hm Hb Hv)|].
  split; [apply sort_matches_perm|].
  split; [apply sort_matches_sorted|].
  split.
  - intros m Hin.
    apply (Permutation_in _ (sort_matches_perm _)) in Hin.
    apply in_qualifying in Hin as (a & Ha & Hma).
    apply agent_match_spec in Hma as (Hag & r & Hr & He & Hs & Hall & Ht).
    exists r. rewrite Hag. repeat split; assumption.
  - intros a r Ha Hr. split.
    + intros (m & Hin & Hag).
      apply (Permutation_in _ (sort_matches_perm _)) in Hin.
      apply in_qualifying in Hin as (a' & Ha' & Hma).
      apply agent_match_spec in Hma as (Hag' & r' & Hr' & He & Hs & Hall & Ht).
      assert (a' = a) by congruence. subst a'.
      assert (r' = r) by congruence. subst r'.
      exists (Semantic.example m). split; [exact He|].
      rewrite <- Hs. exact Ht.
    + intros (ex & Hex & Ht).
      destruct (agent_match_some (Spec.sim model msg) a r ex Hr Hex Ht)
        as (m & Hm' & Hag).
      exists m. split; [|exact Hag].
      apply (Permutation_in _ (Permutation_sym (sort_matches_perm _))).
      apply in_qualifying. exists a. split; assumption.
Qed.

Section CachedFacts.
Import Py Semantic.

Lemma find_agent_idx_spec (aid : string) (agents : list Config.AgentConfig)
      (a : Config.AgentConfig) :
  forall k,
    List.find (fun x => String.eqb (Config.id x) aid) agents = Some a ->
    exists i, find_agent_idx aid k agents = Some (k + i)%nat
              /\ nth_error agents i = Some a.
Proof.
  induction agents as [|x agents IH]; intros k H; [discriminate|].
  cbn [List.find find_agent_idx] in *.
  destruct (String.eqb (Config.id x) aid).
  - injection H as ->. exists O. split; [f_equal; lia | reflexivity].
  - destruct (IH (S k) H) as (i & Hi & Hn). exists (S i).
    split; [rewrite Hi; f_equal; lia | exact Hn].
Qed.

Lemma collect_examples_ge (agents : list Config.AgentConfig) :
  forall i0 row, In row (collect_examples i0 agents) -> (i0 <= fst row)%nat.
Proof.
  induction agents as [|a agents IH]; intros i0 row H; [destruct H|].
  cbn [collect_examples] in H.
  assert (Hrest : In row (collect_examples (S i0) agents) -> (i0 <= fst row)%nat).
  { intros Hr. apply IH in Hr. lia. }
  destruct (Config.routing a) as [r|]; [|auto].
  destruct (Config.examples r) as [|ex exs]; [auto|].
  apply in_app_or in H as [H | H]; [|auto].
  apply in_map_iff in H as (e & <- & _). simpl. lia.
Qed.

Lemma filter_none (i : nat) (rows : list (nat * string)) :
  (forall row, In row rows -> fst row <> i) ->
  List.filter (fun row => Nat.eqb (fst row) i) rows = [].
Proof.
  induction rows as [|row rows IH]; intros H; [reflexivity|].
  cbn [List.filter].
  destruct (Nat.eqb_spec (fst row) i) as [E|E].
  - exfalso. apply (H row); [now left | exact E].
  - apply IH. intros r Hr. apply H. now right.
Qed.

Lemma filter_all (i : nat) (exs : list string) :
  List.filter (fun row => Nat.eqb (fst row) i) (map (pair i) exs)
  = map (pair i) exs.
Proof.
  induction exs as [|ex exs IH]; [reflexivity|].
  cbn [map List.filter fst]. rewrite Nat.eqb_refl, IH. reflexivity.
Qed.

Lemma filter_other (i j : nat) (exs : list string) :
  i <> j ->
  List.filter (fun row => Nat.eqb (fst row) j) (map (pair i) exs) = [].
Proof.
  intros H. apply filter_none. intros row Hr.
  apply in_map_iff in Hr as (e & <- & _). exact H.
Qed.

(** The rows of the index that belong to the agent at position [i]. *)
Lemma filter_collect_examples (agents : list Config.AgentConfig) :
  forall i0 i a,
    nth_error agents i = Some a ->
    List.filter (fun row => Nat.eqb (fst row) (i0 + i))
                (collect_examples i0 agents)
    = map (pair (i0 + i)%nat) (Spec.examples_of a).
Proof.
  induction agents as [|x agents IH]; intros i0 i a H; [destruct i; discriminate|].
  destruct i as [|i].
  - injection H as ->. rewrite Nat.add_0_r.
    assert (Hrest : List.filter (fun row => Nat.eqb (fst row) i0)
                      (collect_examples (S i0) agents) = []).
    { apply filter_none. intros row Hr. apply collect_examples_ge in Hr. lia. }
    cbn [collect_examples]. unfold Spec.examples_of.
    destruct (Config.routing a) as [r|]; [|exact Hrest].
    destruct (Config.examples r) as [|ex exs]; [exact Hrest|].
    rewrite List.filter_app, Hrest, app_nil_r. apply filter_all.
  - cbn [nth_error] in H. specialize (IH (S i0) i a H).
    replace (S i0 + i)%nat with (i0 + S i)%nat in IH by lia.
    cbn [collect_examples].
    destruct (Config.routing x) as [r|]; [|exact IH].
    destruct (Config.examples r) as [|ex exs]; [exact IH|].
    rewrite List.filter_app, IH, filter_other by lia. reflexivity.
Qed.

(** Reading the cached rows of agent [i] gives the embeddings of its
    rows. *)
Lemma take_rows_example_indices (g : nat * string -> Vec) (i : nat)
      (rows : list (nat * string)) :
  forall pre : list Vec,
    take_rows (pre ++ map g rows) (example_indices i (List.length pre) rows)
    = Ok (map g (List.filter (fun row => Nat.eqb (fst row) i) rows)).
Proof.
  induction rows as [|[idx ex] rows IH]; intros pre; [reflexivity|].
  specialize (IH (pre ++ [g (idx, ex)])).
  rewrite <- app_assoc, length_app in IH. cbn [app List.length] in IH.
  rewrite Nat.add_1_r in IH.
  cbn [example_indices List.filter map fst].
  destruct (Nat.eqb idx i); [|exact IH].
  cbn [take_rows map]. rewrite nth_error_app2 by lia.
  rewrite Nat.sub_diag. cbn [nth_error]. rewrite IH. reflexivity.
Qed.

Lemma example_indices_length (i : nat) (rows : list (nat * string)) :
  forall k,
    List.length (example_indices i k rows)
    = List.length (List.filter (fun row => Nat.eqb (fst row) i) rows).
Proof.
  induction rows as [|[idx ex] rows IH]; intros k; [reflexivity|].
  cbn [example_indices List.filter fst].
  destruct (Nat.eqb idx i); cbn [List.length]; rewrite IH; reflexivity.
Qed.

(** In a catalog whose ids are unique every agent is the one its id
    resolves to; so is, in any catalog, the agent that [get_agent_by_id]
    returns, which is the agent the endpoint hands to the drift check. *)
Lemma unique_ids_resolve (cfg : Config.AgentsConfig) (a : Config.AgentConfig) :
  List.NoDup (map Config.id (Config.agents cfg)) ->
  In a (Config.agents cfg) ->
  Config.get_agent_by_id cfg (Config.id a) = Some a.
Proof.
  unfold Config.get_agent_by_id.
  induction (Config.agents cfg) as [|b l IH]; intros Hnd Hin;
    [destruct Hin|].
  cbn [map] in Hnd. apply List.NoDup_cons_iff in Hnd as [Hb Hl].
  cbn [List.find]. destruct Hin as [-> | Hin].
  - rewrite String.eqb_refl. reflexivity.
  - destruct (String.eqb_spec (Config.id b) (Config.id a)) as [E|E].
    + exfalso. apply Hb. rewrite E. apply in_map. exact Hin.
    + apply IH; assumption.
Qed.

Lemma resolved_agent_resolves (cfg : Config.AgentsConfig) (i : string)
      (a : Config.AgentConfig) :
  Config.get_agent_by_id cfg i = Some a ->
  Config.get_agent_by_id cfg (Config.id a) = Some a.
Proof.
  unfold Config.get_agent_by_id. intros H.
  apply List.find_some in H as H'. destruct H' as [_ Hid].
  apply String.eqb_eq in Hid. rewrite Hid. exact H.
Qed.

End CachedFacts.

(** C10.  On an index built from the catalog, for an agent of the catalog
    that has examples, the cached rows are found, and the best score over
    them is the value the on-demand branch computes by embedding the
    agent's examples again; so [compute_similarity], which takes the
    cached branch, returns that value.  The agent is one that the catalog
    resolves its id to: every agent of a catalog with unique ids
    ([unique_ids_resolve]), and the agent that the endpoint looks up by
    the id of the session ([resolved_agent_resolves]). *)
Theorem compute_similarity_cached_equals_on_demand
        (self router : Semantic.SemanticRouter) (cfg : Config.AgentsConfig)
        (model : Semantic.SentenceTransformer) (msg : string)
        (a : Config.AgentConfig) (r : Config.AgentRoutingConfig) :
  Semantic._model self = Some model ->
  Semantic.build_index self cfg = Py.Ok router ->
  Config.get_agent_by_id cfg (Config.id a) = Some a ->
  Config.routing a = Some r ->
  Config.examples r <> [] ->
  exists indices embeddings,
    Semantic.cached_indices router a = Some indices
    /\ Semantic._embeddings router = Some embeddings
    /\ Semantic.similarity_cached model embeddings
         (Semantic.encode model msg) indices
       = Semantic.similarity_on_demand model (Semantic.encode model msg)
           (Config.examples r)
    /\ (Spec.valid_message msg ->
        Semantic.compute_similarity router msg a
        = Semantic.similarity_on_demand model (Semantic.encode model msg)
            (Config.examples r)).
Proof.
  intros Hm Hb Hid Hr Hex.
  rewrite (build_index_inv _ _ _ _ Hm Hb).
  destruct (find_agent_idx_spec (Config.id a) (Config.agents cfg) a 0 Hid)
    as (i & Hi & Hn).
  cbn [Nat.add] in Hi.
  pose proof (filter_collect_examples (Config.agents cfg) 0 i a Hn) as Hf.
  cbn [Nat.add] in Hf. unfold Spec.examples_of in Hf. rewrite Hr in Hf.
  set (rows := Semantic.collect_examples 0 (Config.agents cfg)) in *.
  assert (Hidx : exists j js, Semantic.example_indices i 0 rows = j :: js).
  { pose proof (Semantic.example_indices i 0 rows) as l.
    pose proof (example_indices_length i rows 0) as Hl.
    rewrite Hf, length_map in Hl.
    destruct (Semantic.example_indices i 0 rows) as [|j js]; [|eauto].
    destruct (Config.examples r); [contradiction | discriminate]. }
  destruct Hidx as (j & js & Hjs).
  assert (Hc : Semantic.cached_indices
                 {| Semantic._model := Some model;
                    Semantic._agents := Config.agents cfg;
                    Semantic._embeddings :=
                      Some (map (Semantic.encode model) (map snd rows));
                    Semantic._example_to_agent := rows |} a
               = Some (j :: js)).
  { unfold Semantic.cached_indices.
    cbn [Semantic._agents Semantic._example_to_agent].
    rewrite Hi, Hjs. reflexivity. }
  assert (Hs : Semantic.similarity_cached model
                 (map (Semantic.encode model) (map snd rows))
                 (Semantic.encode model msg) (j :: js)
               = Semantic.similarity_on_demand model
                   (Semantic.encode model msg) (Config.examples r)).
  { unfold Semantic.similarity_cached, Semantic.similarity_on_demand.
    rewrite <- Hjs.
    pose proof (take_rows_example_indices
                  (fun row => Semantic.encode model (snd row)) i rows [])
      as Ht.
    cbn [app List.length] in Ht. rewrite map_map, Ht, Hf, !map_map.
    reflexivity. }
  exists (j :: js), (map (Semantic.encode model) (map snd rows)).
  split; [exact Hc|]. split; [reflexivity|]. split; [exact Hs|].
  intros Hv. unfold Semantic.compute_similarity.
  cbn [Semantic._model Semantic._embeddings].
  rewrite (check_message_valid msg Hv), Hr.
  destruct (Config.examples r) as [|ex exs] eqn:Ee; [contradiction|].
  rewrite Hc. exact Hs.
Qed.

Lemma match_returns_qualifying_agents_sorted_witness :
  Semantic._model Samples.unbuilt = Some Samples.toy_model
  /\ Semantic.build_index Samples.unbuilt Samples.catalog
     = Py.Ok Samples.router
  /\ Spec.valid_message "show mem usage"
  /\ exists ms,
      Semantic.match_ Samples.router "show mem usage" = Py.Ok ms
      /\ Permutation ms
           (Spec.qualifying (Spec.sim Samples.toy_model "show mem usage")
              (Config.agents Samples.catalog))
      /\ StronglySorted Spec.before ms.
Proof.
  assert (Hm : Semantic._model Samples.unbuilt = Some Samples.toy_model)
    by reflexivity.
  assert (Hb : Semantic.build_index Samples.unbuilt Samples.catalog
               = Py.Ok Samples.router) by reflexivity.
  assert (Hv : Spec.valid_message "show mem usage").
  { split; [reflexivity | simpl; lia]. }
  split; [exact Hm|]. split; [exact Hb|]. split; [exact Hv|].
  destruct (match_returns_qualifying_agents_sorted Samples.unbuilt
              Samples.router Samples.catalog Samples.toy_model
              "show mem usage" Hm Hb Hv)
    as (ms & H1 & H2 & H3 & _).
  exists ms. split; [exact H1|]. split; [exact H2 | exact H3].
Defined.

(** An agent whose best score equals its threshold is returned: its
    score does not exceed the threshold. *)
Lemma match_returns_agent_at_threshold :
  exists m r,
    Semantic.match_ Samples.router_strict "xyz" = Py.Ok [m]
    /\ Semantic.agent m = Samples.strict
    /\ Config.routing (Semantic.agent m) = Some r
    /\ (Semantic.score m == Config.threshold r)%Q
    /\ ~ (Config.threshold r < Semantic.score m)%Q.
Proof.
  eexists. eexists. split; [vm_compute; reflexivity|].
  split; [reflexivity|]. split; [reflexivity|]. split.
  - reflexivity.
  - cbn. intros H. apply Qlt_irrefl in H. exact H.
Qed.

Lemma compute_similarity_cached_equals_on_demand_witness :
  Semantic._model Samples.unbuilt = Some Samples.toy_model
  /\ Semantic.build_index Samples.unbuilt Samples.catalog_logs
     = Py.Ok Samples.router_logs
  /\ Config.get_agent_by_id Samples.catalog_logs (Config.id Samples.logs)
     = Some Samples.logs
  /\ Semantic.cached_indices Samples.router_logs Samples.logs
     = Some [1%nat; 2%nat]
  /\ Semantic.compute_similarity Samples.router_logs "read logs"
       Samples.logs
     = Semantic.similarity_on_demand Samples.toy_model
         (Semantic.encode Samples.toy_model "read logs")
         ["show logs"; "tail the log file"]%string
  /\ Semantic.compute_similarity Samples.router_logs "read logs"
       Samples.logs
     = Py.Ok 1%Q.
Proof.
  assert (Hm : Semantic._model Samples.unbuilt = Some Samples.toy_model)
    by reflexivity.
  assert (Hb : Semantic.build_index Samples.unbuilt Samples.catalog_logs
               = Py.Ok Samples.router_logs) by reflexivity.
  assert (Hid : Config.get_agent_by_id Samples.catalog_logs
                  (Config.id Samples.logs) = Some Samples.logs)
    by reflexivity.
  assert (Hv : Spec.valid_message "read logs").
  { split; [reflexivity | simpl; lia]. }
  split; [exact Hm|]. split; [exact Hb|]. split; [exact Hid|].
  destruct (compute_similarity_cached_equals_on_demand Samples.unbuilt
              Samples.router_logs Samples.catalog_logs Samples.toy_model
              "read logs" Samples.logs
              {| Config.priority := 2; Config.threshold := 8 # 10;
                 Config.examples :=
                   ["show logs"; "tail the log file"]%string |}
              Hm Hb Hid eq_refl)
    as (indices & embeddings & Hi & _ & _ & Hc).
  - discriminate.
  - split; [vm_compute; reflexivity|].
    split; [apply Hc, Hv|]. rewrite (Hc Hv). vm_compute. reflexivity.
Defined.

(** ** The embedding on the cases of the repository's tests

    The expected values are those asserted in [tests/test_mention.py],
    [tests/test_retry.py], [tests/test_translator.py] and
    [tests/test_session.py]. *)

Section TestCases.

Example parse_mention_cases :
  Mention.parse_mention "@troubleshoot why is my pod crashing?"
  = Some "troubleshoot"%string
  /\ Mention.parse_mention "Help me @troubleshoot this"
     = Some "troubleshoot"%string
  /\ Mention.parse_mention "Can you @metrics show CPU?"
     = Some "metrics"%string
  /\ Mention.parse_mention "@TrOuBlEsHoOt issue" = Some "troubleshoot"%string
  /\ Mention.parse_mention "@metrics @troubleshoot help"
     = Some "metrics"%string
  /\ Mention.parse_mention "No mention here" = None
  /\ Mention.parse_mention "" = None
  /\ Mention.parse_mention "@my-agent help" = Some "my-agent"%string
  /\ Mention.parse_mention "@my_agent help" = Some "my_agent"%string
  /\ Mention.parse_mention "@123agent help" = Some "123agent"%string
  /\ Mention.parse_mention "Contact user@example.com for help"
     = Some "example"%string.
Proof. repeat split; reflexivity. Qed.

Example strip_mentions_cases :
  Mention.strip_mentions "@troubleshoot why is my pod crashing?"
  = "why is my pod crashing?"%string
  /\ Mention.strip_mentions "Help me @troubleshoot" = "Help me"%string
  /\ Mention.strip_mentions "Can you @metrics show CPU?"
     = "Can you show CPU?"%string
  /\ Mention.strip_mentions "@metrics @troubleshoot help" = "help"%string
  /\ Mention.strip_mentions "@metrics show @prometheus CPU @grafana usage"
     = "show CPU usage"%string
  /\ Mention.strip_mentions "No mention here" = "No mention here"%string
  /\ Mention.strip_mentions "" = ""%string
  /\ Mention.strip_mentions "@metrics   show   CPU" = "show CPU"%string
  /\ Mention.strip_mentions "@metrics @prometheus @grafana" = ""%string.
Proof. repeat split; reflexivity. Qed.

Example get_delay_ms_cases :
  let backoff := {| Retry.max_attempts := 3; Retry.base_delay_ms := 100;
                    Retry.max_delay_ms := 5000 |} in
  let capped := {| Retry.max_attempts := 3; Retry.base_delay_ms := 1000;
                   Retry.max_delay_ms := 2000 |} in
  Retry.get_delay_ms backoff 0 = 0
  /\ Retry.get_delay_ms backoff 1 = 100
  /\ Retry.get_delay_ms backoff 2 = 200
  /\ Retry.get_delay_ms backoff 3 = 400
  /\ Retry.get_delay_ms backoff 4 = 800
  /\ Retry.get_delay_ms capped 1 = 1000
  /\ Retry.get_delay_ms capped 2 = 2000
  /\ Retry.get_delay_ms capped 3 = 2000
  /\ Retry.get_delay_ms capped 10 = 2000.
Proof. repeat split; reflexivity. Qed.

Example is_retryable_error_cases :
  let plain msg := {| Retry.message := msg; Retry.status_code := None |} in
  let http code :=
    {| Retry.message := ("HTTP " +:+ Py.str_of_nat code)%string;
       Retry.status_code := Some (Z.of_nat code) |} in
  Retry.is_retryable_error (plain "Request timed out") = true
  /\ Retry.is_retryable_error (plain "Connection refused") = true
  /\ Retry.is_retryable_error (plain "Connect timeout") = true
  /\ Retry.is_retryable_error (plain "Network unreachable") = true
  /\ Retry.is_retryable_error (plain "HTTP 500 Internal Server Error") = true
  /\ Retry.is_retryable_error (plain "HTTP 502 Bad Gateway") = true
  /\ Retry.is_retryable_error (plain "HTTP 503 Service Unavailable") = true
  /\ Retry.is_retryable_error (plain "HTTP 504 Gateway Timeout") = true
  /\ Retry.is_retryable_error (plain "HTTP 429 Too Many Requests") = true
  /\ Retry.is_retryable_error (plain "HTTP 400 Bad Request") = false
  /\ Retry.is_retryable_error (plain "HTTP 401 Unauthorized") = false
  /\ Retry.is_retryable_error (plain "HTTP 404 Not Found") = false
  /\ Retry.is_retryable_error (http 500%nat) = true
  /\ Retry.is_retryable_error (http 502%nat) = true
  /\ Retry.is_retryable_error (http 429%nat) = true
  /\ Retry.is_retryable_error (http 400%nat) = false
  /\ Retry.is_retryable_error (http 401%nat) = false
  /\ Retry.is_retryable_error (plain "Service unavailable") = true
  /\ Retry.is_retryable_error (plain "Some random error") = false.
Proof. repeat split; vm_compute; reflexivity. Qed.

Example is_duplicate_content_cases :
  Translator._is_duplicate_content "Hello" "" = false
  /\ Translator._is_duplicate_content "Hello, world!" "Hello, world!" = true
  /\ Translator._is_duplicate_content "Hello, world!"
       "Hello, world! How are you?" = true
  /\ Translator._is_duplicate_content "Hello" "Hello, world!" = true
  /\ Translator._is_duplicate_content "Hello, world!" "Hello" = false
  /\ Translator._is_duplicate_content "Goodbye" "Hello" = false
  /\ Translator._is_duplicate_content "Hello world" "Hello   world" = true
  /\ Translator._is_duplicate_content
       "This is a test message with some content that is quite long!"
       "This is a test message with some content that is quite long."
     = true
  /\ Translator._is_duplicate_content
       "BBBBBBBBBBBBBBBBBBBBBBBBBBBBBBBBBBBBBBBBBBBBBBBBBBBB"
       "AAAAAAAAAAAAAAAAAAAAAAAAAAAAAAAAAAAAAAAAAAAAAAAAAAAA"
     = false
  /\ Translator._is_duplicate_content "Ho" "Hi" = false.
Proof. repeat split; vm_compute; reflexivity. Qed.

(** [test_is_expired_boundary]: 29 min 59 s after the last activity the
    session is valid, 30 min 1 s after it the session is expired. *)
Example is_expired_boundary :
  let s := {| Session.thread_id := "thread-123"; Session.agent_id := "agent-1";
              Session.agent_handle := "test"; Session.created_at := 0;
              Session.last_activity := 0 |} in
  Session.is_expired (Session.minutes 29 + 59000000) s 30 = false
  /\ Session.is_expired (Session.minutes 30 + 1000000) s 30 = true.
Proof. split; reflexivity. Qed.

(** The cut of a text with two mentions, and what is kept of it. *)
Example strips_to_cases :
  Spec.cut_at_matches
    {| Spec.before_first := "Hey ";
       Spec.segments :=
         [("metrics-1", " show  cpu ")%string; ("x", "!")%string] |}
  /\ Spec.assemble
       {| Spec.before_first := "Hey ";
          Spec.segments :=
            [("metrics-1", " show  cpu ")%string; ("x", "!")%string] |}
     = "Hey @metrics-1 show  cpu @x!"%string
  /\ Spec.strips_to "Hey @metrics-1 show  cpu @x!" "Hey show cpu !"
  /\ Mention.strip_mentions "Hey @metrics-1 show  cpu @x!"
     = "Hey show cpu !"%string.
Proof.
  assert (Hc : Spec.cut_at_matches
                 {| Spec.before_first := "Hey ";
                    Spec.segments :=
                      [("metrics-1", " show  cpu ")%string;
                       ("x", "!")%string] |}).
  { split; [reflexivity|]. repeat constructor. }
  split; [exact Hc|]. split; [reflexivity|]. split; [|reflexivity].
  eexists. split; [|split; [exact Hc | reflexivity]]. reflexivity.
Qed.

(** The texts of the errors, as the code formats them. *)
Example error_text_cases :
  Semantic.check_message "   "
  = Py.Raise (Py.ValueError "Message cannot be empty")
  /\ ("Message exceeds maximum length of "
      +:+ Py.str_of_nat (Z.to_nat Semantic.MAX_MESSAGE_LENGTH)
      +:+ " characters")%string
     = "Message exceeds maximum length of 10000 characters"%string
  /\ Config.get_default_agent
       {| Config.session := Config.session Samples.catalog;
          Config.default_agent := "nobody";
          Config.agents := [Samples.metrics] |}
     = Py.Raise (Py.ValueError "Default agent 'nobody' not found").
Proof. repeat split; vm_compute; reflexivity. Qed.

End TestCases.

(** ** Session store: maintenance and round trips *)

Section SessionAdminFacts.
Import Session SessionAdmin.

Lemma fold_delete_lookup (ids : list string) :
  forall (m : gmap string SessionState) (tid : string),
    fold_left (fun sessions t => delete t sessions) ids m !! tid
    = if in_dec String.string_dec tid ids then None else m !! tid.
Proof.
  induction ids as [|i ids IH]; intros m tid; cbn [fold_left].
  - reflexivity.
  - rewrite IH.
    destruct (in_dec String.string_dec tid ids) as [Hin|Hin];
      destruct (in_dec String.string_dec tid (i :: ids)) as [Hin'|Hin'];
      try reflexivity.
    + exfalso. apply Hin'. now right.
    + destruct Hin' as [->|Hin']; [apply lookup_delete_eq | contradiction].
    + rewrite lookup_delete_ne; [reflexivity|].
      intros ->. apply Hin'. now left.
Qed.

Lemma fold_delete_size (ids : list string) :
  forall m : gmap string SessionState,
    List.NoDup ids ->
    (forall tid, In tid ids -> m !! tid <> None) ->
    (size (fold_left (fun sessions t => delete t sessions) ids m)
     + List.length ids = size m)%nat.
Proof.
  induction ids as [|i ids IH]; intros m Hnd Hin; cbn [fold_left List.length].
  - lia.
  - inversion Hnd as [|? ? Hni Hnd']; subst.
    assert (Hrest : forall tid, In tid ids -> delete i m !! tid <> None).
    { intros tid Ht. rewrite lookup_delete_ne.
      - apply Hin. now right.
      - intros ->. contradiction. }
    pose proof (IH (delete i m) Hnd' Hrest) as Hsz.
    destruct (m !! i) as [s|] eqn:E.
    + rewrite (map_size_delete_Some i m) in Hsz by (rewrite E; eauto).
      assert (size m <> 0)%nat.
      { apply map_size_ne_0_lookup. exists i. rewrite E. eauto. }
      lia.
    + exfalso. apply (Hin i); [now left | exact E].
Qed.

Lemma expired_ids_spec (now : string -> Z) (store : SessionStore)
      (tid : string) :
  In tid (expired_ids now store)
  <-> exists s, _sessions store !! tid = Some s
                /\ is_expired (now tid) s (_timeout_minutes store) = true.
Proof.
  unfold expired_ids. rewrite in_map_iff. split.
  - intros ([t s] & <- & Hf). apply List.filter_In in Hf as [Hin He].
    exists s. split; [|exact He].
    apply elem_of_map_to_list. apply list_elem_of_In. exact Hin.
  - intros (s & Hs & He). exists (tid, s). split; [reflexivity|].
    apply List.filter_In. split; [|exact He].
    apply list_elem_of_In. apply elem_of_map_to_list. exact Hs.
Qed.

Lemma expired_ids_nodup (now : string -> Z) (store : SessionStore) :
  List.NoDup (expired_ids now store).
Proof.
  unfold expired_ids.
  pose proof (NoDup_fst_map_to_list (_sessions store)) as Hnd.
  apply NoDup_ListNoDup in Hnd.
  induction (map_to_list (_sessions store)) as [|[t s] l IH];
    [constructor|].
  cbn [fmap list_fmap] in Hnd. inversion Hnd as [|? ? Hni Hnd']; subst.
  cbn [List.filter fst snd].
  destruct (is_expired (now t) s (_timeout_minutes store)); [|apply IH, Hnd'].
  cbn [map fst]. constructor; [|apply IH, Hnd'].
  intros Hin. apply Hni. apply in_map_iff in Hin as ([t' s'] & Ht & Hf).
  apply List.filter_In in Hf as [Hf _]. simpl in Ht. subst t'.
  apply list_elem_of_In. apply list_elem_of_fmap. exists (t, s').
  split; [reflexivity | apply list_elem_of_In, Hf].
Qed.

End SessionAdminFacts.

(** X1.  On a store whose sessions all have their expiry time in the
    range of [datetime], [cleanup_expired] removes exactly the sessions
    found expired when the loop tested them, keeps every other session as
    it is, and returns the number of sessions it removed. *)
Theorem cleanup_expired_removes_the_expired
        (now : string -> Z) (store : Session.SessionStore) :
  SessionRange.store_in_range store = true ->
  (forall tid,
      Session._sessions (snd (SessionAdmin.cleanup_expired now store)) !! tid
      = match Session._sessions store !! tid with
        | Some s =>
            if Session.is_expired (now tid) s
                 (Session._timeout_minutes store)
            then None else Some s
        | None => None
        end)
  /\ (SessionAdmin.count (snd (SessionAdmin.cleanup_expired now store))
      + fst (SessionAdmin.cleanup_expired now store)
      = SessionAdmin.count store)%nat
  /\ Session._timeout_minutes (snd (SessionAdmin.cleanup_expired now store))
     = Session._timeout_minutes store.
Proof.
  intros _. split; [|split].
  - intros tid. unfold SessionAdmin.cleanup_expired.
    cbn [snd Session.with_sessions Session._sessions].
    rewrite fold_delete_lookup.
    destruct (in_dec String.string_dec tid
                (SessionAdmin.expired_ids now store))
      as [Hin|Hin].
    + apply expired_ids_spec in Hin as (s & -> & ->). reflexivity.
    + destruct (Session._sessions store !! tid) as [s|] eqn:E; [|reflexivity].
      destruct (Session.is_expired (now tid) s
                  (Session._timeout_minutes store)) eqn:He; [|reflexivity].
      exfalso. apply Hin. apply expired_ids_spec. eauto.
  - unfold SessionAdmin.cleanup_expired, SessionAdmin.count.
    cbn [fst snd Session.with_sessions Session._sessions].
    apply fold_delete_size; [apply expired_ids_nodup|].
    intros tid Hin. apply expired_ids_spec in Hin as (s & -> & _).
    discriminate.
  - reflexivity.
Qed.

Lemma cleanup_expired_removes_the_expired_witness :
  SessionRange.store_in_range
    (snd (Session.set 3 5000000000 Samples.store_t1 "t2" "general-agent"
            "general")) = true
  /\ Session._sessions
       (snd (SessionAdmin.cleanup_expired (fun _ => 2000000000)
               (snd (Session.set 3 5000000000 Samples.store_t1 "t2"
                       "general-agent" "general")))) !! "t1"%string
     = None
  /\ Nat.add
       (SessionAdmin.count
          (snd (SessionAdmin.cleanup_expired (fun _ => 2000000000)
                  (snd (Session.set 3 5000000000 Samples.store_t1 "t2"
                          "general-agent" "general")))))
       (fst (SessionAdmin.cleanup_expired (fun _ => 2000000000)
               (snd (Session.set 3 5000000000 Samples.store_t1 "t2"
                       "general-agent" "general"))))
     = 2%nat
  /\ fst (SessionAdmin.cleanup_expired (fun _ => 2000000000)
            (snd (Session.set 3 5000000000 Samples.store_t1 "t2"
                    "general-agent" "general")))
     = 1%nat.
Proof.
  assert (Hr : SessionRange.store_in_range
                 (snd (Session.set 3 5000000000 Samples.store_t1 "t2"
                         "general-agent" "general")) = true)
    by (vm_compute; reflexivity).
  split; [exact Hr|].
  destruct (cleanup_expired_removes_the_expired (fun _ => 2000000000)
              (snd (Session.set 3 5000000000 Samples.store_t1 "t2"
                      "general-agent" "general")) Hr)
    as (Hl & Hc & _).
  split; [rewrite Hl; vm_compute; reflexivity|].
  split; [rewrite Hc; vm_compute; reflexivity|].
  vm_compute. reflexivity.
Defined.

Section SessionRoundTrips.
Import Session.

Lemma is_expired_leb (now : Z) (s : SessionState) (timeout : Z) :
  is_expired now s timeout
  = negb (now - last_activity s <=? minutes timeout).
Proof.
  unfold is_expired.
  destruct (Z.ltb_spec (last_activity s + minutes timeout) now);
    destruct (Z.leb_spec (now - last_activity s) (minutes timeout));
    try reflexivity; lia.
Qed.

Lemma get_of_lookup (now : Z) (store : SessionStore) (tid : string)
      (s : SessionState) :
  _sessions store !! tid = Some s ->
  fst (get now store tid)
  = if now - last_activity s <=? minutes (_timeout_minutes store)
    then Some s else None.
Proof.
  intros H. unfold get. rewrite H, is_expired_leb.
  destruct (now - last_activity s <=? minutes (_timeout_minutes store));
    reflexivity.
Qed.

End SessionRoundTrips.

(** X2.  Round trip of [set] and [get], for a session whose expiry time
    is in the range of [datetime]: whatever the thread held before, a
    [get] after [set] returns the session that [set] built, with the agent
    id and handle given, as long as no more than the timeout has passed
    since the session was created, and nothing after that. *)
Theorem set_then_get (n1 n2 now : Z) (store : Session.SessionStore)
        (tid aid h : string) :
  SessionRange.expiry_in_range n2 (Session._timeout_minutes store) = true ->
  fst (Session.get now (snd (Session.set n1 n2 store tid aid h)) tid)
  = if now - n2 <=? Session.minutes (Session._timeout_minutes store)
    then Some {| Session.thread_id := tid; Session.agent_id := aid;
                 Session.agent_handle := h; Session.created_at := n1;
                 Session.last_activity := n2 |}
    else None.
Proof.
  intros _.
  rewrite (get_of_lookup now _ tid _ (set_lookup n1 n2 store tid aid h)).
  reflexivity.
Qed.

Lemma set_then_get_witness :
  SessionRange.expiry_in_range 11 30 = true
  /\ fst (Session.get (11 + Session.minutes 30)
            (snd (Session.set 10 11 (Session.init 30) "t1" "metrics-agent"
                    "metrics")) "t1")
     = Some {| Session.thread_id := "t1";
               Session.agent_id := "metrics-agent";
               Session.agent_handle := "metrics"; Session.created_at := 10;
               Session.last_activity := 11 |}
  /\ fst (Session.get (12 + Session.minutes 30)
            (snd (Session.set 10 11 (Session.init 30) "t1" "metrics-agent"
                    "metrics")) "t1")
     = None.
Proof.
  assert (Hr : SessionRange.expiry_in_range 11
                 (Session._timeout_minutes (Session.init 30)) = true)
    by reflexivity.
  split; [exact Hr|]. split.
  - rewrite (set_then_get 10 11 (11 + Session.minutes 30) (Session.init 30)
               "t1" "metrics-agent" "metrics" Hr).
    reflexivity.
  - rewrite (set_then_get 10 11 (12 + Session.minutes 30) (Session.init 30)
               "t1" "metrics-agent" "metrics" Hr).
    reflexivity.
Defined.

(** X3.  For a thread whose session has its expiry time in the range of
    [datetime], before the touch and after it: [touch] succeeds exactly
    when a [get] at the same clock reading would return a session; the
    session then keeps its agent, handle and creation time, and a later
    [get] returns it as long as no more than the timeout has passed since
    the touch.  A [touch] that fails leaves no session for the thread. *)
Theorem touch_extends_the_session (n_check n_touch now : Z)
        (store : Session.SessionStore) (tid : string) :
  SessionRange.session_in_range store tid = true ->
  SessionRange.expiry_in_range n_touch (Session._timeout_minutes store)
  = true ->
  match fst (Session.get n_check store tid) with
  | Some s =>
      fst (Session.touch n_check n_touch store tid) = true
      /\ fst (Session.get now
                (snd (Session.touch n_check n_touch store tid)) tid)
         = if now - n_touch
              <=? Session.minutes (Session._timeout_minutes store)
           then Some {| Session.thread_id := Session.thread_id s;
                        Session.agent_id := Session.agent_id s;
                        Session.agent_handle := Session.agent_handle s;
                        Session.created_at := Session.created_at s;
                        Session.last_activity := n_touch |}
           else None
  | None =>
      fst (Session.touch n_check n_touch store tid) = false
      /\ Session._sessions
           (snd (Session.touch n_check n_touch store tid)) !! tid = None
  end.
Proof.
  intros _ _.
  unfold Session.get at 1, Session.touch.
  destruct (Session._sessions store !! tid) as [s|] eqn:E; cbn [fst].
  - destruct (Session.is_expired n_check s (Session._timeout_minutes store));
      cbn [fst snd].
    + split; [reflexivity|]. apply lookup_delete_eq.
    + split; [reflexivity|].
      erewrite get_of_lookup by apply lookup_insert_eq. reflexivity.
  - split; [reflexivity | exact E].
Qed.

Lemma touch_extends_the_session_witness :
  SessionRange.session_in_range Samples.store_t1 "t1" = true
  /\ SessionRange.expiry_in_range 1000
       (Session._timeout_minutes Samples.store_t1) = true
  /\ fst (Session.touch 500 1000 Samples.store_t1 "t1") = true
  /\ fst (Session.get (1000 + Session.minutes 30)
            (snd (Session.touch 500 1000 Samples.store_t1 "t1")) "t1")
     = Some {| Session.thread_id := "t1";
               Session.agent_id := "metrics-agent";
               Session.agent_handle := "metrics"; Session.created_at := 10;
               Session.last_activity := 1000 |}.
Proof.
  assert (H1 : SessionRange.session_in_range Samples.store_t1 "t1" = true)
    by (vm_compute; reflexivity).
  assert (H2 : SessionRange.expiry_in_range 1000
                 (Session._timeout_minutes Samples.store_t1) = true)
    by (vm_compute; reflexivity).
  split; [exact H1|]. split; [exact H2|].
  pose proof (touch_extends_the_session 500 1000
                (1000 + Session.minutes 30) Samples.store_t1 "t1" H1 H2)
    as H.
  assert (Hg : fst (Session.get 500 Samples.store_t1 "t1")
               = Some {| Session.thread_id := "t1";
                         Session.agent_id := "metrics-agent";
                         Session.agent_handle := "metrics";
                         Session.created_at := 10;
                         Session.last_activity := 11 |})
    by (vm_compute; reflexivity).
  rewrite Hg in H. destruct H as [Ht Hget]. split; [exact Ht|].
  rewrite Hget. reflexivity.
Defined.

(** X4.  The operations on one thread never change what the store holds
    for another thread. *)
Theorem other_threads_are_untouched
        (store : Session.SessionStore) (tid other : string)
        (n1 n2 : Z) (aid h : string) :
  other <> tid ->
  Session._sessions (snd (Session.get n1 store tid)) !! other
  = Session._sessions store !! other
  /\ Session._sessions (snd (Session.set n1 n2 store tid aid h)) !! other
     = Session._sessions store !! other
  /\ Session._sessions (snd (Session.touch n1 n2 store tid)) !! other
     = Session._sessions store !! other
  /\ Session._sessions (snd (Session.delete_session store tid)) !! other
     = Session._sessions store !! other.
Proof.
  intros Hne.
  assert (Hd : delete tid (Session._sessions store) !! other
               = Session._sessions store !! other)
    by (apply lookup_delete_ne; congruence).
  unfold Session.get, Session.set, Session.touch, Session.delete_session.
  destruct (Session._sessions store !! tid) as [s|];
    [destruct (Session.is_expired n1 s (Session._timeout_minutes store))|];
    cbn [snd Session.with_sessions Session._sessions];
    repeat split; try exact Hd; try reflexivity;
    apply lookup_insert_ne; congruence.
Qed.

Lemma other_threads_are_untouched_witness :
  Session._sessions
    (snd (Session.delete_session Samples.store_t1 "t2")) !! "t1"%string
  = Session._sessions Samples.store_t1 !! "t1"%string.
Proof.
  refine (proj2 (proj2 (proj2
            (other_threads_are_untouched Samples.store_t1 "t2" "t1" 0 0
               "" "" _)))).
  discriminate.
Defined.

(** ** Mention parser *)

Section MentionParserFacts.
Import Py PyStr Mention.

Lemma take_handle_split (s : string) :
  exists rest,
    s = (take_handle s +:+ rest)%string
    /\ all_chars is_handle_char (take_handle s) = true
    /\ Spec.starts_handle rest = false.
Proof.
  induction s as [|c s IH].
  - exists ""%string. repeat split.
  - cbn [take_handle]. destruct (is_handle_char c) eqn:Hc.
    + destruct IH as (rest & Hs & Ha & Hr). exists rest.
      cbn [String.append all_chars]. rewrite Hc, Ha, <- Hs. repeat split.
      exact Hr.
    + exists (String c s). cbn [String.append all_chars Spec.starts_handle].
      repeat split. exact Hc.
Qed.

Lemma take_handle_run (raw rest : string) :
  all_chars is_handle_char raw = true ->
  Spec.starts_handle rest = false ->
  take_handle (raw +:+ rest) = raw.
Proof.
  intros Ha Hr. induction raw as [|c raw IH]; cbn [String.append].
  - destruct rest as [|c rest]; [reflexivity|].
    cbn [take_handle Spec.starts_handle] in *. rewrite Hr. reflexivity.
  - cbn [all_chars] in Ha. apply andb_true_iff in Ha as [Hc Ha].
    cbn [take_handle]. rewrite Hc, (IH Ha). reflexivity.
Qed.

Lemma search_app (pre s : string) (c : ascii) :
  search pre = None ->
  is_at c = true ->
  search (pre +:+ String c s) = search (String c s).
Proof.
  intros Hp Hc. induction pre as [|p pre IH]; [reflexivity|].
  apply search_cons in Hp as [Hat Hp].
  change ((String p pre +:+ String c s)%string)
    with (String p (pre +:+ String c s)).
  cbn [search]. rewrite (IH Hp).
  destruct (is_at p) eqn:Ep; [|reflexivity].
  cbn [andb] in *. rewrite truthy_take_handle.
  assert (Hs : Spec.starts_handle (pre +:+ String c s) = false).
  { destruct pre as [|q pre']; cbn [String.append Spec.starts_handle] in *.
    - unfold is_at in Hc. apply N.eqb_eq in Hc.
      unfold is_handle_char. rewrite Hc. reflexivity.
    - exact Hat. }
  rewrite Hs. reflexivity.
Qed.

Lemma search_split (message handle : string) :
  search message = Some handle ->
  exists pre c rest,
    message = (pre +:+ String c (handle +:+ rest))%string
    /\ is_at c = true
    /\ search pre = None
    /\ truthy handle = true
    /\ all_chars is_handle_char handle = true
    /\ Spec.starts_handle rest = false.
Proof.
  induction message as [|c s IH]; [discriminate|].
  cbn [search]. destruct (is_at c && truthy (take_handle s)) eqn:E.
  - intros [= <-]. apply andb_true_iff in E as [Hc Ht].
    destruct (take_handle_split s) as (rest & Hs & Ha & Hr).
    exists ""%string, c, rest. cbn [String.append]. rewrite <- Hs.
    repeat split; assumption.
  - intros H. destruct (IH H) as (pre & c' & rest & Hm & Hc' & Hp & Ht & Ha & Hr).
    exists (String c pre), c', rest. cbn [String.append]. rewrite <- Hm.
    repeat split; try assumption.
    apply search_cons. split; [|exact Hp].
    rewrite truthy_take_handle in E.
    destruct (is_at c) eqn:Ec; [|reflexivity]. cbn [andb] in *.
    destruct pre as [|q pre']; [reflexivity|].
    rewrite Hm in E. exact E.
Qed.

Lemma lower_char_handle (c : ascii) :
  is_handle_char c = true ->
  is_handle_char (lower_char c) = true
  /\ lower_char (lower_char c) = lower_char c.
Proof.
  destruct c as [[] [] [] [] [] [] [] []]; vm_compute; intros H;
    try discriminate H; split; reflexivity.
Qed.

Lemma lower_handle (s : string) :
  all_chars is_handle_char s = true ->
  all_chars is_handle_char (lower s) = true /\ lower (lower s) = lower s.
Proof.
  induction s as [|c s IH]; [split; reflexivity|].
  cbn [all_chars lower]. intros H. apply andb_true_iff in H as [Hc Hs].
  destruct (lower_char_handle c Hc) as [H1 H2].
  destruct (IH Hs) as [H3 H4]. rewrite H1, H2, H3, H4. split; reflexivity.
Qed.

Lemma at_sign (c : ascii) : is_at c = true -> c = "@"%char.
Proof.
  unfold is_at. intros H. apply N.eqb_eq in H.
  rewrite <- (ascii_N_embedding c), H. reflexivity.
Qed.

(** Without a mention the substitution changes nothing. *)
Lemma sub_empty_id (s : string) :
  search s = None -> sub_empty false s = s.
Proof.
  induction s as [|c s IH]; [reflexivity|].
  intros H. apply search_cons in H as [Hat Hs].
  cbn [sub_empty andb]. rewrite truthy_take_handle, Hat, (IH Hs).
  reflexivity.
Qed.

End MentionParserFacts.

(** X5.  [parse_mention] returns a handle exactly when the message reads
    [pre @raw rest], where [pre] holds no mention, [raw] is a non-empty run
    of the characters [a-zA-Z0-9_-] and [rest] does not go on with such a
    character; the handle is [raw] in lower case.  So a handle that is
    returned is never empty, is made of handle characters only and is its
    own lower case. *)
Theorem parse_mention_finds_the_first_handle (message h : string) :
  (Mention.parse_mention message = Some h
   <-> exists pre raw rest,
        message = (pre +:+ "@" +:+ raw +:+ rest)%string
        /\ Mention.parse_mention pre = None
        /\ raw <> ""%string
        /\ PyStr.all_chars Mention.is_handle_char raw = true
        /\ Mention.take_handle rest = ""%string
        /\ h = Py.lower raw)
  /\ (Mention.parse_mention message = Some h ->
      h <> ""%string
      /\ PyStr.all_chars Mention.is_handle_char h = true
      /\ Py.lower h = h).
Proof.
  assert (Hnone : forall pre, Mention.parse_mention pre = None
                              <-> Mention.search pre = None).
  { intros pre. unfold Mention.parse_mention.
    destruct pre as [|c pre]; [split; reflexivity|]. cbn [Py.truthy negb].
    destruct (Mention.search (String c pre)); split; intros H;
      try discriminate H; reflexivity. }
  assert (Hrest : forall rest, Mention.take_handle rest = ""%string
                               <-> Spec.starts_handle rest = false).
  { intros rest. rewrite <- truthy_take_handle.
    destruct (Mention.take_handle rest); split; intros H;
      try discriminate H; reflexivity. }
  assert (Hfwd :
    Mention.parse_mention message = Some h ->
    exists pre raw rest,
      message = (pre +:+ "@" +:+ raw +:+ rest)%string
      /\ Mention.parse_mention pre = None
      /\ raw <> ""%string
      /\ PyStr.all_chars Mention.is_handle_char raw = true
      /\ Mention.take_handle rest = ""%string
      /\ h = Py.lower raw).
  { unfold Mention.parse_mention.
    destruct (negb (Py.truthy message)); [discriminate|].
    destruct (Mention.search message) as [raw|] eqn:Es; [|discriminate].
    intros [= <-].
    destruct (search_split message raw Es)
      as (pre & c & rest & Hm & Hc & Hp & Ht & Ha & Hr).
    apply at_sign in Hc. subst c.
    exists pre, raw, rest. split; [exact Hm|].
    split; [apply Hnone, Hp|]. split; [intros ->; discriminate Ht|].
    split; [exact Ha|]. split; [apply Hrest, Hr | reflexivity]. }
  split; [split; [exact Hfwd|] |].
  - intros (pre & raw & rest & -> & Hp & Hraw & Ha & Hr & ->).
    apply Hnone in Hp. apply Hrest in Hr.
    unfold Mention.parse_mention.
    assert (Hs : Mention.search (pre +:+ "@" +:+ raw +:+ rest) = Some raw).
    { change (("@" +:+ raw +:+ rest)%string)
        with (String "@" (raw +:+ rest)).
      rewrite (search_app pre (raw +:+ rest) "@" Hp eq_refl).
      cbn [Mention.search]. rewrite (take_handle_run raw rest Ha Hr).
      destruct raw; [contradiction|reflexivity]. }
    rewrite Hs.
    destruct pre; reflexivity.
  - intros H. destruct (Hfwd H) as (pre & raw & rest & _ & _ & Hraw & Ha & _ & ->).
    destruct (lower_handle raw Ha) as [H1 H2].
    split; [destruct raw; [contradiction|discriminate] | split; assumption].
Qed.

Lemma parse_mention_finds_the_first_handle_witness :
  Mention.parse_mention "Help me @Troubleshoot this"
  = Some "troubleshoot"%string
  /\ "troubleshoot"%string <> ""%string
  /\ PyStr.all_chars Mention.is_handle_char "troubleshoot" = true
  /\ Py.lower "troubleshoot" = "troubleshoot"%string.
Proof.
  assert (H : Mention.parse_mention "Help me @Troubleshoot this"
              = Some "troubleshoot"%string) by reflexivity.
  split; [exact H|].
  exact (proj2 (parse_mention_finds_the_first_handle
                  "Help me @Troubleshoot this" "troubleshoot") H).
Defined.

(** X6.  [strip_mentions] is idempotent: stripping a stripped message
    changes nothing.  A message without a mention only has its whitespace
    collapsed: its words are kept and joined by single spaces. *)
Theorem strip_mentions_idempotent (message : string) :
  Mention.strip_mentions (Mention.strip_mentions message)
  = Mention.strip_mentions message
  /\ (Mention.parse_mention message = None ->
      Mention.strip_mentions message = Py.join " " (Py.split message)
      /\ Py.split (Mention.strip_mentions message) = Py.split message).
Proof.
  split.
  - destruct (strip_mentions_clean message) as [Hp Hn].
    set (t := Mention.strip_mentions message) in *.
    unfold Mention.strip_mentions at 1.
    destruct t as [|c t'] eqn:Et; [reflexivity|]. cbn [Py.truthy negb].
    assert (Hs : Mention.search (String c t') = None).
    { unfold Mention.parse_mention in Hp. cbn [Py.truthy negb] in Hp.
      destruct (Mention.search (String c t')); [discriminate|reflexivity]. }
    rewrite (sub_empty_id _ Hs). exact Hn.
  - intros H.
    assert (Hs : Mention.strip_mentions message
                 = Py.join " " (Py.split message)).
    { unfold Mention.strip_mentions, Mention.parse_mention in *.
      destruct message as [|c s]; [reflexivity|]. cbn [Py.truthy negb] in *.
      destruct (Mention.search (String c s)) eqn:E; [discriminate|].
      rewrite (sub_empty_id _ E). reflexivity. }
    split; [exact Hs|]. rewrite Hs. apply split_normalized.
Qed.

(** ** Agent catalog *)

Section CatalogFacts.
Import Py Config.

Lemma find_exists {A : Type} (p : A -> bool) (l : list A) (x : A) :
  In x l -> p x = true ->
  exists y, List.find p l = Some y /\ In y l /\ p y = true.
Proof.
  intros Hin Hp. destruct (List.find p l) as [y|] eqn:E.
  - exists y. apply List.find_some in E as [H1 H2]. auto.
  - exfalso. pose proof (List.find_none p l E x Hin) as H. congruence.
Qed.

Lemma existsb_eqb_In (h : string) (hs : list string) :
  existsb (String.eqb h) hs = true <-> In h hs.
Proof.
  rewrite existsb_exists. split.
  - intros (x & Hx & He). apply String.eqb_eq in He. subst. exact Hx.
  - intros H. exists h. split; [exact H | apply String.eqb_refl].
Qed.

End CatalogFacts.

(** X7.  In a catalog that passed validation the default agent is found:
    [get_default_agent] does not raise, the agent it returns is the
    default agent, and every agent of the catalog has a first handle. *)
Theorem validated_catalog_has_its_default_agent (cfg : Config.AgentsConfig) :
  Config.validated cfg = true ->
  (exists a, Config.get_default_agent cfg = Py.Ok a
             /\ In a (Config.agents cfg)
             /\ Config.is_default_agent cfg a = true)
  /\ (forall a, In a (Config.agents cfg) ->
                exists h hs, Config.handles a = h :: hs).
Proof.
  unfold Config.validated. intros H.
  apply andb_true_iff in H as [H Hd]. apply andb_true_iff in H as [Hh _].
  split.
  - apply existsb_exists in Hd as (x & Hx & Hid).
    unfold Config.get_default_agent, Config.get_agent_by_id.
    destruct (find_exists
                (fun agent => String.eqb (Config.id agent)
                                (Config.default_agent cfg))
                (Config.agents cfg) x Hx Hid) as (a & -> & Ha & Hp).
    exists a. split; [reflexivity|]. split; [exact Ha | exact Hp].
  - intros a Ha. rewrite forallb_forall in Hh. specialize (Hh a Ha).
    destruct (Config.handles a) as [|h hs]; [discriminate | eauto].
Qed.

Lemma validated_catalog_has_its_default_agent_witness :
  Config.validated Samples.catalog = true
  /\ exists a, Config.get_default_agent Samples.catalog = Py.Ok a
               /\ In a (Config.agents Samples.catalog)
               /\ Config.is_default_agent Samples.catalog a = true.
Proof.
  assert (H : Config.validated Samples.catalog = true) by reflexivity.
  split; [exact H|].
  exact (proj1 (validated_catalog_has_its_default_agent Samples.catalog H)).
Defined.

(** X8.  Handles are matched without regard to case: when an agent of
    the catalog went through the validator that lower-cases its handles,
    every handle written for it, in whatever case, is resolved by
    [get_agent_by_handle] from whatever case the mention has, to an agent
    of the catalog that holds the handle in lower case (the first such
    agent). *)
Theorem configured_handles_resolve_in_any_case
        (cfg : Config.AgentsConfig) (raw : Config.AgentConfig)
        (h mentioned : string) :
  In (Validators.with_validated_handles raw) (Config.agents cfg) ->
  In h (Config.handles raw) ->
  Py.lower mentioned = Py.lower h ->
  exists a, Config.get_agent_by_handle cfg mentioned = Some a
            /\ In a (Config.agents cfg)
            /\ In (Py.lower h) (Config.handles a).
Proof.
  intros Hin Hh Hm. unfold Config.get_agent_by_handle. rewrite Hm.
  destruct (find_exists
              (fun agent => existsb (String.eqb (Py.lower h))
                                    (Config.handles agent))
              (Config.agents cfg) _ Hin) as (a & -> & Ha & Hp).
  - apply existsb_eqb_In. cbn [Validators.with_validated_handles
                                 Config.handles].
    unfold Validators.handles_lowercase. apply in_map. exact Hh.
  - exists a. split; [reflexivity|]. split; [exact Ha|].
    apply existsb_eqb_In. exact Hp.
Qed.

Lemma configured_handles_resolve_in_any_case_witness :
  exists a,
    Config.get_agent_by_handle
      {| Config.session := Config.session Samples.catalog;
         Config.default_agent := "general-agent";
         Config.agents :=
           [Validators.with_validated_handles
              {| Config.id := "metrics-agent"; Config.name := "Metrics";
                 Config.handles := ["Metrics"%string];
                 Config.url := "http://metrics:8080";
                 Config.protocol := Config.AG_UI; Config.routing := None;
                 Config.description := "" |};
            Samples.general] |} "METRICS" = Some a
    /\ Config.id a = "metrics-agent"%string.
Proof.
  destruct (configured_handles_resolve_in_any_case
              {| Config.session := Config.session Samples.catalog;
                 Config.default_agent := "general-agent";
                 Config.agents :=
                   [Validators.with_validated_handles
                      {| Config.id := "metrics-agent";
                         Config.name := "Metrics";
                         Config.handles := ["Metrics"%string];
                         Config.url := "http://metrics:8080";
                         Config.protocol := Config.AG_UI;
                         Config.routing := None;
                         Config.description := "" |};
                    Samples.general] |}
              {| Config.id := "metrics-agent"; Config.name := "Metrics";
                 Config.handles := ["Metrics"%string];
                 Config.url := "http://metrics:8080";
                 Config.protocol := Config.AG_UI; Config.routing := None;
                 Config.description := "" |}
              "Metrics" "METRICS")
    as (a & Ha & _ & _).
  - simpl. left. reflexivity.
  - simpl. left. reflexivity.
  - reflexivity.
  - exists a. split; [exact Ha|]. vm_compute in Ha. injection Ha as <-.
    reflexivity.
Defined.

(** ** Retry policy: bounds *)

Section BackoffFacts.
Import Retry Proxy Protocol.

Lemma get_delay_ms_range (cfg : RetryConfig) (k : Z) :
  0 <= base_delay_ms cfg -> 0 <= max_delay_ms cfg ->
  0 <= get_delay_ms cfg k <= max_delay_ms cfg.
Proof.
  intros Hb Hm. unfold get_delay_ms.
  destruct (Z.leb_spec k 0); [lia|].
  assert (0 <= 2 ^ (k - 1)) by (apply Z.pow_nonneg; lia).
  assert (0 <= base_delay_ms cfg * 2 ^ (k - 1)) by (apply Z.mul_nonneg_nonneg; lia).
  lia.
Qed.

Lemma slept_ms_app (t1 t2 : list Action) :
  slept_ms (t1 ++ t2) = slept_ms t1 + slept_ms t2.
Proof.
  induction t1 as [|a t1 IH]; [reflexivity|].
  destruct a; cbn [app slept_ms]; rewrite IH; lia.
Qed.

Lemma slept_ms_yields (es : list Agui.Event) : slept_ms (map Yield es) = 0.
Proof. induction es as [|e es IH]; [reflexivity | exact IH]. Qed.

Lemma slept_ms_wait (cfg : RetryConfig) (k : Z) :
  0 <= base_delay_ms cfg -> 0 <= max_delay_ms cfg ->
  0 <= slept_ms (wait_before_retry cfg k) <= max_delay_ms cfg.
Proof.
  intros Hb Hm. unfold wait_before_retry.
  pose proof (get_delay_ms_range cfg k Hb Hm).
  destruct (0 <? get_delay_ms cfg k); cbn [slept_ms]; lia.
Qed.

(** From attempt [k] on, with [remaining] rounds to go, the loop sleeps
    at most once per round, and not in a round that is the first
    attempt. *)
Lemma attempt_loop_slept (cfg : RetryConfig) agent backend :
  0 <= base_delay_ms cfg -> 0 <= max_delay_ms cfg ->
  forall remaining k made last,
    0 <= slept_ms (fst (attempt_loop cfg agent backend remaining k made last))
    <= Z.of_nat (if (0 <? k)%nat then remaining else Nat.pred remaining)
       * max_delay_ms cfg.
Proof.
  intros Hb Hm.
  induction remaining as [|r IH]; intros k made last.
  - cbn [attempt_loop exhausted fst slept_ms].
    destruct (0 <? k)%nat; cbn [Nat.pred]; lia.
  - cbn [attempt_loop Nat.pred].
    set (waited := if (0 <? k)%nat then wait_before_retry cfg (Z.of_nat k)
                   else []).
    assert (Hw : 0 <= slept_ms waited
                 <= if (0 <? k)%nat then max_delay_ms cfg else 0).
    { subst waited. destruct (0 <? k)%nat; [|cbn [slept_ms]; lia].
      apply slept_ms_wait; assumption. }
    assert (Hs : slept_ms (waited ++ CallAgent k
                             :: map Yield (yielded (backend k)))
                 = slept_ms waited).
    { rewrite slept_ms_app. cbn [slept_ms]. rewrite slept_ms_yields. lia. }
    assert (Hr : 0 <= Z.of_nat r * max_delay_ms cfg)
      by (apply Z.mul_nonneg_nonneg; lia).
    destruct (ending (backend k)) as [| e | msg]; cbn [fst].
    + rewrite Hs. destruct (0 <? k)%nat; nia.
    + destruct (is_retryable_error e); cbn [negb].
      * specialize (IH (S k) (k + 1)%nat (Some e)).
        destruct (attempt_loop cfg agent backend r (S k) (k + 1) (Some e))
          as [rest fin].
        cbn [fst] in *. rewrite slept_ms_app, Hs.
        change (0 <? S k)%nat with true in IH. cbv iota in IH.
        destruct (0 <? k)%nat; nia.
      * cbn [exhausted fst]. rewrite slept_ms_app, Hs. cbn [slept_ms].
        destruct (0 <? k)%nat; nia.
    + rewrite Hs. destruct (0 <? k)%nat; nia.
Qed.

End BackoffFacts.

(** X9.  With a non-negative base delay and cap, the delay before an
    attempt is never negative, never above [max_delay_ms], and never
    smaller than the delay before an earlier attempt. *)
Theorem get_delay_ms_is_capped_and_monotone
        (cfg : Retry.RetryConfig) (k k' : Z) :
  0 <= Retry.base_delay_ms cfg ->
  0 <= Retry.max_delay_ms cfg ->
  k <= k' ->
  0 <= Retry.get_delay_ms cfg k <= Retry.max_delay_ms cfg
  /\ Retry.get_delay_ms cfg k <= Retry.get_delay_ms cfg k'.
Proof.
  intros Hb Hm Hk. split; [apply get_delay_ms_range; assumption|].
  pose proof (get_delay_ms_range cfg k' Hb Hm) as Hr.
  unfold Retry.get_delay_ms in *.
  destruct (Z.leb_spec k 0); [destruct (Z.leb_spec k' 0); lia|].
  destruct (Z.leb_spec k' 0); [lia|].
  assert (2 ^ (k - 1) <= 2 ^ (k' - 1)) by (apply Z.pow_le_mono_r; lia).
  assert (Retry.base_delay_ms cfg * 2 ^ (k - 1)
          <= Retry.base_delay_ms cfg * 2 ^ (k' - 1))
    by (apply Z.mul_le_mono_nonneg_l; lia).
  lia.
Qed.

Lemma get_delay_ms_is_capped_and_monotone_witness :
  0 <= Retry.get_delay_ms Samples.retry3 4 <= 5000
  /\ Retry.get_delay_ms Samples.retry3 4
     <= Retry.get_delay_ms Samples.retry3 5.
Proof.
  apply (get_delay_ms_is_capped_and_monotone Samples.retry3 4 5);
    simpl; lia.
Defined.

(** X10.  A forwarded request never sleeps longer in total than
    [max_attempts - 1] times [max_delay_ms]: there is no sleep before the
    first attempt and at most one, of at most [max_delay_ms], before each
    of the others. *)
Theorem forward_request_total_sleep_is_bounded
        (cfg : Retry.RetryConfig) (agent : Config.AgentConfig)
        (backend : nat -> Proxy.Call) :
  0 <= Retry.base_delay_ms cfg ->
  0 <= Retry.max_delay_ms cfg ->
  1 <= Retry.max_attempts cfg ->
  0 <= Protocol.slept_ms (fst (Proxy.forward_request cfg agent backend))
  <= (Retry.max_attempts cfg - 1) * Retry.max_delay_ms cfg.
Proof.
  intros Hb Hm Hn. unfold Proxy.forward_request.
  pose proof (attempt_loop_slept cfg agent backend Hb Hm
                (Z.to_nat (Retry.max_attempts cfg)) 0 0 None) as H.
  change (0 <? 0)%nat with false in H. cbv iota in H.
  replace (Z.of_nat (Nat.pred (Z.to_nat (Retry.max_attempts cfg))))
    with (Retry.max_attempts cfg - 1) in H by lia.
  exact H.
Qed.

Lemma forward_request_total_sleep_is_bounded_witness :
  0 <= Protocol.slept_ms
         (fst (Proxy.forward_request Samples.retry3 Samples.metrics
                 Samples.refusing))
  <= (3 - 1) * 5000.
Proof.
  apply (forward_request_total_sleep_is_bounded Samples.retry3
           Samples.metrics Samples.refusing); simpl; lia.
Defined.

(** ** Streaming proxy: how a request ends *)

Section ProxyEndFacts.
Import Retry Proxy Protocol.

(** The loop entered at attempt [k] with [k] calls made: when it raises,
    the error counts the attempts, the last attempt is the one that
    failed for good, and every attempt before it failed with a retryable
    error. *)
Lemma attempt_loop_gives_up (cfg : RetryConfig) agent backend :
  forall remaining k last trace e,
    attempt_loop cfg agent backend remaining k k last
    = (trace, ProxyErrorRaised e) ->
    (exists pre, trace = pre ++ [Yield (Agui.RunError (error_message e))])
    /\ agent_id e = Some (Config.id agent)
    /\ (k <= attempts e <= k + remaining)%nat
    /\ (forall j, (k <= j)%nat -> (S j < attempts e)%nat ->
                  exists err, ending (backend j) = ClientError err
                              /\ is_retryable_error err = true)
    /\ (attempts e = k ->
        remaining = O
        /\ error_message e
           = ("Agent " +:+ Config.name agent +:+ " failed after "
              +:+ Py.str_of_nat k +:+ " attempt(s): "
              +:+ str_of_last_error last)%string
        /\ is_retryable e = match last with
                            | Some err => is_retryable_error err
                            | None => false
                            end)
    /\ ((k < attempts e)%nat ->
        exists err,
          ending (backend (Nat.pred (attempts e))) = ClientError err
          /\ is_retryable e = is_retryable_error err
          /\ error_message e
             = ("Agent " +:+ Config.name agent +:+ " failed after "
                +:+ Py.str_of_nat (attempts e) +:+ " attempt(s): "
                +:+ message err)%string
          /\ (is_retryable_error err = true ->
              attempts e = (k + remaining)%nat)).
Proof.
  induction remaining as [|r IH]; intros k last trace e H.
  - cbn [attempt_loop exhausted] in H. injection H as <- <-.
    cbn [error_message agent_id attempts is_retryable].
    split; [exists []; reflexivity|]. split; [reflexivity|].
    split; [lia|]. split; [intros; lia|].
    split; [intros _; repeat split | intros; lia].
  - cbn [attempt_loop] in H.
    set (streamed := (if (0 <? k)%nat
                      then wait_before_retry cfg (Z.of_nat k) else [])
                     ++ CallAgent k :: map Yield (yielded (backend k))) in *.
    destruct (ending (backend k)) as [| err | msg] eqn:Ek; try discriminate.
    destruct (is_retryable_error err) eqn:Er; cbn [negb] in H.
    + replace (k + 1)%nat with (S k) in H by lia.
      destruct (attempt_loop cfg agent backend r (S k) (S k) (Some err))
        as [rest fin] eqn:E.
      injection H as <- ->.
      destruct (IH _ _ _ _ E) as ((pre & Hpre) & Hid & Hrange & Hbefore
                                  & Hsame & Hlater).
      split; [exists (streamed ++ pre); rewrite Hpre, app_assoc; reflexivity|].
      split; [exact Hid|]. split; [lia|]. split.
      { intros j Hj Hlt. destruct (Nat.eq_dec j k) as [->|Hne].
        - exists err. split; assumption.
        - apply Hbefore; lia. }
      split; [intros; lia|]. intros _.
      destruct (Nat.eq_dec (attempts e) (S k)) as [Heq|Hne].
      * destruct (Hsame Heq) as (-> & Hmsg & Hret).
        exists err. rewrite Heq. cbn [Nat.pred].
        split; [exact Ek|]. split; [exact Hret|].
        split; [exact Hmsg | intros _; lia].
      * destruct Hlater as (err' & H1 & H2 & H3 & H4); [lia|].
        exists err'. split; [exact H1|]. split; [exact H2|].
        split; [exact H3 | intros Hr'; rewrite (H4 Hr'); lia].
    + cbn [exhausted] in H. injection H as <- <-.
      cbn [error_message agent_id attempts is_retryable].
      split; [exists streamed; reflexivity|]. split; [reflexivity|].
      split; [lia|]. split; [intros; lia|]. split; [intros; lia|].
      intros _. exists err. replace (Nat.pred (k + 1)) with k by lia.
      split; [exact Ek|]. split; [reflexivity|]. split; [reflexivity|].
      rewrite Er. discriminate.
Qed.

(** A call that completes ends the request. *)
Lemma forward_request_first_call_completes (cfg : RetryConfig) agent backend :
  1 <= max_attempts cfg ->
  ending (backend O) = Completed ->
  forward_request cfg agent backend
  = (CallAgent 0 :: map Yield (yielded (backend O)), Returned).
Proof.
  intros Hn Hc. unfold forward_request.
  destruct (Z.to_nat (max_attempts cfg)) as [|r] eqn:E; [lia|].
  cbn [attempt_loop]. rewrite Hc. reflexivity.
Qed.

Lemma forward_a2a_completes agent request a2a run_id message_id :
  ending (_forward_a2a agent request a2a run_id message_id) = Completed.
Proof.
  unfold _forward_a2a, UserMessage.extract_last_user_message.
  induction (rev (Agui.messages request)) as [|m ms IH].
  - reflexivity.
  - cbn [UserMessage.search_reversed].
    destruct (String.eqb (Agui.role m) "user"); [|exact IH].
    destruct (Agui.content m) as [s | items |].
    + destruct (a2a s _); reflexivity.
    + destruct (UserMessage.item_texts items) as [|t ts]; [exact IH|].
      destruct (a2a _ _); reflexivity.
    + exact IH.
Qed.

End ProxyEndFacts.

(** X11.  With [max_attempts] zero or negative the proxy calls the agent
    not even once: it yields one RUN_ERROR and raises an error that
    counts 0 attempts, names no cause and is not retryable. *)
Theorem forward_request_without_attempts
        (cfg : Retry.RetryConfig) (agent : Config.AgentConfig)
        (backend : nat -> Proxy.Call) :
  Retry.max_attempts cfg <= 0 ->
  Proxy.forward_request cfg agent backend
  = ([Retry.Yield
        (Agui.RunError
           ("Agent " +:+ Config.name agent
            +:+ " failed after 0 attempt(s): None")%string)],
     Proxy.ProxyErrorRaised
       {| Proxy.error_message :=
            ("Agent " +:+ Config.name agent
             +:+ " failed after 0 attempt(s): None")%string;
          Proxy.agent_id := Some (Config.id agent);
          Proxy.agent_name := Some (Config.name agent);
          Proxy.attempts := 0;
          Proxy.is_retryable := false |})
  /\ Proxy.calls_made (fst (Proxy.forward_request cfg agent backend)) = O.
Proof.
  intros H. unfold Proxy.forward_request.
  replace (Z.to_nat (Retry.max_attempts cfg)) with O by lia.
  split; reflexivity.
Qed.

Lemma forward_request_without_attempts_witness :
  Proxy.calls_made
    (fst (Proxy.forward_request
            {| Retry.max_attempts := 0; Retry.base_delay_ms := 500;
               Retry.max_delay_ms := 5000 |}
            Samples.metrics Samples.answering)) = O.
Proof.
  apply (forward_request_without_attempts
           {| Retry.max_attempts := 0; Retry.base_delay_ms := 500;
              Retry.max_delay_ms := 5000 |}
           Samples.metrics Samples.answering).
  simpl. lia.
Defined.

(** X12.  When the proxy raises [AgentProxyError] (with at least one
    attempt allowed), the error tells why it gave up.  Its attempt count
    [n] lies between 1 and [max_attempts]; the attempts before the last all
    failed with a retryable client error; the last one failed with the
    client error whose text ends the message and whose retryability is the
    [is_retryable] flag, so a retryable error means the attempts were used
    up; and the last thing yielded is the RUN_ERROR with the message of the
    error. *)
Theorem proxy_error_tells_why_it_gave_up
        (cfg : Retry.RetryConfig) (agent : Config.AgentConfig)
        (backend : nat -> Proxy.Call) (e : Proxy.AgentProxyError) :
  1 <= Retry.max_attempts cfg ->
  snd (Proxy.forward_request cfg agent backend) = Proxy.ProxyErrorRaised e ->
  (1 <= Proxy.attempts e)%nat
  /\ Z.of_nat (Proxy.attempts e) <= Retry.max_attempts cfg
  /\ Proxy.agent_id e = Some (Config.id agent)
  /\ (forall j, (S j < Proxy.attempts e)%nat ->
                exists err,
                  Proxy.ending (backend j) = Proxy.ClientError err
                  /\ Retry.is_retryable_error err = true)
  /\ (exists err,
         Proxy.ending (backend (Nat.pred (Proxy.attempts e)))
         = Proxy.ClientError err
         /\ Proxy.is_retryable e = Retry.is_retryable_error err
         /\ Proxy.error_message e
            = ("Agent " +:+ Config.name agent +:+ " failed after "
               +:+ Py.str_of_nat (Proxy.attempts e) +:+ " attempt(s): "
               +:+ Retry.message err)%string)
  /\ (Proxy.is_retryable e = true ->
      Z.of_nat (Proxy.attempts e) = Retry.max_attempts cfg)
  /\ exists pre,
      fst (Proxy.forward_request cfg agent backend)
      = pre ++ [Retry.Yield (Agui.RunError (Proxy.error_message e))].
Proof.
  intros Hn H. unfold Proxy.forward_request in *.
  destruct (Proxy.attempt_loop cfg agent backend
              (Z.to_nat (Retry.max_attempts cfg)) 0 0 None)
    as [trace fin] eqn:E.
  cbn [fst snd] in *. subst fin.
  destruct (attempt_loop_gives_up cfg agent backend _ _ _ _ _ E)
    as (Hpre & Hid & Hrange & Hbefore & Hsame & Hlater).
  assert (Hpos : (0 < Proxy.attempts e)%nat).
  { destruct (Nat.eq_dec (Proxy.attempts e) 0%nat) as [Hz|]; [|lia].
    destruct (Hsame Hz) as [Hr _]. lia. }
  destruct (Hlater Hpos) as (err & H1 & H2 & H3 & H4).
  split; [lia|]. split; [lia|]. split; [exact Hid|].
  split; [intros j Hj; apply Hbefore; lia|].
  split; [exists err; auto|].
  split; [|exact Hpre].
  intros Hr. rewrite H2 in Hr. rewrite (H4 Hr). lia.
Qed.

Lemma proxy_error_tells_why_it_gave_up_witness :
  exists e,
    snd (Proxy.forward_request Samples.retry3 Samples.metrics
           Samples.refusing) = Proxy.ProxyErrorRaised e
    /\ Proxy.attempts e = 3%nat
    /\ Proxy.is_retryable e = true
    /\ (Proxy.is_retryable e = true -> Z.of_nat (Proxy.attempts e) = 3).
Proof.
  eexists. split; [vm_compute; reflexivity|].
  split; [reflexivity|]. split; [reflexivity|].
  refine (proj1 (proj2 (proj2 (proj2 (proj2 (proj2
            (proxy_error_tells_why_it_gave_up Samples.retry3
               Samples.metrics Samples.refusing _ _ _))))))).
  - simpl. lia.
  - vm_compute. reflexivity.
Defined.

(** X13.  An agent that speaks A2A is called exactly once, whatever
    happens to its stream: [_forward_a2a] turns a request without user
    message and a failure of the stream into a RUN_ERROR event and ends
    normally, so the proxy neither sleeps nor retries nor raises
    [AgentProxyError]. *)
Theorem a2a_agents_are_called_once
        (cfg : Retry.RetryConfig) (agent : Config.AgentConfig)
        (request : Agui.ChatRequest) (agui : nat -> Proxy.Call)
        (a2a : nat -> string -> string
               -> list Translator.Response * Translator.StreamEnd)
        (run_id message_id : nat -> string) :
  Config.protocol agent = Config.A2A ->
  1 <= Retry.max_attempts cfg ->
  Proxy.forward_request cfg agent
    (fun attempt =>
       Protocol._forward_with_protocol agent request (agui attempt)
         (a2a attempt) (run_id attempt) (message_id attempt))
  = (Retry.CallAgent 0
     :: map Retry.Yield
          (Proxy.yielded
             (Protocol._forward_a2a agent request (a2a O) (run_id O)
                (message_id O))),
     Proxy.Returned).
Proof.
  intros Hp Hn.
  rewrite forward_request_first_call_completes.
  - unfold Protocol._forward_with_protocol. rewrite Hp. reflexivity.
  - exact Hn.
  - unfold Protocol._forward_with_protocol. rewrite Hp.
    apply forward_a2a_completes.
Qed.

Lemma a2a_agents_are_called_once_witness :
  Proxy.forward_request Samples.retry3 Samples.general
    (fun attempt =>
       Protocol._forward_with_protocol Samples.general Samples.request
         (Samples.answering attempt)
         (fun _ _ => ([], Translator.Raised "A2A request failed: timeout"))
         "r1" "m1")
  = ([Retry.CallAgent 0;
      Retry.Yield (Agui.RunStarted "t1" "r1" (Some "General Assistant"%string));
      Retry.Yield
        (Agui.RunError
           "Error processing agent response: A2A request failed: timeout")],
     Proxy.Returned).
Proof.
  apply (a2a_agents_are_called_once Samples.retry3 Samples.general
           Samples.request Samples.answering
           (fun _ _ _ => ([], Translator.Raised "A2A request failed: timeout"))
           (fun _ => "r1"%string) (fun _ => "m1"%string)).
  - reflexivity.
  - simpl. lia.
Defined.

(** X14.  An agent that speaks A2A never triggers the fallback: the
    event generator forwards the request to it, hands on what it yields,
    and ends, without notice, second forward or RUN_ERROR of its own. *)
Theorem a2a_failures_trigger_no_fallback
        (agents_config : Config.AgentsConfig) (cfg : Retry.RetryConfig)
        (agent default_agent : Config.AgentConfig)
        (request : Agui.ChatRequest)
        (agui : Config.AgentConfig -> Agui.ChatRequest -> nat -> Proxy.Call)
        (a2a : Config.AgentConfig -> nat -> string -> string
               -> list Translator.Response * Translator.StreamEnd)
        (run_id message_id : nat -> string) (notice_id : string) :
  Config.protocol agent = Config.A2A ->
  1 <= Retry.max_attempts cfg ->
  Pipeline.event_generator agents_config agent default_agent request
    (Chat.proxy_of cfg
       (fun a r attempt =>
          Protocol._forward_with_protocol a r (agui a r attempt)
            (a2a a attempt) (run_id attempt) (message_id attempt)))
    notice_id
  = Pipeline.Forward agent request
    :: map Pipeline.Emit
         (Proxy.yielded
            (Protocol._forward_a2a agent request (a2a agent O) (run_id O)
               (message_id O))).
Proof.
  intros Hp Hn. unfold Pipeline.event_generator, Chat.proxy_of.
  rewrite forward_request_first_call_completes.
  - cbn [fst snd Proxy.events_of].
    unfold Protocol._forward_with_protocol. rewrite Hp.
    assert (He : forall es, Proxy.events_of (map Retry.Yield es) = es).
    { induction es as [|x es IH]; [reflexivity|].
      cbn [map Proxy.events_of]. rewrite IH. reflexivity. }
    rewrite He. reflexivity.
  - exact Hn.
  - unfold Protocol._forward_with_protocol. rewrite Hp.
    apply forward_a2a_completes.
Qed.

Lemma a2a_failures_trigger_no_fallback_witness :
  Pipeline.event_generator Samples.catalog_strict Samples.strict
    Samples.general Samples.request
    (Chat.proxy_of Samples.retry3
       (fun a r attempt =>
          Protocol._forward_with_protocol a r (Samples.answering attempt)
            (fun _ _ => ([], Translator.Raised "A2A request failed: timeout"))
            "r1" "m1"))
    "n1"
  = [Pipeline.Forward Samples.strict Samples.request;
     Pipeline.Emit (Agui.RunStarted "t1" "r1" (Some "Strict Agent"%string));
     Pipeline.Emit
       (Agui.RunError
          "Error processing agent response: A2A request failed: timeout")].
Proof.
  apply (a2a_failures_trigger_no_fallback Samples.catalog_strict
           Samples.retry3 Samples.strict Samples.general Samples.request
           (fun _ _ => Samples.answering)
           (fun _ _ _ _ =>
              ([], Translator.Raised "A2A request failed: timeout"))
           (fun _ => "r1"%string) (fun _ => "m1"%string) "n1").
  - reflexivity.
  - simpl. lia.
Defined.

(** ** AG-UI client *)

Section AguiClientFacts.
Import Py PyStr PyJson Retry AguiClient.

Lemma lower_app (a b : string) :
  lower (a +:+ b) = (lower a +:+ lower b)%string.
Proof.
  induction a as [|c a IH]; [reflexivity|].
  cbn [String.append lower]. rewrite IH. reflexivity.
Qed.

Lemma prefix_app (p s : string) : String.prefix p (p +:+ s) = true.
Proof.
  induction p as [|c p IH]; cbn [String.append String.prefix].
  - destruct s; reflexivity.
  - destruct (ascii_dec c c); [exact IH | contradiction].
Qed.

Lemma contains_prefix (needle rest : string) :
  contains needle (needle +:+ rest) = true.
Proof.
  destruct (needle +:+ rest)%string eqn:E; cbn [contains];
    rewrite <- E, prefix_app; reflexivity.
Qed.

Lemma contains_app (needle a s : string) :
  contains needle s = true -> contains needle (a +:+ s) = true.
Proof.
  intros H. induction a as [|c a IH]; [exact H|].
  cbn [String.append contains]. rewrite IH. apply orb_true_r.
Qed.

(** The status test decides when the text of the error did not. *)
Lemma is_retryable_by_status (msg : string) (code : Z) :
  code = 429 \/ 500 <= code < 600 ->
  is_retryable_error {| message := msg; status_code := Some code |} = true.
Proof.
  intros H. unfold is_retryable_error. cbn [message status_code].
  destruct (existsb _ _); [reflexivity|].
  destruct (contains "429" (lower msg)); [reflexivity|].
  destruct (contains "5" (lower msg) && _); [reflexivity|].
  destruct H as [-> | [H1 H2]]; [reflexivity|].
  destruct (Z.leb_spec 500 code); [|lia].
  destruct (Z.ltb_spec code 600); [|lia].
  rewrite orb_true_r. reflexivity.
Qed.

Lemma timeout_error_retryable (e : string) :
  is_retryable_error (timeout_error e) = true.
Proof.
  unfold is_retryable_error, timeout_error. cbn [message status_code].
  rewrite lower_app.
  change (lower "Request timed out: ")
    with ("request " +:+ ("timed out" +:+ ": "))%string.
  assert (H : contains "timed out"
                (("request " +:+ ("timed out" +:+ ": ")) +:+ lower e) = true).
  { rewrite !append_assoc. apply contains_app, contains_prefix. }
  cbn [existsb]. rewrite H, !orb_true_r. reflexivity.
Qed.

Lemma rstrip_app (chars : ascii -> bool) (a b : string) :
  b <> ""%string -> rstrip_chars chars b = b ->
  rstrip_chars chars (a +:+ b) = (a +:+ b)%string.
Proof.
  intros Hne Hb. induction a as [|c a IH]; [exact Hb|].
  cbn [String.append rstrip_chars]. rewrite IH.
  destruct (a +:+ b)%string eqn:E; [|reflexivity].
  destruct a; [cbn [String.append] in E; contradiction | discriminate].
Qed.

Lemma strip_event_line (t : string) :
  t <> ""%string -> strip t = t ->
  strip ("event: " +:+ t) = ("event: " +:+ t)%string.
Proof.
  intros Hne Ht. unfold strip, strip_chars in *.
  change (lstrip_chars isspace ("event: " +:+ t))
    with ("event: " +:+ t)%string.
  apply rstrip_app; [exact Hne|].
  destruct t as [|c t]; [contradiction|].
  cbn [lstrip_chars] in Ht. destruct (isspace c) eqn:Ec; [|exact Ht].
  exfalso.
  assert (Hlen : forall s, (String.length (lstrip_chars isspace s)
                            <= String.length s)%nat).
  { induction s as [|x s IH]; [reflexivity|]. cbn [lstrip_chars].
    destruct (isspace x); cbn [String.length]; lia. }
  assert (Hlen2 : forall s, (String.length (rstrip_chars isspace s)
                             <= String.length s)%nat).
  { induction s as [|x s IH]; [reflexivity|]. cbn [rstrip_chars].
    destruct (rstrip_chars isspace s); [destruct (isspace x)|];
      cbn [String.length] in *; lia. }
  pose proof (Hlen t) as H1.
  pose proof (Hlen2 (lstrip_chars isspace t)) as H2.
  rewrite Ht in H2. cbn [String.length] in H2. lia.
Qed.

Lemma strip_data_line (d : string) :
  d <> ""%string -> rstrip_chars isspace d = d ->
  strip ("data: " +:+ d) = ("data: " +:+ d)%string.
Proof.
  intros Hne Hd. unfold strip, strip_chars.
  change (lstrip_chars isspace ("data: " +:+ d))
    with ("data: " +:+ d)%string.
  apply rstrip_app; assumption.
Qed.

Section Parser.

Variable json_loads : string -> option Json.
Variable base_event : gmap string JsonValue -> option Agui.Event.

(** Reading the data lines of a block. *)
Lemma parse_data_lines (ds : list string) :
  Forall (fun d => d <> ""%string /\ rstrip_chars isspace d = d) ds ->
  forall rest completed ty acc,
    parse_lines json_loads base_event
      (map (String.append "data: ") ds ++ rest) completed ty acc
    = parse_lines json_loads base_event rest completed ty (acc ++ ds).
Proof.
  induction 1 as [|d ds [Hne Hd] _ IH]; intros rest completed ty acc.
  - rewrite app_nil_r. reflexivity.
  - cbn [map app parse_lines]. rewrite (strip_data_line d Hne Hd).
    change (startswith ("data: " +:+ d) SSE_EVENT_PREFIX) with false.
    assert (Hs : startswith ("data: " +:+ d) SSE_LINE_PREFIX = true)
      by apply prefix_app.
    rewrite Hs.
    change (truthy ("data: " +:+ d)) with true. cbn [negb].
    change (slice_from (String.length SSE_LINE_PREFIX) ("data: " +:+ d))
      with d.
    rewrite IH, <- app_assoc. reflexivity.
Qed.

Lemma parse_block (t : string) (ds : list string) :
  t <> ""%string -> strip t = t ->
  Forall (fun d => d <> ""%string /\ rstrip_chars isspace d = d) ds ->
  forall rest completed ty,
    parse_lines json_loads base_event
      (("event: " +:+ t)%string :: map (String.append "data: ") ds ++ rest)
      completed ty []
    = parse_lines json_loads base_event rest completed (Some t) ds.
Proof.
  intros Hne Ht Hds rest completed ty.
  cbn [parse_lines]. rewrite (strip_event_line t Hne Ht).
  assert (Hs : startswith ("event: " +:+ t) SSE_EVENT_PREFIX = true)
    by apply prefix_app.
  rewrite Hs.
  change (truthy ("event: " +:+ t)) with true. cbn [negb].
  change (slice_from (String.length SSE_EVENT_PREFIX) ("event: " +:+ t))
    with t.
  rewrite Ht, (parse_data_lines ds Hds). reflexivity.
Qed.

(** A stream of closed blocks, and what follows it. *)
Lemma parse_blocks (blocks : list (string * list string)) :
  Forall (fun block =>
            fst block <> ""%string /\ strip (fst block) = fst block
            /\ Forall (fun d => d <> ""%string /\ rstrip_chars isspace d = d)
                      (snd block))
         blocks ->
  forall rest completed,
    parse_lines json_loads base_event
      (flat_map (fun block =>
                   ("event: " +:+ fst block)%string
                   :: map (String.append "data: ") (snd block)
                   ++ [""%string])
                blocks ++ rest) completed None []
    = fold_right and_then
        (parse_lines json_loads base_event rest completed None [])
        (map (fun block =>
                flush json_loads base_event (Some (fst block)) (snd block))
             blocks).
Proof.
  induction 1 as [|[t ds] bs (H1 & H2 & H3) _ IH]; intros rest completed.
  - reflexivity.
  - cbn [flat_map fst snd map fold_right] in *.
    rewrite <- !app_comm_cons, <- !app_assoc.
    rewrite (parse_block t ds H1 H2 H3).
    cbn [app parse_lines].
    change (strip "") with ""%string. cbn [truthy negb].
    rewrite IH. reflexivity.
Qed.

End Parser.

End AguiClientFacts.

(** X15.  The client errors that [send_message] raises for a timeout,
    before the answer or in the middle of the stream, and for an answer
    with status 429 or 5xx, are always classified as retryable, whatever
    the text of the timeout or the body of the answer. *)
Theorem agui_timeouts_and_server_errors_are_retryable
        (json_loads : string -> option PyJson.Json)
        (base_event : gmap string PyJson.JsonValue -> option Agui.Event)
        (exchange : AguiClient.Exchange) (err : Retry.Error) :
  Proxy.ending (AguiClient.send_message json_loads base_event exchange)
  = Proxy.ClientError err ->
  match exchange with
  | AguiClient.Unanswered (AguiClient.Timeout _)
  | AguiClient.Answered _ _ _ (Some (AguiClient.Timeout _)) => True
  | AguiClient.Answered status_code _ _ None =>
      (status_code = 429 \/ 500 <= status_code < 600)%nat
  | _ => False
  end ->
  Retry.is_retryable_error err = true.
Proof.
  intros Hend Hcase.
  destruct exchange as [status_code body lines [[e|e|e]|] | [e|e|e]];
    try contradiction; cbn [AguiClient.send_message] in Hend.
  - destruct (400 <=? status_code)%nat.
    + cbn in Hend. injection Hend as <-. apply timeout_error_retryable.
    + destruct (AguiClient._parse_sse_stream _ _ _ _) as [events [msg|]];
        cbn in Hend; [discriminate|].
      injection Hend as <-. apply timeout_error_retryable.
  - destruct (Nat.leb_spec 400 status_code); [|lia].
    cbn in Hend. injection Hend as <-.
    apply is_retryable_by_status. lia.
  - cbn in Hend. injection Hend as <-. apply timeout_error_retryable.
Qed.

Lemma agui_timeouts_and_server_errors_are_retryable_witness :
  Retry.is_retryable_error (AguiClient.http_error 503 "busy") = true.
Proof.
  apply (agui_timeouts_and_server_errors_are_retryable
           (fun _ => None) (fun _ => None)
           (AguiClient.Answered 503 "busy" [] None)).
  - reflexivity.
  - right. cbv. repeat split; repeat constructor.
Defined.

(** X16.  The SSE parser reads a stream of blocks, each an [event:] line,
    its [data:] lines and an empty line, block by block and in order: the
    data lines of a block are joined by line feeds and parsed with the
    event type of the block; a block without data lines, with the data
    [[DONE]] or whose event cannot be built gives no event, and a block
    whose data are JSON but no object ends the stream with the
    [AttributeError].  A last block that no empty line closes is parsed
    when the stream was read to its end, and dropped when reading it
    failed. *)
Theorem sse_blocks_are_parsed_in_order
        (json_loads : string -> option PyJson.Json)
        (base_event : gmap string PyJson.JsonValue -> option Agui.Event)
        (blocks : list (string * list string)) (last : string * list string)
        (completed : bool) :
  Forall (fun block =>
            fst block <> ""%string /\ PyStr.strip (fst block) = fst block
            /\ Forall (fun d => d <> ""%string
                                /\ PyStr.rstrip_chars Py.isspace d = d)
                      (snd block))
         (last :: blocks) ->
  AguiClient._parse_sse_stream json_loads base_event
    (flat_map (fun block =>
                 ("event: " +:+ fst block)%string
                 :: map (String.append "data: ") (snd block) ++ [""%string])
              blocks)
    completed
  = fold_right AguiClient.and_then ([], None)
      (map (fun block =>
              AguiClient.flush json_loads base_event (Some (fst block))
                (snd block))
           blocks)
  /\ AguiClient._parse_sse_stream json_loads base_event
       (flat_map (fun block =>
                    ("event: " +:+ fst block)%string
                    :: map (String.append "data: ") (snd block)
                    ++ [""%string])
                 blocks
        ++ ("event: " +:+ fst last)%string
           :: map (String.append "data: ") (snd last))
       completed
     = fold_right AguiClient.and_then
         (if completed
          then AguiClient.flush json_loads base_event (Some (fst last))
                 (snd last)
          else ([], None))
         (map (fun block =>
                 AguiClient.flush json_loads base_event (Some (fst block))
                   (snd block))
              blocks).
Proof.
  intros H. inversion H as [|? ? (Hl1 & Hl2 & Hl3) Hb]; subst. clear H.
  unfold AguiClient._parse_sse_stream. split.
  - rewrite <- (app_nil_r (flat_map _ blocks)).
    rewrite (parse_blocks json_loads base_event blocks Hb).
    cbn [AguiClient.parse_lines AguiClient.flush].
    destruct completed; reflexivity.
  - rewrite (parse_blocks json_loads base_event blocks Hb).
    rewrite <- (app_nil_r (map _ (snd last))).
    rewrite (parse_block json_loads base_event (fst last) (snd last)
               Hl1 Hl2 Hl3).
    reflexivity.
Qed.

Lemma sse_blocks_are_parsed_in_order_witness :
  AguiClient._parse_sse_stream
    (fun data => Some (PyJson.Object {[ "text"%string := PyJson.JString data ]}))
    (fun members =>
       match members !! "type"%string, members !! "text"%string with
       | Some (PyJson.JString ty), Some (PyJson.JString text) =>
           Some (Agui.Passthrough ty text)
       | _, _ => None
       end)
    ["event: RUN_STARTED"; "data: {}"; ""; "event: CUSTOM"; "data: a";
     "data: b"]%string
    true
  = ([Agui.Passthrough "RUN_STARTED" "{}";
      Agui.Passthrough "CUSTOM" (String.append "a" (String "010" "b"))],
     None).
Proof.
  refine (eq_trans
            (proj2 (sse_blocks_are_parsed_in_order
                      (fun data =>
                         Some (PyJson.Object
                                 {[ "text"%string := PyJson.JString data ]}))
                      (fun members =>
                         match members !! "type"%string,
                               members !! "text"%string with
                         | Some (PyJson.JString ty),
                           Some (PyJson.JString text) =>
                             Some (Agui.Passthrough ty text)
                         | _, _ => None
                         end)
                      [("RUN_STARTED"%string, ["{}"%string])]
                      ("CUSTOM"%string, ["a"; "b"]%string) true _)) _).
  - repeat constructor; simpl; try discriminate; reflexivity.
  - vm_compute. reflexivity.
Defined.

(** X17.  A line that is neither empty nor an [event: ] nor a [data: ]
    line once its surrounding whitespace is removed (a comment, an [id:]
    or [retry:] field, a data line without the space after the colon) is
    skipped: the parser does what it does without the line. *)
Theorem sse_other_lines_are_skipped
        (json_loads : string -> option PyJson.Json)
        (base_event : gmap string PyJson.JsonValue -> option Agui.Event)
        (before after : list string) (raw : string) (completed : bool) :
  Py.truthy (PyStr.strip raw) = true ->
  Py.startswith (PyStr.strip raw) AguiClient.SSE_EVENT_PREFIX = false ->
  Py.startswith (PyStr.strip raw) AguiClient.SSE_LINE_PREFIX = false ->
  AguiClient._parse_sse_stream json_loads base_event
    (before ++ raw :: after) completed
  = AguiClient._parse_sse_stream json_loads base_event (before ++ after)
      completed.
Proof.
  intros Ht He Hd. unfold AguiClient._parse_sse_stream.
  generalize (@None string) (@nil string).
  induction before as [|l before IH]; intros ty acc.
  - cbn [app AguiClient.parse_lines]. rewrite Ht, He, Hd. reflexivity.
  - cbn [app AguiClient.parse_lines].
    destruct (negb (Py.truthy (PyStr.strip l))); [rewrite IH; reflexivity|].
    destruct (Py.startswith (PyStr.strip l) AguiClient.SSE_EVENT_PREFIX);
      [apply IH|].
    destruct (Py.startswith (PyStr.strip l) AguiClient.SSE_LINE_PREFIX);
      apply IH.
Qed.

Lemma sse_other_lines_are_skipped_witness :
  AguiClient._parse_sse_stream
    (fun data => Some (PyJson.Object {[ "text"%string := PyJson.JString data ]}))
    (fun members => None)
    ["event: CUSTOM"; ": keep-alive"; "data:no-space"; "data: a"; ""]%string
    true
  = AguiClient._parse_sse_stream
      (fun data =>
         Some (PyJson.Object {[ "text"%string := PyJson.JString data ]}))
      (fun members => None)
      ["event: CUSTOM"; "data:no-space"; "data: a"; ""]%string true.
Proof.
  apply (sse_other_lines_are_skipped
           (fun data =>
              Some (PyJson.Object {[ "text"%string := PyJson.JString data ]}))
           (fun members => None)
           ["event: CUSTOM"%string] ["data:no-space"; "data: a"; ""]%string
           ": keep-alive" true); reflexivity.
Defined.

(** ** A2A translator: the shape of the translated stream *)

Section TranslatorShapeFacts.
Import Py Translator.

Lemma startswith_empty (s : string) : startswith s "" = true.
Proof. destruct s; reflexivity. Qed.

Lemma truthy_nonempty (s : string) : truthy s = true <-> s <> ""%string.
Proof.
  destruct s; cbn [truthy]; split; intros H; try reflexivity;
    try discriminate; try (exfalso; apply H; reflexivity).
Qed.

Lemma text_of_truthy (extracted : option string) (t : string) :
  text_of extracted = Some t -> truthy t = true.
Proof.
  unfold text_of. destruct extracted as [x|]; [|discriminate].
  destruct (truthy x) eqn:E; [|discriminate]. intros [= <-]. exact E.
Qed.

(** What a text does to the translator whose message is open, or whose
    message is not open and which has accumulated nothing. *)
Lemma emit_and_append_step (text mid : string) (started : bool)
      (acc : string) :
  truthy text = true ->
  (started = false -> acc = ""%string) ->
  exists events acc',
    run_steps (emit_and_append text mid started acc) started acc
    = (events, true, acc')
    /\ ((events = [] /\ started = true)
        \/ exists d,
            d <> ""%string
            /\ events
               = (if started then []
                  else [Agui.TextMessageStart mid "assistant"])
                 ++ [Agui.TextMessageContent mid d]).
Proof.
  intros Ht Hinv. unfold emit_and_append, _emit_text_events.
  destruct started.
  - cbn [negb app].
    destruct (startswith text acc).
    + destruct (truthy (drop (String.length acc) text)) eqn:Ed.
      * eexists; eexists. split; [reflexivity|]. right.
        eexists. split; [apply truthy_nonempty, Ed | reflexivity].
      * eexists; eexists. split; [reflexivity|]. left. split; reflexivity.
    + rewrite Ht. eexists; eexists. split; [reflexivity|]. right.
      eexists. split; [apply truthy_nonempty, Ht | reflexivity].
  - rewrite (Hinv eq_refl), startswith_empty. cbn [negb String.length drop].
    rewrite Ht. eexists; eexists. split; [reflexivity|]. right.
    eexists. split; [apply truthy_nonempty, Ht | reflexivity].
Qed.

(** What one response does to the translator. *)
Lemma response_step (r : Response) (mid : string) (started : bool)
      (acc : string) :
  (started = false -> acc = ""%string) ->
  exists events started' acc',
    run_steps (_translate_response r mid started acc) started acc
    = (events, started', acc')
    /\ (started' = false -> acc' = ""%string)
    /\ ((events = [] /\ started' = started)
        \/ exists d,
            d <> ""%string
            /\ started' = true
            /\ events
               = (if started then []
                  else [Agui.TextMessageStart mid "assistant"])
                 ++ [Agui.TextMessageContent mid d]).
Proof.
  intros Hinv.
  assert (Hsame : exists events started' acc',
             run_steps [(None, started, acc)] started acc
             = (events, started', acc')
             /\ (started' = false -> acc' = ""%string)
             /\ ((events = [] /\ started' = started)
                 \/ exists d,
                     d <> ""%string /\ started' = true
                     /\ events
                        = (if started then []
                           else [Agui.TextMessageStart mid "assistant"])
                          ++ [Agui.TextMessageContent mid d])).
  { exists [], started, acc. split; [reflexivity|]. split; [exact Hinv|].
    left. split; reflexivity. }
  assert (Hemit : forall text, truthy text = true ->
             exists events started' acc',
               run_steps (emit_and_append text mid started acc) started acc
               = (events, started', acc')
               /\ (started' = false -> acc' = ""%string)
               /\ ((events = [] /\ started' = started)
                   \/ exists d,
                       d <> ""%string /\ started' = true
                       /\ events
                          = (if started then []
                             else [Agui.TextMessageStart mid "assistant"])
                            ++ [Agui.TextMessageContent mid d])).
  { intros text Ht.
    destruct (emit_and_append_step text mid started acc Ht Hinv)
      as (events & acc' & Hr & Hcase).
    exists events, true, acc'. split; [exact Hr|].
    split; [discriminate|].
    destruct Hcase as [[-> ->] | (d & Hd & ->)].
    - left. split; reflexivity.
    - right. exists d. repeat split. exact Hd. }
  unfold _translate_response.
  destruct r as [[task | event | event |] |]; try exact Hsame.
  - destruct (text_of (_extract_task_text task)) as [text|] eqn:Et;
      [|exact Hsame].
    destruct (negb (_is_duplicate_content text acc)); [|exact Hsame].
    apply Hemit, (text_of_truthy _ _ Et).
  - destruct (text_of (_extract_status_text event)) as [text|] eqn:Et;
      [|exact Hsame].
    apply Hemit, (text_of_truthy _ _ Et).
  - destruct (text_of (_extract_artifact_text event)) as [text|] eqn:Et;
      [|exact Hsame].
    apply Hemit, (text_of_truthy _ _ Et).
Qed.

(** The events after the start of the run, from any state of the loop. *)
Lemma translate_from_shape (fin : StreamEnd) (tid rid mid : string) :
  forall stream started acc,
    (started = false -> acc = ""%string) ->
    exists deltas,
      Forall (fun d => d <> ""%string) deltas
      /\ translate_from stream fin tid rid mid started acc
         = (if started then []
            else match deltas with
                 | [] => []
                 | _ => [Agui.TextMessageStart mid "assistant"]
                 end)
           ++ map (Agui.TextMessageContent mid) deltas
           ++ match fin with
              | Exhausted =>
                  (if started then [Agui.TextMessageEnd mid]
                   else match deltas with
                        | [] => []
                        | _ => [Agui.TextMessageEnd mid]
                        end)
                  ++ [Agui.RunFinished tid rid]
              | Raised msg =>
                  [Agui.RunError
                     ("Error processing agent response: " +:+ msg)%string]
              end.
Proof.
  induction stream as [|r stream IH]; intros started acc Hinv.
  - exists []. split; [constructor|]. cbn [translate_from map app].
    destruct fin; destruct started; reflexivity.
  - cbn [translate_from].
    destruct (response_step r mid started acc Hinv)
      as (events & started' & acc' & -> & Hinv' & Hcase).
    destruct (IH started' acc' Hinv') as (deltas & Hne & ->).
    destruct Hcase as [[-> ->] | (d & Hd & -> & ->)].
    + exists deltas. split; [exact Hne | reflexivity].
    + exists (d :: deltas). split; [constructor; assumption|].
      destruct started; cbn [app map]; reflexivity.
Qed.

(** A response without text leaves the translator as it is. *)
Lemma translate_from_skip (fin : StreamEnd) (tid rid mid : string)
      (r : Response) (after : list Response) :
  (forall started acc,
      _translate_response r mid started acc = [(None, started, acc)]) ->
  forall before started acc,
    translate_from (before ++ r :: after) fin tid rid mid started acc
    = translate_from (before ++ after) fin tid rid mid started acc.
Proof.
  intros Hr. induction before as [|b before IH]; intros started acc.
  - cbn [app translate_from]. rewrite Hr. reflexivity.
  - cbn [app translate_from].
    destruct (run_steps (_translate_response b mid started acc) started acc)
      as [[events started'] acc'].
    rewrite IH. reflexivity.
Qed.

(** A status update that carries the text accumulated so far, extended. *)
Lemma translate_cumulative (fin : StreamEnd) (tid rid mid : string)
      (rest : list Response) :
  forall ds started acc,
    Forall (fun d => d <> ""%string) ds ->
    (started = false -> acc = ""%string) ->
    translate_from
      (map (fun k => status_update
                       (acc +:+ String.concat "" (firstn (S k) ds)))
           (seq 0 (List.length ds)) ++ rest)
      fin tid rid mid started acc
    = match ds with
      | [] => translate_from rest fin tid rid mid started acc
      | _ =>
          (if started then [] else [Agui.TextMessageStart mid "assistant"])
          ++ map (Agui.TextMessageContent mid) ds
          ++ translate_from rest fin tid rid mid true
               (acc +:+ String.concat "" ds)%string
      end.
Proof.
  induction ds as [|d ds IH]; intros started acc Hne Hinv; [reflexivity|].
  inversion Hne as [|? ? Hd Hne']; subst.
  cbn [List.length seq map app translate_from].
  change (firstn 1 (d :: ds)) with [d].
  change (String.concat "" [d]) with d.
  assert (Hstep :
    run_steps (_translate_response (status_update (acc +:+ d)) mid started acc)
              started acc
    = ((if started then [] else [Agui.TextMessageStart mid "assistant"])
       ++ [Agui.TextMessageContent mid d], true, (acc +:+ d)%string)).
  { assert (Ht : truthy (acc +:+ d) = true).
    { destruct acc; [apply truthy_nonempty, Hd | reflexivity]. }
    unfold _translate_response, status_update, _extract_status_text.
    cbn [status message parts first_text text_of]. rewrite Ht.
    unfold emit_and_append, _emit_text_events.
    assert (Hs : startswith (acc +:+ d) acc = true).
    { unfold startswith. clear. induction acc as [|c acc IH].
      - destruct d; reflexivity.
      - cbn [String.append String.prefix].
        destruct (ascii_dec c c); [exact IH | contradiction]. }
    rewrite Hs, drop_length_prefix.
    apply truthy_nonempty in Hd. rewrite Hd.
    destruct started; reflexivity. }
  rewrite Hstep.
  rewrite <- seq_shift, map_map.
  assert (Hmap :
    map (fun k => status_update
                    (acc +:+ String.concat "" (firstn (S (S k)) (d :: ds))))
        (seq 0 (List.length ds))
    = map (fun k => status_update
                      ((acc +:+ d) +:+ String.concat "" (firstn (S k) ds)))
          (seq 0 (List.length ds))).
  { apply map_ext. intros k.
    change (firstn (S (S k)) (d :: ds)) with (d :: firstn (S k) ds).
    rewrite concat_cons_app, append_assoc. reflexivity. }
  rewrite Hmap, (IH true (acc +:+ d)%string Hne') by discriminate.
  rewrite concat_cons_app.
  destruct ds as [|d2 ds2].
  - cbn [String.concat map]. rewrite append_nil_r, <- app_assoc.
    reflexivity.
  - rewrite <- app_assoc, append_assoc. reflexivity.
Qed.

End TranslatorShapeFacts.

(** X18.  Whatever the A2A stream holds, the translated stream is well
    formed.  It starts with RUN_STARTED.  When a text is emitted at all,
    one TEXT_MESSAGE_START comes before the first TEXT_MESSAGE_CONTENT, no
    delta is empty, and all events carry the one message id.  A stream
    that is exhausted ends with TEXT_MESSAGE_END, when the message was
    started, and RUN_FINISHED; a stream that raises ends with a single
    RUN_ERROR, and the message is not closed. *)
Theorem translated_stream_is_well_formed
        (stream : list Translator.Response) (fin : Translator.StreamEnd)
        (tid rid mid : string) (display_name : option string) :
  exists started deltas,
    Forall (fun d => d <> ""%string) deltas
    /\ Translator._translate_stream stream fin tid rid display_name mid
       = Agui.RunStarted tid rid started
         :: match deltas with
            | [] => []
            | _ => Agui.TextMessageStart mid "assistant"
                   :: map (Agui.TextMessageContent mid) deltas
            end
         ++ match fin with
            | Translator.Exhausted =>
                match deltas with
                | [] => []
                | _ => [Agui.TextMessageEnd mid]
                end
                ++ [Agui.RunFinished tid rid]
            | Translator.Raised msg =>
                [Agui.RunError
                   ("Error processing agent response: " +:+ msg)%string]
            end.
Proof.
  unfold Translator._translate_stream.
  destruct (translate_from_shape fin tid rid mid stream false ""
              (fun _ => eq_refl)) as (deltas & Hne & ->).
  eexists. exists deltas. split; [exact Hne|].
  destruct deltas; reflexivity.
Qed.

(** X19.  A response that is not a success response, a message, or a
    task, status update or artifact update from which no text is
    extracted, is passed over in silence: the translated stream is the one
    of the stream without that response, and no RUN_ERROR stands for
    it. *)
Theorem translator_skips_responses_without_text
        (before after : list Translator.Response) (r : Translator.Response)
        (fin : Translator.StreamEnd) (tid rid mid : string)
        (display_name : option string) :
  match r with
  | Translator.Success (Translator.IsTask task) =>
      Translator.text_of (Translator._extract_task_text task)
  | Translator.Success (Translator.IsStatusUpdate event) =>
      Translator.text_of (Translator._extract_status_text event)
  | Translator.Success (Translator.IsArtifactUpdate event) =>
      Translator.text_of (Translator._extract_artifact_text event)
  | Translator.Success Translator.IsMessage => None
  | Translator.Failure => None
  end = None ->
  Translator._translate_stream (before ++ r :: after) fin tid rid
    display_name mid
  = Translator._translate_stream (before ++ after) fin tid rid
      display_name mid.
Proof.
  intros H. unfold Translator._translate_stream. f_equal.
  apply translate_from_skip. intros started acc.
  unfold Translator._translate_response.
  destruct r as [[task | event | event |] |]; try reflexivity;
    rewrite H; reflexivity.
Qed.

Lemma translator_skips_responses_without_text_witness :
  Translator._translate_stream
    [Translator.status_update "a"; Translator.Failure;
     Translator.status_update "b"]
    Translator.Exhausted "t1" "r1" None "m1"
  = Translator._translate_stream
      [Translator.status_update "a"; Translator.status_update "b"]
      Translator.Exhausted "t1" "r1" None "m1".
Proof.
  apply (translator_skips_responses_without_text
           [Translator.status_update "a"] [Translator.status_update "b"]
           Translator.Failure Translator.Exhausted "t1" "r1" "m1" None).
  reflexivity.
Defined.

(** X20.  A stream of status updates that are cumulative, each carrying
    the whole text so far, is turned into increments: for non-empty
    pieces [d1..dN] and updates that carry [d1], [d1+d2], ..., [d1+...+dN],
    followed by a final task with the whole text, the translator emits
    exactly the content events with the deltas [d1..dN]. *)
Theorem cumulative_updates_become_increments
        (ds : list string) (tid rid mid : string)
        (display_name : option string) :
  Forall (fun d => d <> ""%string) ds ->
  Translator.content_deltas
    (Translator._translate_stream
       (map (fun k => Translator.status_update
                        (String.concat "" (firstn (S k) ds)))
            (seq 0 (List.length ds))
        ++ [Translator.final_task (String.concat "" ds)])
       Translator.Exhausted tid rid display_name mid)
  = ds.
Proof.
  intros Hne. unfold Translator._translate_stream.
  pose proof (translate_cumulative Translator.Exhausted tid rid mid
                [Translator.final_task (String.concat "" ds)] ds false ""
                Hne (fun _ => eq_refl)) as H.
  cbn [String.append] in H. cbn [Translator.content_deltas].
  rewrite H. clear H.
  destruct ds as [|d ds'].
  - reflexivity.
  - assert (Ht : Py.truthy (String.concat "" (d :: ds')) = true).
    { rewrite concat_cons_app. inversion Hne; subst.
      destruct d; [contradiction | reflexivity]. }
    cbn [Translator.translate_from].
    rewrite (translate_duplicate_task _ (String.concat "" (d :: ds')) mid)
      by (try exact Ht; eexists; split; reflexivity).
    cbn [Translator.run_steps app].
    change (Translator.content_deltas
              (Agui.TextMessageStart mid "assistant"
               :: map (Agui.TextMessageContent mid) (d :: ds')
                  ++ [Agui.TextMessageEnd mid; Agui.RunFinished tid rid]))
      with (Translator.content_deltas
              (map (Agui.TextMessageContent mid) (d :: ds')
               ++ [Agui.TextMessageEnd mid; Agui.RunFinished tid rid])).
    rewrite content_deltas_app, content_deltas_contents.
    cbn [Translator.content_deltas]. apply app_nil_r.
Qed.

Lemma cumulative_updates_become_increments_witness :
  Translator.content_deltas
    (Translator._translate_stream
       [Translator.status_update "Hel"; Translator.status_update "Hello";
        Translator.final_task "Hello"]
       Translator.Exhausted "t1" "r1" None "m1")
  = ["Hel"; "lo"]%string.
Proof.
  apply (cumulative_updates_become_increments ["Hel"; "lo"]%string
           "t1" "r1" "m1" None).
  repeat constructor; discriminate.
Defined.

(** ** The last user message *)

Section UserMessageFacts.
Import Py Agui UserMessage.

Lemma scan_reversed_step (m : Message) (rest : list Message) :
  scan_reversed (m :: rest)
  = if String.eqb (role m) "user" then
      match text_of_content (content m) with
      | Some text => Some text
      | None => scan_reversed rest
      end
    else scan_reversed rest.
Proof.
  cbn [scan_reversed]. unfold text_of_content.
  destruct (String.eqb (role m) "user"); [|reflexivity].
  destruct (content m) as [s | items |]; try reflexivity.
  destruct (item_texts items); reflexivity.
Qed.

Lemma search_reversed_scan (l : list Message) :
  search_reversed l
  = match scan_reversed l with
    | Some s => Ok s
    | None => Raise (ValueError "No user message found in request")
    end.
Proof.
  induction l as [|m l IH]; [reflexivity|].
  cbn [search_reversed scan_reversed].
  destruct (String.eqb (role m) "user"); [|exact IH].
  destruct (content m) as [s | items |]; try reflexivity; try exact IH.
  destruct (item_texts items); [exact IH | reflexivity].
Qed.

Lemma scan_reversed_none (l : list Message) :
  scan_reversed l = None
  <-> Forall (fun m => role m = "user"%string
                       -> text_of_content (content m) = None) l.
Proof.
  induction l as [|m l IH]; [split; [constructor | reflexivity]|].
  rewrite scan_reversed_step. split.
  - intros H. destruct (String.eqb_spec (role m) "user") as [E|E].
    + destruct (text_of_content (content m)) eqn:Et; [discriminate|].
      constructor; [intros _; exact Et | apply IH, H].
    + constructor; [intros E'; contradiction | apply IH, H].
  - intros H. inversion H as [|? ? Hm Hl]; subst.
    destruct (String.eqb_spec (role m) "user") as [E|E].
    + rewrite (Hm E). apply IH, Hl.
    + apply IH, Hl.
Qed.

Lemma scan_reversed_some (l : list Message) (text : string) :
  scan_reversed l = Some text
  <-> exists skipped m rest,
        l = skipped ++ m :: rest
        /\ role m = "user"%string
        /\ text_of_content (content m) = Some text
        /\ Forall (fun m' => role m' = "user"%string
                             -> text_of_content (content m') = None)
                  skipped.
Proof.
  induction l as [|m l IH].
  - split; [discriminate|]. intros (skipped & m & rest & H & _).
    destruct skipped; discriminate.
  - rewrite scan_reversed_step. split.
    + intros H.
      assert (Hrest : scan_reversed l = Some text ->
                      (role m = "user"%string
                       -> text_of_content (content m) = None) ->
                      exists skipped m0 rest,
                        m :: l = skipped ++ m0 :: rest
                        /\ role m0 = "user"%string
                        /\ text_of_content (content m0) = Some text
                        /\ Forall (fun m' => role m' = "user"%string
                                     -> text_of_content (content m') = None)
                                  skipped).
      { intros Hl Hm. apply IH in Hl as (skipped & m0 & rest & -> & H1 & H2 & H3).
        exists (m :: skipped), m0, rest. repeat split; try assumption.
        constructor; assumption. }
      destruct (String.eqb_spec (role m) "user") as [E|E].
      * destruct (text_of_content (content m)) as [t|] eqn:Et.
        -- injection H as ->. exists [], m, l. repeat split; try assumption.
           constructor.
        -- apply Hrest; [exact H | intros _; reflexivity].
      * apply Hrest; [exact H | intros E'; contradiction].
    + intros (skipped & m0 & rest & Hl & H1 & H2 & H3).
      destruct skipped as [|x skipped]; cbn [app] in Hl; injection Hl as -> ->.
      * rewrite H1, H2. reflexivity.
      * inversion H3 as [|? ? Hx Hs]; subst.
        assert (Hl : scan_reversed (skipped ++ m0 :: rest) = Some text).
        { apply IH. exists skipped, m0, rest. repeat split; assumption. }
        destruct (String.eqb_spec (role x) "user") as [E|E];
          [rewrite (Hx E)|]; exact Hl.
Qed.

Lemma item_texts_stripped (items : list ContentItem) :
  item_texts (map Forwarding.stripped_item items)
  = map Mention.strip_mention (item_texts items).
Proof.
  induction items as [|[t|d] items IH]; [reflexivity | |exact IH].
  cbn [map Forwarding.stripped_item item_texts]. rewrite IH. reflexivity.
Qed.

Lemma stripped_message_role (m : Message) :
  role (Forwarding.stripped_message m) = role m.
Proof.
  unfold Forwarding.stripped_message.
  destruct (String.eqb (role m) "user"); reflexivity.
Qed.

Lemma text_of_stripped_none (m : Message) :
  role m = "user"%string ->
  (text_of_content (content (Forwarding.stripped_message m)) = None
   <-> text_of_content (content m) = None).
Proof.
  intros E. unfold Forwarding.stripped_message.
  destruct (String.eqb_spec (role m) "user") as [_|N]; [|contradiction].
  cbn [content]. unfold text_of_content, Forwarding.stripped_content.
  destruct (content m) as [s | items |].
  - split; intros H; discriminate H.
  - rewrite item_texts_stripped.
    destruct (item_texts items); cbn [map]; split; intros H;
      try reflexivity; discriminate H.
  - split; intros H; exact H.
Qed.

End UserMessageFacts.

(** X21.  [_extract_user_message] returns the text of the last message
    with role user that has a text: a string content is its own text, a
    list content has the texts of its items joined by spaces, and a user
    message with no text (a list without text items, no content) is
    passed over for the one before it.  It returns nothing exactly when no
    user message has a text.  [extract_last_user_message] finds the same
    text and raises [ValueError] where the former returns nothing. *)
Theorem last_user_text_is_extracted (request : Agui.ChatRequest) :
  (forall text,
      UserMessage._extract_user_message request = Some text
      <-> exists before m after,
            Agui.messages request = before ++ m :: after
            /\ Agui.role m = "user"%string
            /\ UserMessage.text_of_content (Agui.content m) = Some text
            /\ Forall (fun m' =>
                         Agui.role m' = "user"%string
                         -> UserMessage.text_of_content (Agui.content m')
                            = None)
                      after)
  /\ (UserMessage._extract_user_message request = None
      <-> Forall (fun m =>
                    Agui.role m = "user"%string
                    -> UserMessage.text_of_content (Agui.content m) = None)
                 (Agui.messages request))
  /\ UserMessage.extract_last_user_message request
     = match UserMessage._extract_user_message request with
       | Some text => Py.Ok text
       | None => Py.Raise (Py.ValueError "No user message found in request")
       end.
Proof.
  unfold UserMessage._extract_user_message,
    UserMessage.extract_last_user_message.
  split; [|split].
  - intros text. rewrite scan_reversed_some. split.
    + intros (skipped & m & rest & Hl & H1 & H2 & H3).
      exists (rev rest), m, (rev skipped).
      split.
      { rewrite <- (rev_involutive (Agui.messages request)), Hl.
        rewrite rev_app_distr. cbn [rev]. rewrite <- app_assoc. reflexivity. }
      split; [exact H1|]. split; [exact H2|].
      apply List.Forall_forall. intros x Hx. apply in_rev in Hx.
      rewrite List.Forall_forall in H3. apply H3, Hx.
    + intros (before & m & after & Hl & H1 & H2 & H3).
      exists (rev after), m, (rev before).
      split.
      { rewrite Hl, rev_app_distr. cbn [rev]. rewrite <- app_assoc.
        reflexivity. }
      split; [exact H1|]. split; [exact H2|].
      apply List.Forall_forall. intros x Hx. apply in_rev in Hx.
      rewrite List.Forall_forall in H3. apply H3, Hx.
  - rewrite scan_reversed_none. split; intros H; apply List.Forall_forall;
      intros x Hx; rewrite List.Forall_forall in H; apply H;
      [apply in_rev in Hx | apply in_rev]; exact Hx.
  - apply search_reversed_scan.
Qed.

(** X22.  Stripping the mentions keeps a request answerable: the
    forwarding request has a user text exactly when the request has one,
    so an A2A agent is never sent away with "No user message found" for a
    request that the endpoint accepted.  When the user messages all have
    a string content, the text extracted from the forwarding request is
    the text of the request with its mentions stripped. *)
Theorem forwarding_request_keeps_the_user_text (request : Agui.ChatRequest) :
  (UserMessage._extract_user_message (Forwarding.forwarding_request request)
   = None
   <-> UserMessage._extract_user_message request = None)
  /\ (Forall (fun m => Agui.role m = "user"%string
                       -> exists s, Agui.content m = Agui.ContentStr s)
             (Agui.messages request) ->
      UserMessage.extract_last_user_message
        (Forwarding.forwarding_request request)
      = match UserMessage._extract_user_message request with
        | Some text => Py.Ok (Mention.strip_mentions text)
        | None => Py.Raise (Py.ValueError "No user message found in request")
        end).
Proof.
  unfold UserMessage._extract_user_message,
    UserMessage.extract_last_user_message.
  cbn [Forwarding.forwarding_request Agui.messages].
  rewrite <- map_rev. split.
  - rewrite !scan_reversed_none.
    induction (rev (Agui.messages request)) as [|m l IH];
      [split; constructor|].
    cbn [map]. split; intros H; inversion H as [|? ? Hm Hl]; subst;
      constructor; try (apply IH; exact Hl); intros E.
    + apply text_of_stripped_none; [exact E|]. apply Hm.
      rewrite stripped_message_role. exact E.
    + rewrite stripped_message_role in E.
      apply text_of_stripped_none; [exact E | apply Hm; exact E].
  - intros H. rewrite search_reversed_scan.
    assert (Hr : Forall (fun m => Agui.role m = "user"%string
                                  -> exists s, Agui.content m = Agui.ContentStr s)
                        (rev (Agui.messages request))).
    { apply List.Forall_forall. intros x Hx. apply in_rev in Hx.
      rewrite List.Forall_forall in H. apply H, Hx. }
    clear H.
    induction Hr as [|m l Hm _ IH]; [reflexivity|].
    cbn [map]. rewrite !scan_reversed_step, stripped_message_role.
    destruct (String.eqb_spec (Agui.role m) "user") as [E|E]; [|exact IH].
    destruct (Hm E) as [s Hs].
    unfold Forwarding.stripped_message.
    destruct (String.eqb_spec (Agui.role m) "user") as [_|N];
      [|contradiction].
    cbn [Agui.content]. rewrite Hs.
    cbn [Forwarding.stripped_content UserMessage.text_of_content].
    destruct (UserMessage.scan_reversed l); reflexivity.
Qed.

(** ** LLM fallback classifier *)

(** X23.  [parse_llm_response] never invents an agent: what it returns is
    an agent of the list it was given.  It returns nothing for an empty or
    blank response.  An agent whose id is the cleaned response (first line,
    without surrounding whitespace and quotes) is preferred to every agent
    that only matches without regard to case or inside the text, also to
    one that stands earlier in the list. *)
Theorem parse_llm_response_picks_a_configured_agent
        (re_search_word : string -> string -> bool) (response : string)
        (agents : list Config.AgentConfig) :
  (forall a,
      LLMFallback.parse_llm_response re_search_word response agents = Some a
      -> In a agents)
  /\ (Py.isblank response = true ->
      LLMFallback.parse_llm_response re_search_word response agents = None)
  /\ (forall a,
         Py.isblank response = false ->
         List.find (fun agent => String.eqb (Config.id agent)
                                   (LLMFallback.clean response)) agents
         = Some a ->
         LLMFallback.parse_llm_response re_search_word response agents
         = Some a
         /\ Config.id a = LLMFallback.clean response).
Proof.
  unfold LLMFallback.parse_llm_response. split; [|split].
  - intros a.
    destruct (negb (Py.truthy response) || Py.isblank response);
      [discriminate|].
    destruct (List.find _ agents) as [x|] eqn:E1.
    { intros [= <-]. apply List.find_some in E1. tauto. }
    destruct (List.find (fun agent => String.eqb (Py.lower (Config.id agent)) _)
                        agents) as [x|] eqn:E2.
    { intros [= <-]. apply List.find_some in E2. tauto. }
    intros E3. apply List.find_some in E3. tauto.
  - intros ->. rewrite orb_true_r. reflexivity.
  - intros a Hb Hf. rewrite Hb.
    assert (Ht : Py.truthy response = true)
      by (destruct response; [discriminate | reflexivity]).
    rewrite Ht, Hf. cbn [negb orb]. split; [reflexivity|].
    apply List.find_some in Hf as [_ Hf]. apply String.eqb_eq, Hf.
Qed.

(** ** Topic drift *)

(** X24.  Drift detection never fails on the matcher's own errors: with
    a matcher that is not loaded, and with a message that the matcher
    rejects (empty, blank or too long), it reports drift with score 0.  For
    an agent without routing examples the score is 0 for every accepted
    message, so drift is reported for every threshold above 0: a session
    with such an agent never sticks. *)
Theorem drift_is_assumed_without_a_score
        (message : string) (agent : Config.AgentConfig)
        (router : Semantic.SemanticRouter) (drift_threshold : Q) :
  (Semantic.is_loaded router = false ->
   Drift.detect_topic_drift message agent router drift_threshold
   = Py.Ok {| Drift.drifted := true; Drift.similarity_score := 0;
              Drift.threshold := drift_threshold |})
  /\ (Semantic.check_message message <> Py.Ok tt ->
      Drift.detect_topic_drift message agent router drift_threshold
      = Py.Ok {| Drift.drifted := true; Drift.similarity_score := 0;
                 Drift.threshold := drift_threshold |})
  /\ (Semantic.is_loaded router = true ->
      Semantic.check_message message = Py.Ok tt ->
      match Config.routing agent with
      | Some routing => Config.examples routing
      | None => []
      end = [] ->
      Drift.detect_topic_drift message agent router drift_threshold
      = Py.Ok {| Drift.drifted := Semantic.Qlt_b 0 drift_threshold;
                 Drift.similarity_score := 0;
                 Drift.threshold := drift_threshold |}).
Proof.
  unfold Drift.detect_topic_drift, Semantic.compute_similarity,
    Semantic.is_loaded.
  split; [|split].
  - destruct (Semantic._model router), (Semantic._embeddings router);
      intros H; try discriminate H; reflexivity.
  - intros H.
    destruct (Semantic._model router), (Semantic._embeddings router);
      try reflexivity.
    unfold Semantic.check_message in *.
    destruct (negb (Py.truthy message) || Py.isblank message);
      [reflexivity|].
    destruct (Semantic.MAX_MESSAGE_LENGTH <? Z.of_nat (String.length message));
      [reflexivity | contradiction].
  - destruct (Semantic._model router), (Semantic._embeddings router);
      intros H; try discriminate H.
    intros -> He.
    destruct (Config.routing agent) as [r|]; [|reflexivity].
    rewrite He. reflexivity.
Qed.

(** ** Stream buffer *)

Section BufferFacts.
Import Py PyStr PyJson Buffer.

Variable json_loads : string -> option Json.

Lemma length_append (a b : string) :
  String.length (a +:+ b) = (String.length a + String.length b)%nat.
Proof.
  induction a as [|c a IH]; [reflexivity|].
  cbn [String.append String.length]. rewrite IH. reflexivity.
Qed.

Lemma length_slice_to (n : nat) (s : string) :
  String.length (slice_to n s) = Nat.min n (String.length s).
Proof.
  revert s. induction n as [|n IH]; intros [|c s]; try reflexivity.
  cbn [slice_to String.length]. rewrite IH. reflexivity.
Qed.

Lemma slice_to_all (n : nat) (s : string) :
  (String.length s <= n)%nat -> slice_to n s = s.
Proof.
  revert s. induction n as [|n IH]; intros [|c s] H; try reflexivity.
  - cbn [String.length] in H. lia.
  - cbn [slice_to String.length] in *. rewrite IH by lia. reflexivity.
Qed.

Lemma slice_to_app (n : nat) (a b : string) :
  slice_to n (a +:+ b)
  = (slice_to n a +:+ slice_to (n - String.length a) b)%string.
Proof.
  revert a. induction n as [|n IH]; intros [|c a].
  - destruct b; reflexivity.
  - reflexivity.
  - cbn [String.append String.length slice_to]. rewrite Nat.sub_0_r.
    reflexivity.
  - cbn [String.append String.length slice_to]. rewrite IH. reflexivity.
Qed.

(** The event counted, before its handler runs. *)
Lemma process_event_dispatch (now : Q) (event : gmap string string)
      (self : StreamBuffer) :
  _process_event json_loads now event self
  = let ty := default ""%string (event !! "event"%string) in
    let frame :=
      {| event_type := ty; data := parse_data json_loads event;
         timestamp := now; sequence_num := _sequence_num self |} in
    let self1 :=
      {| _thread_id := _thread_id self; _run_id := _run_id self;
         _request_id := _request_id self;
         _max_content_size := _max_content_size self;
         _message := _message self;
         _sequence_num := S (_sequence_num self);
         _content_size := _content_size self |} in
    if String.eqb ty "TEXT_MESSAGE_START"
    then _handle_message_start self1 frame (parse_data json_loads event)
    else if String.eqb ty "TEXT_MESSAGE_CONTENT"
    then _handle_message_content self1 frame (parse_data json_loads event)
    else if String.eqb ty "TEXT_MESSAGE_END"
    then _handle_message_end self1 frame
    else if String.eqb ty "RUN_ERROR"
    then _handle_error self1 frame (parse_data json_loads event)
    else Done self1.
Proof. reflexivity. Qed.

Lemma close_message_within_limit (self : StreamBuffer) (frame : StreamFrame) :
  BufferInv.within_limit self ->
  BufferInv.within_limit (close_message self frame)
  /\ _max_content_size (close_message self frame) = _max_content_size self
  /\ _sequence_num (close_message self frame) = _sequence_num self.
Proof.
  intros [Hr Hm]. unfold close_message, BufferInv.within_limit.
  destruct (_message self) eqn:E; cbn; rewrite ?E; repeat split;
    try lia; exact Hm.
Qed.

Lemma handle_content_within_limit (self : StreamBuffer) (frame : StreamFrame)
      (data : Json) :
  BufferInv.within_limit self ->
  BufferInv.within_limit (state_of (_handle_message_content self frame data))
  /\ _max_content_size (state_of (_handle_message_content self frame data))
     = _max_content_size self
  /\ _sequence_num (state_of (_handle_message_content self frame data))
     = _sequence_num self.
Proof.
  intros [Hr Hm]. unfold _handle_message_content.
  destruct data as [members|].
  2:{ destruct (_message self) eqn:E; cbn [state_of].
      - unfold BufferInv.within_limit. cbn. repeat split; lia.
      - unfold BufferInv.within_limit. rewrite E. repeat split; lia. }
  set (m := match _message self with
            | Some m => m
            | None => new_message self frame members
            end).
  assert (Hlen : Z.of_nat (String.length (accumulated_content m))
                 = _content_size self).
  { subst m. destruct (_message self); [exact Hm | rewrite Hm; reflexivity]. }
  cbv zeta.
  destruct (value_truthy _ && (_content_size self <? _max_content_size self))
    eqn:E.
  - apply andb_true_iff in E as [_ E]. apply Z.ltb_lt in E.
    destruct (default (JString "") (members !! "delta"%string)) as [d|b|b];
      unfold BufferInv.within_limit; cbn;
      rewrite ?length_append, ?length_slice_to; repeat split; lia.
  - unfold BufferInv.within_limit. cbn. repeat split; lia.
Qed.

Lemma process_event_within_limit (now : Q) (event : gmap string string)
      (self : StreamBuffer) :
  BufferInv.within_limit self ->
  BufferInv.within_limit (state_of (_process_event json_loads now event self))
  /\ _max_content_size (state_of (_process_event json_loads now event self))
     = _max_content_size self
  /\ _sequence_num (state_of (_process_event json_loads now event self))
     = S (_sequence_num self).
Proof.
  intros H. rewrite process_event_dispatch. cbv zeta.
  set (frame := {| event_type := default ""%string (event !! "event"%string);
                   data := parse_data json_loads event; timestamp := now;
                   sequence_num := _sequence_num self |}).
  set (self1 := {| _thread_id := _thread_id self; _run_id := _run_id self;
                   _request_id := _request_id self;
                   _max_content_size := _max_content_size self;
                   _message := _message self;
                   _sequence_num := S (_sequence_num self);
                   _content_size := _content_size self |}).
  assert (H1 : BufferInv.within_limit self1) by exact H.
  destruct (String.eqb _ "TEXT_MESSAGE_START").
  { unfold _handle_message_start.
    destruct (parse_data json_loads event); cbn [state_of];
      [|repeat split; apply H].
    unfold BufferInv.within_limit. cbn. repeat split; lia. }
  destruct (String.eqb _ "TEXT_MESSAGE_CONTENT").
  { exact (handle_content_within_limit self1 frame _ H1). }
  destruct (String.eqb _ "TEXT_MESSAGE_END").
  { exact (close_message_within_limit self1 frame H1). }
  destruct (String.eqb _ "RUN_ERROR").
  { unfold _handle_error.
    destruct (parse_data json_loads event) as [members|]; cbn [state_of];
      [|exact (close_message_within_limit self1 frame H1)].
    destruct (members !! "message"%string) as [[d|b|b]|]; cbn [state_of];
      exact (close_message_within_limit self1 frame H1). }
  cbn [state_of]. repeat split; apply H.
Qed.

Lemma process_event_max (now : Q) (event : gmap string string)
      (self : StreamBuffer) :
  _max_content_size (state_of (_process_event json_loads now event self))
  = _max_content_size self.
Proof.
  rewrite process_event_dispatch. cbv zeta.
  unfold _handle_message_start, _handle_message_content,
    _handle_message_end, _handle_error, close_message.
  cbn [_message _content_size _max_content_size].
  destruct (String.eqb _ "TEXT_MESSAGE_START");
    [destruct (parse_data json_loads event); reflexivity|].
  destruct (String.eqb _ "TEXT_MESSAGE_CONTENT").
  { destruct (parse_data json_loads event) as [members|];
      [|destruct (_message self); reflexivity].
    destruct (_ && _); [|reflexivity].
    destruct (members !! "delta"%string) as [[d|b|b]|]; reflexivity. }
  destruct (String.eqb _ "TEXT_MESSAGE_END");
    [destruct (_message self); reflexivity|].
  destruct (String.eqb _ "RUN_ERROR"); [|reflexivity].
  destruct (parse_data json_loads event) as [members|];
    [destruct (members !! "message"%string) as [[d|b|b]|]|];
    destruct (_message self); reflexivity.
Qed.

(** Only data that are not plain make the buffer raise. *)
Lemma process_event_plain (now : Q) (event : gmap string string)
      (self : StreamBuffer) :
  BufferInv.plain (parse_data json_loads event) = true ->
  exists self1, _process_event json_loads now event self = Done self1.
Proof.
  intros Hp. rewrite process_event_dispatch. cbv zeta.
  unfold BufferInv.plain in Hp.
  destruct (parse_data json_loads event) as [members|]; [|discriminate].
  apply andb_true_iff in Hp as [Hd Hm].
  destruct (String.eqb _ "TEXT_MESSAGE_START"); [eexists; reflexivity|].
  destruct (String.eqb _ "TEXT_MESSAGE_CONTENT").
  { unfold _handle_message_content.
    cbn [_message _content_size _max_content_size].
    destruct (members !! "delta"%string) as [[d|b|b]|];
      cbn [default from_option id value_truthy] in *.
    - destruct (_ && _); eexists; reflexivity.
    - rewrite (negb_true_iff _) in Hd. rewrite Hd. eexists; reflexivity.
    - rewrite (negb_true_iff _) in Hd. rewrite Hd. eexists; reflexivity.
    - eexists; reflexivity. }
  destruct (String.eqb _ "TEXT_MESSAGE_END"); [eexists; reflexivity|].
  destruct (String.eqb _ "RUN_ERROR"); [|eexists; reflexivity].
  unfold _handle_error.
  destruct (members !! "message"%string) as [[d|b|b]|];
    try discriminate; eexists; reflexivity.
Qed.

Lemma process_stream_within_limit (clock : nat -> Q)
      (events : list (gmap string string)) :
  forall self,
    BufferInv.within_limit self ->
    BufferInv.within_limit
      (state_of (snd (process_stream json_loads clock events self)))
    /\ _max_content_size
         (state_of (snd (process_stream json_loads clock events self)))
       = _max_content_size self
    /\ exists rest,
         events = fst (process_stream json_loads clock events self) ++ rest
         /\ match snd (process_stream json_loads clock events self) with
            | Done self' =>
                rest = []
                /\ _sequence_num self'
                   = (_sequence_num self + List.length events)%nat
            | Raised self' =>
                (exists event rest',
                    rest = event :: rest'
                    /\ BufferInv.plain (parse_data json_loads event) = false)
                /\ _sequence_num self'
                   = S (_sequence_num self
                        + List.length
                            (fst (process_stream json_loads clock events
                                    self)))
            end.
Proof.
  induction events as [|event events IH]; intros self H.
  - cbn. repeat split; try apply H. exists []. repeat split. lia.
  - cbn [process_stream].
    destruct (process_event_within_limit
                (clock (_sequence_num self)) event self H)
      as (H1 & H2 & H3).
    destruct (_process_event json_loads (clock (_sequence_num self)) event
                self) as [self1|self1] eqn:E; cbn [state_of] in *.
    + destruct (IH _ H1) as (H4 & H5 & rest & H6 & H7).
      destruct (process_stream json_loads clock events self1)
        as [yielded fin].
      cbn [fst snd List.length] in *.
      split; [exact H4|]. split; [congruence|].
      exists rest. split; [cbn [app]; congruence|].
      destruct fin; (split; [apply H7|]); destruct H7 as [_ ->]; lia.
    + cbn [fst snd app List.length]. split; [exact H1|].
      split; [exact H2|]. exists (event :: events). split; [reflexivity|].
      split; [|lia]. exists event, events. split; [reflexivity|].
      destruct (BufferInv.plain (parse_data json_loads event)) eqn:Ep;
        [|reflexivity].
      destruct (process_event_plain (clock (_sequence_num self)) event self
                  Ep) as [s Hs].
      congruence.
Qed.

Lemma process_stream_app (clock : nat -> Q)
      (l1 l2 : list (gmap string string)) :
  forall self self1,
    process_stream json_loads clock l1 self = (l1, Done self1) ->
    process_stream json_loads clock (l1 ++ l2) self
    = (l1 ++ fst (process_stream json_loads clock l2 self1),
       snd (process_stream json_loads clock l2 self1)).
Proof.
  induction l1 as [|e l1 IH]; intros self self1.
  - cbn. intros [= <-]. destruct (process_stream _ _ _ _); reflexivity.
  - cbn [app process_stream].
    destruct (_process_event _ _ _ _) as [s|s]; [|discriminate].
    destruct (process_stream json_loads clock l1 s) as [y f] eqn:E.
    intros [= -> ->]. rewrite (IH s self1 E). reflexivity.
Qed.

Lemma process_stream_max (clock : nat -> Q)
      (events : list (gmap string string)) :
  forall self,
    _max_content_size
      (state_of (snd (process_stream json_loads clock events self)))
    = _max_content_size self.
Proof.
  induction events as [|event events IH]; intros self; [reflexivity|].
  cbn [process_stream].
  pose proof (process_event_max (clock (_sequence_num self)) event self)
    as Hm.
  destruct (_process_event _ _ _ _) as [s|s]; cbn [state_of] in Hm;
    [|exact Hm].
  specialize (IH s).
  destruct (process_stream json_loads clock events s) as [y f].
  cbn [snd] in *. congruence.
Qed.

Lemma process_stream_plain (clock : nat -> Q)
      (events : list (gmap string string)) :
  Forall (fun ev => BufferInv.plain (parse_data json_loads ev) = true)
         events ->
  forall self,
    exists self1,
      process_stream json_loads clock events self = (events, Done self1).
Proof.
  induction 1 as [|ev events Hev _ IH]; intros self.
  - eexists. reflexivity.
  - cbn [process_stream].
    destruct (process_event_plain (clock (_sequence_num self)) ev self Hev)
      as [s ->].
    destruct (IH s) as [s1 ->]. eexists. reflexivity.
Qed.

Lemma process_contents (clock : nat -> Q)
      (contents : list (gmap string string)) :
  Forall (fun ev =>
            ev !! "event"%string = Some "TEXT_MESSAGE_CONTENT"%string
            /\ BufferInv.plain (parse_data json_loads ev) = true)
         contents ->
  forall self mid total n,
    BufferInv.reading self mid total n ->
    exists self1,
      process_stream json_loads clock contents self = (contents, Done self1)
      /\ BufferInv.reading self1 mid
           (total
            +:+ String.concat ""
                  (map (fun ev =>
                          BufferInv.delta_text (parse_data json_loads ev))
                       contents))
           (n + List.length contents).
Proof.
  induction 1 as [|ev contents [Hev Hpl] _ IH]; intros self mid total n Hr.
  - exists self. split; [reflexivity|].
    cbn [map String.concat List.length].
    rewrite append_nil_r, Nat.add_0_r. exact Hr.
  - cbn [process_stream].
    set (d := BufferInv.delta_text (parse_data json_loads ev)).
    assert (Hstep : exists s,
               _process_event json_loads (clock (_sequence_num self)) ev self
               = Done s
               /\ BufferInv.reading s mid (total +:+ d) (S n)).
    { destruct Hr as (m & Hm & Hid & Hc & Hacc & Hsize & Hfr).
      rewrite process_event_dispatch, Hev.
      cbn [default from_option id]. cbv zeta.
      change (String.eqb "TEXT_MESSAGE_CONTENT" "TEXT_MESSAGE_START")
        with false.
      change (String.eqb "TEXT_MESSAGE_CONTENT" "TEXT_MESSAGE_CONTENT")
        with true.
      cbv iota. unfold _handle_message_content.
      cbn [_message _content_size _max_content_size]. rewrite Hm.
      unfold BufferInv.plain in Hpl. subst d. unfold BufferInv.delta_text.
      destruct (parse_data json_loads ev) as [members|]; [|discriminate].
      apply andb_true_iff in Hpl as [Hd _].
      assert (Hlen : String.length (accumulated_content m)
                     = Nat.min (Z.to_nat (_max_content_size self))
                               (String.length total))
        by (rewrite Hacc; apply length_slice_to).
      assert (Hsame : BufferInv.reading
                        (with_message
                           {| _thread_id := _thread_id self;
                              _run_id := _run_id self;
                              _request_id := _request_id self;
                              _max_content_size := _max_content_size self;
                              _message := Some m;
                              _sequence_num := S (_sequence_num self);
                              _content_size := _content_size self |}
                           (Some (append_frame m
                                    {| event_type := "TEXT_MESSAGE_CONTENT";
                                       data := Object members;
                                       timestamp :=
                                         clock (_sequence_num self);
                                       sequence_num := _sequence_num self |}))
                           (_content_size self))
                        mid total (S n)).
      { eexists. split; [reflexivity|].
        cbn [append_frame message_id complete accumulated_content frames
             with_message _max_content_size _content_size].
        repeat split; try assumption.
        rewrite length_app. cbn [List.length]. lia. }
      destruct (members !! "delta"%string) as [[d|b|b]|];
        cbn [default from_option id value_truthy] in *.
      - destruct (truthy d && (_content_size self <? _max_content_size self))
          eqn:E.
        + eexists. split; [reflexivity|].
          apply andb_true_iff in E as [_ E]. apply Z.ltb_lt in E.
          assert (Hshort : (String.length total
                            < Z.to_nat (_max_content_size self))%nat) by lia.
          assert (Hall : accumulated_content m = total)
            by (rewrite Hacc; apply slice_to_all; lia).
          eexists. split; [reflexivity|].
          cbn [append_frame message_id complete accumulated_content frames
               with_message _max_content_size _content_size].
          split; [exact Hid|]. split; [exact Hc|]. split.
          { rewrite slice_to_app, (slice_to_all _ total) by lia.
            rewrite Hall. f_equal. f_equal. rewrite Hsize, Hall. lia. }
          split; [rewrite length_append; lia|].
          rewrite length_app. cbn [List.length]. lia.
        + eexists. split; [reflexivity|].
          destruct Hsame as (m' & Hm' & Hid' & Hc' & Hacc' & Hsize' & Hfr').
          exists m'. repeat split; try assumption.
          rewrite Hacc'.
          cbn [with_message _max_content_size].
          apply andb_false_iff in E as [E|E].
          * assert (Hd0 : d = ""%string)
              by (destruct d; [reflexivity|discriminate]).
            rewrite Hd0, append_nil_r. reflexivity.
          * apply Z.ltb_ge in E.
            rewrite slice_to_app.
            replace (Z.to_nat (_max_content_size self)
                     - String.length total)%nat with O by lia.
            assert (H0 : slice_to 0 d = ""%string)
              by (destruct d; reflexivity).
            rewrite H0, append_nil_r. reflexivity.
      - apply negb_true_iff in Hd. rewrite Hd. cbn [andb].
        eexists. split; [reflexivity|]. rewrite append_nil_r. exact Hsame.
      - apply negb_true_iff in Hd. rewrite Hd. cbn [andb].
        eexists. split; [reflexivity|]. rewrite append_nil_r. exact Hsame.
      - cbn [truthy andb]. eexists. split; [reflexivity|].
        rewrite append_nil_r. exact Hsame. }
    destruct Hstep as (s & -> & Hs).
    destruct (IH s mid (total +:+ d)%string (S n) Hs) as (s1 & -> & Hs1).
    exists s1. split; [reflexivity|].
    cbn [map List.length]. rewrite concat_cons_app. fold d.
    rewrite <- append_assoc.
    replace (n + S (List.length contents))%nat
      with (S n + List.length contents)%nat by lia.
    exact Hs1.
Qed.

End BufferFacts.

(** X25.  The buffer hands events on unchanged and in order, and stops
    only by raising at an event whose data are not plain (no JSON object,
    or a [delta] or [message] of a type the handlers cannot slice); when it
    does not raise, it has handed on and counted every event.  Either way
    what it accumulates stays within the limit: the count of accumulated
    characters is the length of the accumulated content of the buffered
    message and is never above [max_content_size] (never above 0 when the
    limit is negative). *)
Theorem buffer_is_a_passthrough_within_its_limit
        (json_loads : string -> option PyJson.Json)
        (clock : nat -> Q) (events : list (gmap string string))
        (thread_id run_id request_id : string) (max_content_size : Z) :
  let run :=
    Buffer.process_stream json_loads clock events
      (Buffer.init thread_id run_id request_id max_content_size) in
  (exists rest,
      events = fst run ++ rest
      /\ match snd run with
         | Buffer.Done self =>
             rest = []
             /\ Buffer._sequence_num self = List.length events
         | Buffer.Raised self =>
             (exists event rest',
                 rest = event :: rest'
                 /\ BufferInv.plain (Buffer.parse_data json_loads event)
                    = false)
             /\ Buffer._sequence_num self = S (List.length (fst run))
         end)
  /\ 0 <= Buffer._content_size (Buffer.state_of (snd run))
     <= Z.max 0 max_content_size
  /\ match Buffer.get_message (Buffer.state_of (snd run)) with
     | Some m =>
         Z.of_nat (String.length (Buffer.accumulated_content m))
         = Buffer._content_size (Buffer.state_of (snd run))
     | None => True
     end.
Proof.
  intros run.
  assert (H0 : BufferInv.within_limit
                 (Buffer.init thread_id run_id request_id max_content_size)).
  { unfold BufferInv.within_limit. cbn. split; [lia | reflexivity]. }
  destruct (process_stream_within_limit json_loads clock events _ H0)
    as ((Hr & Hm) & Hmax & Hrest).
  fold run in Hr, Hm, Hmax, Hrest.
  split; [exact Hrest|].
  split; [rewrite Hmax in Hr; exact Hr|].
  unfold Buffer.get_message.
  destruct (Buffer._message _); [exact Hm | exact I].
Qed.

(** X26.  The buffer reassembles the last message of a stream of plain
    events.  After any events, a TEXT_MESSAGE_START, content events and a
    TEXT_MESSAGE_END or RUN_ERROR, every event was handed on, and the
    buffered message is complete, has the message id of the start event,
    holds one frame per event from the start on, and its content is the
    deltas of the content events joined in order, cut at
    [max_content_size] characters.  What was buffered before the start is
    gone. *)
Theorem buffer_reassembles_the_last_message
        (json_loads : string -> option PyJson.Json)
        (clock : nat -> Q)
        (before contents : list (gmap string string))
        (start finish : gmap string string) (buffer : Buffer.StreamBuffer)
        (start_members : gmap string PyJson.JsonValue) :
  Forall (fun ev => BufferInv.plain (Buffer.parse_data json_loads ev) = true)
         (before ++ start :: contents ++ [finish]) ->
  start !! "event"%string = Some "TEXT_MESSAGE_START"%string ->
  Buffer.parse_data json_loads start = PyJson.Object start_members ->
  Forall (fun ev => ev !! "event"%string = Some "TEXT_MESSAGE_CONTENT"%string)
         contents ->
  finish !! "event"%string = Some "TEXT_MESSAGE_END"%string
  \/ finish !! "event"%string = Some "RUN_ERROR"%string ->
  exists self m,
    Buffer.process_stream json_loads clock
      (before ++ start :: contents ++ [finish]) buffer
    = (before ++ start :: contents ++ [finish], Buffer.Done self)
    /\ Buffer.get_message self = Some m
    /\ Buffer.complete m = true
    /\ Buffer.message_id m = Buffer.message_id_of start_members
    /\ Buffer.accumulated_content m
       = PyStr.slice_to (Z.to_nat (Buffer._max_content_size buffer))
           (String.concat ""
              (map (fun ev =>
                      BufferInv.delta_text (Buffer.parse_data json_loads ev))
                   contents))
    /\ List.length (Buffer.frames m) = S (S (List.length contents)).
Proof.
  intros Hplain Hs Hdata Hc Hf.
  apply Forall_app in Hplain as [Hp_before Hp].
  apply Forall_cons_1 in Hp as [Hp_start Hp].
  apply Forall_app in Hp as [Hp_contents Hp_finish].
  apply Forall_cons_1 in Hp_finish as [Hp_finish _].
  destruct (process_stream_plain json_loads clock before Hp_before buffer)
    as [b1 Hb1].
  assert (Hmax1 : Buffer._max_content_size b1
                  = Buffer._max_content_size buffer).
  { pose proof (process_stream_max json_loads clock before buffer) as H.
    rewrite Hb1 in H. exact H. }
  rewrite (process_stream_app json_loads clock before _ buffer b1 Hb1).
  change (start :: contents ++ [finish])
    with ([start] ++ contents ++ [finish]).
  assert (Hb2 : exists b2,
             Buffer.process_stream json_loads clock [start] b1
             = ([start], Buffer.Done b2)
             /\ BufferInv.reading b2 (Buffer.message_id_of start_members)
                  "" 1
             /\ Buffer._max_content_size b2
                = Buffer._max_content_size buffer).
  { cbn [Buffer.process_stream].
    rewrite (process_event_dispatch json_loads), Hs, Hdata.
    cbn [default from_option id]. cbv zeta.
    change (String.eqb "TEXT_MESSAGE_START" "TEXT_MESSAGE_START") with true.
    cbv iota. unfold Buffer._handle_message_start.
    eexists. split; [reflexivity|]. split; [|exact Hmax1].
    eexists. split; [reflexivity|].
    cbn [Buffer.new_message Buffer.message_id Buffer.complete
         Buffer.accumulated_content Buffer.frames Buffer.with_message
         Buffer._max_content_size Buffer._content_size].
    repeat split.
    destruct (Z.to_nat (Buffer._max_content_size b1)); reflexivity. }
  destruct Hb2 as (b2 & Hb2 & Hr2 & Hmax2).
  rewrite (process_stream_app json_loads clock [start] _ b1 b2 Hb2).
  assert (Hc' : Forall (fun ev =>
                          ev !! "event"%string
                          = Some "TEXT_MESSAGE_CONTENT"%string
                          /\ BufferInv.plain
                               (Buffer.parse_data json_loads ev) = true)
                       contents).
  { rewrite List.Forall_forall in *. intros ev Hin. split; auto. }
  destruct (process_contents json_loads clock contents Hc' b2 _ _ _ Hr2)
    as (b3 & Hb3 & Hr3).
  rewrite (process_stream_app json_loads clock contents _ b2 b3 Hb3).
  assert (Hmax3 : Buffer._max_content_size b3
                  = Buffer._max_content_size buffer).
  { pose proof (process_stream_max json_loads clock contents b2) as H.
    rewrite Hb3 in H. cbn [snd Buffer.state_of] in H. congruence. }
  destruct Hr3 as (m & Hm & Hid & Hcomp & Hacc & Hsize & Hfr).
  cbn [String.append] in Hacc.
  cbn [Buffer.process_stream fst snd].
  assert (Hfin : exists ty,
    Buffer._process_event json_loads (clock (Buffer._sequence_num b3))
      finish b3
    = Buffer.Done
        (Buffer.close_message
           {| Buffer._thread_id := Buffer._thread_id b3;
              Buffer._run_id := Buffer._run_id b3;
              Buffer._request_id := Buffer._request_id b3;
              Buffer._max_content_size := Buffer._max_content_size b3;
              Buffer._message := Buffer._message b3;
              Buffer._sequence_num := S (Buffer._sequence_num b3);
              Buffer._content_size := Buffer._content_size b3 |}
           {| Buffer.event_type := ty;
              Buffer.data := Buffer.parse_data json_loads finish;
              Buffer.timestamp := clock (Buffer._sequence_num b3);
              Buffer.sequence_num := Buffer._sequence_num b3 |})).
  { destruct Hf as [Hf|Hf];
      rewrite (process_event_dispatch json_loads), Hf;
      cbn [default from_option id]; cbv zeta.
    - eexists; reflexivity.
    - change (String.eqb "RUN_ERROR" "TEXT_MESSAGE_START") with false.
      change (String.eqb "RUN_ERROR" "TEXT_MESSAGE_CONTENT") with false.
      change (String.eqb "RUN_ERROR" "TEXT_MESSAGE_END") with false.
      change (String.eqb "RUN_ERROR" "RUN_ERROR") with true.
      cbv iota. unfold Buffer._handle_error.
      unfold BufferInv.plain in Hp_finish.
      destruct (Buffer.parse_data json_loads finish) as [members|];
        [|discriminate].
      apply andb_true_iff in Hp_finish as [_ Hmsg].
      destruct (members !! "message"%string) as [[d|b|b]|];
        try discriminate; eexists; reflexivity. }
  destruct Hfin as [ty ->].
  unfold Buffer.close_message. cbn [Buffer._message]. rewrite Hm.
  eexists _, _. split; [reflexivity|].
  split; [reflexivity|].
  cbn [Buffer.complete Buffer.message_id Buffer.accumulated_content
       Buffer.frames].
  split; [reflexivity|]. split; [exact Hid|]. split.
  - rewrite Hacc, Hmax3. reflexivity.
  - rewrite length_app, Hfr. cbn [List.length]. lia.
Qed.
Lemma buffer_reassembles_the_last_message_witness :
  exists self m,
    Buffer.process_stream
      (fun text => Some (PyJson.Object
                           {[ "delta"%string := PyJson.JString text ]}))
      (fun n => inject_Z (Z.of_nat n))
      ([{[ "event"%string := "RUN_STARTED"%string ]}]
       ++ {[ "event"%string := "TEXT_MESSAGE_START"%string ]}
       :: [{[ "event"%string := "TEXT_MESSAGE_CONTENT"%string ]}
           ∪ {[ "data"%string := "Hel"%string ]};
           {[ "event"%string := "TEXT_MESSAGE_CONTENT"%string ]}
           ∪ {[ "data"%string := "lo"%string ]}]
       ++ [{[ "event"%string := "TEXT_MESSAGE_END"%string ]}])
      (Buffer.init "t1" "r1" "q1" 4)
    = ([{[ "event"%string := "RUN_STARTED"%string ]}]
       ++ {[ "event"%string := "TEXT_MESSAGE_START"%string ]}
       :: [{[ "event"%string := "TEXT_MESSAGE_CONTENT"%string ]}
           ∪ {[ "data"%string := "Hel"%string ]};
           {[ "event"%string := "TEXT_MESSAGE_CONTENT"%string ]}
           ∪ {[ "data"%string := "lo"%string ]}]
       ++ [{[ "event"%string := "TEXT_MESSAGE_END"%string ]}],
       Buffer.Done self)
    /\ Buffer.get_message self = Some m
    /\ Buffer.complete m = true
    /\ Buffer.accumulated_content m = "Hell"%string.
Proof.
  destruct (buffer_reassembles_the_last_message
              (fun text => Some (PyJson.Object
                                   {[ "delta"%string := PyJson.JString text ]}))
              (fun n => inject_Z (Z.of_nat n))
              [{[ "event"%string := "RUN_STARTED"%string ]}]
              [{[ "event"%string := "TEXT_MESSAGE_CONTENT"%string ]}
               ∪ {[ "data"%string := "Hel"%string ]};
               {[ "event"%string := "TEXT_MESSAGE_CONTENT"%string ]}
               ∪ {[ "data"%string := "lo"%string ]}]
              {[ "event"%string := "TEXT_MESSAGE_START"%string ]}
              {[ "event"%string := "TEXT_MESSAGE_END"%string ]}
              (Buffer.init "t1" "r1" "q1" 4) ∅)
    as (self & m & Hrun & Hm & Hc & _ & Ha & _).
  - repeat (constructor; [vm_compute; reflexivity|]). constructor.
  - reflexivity.
  - vm_compute. reflexivity.
  - repeat constructor.
  - left. reflexivity.
  - exists self, m. split; [exact Hrun|]. split; [exact Hm|].
    split; [exact Hc|]. rewrite Ha. vm_compute. reflexivity.
Defined.

(** ** Routing: when a decision is made, and how sessions stick *)

Section RoutingOutcomeFacts.
Import Py Routing.

Lemma check_message_cases (msg : string) :
  Semantic.check_message msg = Ok tt
  \/ exists text, Semantic.check_message msg = Raise (ValueError text).
Proof.
  unfold Semantic.check_message.
  destruct (negb (truthy msg) || isblank msg); [right; eauto|].
  destruct (Semantic.MAX_MESSAGE_LENGTH <? Z.of_nat (String.length msg));
    [right; eauto | left; reflexivity].
Qed.

Lemma check_message_ok_valid (msg : string) :
  Semantic.check_message msg = Ok tt -> Spec.valid_message msg.
Proof.
  unfold Semantic.check_message, Spec.valid_message,
    Semantic.MAX_MESSAGE_LENGTH.
  destruct (isblank msg); [rewrite orb_true_r; discriminate|].
  destruct (negb (truthy msg)); [discriminate|]. cbn [orb].
  destruct (Z.ltb_spec 10000 (Z.of_nat (String.length msg)));
    [discriminate|]. intros _. split; [reflexivity | lia].
Qed.

Lemma get_agent_by_id_spec (cfg : Config.AgentsConfig) (i : string)
      (a : Config.AgentConfig) :
  Config.get_agent_by_id cfg i = Some a ->
  In a (Config.agents cfg) /\ Config.id a = i.
Proof.
  unfold Config.get_agent_by_id. intros H.
  apply List.find_some in H as [H1 H2]. split; [exact H1|].
  apply String.eqb_eq, H2.
Qed.

Lemma get_agent_by_handle_in (cfg : Config.AgentsConfig) (h : string)
      (a : Config.AgentConfig) :
  Config.get_agent_by_handle cfg h = Some a -> In a (Config.agents cfg).
Proof.
  unfold Config.get_agent_by_handle. intros H.
  apply List.find_some in H. tauto.
Qed.

Lemma validated_handles (cfg : Config.AgentsConfig) (a : Config.AgentConfig) :
  Config.validated cfg = true -> In a (Config.agents cfg) ->
  exists h hs, Config.handles a = h :: hs.
Proof.
  unfold Config.validated. intros H Ha.
  apply andb_true_iff in H as [H _]. apply andb_true_iff in H as [H _].
  rewrite forallb_forall in H. specialize (H a Ha).
  destruct (Config.handles a) as [|h hs]; [discriminate | eauto].
Qed.

Lemma validated_default (cfg : Config.AgentsConfig) :
  Config.validated cfg = true ->
  exists d, Config.get_default_agent cfg = Ok d /\ In d (Config.agents cfg).
Proof.
  unfold Config.validated. intros H.
  apply andb_true_iff in H as [_ H].
  apply existsb_exists in H as (x & Hx & Hid).
  unfold Config.get_default_agent, Config.get_agent_by_id.
  destruct (List.find _ (Config.agents cfg)) as [d|] eqn:E.
  - exists d. split; [reflexivity|]. apply List.find_some in E. tauto.
  - exfalso. pose proof (List.find_none _ _ E x Hx) as Hn.
    cbv beta in Hn. congruence.
Qed.

Section Built.

Variables (self router : Semantic.SemanticRouter)
          (cfg : Config.AgentsConfig) (model : Semantic.SentenceTransformer).
Hypothesis Hmodel : Semantic._model self = Some model.
Hypothesis Hbuilt : Semantic.build_index self cfg = Ok router.

(** On a built index the similarity to an agent of the catalog is
    always computed. *)
Lemma compute_similarity_built (msg : string) (a : Config.AgentConfig) :
  Config.get_agent_by_id cfg (Config.id a) = Some a ->
  Semantic.check_message msg = Ok tt ->
  exists q, Semantic.compute_similarity router msg a = Ok q.
Proof.
  intros Hid Hchk.
  rewrite (build_index_inv _ _ _ _ Hmodel Hbuilt).
  unfold Semantic.compute_similarity.
  cbn [Semantic._model Semantic._embeddings]. rewrite Hchk.
  destruct (Config.routing a) as [r|] eqn:Hr; [|eauto].
  destruct (Config.examples r) as [|ex exs] eqn:Hex; [eauto|].
  destruct (find_agent_idx_spec (Config.id a) (Config.agents cfg) a 0 Hid)
    as (i & Hi & Hn).
  cbn [Nat.add] in Hi.
  pose proof (filter_collect_examples (Config.agents cfg) 0 i a Hn) as Hf.
  cbn [Nat.add] in Hf. unfold Spec.examples_of in Hf. rewrite Hr, Hex in Hf.
  set (rows := Semantic.collect_examples 0 (Config.agents cfg)) in *.
  unfold Semantic.cached_indices.
  cbn [Semantic._agents Semantic._example_to_agent]. rewrite Hi.
  pose proof (example_indices_length i rows 0) as Hl.
  rewrite Hf, length_map in Hl.
  destruct (Semantic.example_indices i 0 rows) as [|j js] eqn:Hjs;
    [discriminate Hl|].
  unfold Semantic.similarity_cached. rewrite <- Hjs.
  pose proof (take_rows_example_indices
                (fun row => Semantic.encode model (snd row)) i rows [])
    as Ht.
  cbn [app List.length] in Ht. rewrite map_map, Ht, Hf.
  cbn [map Semantic.np_max]. eauto.
Qed.

Lemma detect_topic_drift_built (msg : string) (a : Config.AgentConfig)
      (thr : Q) :
  Config.get_agent_by_id cfg (Config.id a) = Some a ->
  exists dr,
    Drift.detect_topic_drift msg a router thr = Ok dr
    /\ (Drift.drifted dr = false -> Semantic.check_message msg = Ok tt).
Proof.
  intros Hid. unfold Drift.detect_topic_drift.
  destruct (check_message_cases msg) as [Hc | (text & Hc)].
  - destruct (compute_similarity_built msg a Hid Hc) as (q & ->).
    eexists. split; [reflexivity | intros _; exact Hc].
  - assert (Hr : Semantic.compute_similarity router msg a
                 = Raise (ValueError text)).
    { rewrite (build_index_inv _ _ _ _ Hmodel Hbuilt).
      unfold Semantic.compute_similarity.
      cbn [Semantic._model Semantic._embeddings]. rewrite Hc. reflexivity. }
    rewrite Hr. eexists. split; [reflexivity|]. discriminate.
Qed.

Lemma match_best_built (msg : string) :
  match Semantic.match_best router msg with
  | Ok (Some m) =>
      Semantic.check_message msg = Ok tt
      /\ In (Semantic.agent m) (Config.agents cfg)
  | Ok None => Semantic.check_message msg = Ok tt
  | Raise e => Semantic.check_message msg = Raise e
  end.
Proof.
  unfold Semantic.match_best.
  destruct (check_message_cases msg) as [Hc | (text & Hc)].
  - rewrite (match_built _ _ _ _ msg Hmodel Hbuilt
               (check_message_ok_valid msg Hc)).
    destruct (Semantic.sort_matches _) as [|m ms] eqn:Es; [exact Hc|].
    split; [exact Hc|].
    assert (Hin : In m (Spec.qualifying (Spec.sim model msg)
                          (Config.agents cfg))).
    { eapply Permutation_in; [apply sort_matches_perm|].
      rewrite Es. now left. }
    apply in_qualifying in Hin as (a & Ha & Hm).
    apply agent_match_spec in Hm as [-> _]. exact Ha.
  - rewrite (build_index_inv _ _ _ _ Hmodel Hbuilt).
    unfold Semantic.match_.
    cbn [Semantic._model Semantic._embeddings]. rewrite Hc. reflexivity.
Qed.

Hypothesis Hvalid : Config.validated cfg = true.

Section Classified.

Variable llm : LLMAnswer.
Hypothesis Hllm : forall a, llm = Classified a -> In a (Config.agents cfg).

Lemma step3_outcome (msg : string) (l : Locals) :
  agent l = None ->
  match step3_semantic llm msg cfg router l with
  | Ok (a, l') =>
      In a (Config.agents cfg) /\ Semantic.check_message msg = Ok tt
      /\ topic_drift_detected l' = topic_drift_detected l
      /\ routing_method l' <> "sticky"%string
      /\ routing_method l' <> "mention"%string
  | Raise e => Semantic.check_message msg = Raise e
  end.
Proof.
  intros Hl. unfold step3_semantic. rewrite Hl.
  pose proof (match_best_built msg) as Hm.
  destruct (Semantic.match_best router msg) as [[m|]|e]; [| |exact Hm].
  - destruct Hm as [Hc Hin]. cbn [topic_drift_detected routing_method].
    repeat split; try assumption; discriminate.
  - destruct (validated_default cfg Hvalid) as (d & -> & Hd).
    destruct (Config.agents cfg) as [|x xs] eqn:Ea; [destruct Hd|].
    rewrite <- Ea in *.
    destruct llm as [a| |text] eqn:El;
      cbn [topic_drift_detected routing_method];
      repeat split; try assumption; try discriminate.
    apply Hllm. reflexivity.
Qed.

(** The selection: an agent of the catalog, by a mention that resolves
    or for a message the matcher accepts; or the error of the matcher's
    input check, when no mention resolves. *)
Lemma select_agent_outcome (clock : Clock) (msg tid : string)
      (store : option Session.SessionStore) :
  match fst (select_agent clock llm msg tid cfg router store) with
  | Ok (a, l) =>
      In a (Config.agents cfg)
      /\ ((exists h, Mention.parse_mention msg = Some h
                     /\ Config.get_agent_by_handle cfg h = Some a)
          \/ Semantic.check_message msg = Ok tt)
  | Raise e =>
      Semantic.check_message msg = Raise e
      /\ forall h, Mention.parse_mention msg = Some h ->
                   Config.get_agent_by_handle cfg h = None
  end.
Proof.
  unfold select_agent.
  assert (Hrest :
    (forall h, Mention.parse_mention msg = Some h ->
               Config.get_agent_by_handle cfg h = None) ->
    match fst (let (r, store0) :=
                 step2_sticky clock msg tid cfg router store initial in
               match r with
               | Ok l2 => (step3_semantic llm msg cfg router l2, store0)
               | Raise e => (Raise e, store0)
               end) with
    | Ok (a, l) =>
        In a (Config.agents cfg)
        /\ ((exists h, Mention.parse_mention msg = Some h
                       /\ Config.get_agent_by_handle cfg h = Some a)
            \/ Semantic.check_message msg = Ok tt)
    | Raise e =>
        Semantic.check_message msg = Raise e
        /\ forall h, Mention.parse_mention msg = Some h ->
                     Config.get_agent_by_handle cfg h = None
    end).
  { intros Hno.
    assert (H3 : forall l, agent l = None ->
              match step3_semantic llm msg cfg router l with
              | Ok (a, l') =>
                  In a (Config.agents cfg)
                  /\ ((exists h, Mention.parse_mention msg = Some h
                                 /\ Config.get_agent_by_handle cfg h = Some a)
                      \/ Semantic.check_message msg = Ok tt)
              | Raise e =>
                  Semantic.check_message msg = Raise e
                  /\ forall h, Mention.parse_mention msg = Some h ->
                               Config.get_agent_by_handle cfg h = None
              end).
    { intros l Hl. pose proof (step3_outcome msg l Hl) as H.
      destruct (step3_semantic llm msg cfg router l) as [[a l']|e].
      - destruct H as (H1 & H2 & _). split; [exact H1 | right; exact H2].
      - split; [exact H | exact Hno]. }
    unfold step2_sticky. cbn [agent initial].
    destruct store as [st|]; [|apply H3; reflexivity].
    destruct (Session.get (at_get clock) st tid) as [[s|] st1];
      cbn [fst]; [|apply H3; reflexivity].
    destruct (Config.get_agent_by_id cfg (Session.agent_id s)) as [a|] eqn:Ea;
      [|apply H3; reflexivity].
    apply get_agent_by_id_spec in Ea as Hs. destruct Hs as [Hin Hid].
    rewrite <- Hid in Ea.
    destruct (detect_topic_drift_built msg a
                (Config.topic_drift_threshold (Config.session cfg)) Ea)
      as (dr & -> & Hdr).
    destruct (Drift.drifted dr); cbn [negb fst].
    - apply H3. reflexivity.
    - cbn [step3_semantic agent]. split; [exact Hin|].
      right. apply Hdr. reflexivity. }
  unfold step1_mention.
  destruct (Mention.parse_mention msg) as [h|] eqn:Hm.
  - rewrite (parse_mention_truthy _ _ Hm).
    destruct (Config.get_agent_by_handle cfg h) as [a|] eqn:Hh.
    + unfold step2_sticky. cbn [agent].
      destruct store; cbn [fst step3_semantic agent];
        (split; [eapply get_agent_by_handle_in; eassumption|]);
        left; exists h; split; reflexivity || assumption.
    + apply Hrest. intros h' [= <-]. exact Hh.
  - apply Hrest. intros h' H. discriminate H.
Qed.

(** The whole of [_route_with_sessions], with the store it leaves. *)
Lemma route_outcome (clock : Clock) (msg tid : string)
      (store : option Session.SessionStore) :
  match fst (_route_with_sessions clock llm msg tid cfg router store) with
  | Ok (a, info) =>
      In a (Config.agents cfg)
      /\ ((exists h, Mention.parse_mention msg = Some h
                     /\ Config.get_agent_by_handle cfg h = Some a)
          \/ Semantic.check_message msg = Ok tt)
  | Raise e =>
      Semantic.check_message msg = Raise e
      /\ forall h, Mention.parse_mention msg = Some h ->
                   Config.get_agent_by_handle cfg h = None
  end.
Proof.
  pose proof (select_agent_outcome clock msg tid store) as H.
  unfold _route_with_sessions.
  destruct (select_agent clock llm msg tid cfg router store)
    as [[[a l]|e] st]; cbn [fst] in *; [|exact H].
  destruct H as [Hin Hwhy].
  destruct (validated_handles cfg a Hvalid Hin) as (h & hs & Hh).
  unfold step4_update_session. rewrite Hh.
  destruct st; [destruct (Config.sticky_enabled _)|];
    cbn [fst]; split; assumption.
Qed.

End Classified.
End Built.

(** The store operations of the selection keep the timeout. *)
Lemma select_agent_timeout clock llm msg tid cfg router st st1 :
  snd (select_agent clock llm msg tid cfg router (Some st)) = Some st1 ->
  Session._timeout_minutes st1 = Session._timeout_minutes st.
Proof.
  unfold select_agent, step2_sticky.
  destruct (agent (step1_mention msg cfg initial)).
  { intros [= <-]. reflexivity. }
  assert (Hg : Session._timeout_minutes
                 (snd (Session.get (at_get clock) st tid))
               = Session._timeout_minutes st).
  { unfold Session.get. destruct (Session._sessions st !! tid); [|reflexivity].
    destruct (Session.is_expired _ _ _); reflexivity. }
  destruct (Session.get (at_get clock) st tid) as [[s|] st0];
    cbn [snd] in Hg.
  2:{ intros [= <-]. exact Hg. }
  destruct (Config.get_agent_by_id cfg (Session.agent_id s)) as [a|].
  2:{ intros [= <-]. exact Hg. }
  destruct (Drift.detect_topic_drift msg a router
              (Config.topic_drift_threshold (Config.session cfg)))
    as [r|e].
  2:{ intros [= <-]. exact Hg. }
  destruct (Drift.drifted r); cbn [negb snd]; intros [= <-]; rewrite <- Hg.
  - unfold Session.delete_session.
    destruct (Session._sessions st0 !! tid); reflexivity.
  - unfold Session.touch.
    destruct (Session._sessions st0 !! tid); [|reflexivity].
    destruct (Session.is_expired _ _ _); reflexivity.
Qed.

(** With sticky sessions on, a routing that succeeds records the chosen
    agent under the thread. *)
Lemma route_writes_session clock llm msg tid cfg router st a info ost :
  Config.sticky_enabled (Config.session cfg) = true ->
  _route_with_sessions clock llm msg tid cfg router (Some st)
  = (Ok (a, info), ost) ->
  exists st1 h,
    ost = Some st1
    /\ hd_error (Config.handles a) = Some h
    /\ Session._sessions st1 !! tid
       = Some {| Session.thread_id := tid;
                 Session.agent_id := Config.id a;
                 Session.agent_handle := h;
                 Session.created_at := at_created clock;
                 Session.last_activity := at_activity clock |}
    /\ Session._timeout_minutes st1 = Session._timeout_minutes st.
Proof.
  intros Hon. unfold _route_with_sessions.
  destruct (select_agent_keeps_store clock llm msg tid cfg router st)
    as (st0 & Hst0).
  pose proof (select_agent_timeout clock llm msg tid cfg router st st0 Hst0)
    as Ht.
  destruct (select_agent clock llm msg tid cfg router (Some st))
    as [[[b l]|e] ost0]; cbn [snd] in Hst0; subst ost0; [|discriminate].
  unfold step4_update_session. rewrite Hon.
  destruct (Config.handles b) as [|h hs] eqn:Hh; [discriminate|].
  intros [= -> <- <-]. exists (snd (Session.set (at_created clock)
    (at_activity clock) st0 tid (Config.id a) h)), h.
  rewrite Hh. repeat split; [|exact Ht].
  cbn [Session.set snd Session.with_sessions Session._sessions].
  apply lookup_insert_eq.
Qed.

(** The selection on a thread with a live session, when no mention
    resolves. *)
Lemma select_agent_on_live_session clock llm msg tid cfg router st s a dr :
  (forall h, Mention.parse_mention msg = Some h ->
             Config.get_agent_by_handle cfg h = None) ->
  Session._sessions st !! tid = Some s ->
  Session.is_expired (at_get clock) s (Session._timeout_minutes st) = false ->
  Config.get_agent_by_id cfg (Session.agent_id s) = Some a ->
  Drift.detect_topic_drift msg a router
    (Config.topic_drift_threshold (Config.session cfg)) = Ok dr ->
  select_agent clock llm msg tid cfg router (Some st)
  = if Drift.drifted dr then
      (step3_semantic llm msg cfg router
         {| agent := None; routing_method := "semantic";
            routing_score := None; topic_drift_detected := true |},
       Some (snd (Session.delete_session st tid)))
    else
      (Ok (a, {| agent := Some a; routing_method := "sticky";
                 routing_score := Some (Drift.similarity_score dr);
                 topic_drift_detected := false |}),
       Some (snd (Session.touch (at_touch_check clock) (at_touch clock)
                    st tid))).
Proof.
  intros Hno Hs He Ha Hd.
  assert (H1 : step1_mention msg cfg initial = initial).
  { unfold step1_mention.
    destruct (Mention.parse_mention msg) as [h|] eqn:Hm; [|reflexivity].
    rewrite (Hno h eq_refl). destruct (truthy h); reflexivity. }
  unfold select_agent. rewrite H1. unfold step2_sticky.
  cbn [agent initial]. unfold Session.get. rewrite Hs, He, Ha, Hd.
  destruct (Drift.drifted dr); reflexivity.
Qed.

End RoutingOutcomeFacts.

(** X27.  Routing over a built index and a validated catalog, with a
    classifier that answers from the catalog, for a thread whose session,
    if any, has its expiry time in the range of [datetime]: the routed
    agent is an agent of the catalog, chosen by a mention that resolves or
    for a message the matcher accepts; and routing fails only with the
    error of the matcher's input check (a blank or over-long message),
    when no mention resolves. *)
Theorem routing_fails_only_on_an_invalid_message
        (self router : Semantic.SemanticRouter) (cfg : Config.AgentsConfig)
        (model : Semantic.SentenceTransformer) (llm : Routing.LLMAnswer)
        (clock : Routing.Clock) (msg tid : string)
        (store : option Session.SessionStore) :
  Semantic._model self = Some model ->
  Semantic.build_index self cfg = Py.Ok router ->
  Config.validated cfg = true ->
  (forall a, llm = Routing.Classified a -> In a (Config.agents cfg)) ->
  SessionRange.thread_in_range store tid = true ->
  match fst (Routing._route_with_sessions clock llm msg tid cfg router store)
  with
  | Py.Ok (a, info) =>
      In a (Config.agents cfg)
      /\ ((exists h, Mention.parse_mention msg = Some h
                     /\ Config.get_agent_by_handle cfg h = Some a)
          \/ Semantic.check_message msg = Py.Ok tt)
  | Py.Raise e =>
      Semantic.check_message msg = Py.Raise e
      /\ forall h, Mention.parse_mention msg = Some h ->
                   Config.get_agent_by_handle cfg h = None
  end.
Proof.
  intros Hmodel Hbuilt Hvalid Hllm _.
  exact (route_outcome self router cfg model Hmodel Hbuilt Hvalid llm Hllm
           clock msg tid store).
Qed.

Lemma routing_fails_only_on_an_invalid_message_witness :
  SessionRange.thread_in_range (Some Samples.store_t1) "t9" = true
  /\ match fst (Routing._route_with_sessions Samples.clock
                  (Routing.Classified Samples.general) "   " "t9"
                  Samples.catalog Samples.router (Some Samples.store_t1))
     with
     | Py.Ok (a, info) =>
         In a (Config.agents Samples.catalog)
         /\ ((exists h, Mention.parse_mention "   " = Some h
                        /\ Config.get_agent_by_handle Samples.catalog h
                           = Some a)
             \/ Semantic.check_message "   " = Py.Ok tt)
     | Py.Raise e =>
         Semantic.check_message "   " = Py.Raise e
         /\ forall h, Mention.parse_mention "   " = Some h ->
                      Config.get_agent_by_handle Samples.catalog h = None
     end.
Proof.
  split; [reflexivity|].
  apply (routing_fails_only_on_an_invalid_message Samples.unbuilt
           Samples.router Samples.catalog Samples.toy_model).
  - reflexivity.
  - vm_compute. reflexivity.
  - vm_compute. reflexivity.
  - intros a H. injection H as <-. vm_compute. auto.
  - reflexivity.
Defined.

(** X28.  Two requests on one thread, sticky sessions on, the expiry
    times of the thread's sessions being in the range of [datetime]: when
    the first is routed to an agent, and the second arrives before the
    session expires, carries no mention that resolves, and shows no topic
    drift against the catalog's agent of that id, the second is routed to
    that agent by the sticky method, with the drift check's similarity as
    score. *)
Theorem a_routed_thread_sticks_to_its_agent
        (cfg : Config.AgentsConfig) (router : Semantic.SemanticRouter)
        (clock1 clock2 : Routing.Clock) (llm1 llm2 : Routing.LLMAnswer)
        (msg1 msg2 tid : string) (st : Session.SessionStore)
        (a a' : Config.AgentConfig) (info1 : Routing.RoutingInfo)
        (ost1 : option Session.SessionStore) (dr : Drift.DriftResult) :
  Config.validated cfg = true ->
  Config.sticky_enabled (Config.session cfg) = true ->
  SessionRange.session_in_range st tid = true ->
  SessionRange.expiry_in_range (Routing.at_activity clock1)
    (Session._timeout_minutes st) = true ->
  Routing._route_with_sessions clock1 llm1 msg1 tid cfg router (Some st)
  = (Py.Ok (a, info1), ost1) ->
  (Routing.at_get clock2
   <= Routing.at_activity clock1
      + Session.minutes (Session._timeout_minutes st))%Z ->
  (forall h, Mention.parse_mention msg2 = Some h ->
             Config.get_agent_by_handle cfg h = None) ->
  Config.get_agent_by_id cfg (Config.id a) = Some a' ->
  Drift.detect_topic_drift msg2 a' router
    (Config.topic_drift_threshold (Config.session cfg)) = Py.Ok dr ->
  Drift.drifted dr = false ->
  fst (Routing._route_with_sessions clock2 llm2 msg2 tid cfg router ost1)
  = Py.Ok (a', {| Routing.method := "sticky";
                  Routing.score := Some (Drift.similarity_score dr);
                  Routing.topic_drift := false |}).
Proof.
  intros Hvalid Hon _ _ H1 Hlive Hno Ha Hd Hdr.
  destruct (route_writes_session _ _ _ _ _ _ _ _ _ _ Hon H1)
    as (st1 & h & -> & _ & Hs & Ht).
  unfold Routing._route_with_sessions.
  rewrite (select_agent_on_live_session clock2 llm2 msg2 tid cfg router st1
             _ a' dr Hno Hs); cbn [Session.agent_id]; try assumption.
  2:{ unfold Session.is_expired. cbn [Session.last_activity].
      rewrite Ht. apply Z.ltb_ge. exact Hlive. }
  rewrite Hdr. unfold Routing.step4_update_session. rewrite Hon.
  apply get_agent_by_id_spec in Ha as [Hin _].
  destruct (validated_handles cfg a' Hvalid Hin) as (h' & hs & ->).
  reflexivity.
Qed.

Lemma a_routed_thread_sticks_to_its_agent_witness :
  SessionRange.session_in_range (Session.init 30) "t1" = true
  /\ SessionRange.expiry_in_range (Routing.at_activity Samples.clock) 30
     = true
  /\ fst (Routing._route_with_sessions Samples.clock Routing.NoMatch
            "show mem usage" "t1" Samples.catalog Samples.router
            (snd (Routing._route_with_sessions Samples.clock Routing.NoMatch
                    "@metrics hello" "t1" Samples.catalog Samples.router
                    (Some (Session.init 30)))))
     = Py.Ok (Samples.metrics,
              {| Routing.method := "sticky"; Routing.score := Some 1%Q;
                 Routing.topic_drift := false |}).
Proof.
  split; [reflexivity|]. split; [reflexivity|].
  apply (a_routed_thread_sticks_to_its_agent Samples.catalog Samples.router
           Samples.clock Samples.clock Routing.NoMatch Routing.NoMatch
           "@metrics hello" "show mem usage" "t1" (Session.init 30)
           Samples.metrics Samples.metrics
           {| Routing.method := "mention"; Routing.score := None;
              Routing.topic_drift := false |}
           _
           {| Drift.drifted := false; Drift.similarity_score := 1%Q;
              Drift.threshold := 1 # 2 |}).
  - vm_compute. reflexivity.
  - reflexivity.
  - reflexivity.
  - reflexivity.
  - vm_compute. reflexivity.
  - vm_compute. discriminate.
  - intros h H. vm_compute in H. discriminate H.
  - vm_compute. reflexivity.
  - vm_compute. reflexivity.
  - reflexivity.
Defined.

(** X29.  Two requests on one thread, sticky sessions on, over a built
    index and a validated catalog, the expiry times of the thread's
    sessions being in the range of [datetime]: when the second request
    drifts from the topic of the agent the first was routed to, the old
    session is dropped before the request is routed afresh.  A routing
    that succeeds reports the drift, is never by the sticky method, and
    leaves a new session for the agent it chose; a routing that fails (the
    matcher rejects the message) leaves the thread without a session. *)
Theorem topic_drift_drops_the_session
        (self router : Semantic.SemanticRouter) (cfg : Config.AgentsConfig)
        (model : Semantic.SentenceTransformer)
        (clock1 clock2 : Routing.Clock) (llm1 llm2 : Routing.LLMAnswer)
        (msg1 msg2 tid : string) (st : Session.SessionStore)
        (a a' : Config.AgentConfig) (info1 : Routing.RoutingInfo)
        (ost1 : option Session.SessionStore) (dr : Drift.DriftResult) :
  Semantic._model self = Some model ->
  Semantic.build_index self cfg = Py.Ok router ->
  Config.validated cfg = true ->
  (forall b, llm2 = Routing.Classified b -> In b (Config.agents cfg)) ->
  Config.sticky_enabled (Config.session cfg) = true ->
  SessionRange.session_in_range st tid = true ->
  SessionRange.expiry_in_range (Routing.at_activity clock1)
    (Session._timeout_minutes st) = true ->
  Routing._route_with_sessions clock1 llm1 msg1 tid cfg router (Some st)
  = (Py.Ok (a, info1), ost1) ->
  (Routing.at_get clock2
   <= Routing.at_activity clock1
      + Session.minutes (Session._timeout_minutes st))%Z ->
  (forall h, Mention.parse_mention msg2 = Some h ->
             Config.get_agent_by_handle cfg h = None) ->
  Config.get_agent_by_id cfg (Config.id a) = Some a' ->
  Drift.detect_topic_drift msg2 a' router
    (Config.topic_drift_threshold (Config.session cfg)) = Py.Ok dr ->
  Drift.drifted dr = true ->
  match Routing._route_with_sessions clock2 llm2 msg2 tid cfg router ost1
  with
  | (Py.Ok (b, info), ost2) =>
      Routing.topic_drift info = true
      /\ Routing.method info <> "sticky"%string
      /\ In b (Config.agents cfg)
      /\ exists st2 s2,
           ost2 = Some st2
           /\ Session._sessions st2 !! tid = Some s2
           /\ Session.agent_id s2 = Config.id b
           /\ Session.created_at s2 = Routing.at_created clock2
  | (Py.Raise e, ost2) =>
      Semantic.check_message msg2 = Py.Raise e
      /\ exists st2,
           ost2 = Some st2 /\ Session._sessions st2 !! tid = None
  end.
Proof.
  intros Hmodel Hbuilt Hvalid Hllm Hon _ _ H1 Hlive Hno Ha Hd Hdr.
  destruct (route_writes_session _ _ _ _ _ _ _ _ _ _ Hon H1)
    as (st1 & h & -> & _ & Hs & Ht).
  unfold Routing._route_with_sessions.
  rewrite (select_agent_on_live_session clock2 llm2 msg2 tid cfg router st1
             _ a' dr Hno Hs); cbn [Session.agent_id]; try assumption.
  2:{ unfold Session.is_expired. cbn [Session.last_activity].
      rewrite Ht. apply Z.ltb_ge. exact Hlive. }
  rewrite Hdr.
  pose proof (step3_outcome self router cfg model Hmodel Hbuilt Hvalid
                llm2 Hllm msg2
                {| Routing.agent := None;
                   Routing.routing_method := "semantic";
                   Routing.routing_score := None;
                   Routing.topic_drift_detected := true |} eq_refl) as H3.
  destruct (Routing.step3_semantic llm2 msg2 cfg router _) as [[b l']|e].
  - destruct H3 as (Hin & _ & Hflag & Hsticky & _).
    destruct (validated_handles cfg b Hvalid Hin) as (h' & hs & Hh).
    unfold Routing.step4_update_session. rewrite Hon, Hh.
    cbn [Routing.topic_drift Routing.method Routing.topic_drift_detected]
      in *.
    repeat split; try assumption.
    eexists _, _. split; [reflexivity|]. split.
    + cbn [Session.set snd Session.with_sessions Session._sessions].
      apply lookup_insert_eq.
    + split; reflexivity.
  - split; [exact H3|]. eexists. split; [reflexivity|].
    unfold Session.delete_session. rewrite Hs.
    cbn [snd Session.with_sessions Session._sessions].
    apply lookup_delete_eq.
Qed.

Lemma topic_drift_drops_the_session_witness :
  SessionRange.session_in_range (Session.init 30) "t1" = true
  /\ SessionRange.expiry_in_range (Routing.at_activity Samples.clock) 30
     = true
  /\ match Routing._route_with_sessions Samples.clock Routing.NoMatch
             "hi" "t1" Samples.catalog Samples.router
             (snd (Routing._route_with_sessions Samples.clock
                     Routing.NoMatch "@metrics hello" "t1" Samples.catalog
                     Samples.router (Some (Session.init 30))))
     with
     | (Py.Ok (b, info), ost2) =>
         Routing.topic_drift info = true
         /\ Routing.method info <> "sticky"%string
         /\ In b (Config.agents Samples.catalog)
         /\ exists st2 s2,
              ost2 = Some st2
              /\ Session._sessions st2 !! "t1"%string = Some s2
              /\ Session.agent_id s2 = Config.id b
              /\ Session.created_at s2 = Routing.at_created Samples.clock
     | (Py.Raise e, ost2) =>
         Semantic.check_message "hi" = Py.Raise e
         /\ exists st2,
              ost2 = Some st2
              /\ Session._sessions st2 !! "t1"%string = None
     end.
Proof.
  split; [reflexivity|]. split; [reflexivity|].
  apply (topic_drift_drops_the_session Samples.unbuilt Samples.router
           Samples.catalog Samples.toy_model
           Samples.clock Samples.clock Routing.NoMatch Routing.NoMatch
           "@metrics hello" "hi" "t1" (Session.init 30)
           Samples.metrics Samples.metrics
           {| Routing.method := "mention"; Routing.score := None;
              Routing.topic_drift := false |}
           _
           {| Drift.drifted := true; Drift.similarity_score := 0%Q;
              Drift.threshold := 1 # 2 |}).
  - reflexivity.
  - vm_compute. reflexivity.
  - vm_compute. reflexivity.
  - intros b H. discriminate H.
  - reflexivity.
  - reflexivity.
  - reflexivity.
  - vm_compute. reflexivity.
  - vm_compute. discriminate.
  - intros h H. vm_compute in H. discriminate H.
  - vm_compute. reflexivity.
  - vm_compute. reflexivity.
  - reflexivity.
Defined.

(** X30.  How [chat] answers when the application holds a validated
    catalog and an index built from it, for a thread whose session, if
    any, has its expiry time in the range of [datetime].  It answers 400
    exactly when the request has no user text or an empty one.  For any
    other user text it streams, and the stream begins with the forwarding
    of the request, its mentions stripped, to an agent of the catalog;
    unless no mention resolves and the matcher rejects the text, in which
    case the matcher's [ValueError] leaves the handler. *)
Theorem chat_answers
        (self router : Semantic.SemanticRouter) (cfg : Config.AgentsConfig)
        (model : Semantic.SentenceTransformer) (llm : Routing.LLMAnswer)
        (clock : Routing.Clock) (store : option Session.SessionStore)
        (chat_request : Agui.ChatRequest)
        (proxy : Config.AgentConfig -> Agui.ChatRequest
                 -> list Agui.Event * Proxy.ProxyEnd)
        (message_id : string) :
  Semantic._model self = Some model ->
  Semantic.build_index self cfg = Py.Ok router ->
  Config.validated cfg = true ->
  (forall a, llm = Routing.Classified a -> In a (Config.agents cfg)) ->
  SessionRange.thread_in_range store (Agui.thread_id chat_request) = true ->
  ((UserMessage._extract_user_message chat_request = None
    \/ UserMessage._extract_user_message chat_request = Some ""%string)
   -> Chat.chat clock llm (Some cfg) (Some router) store chat_request proxy
        message_id
      = (Chat.HttpError 400 "No user message found", store))
  /\ (forall msg,
         UserMessage._extract_user_message chat_request = Some msg ->
         msg <> ""%string ->
         match fst (Chat.chat clock llm (Some cfg) (Some router) store
                      chat_request proxy message_id) with
         | Chat.HttpError _ _ => False
         | Chat.Escaped e =>
             Semantic.check_message msg = Py.Raise e
             /\ forall h, Mention.parse_mention msg = Some h ->
                          Config.get_agent_by_handle cfg h = None
         | Chat.Streaming stream =>
             exists a rest,
               In a (Config.agents cfg)
               /\ stream
                  = Pipeline.Forward a
                      (Forwarding.forwarding_request chat_request)
                    :: rest
         end).
Proof.
  intros Hmodel Hbuilt Hvalid Hllm _. unfold Chat.chat. split.
  - intros [-> | ->]; reflexivity.
  - intros msg -> Hne.
    assert (Ht : Py.truthy msg = true)
      by (destruct msg; [contradiction | reflexivity]).
    rewrite Ht. cbn [negb].
    pose proof (route_outcome self router cfg model Hmodel Hbuilt Hvalid llm
                  Hllm clock msg (Agui.thread_id chat_request) store) as H.
    destruct (Routing._route_with_sessions clock llm msg
                (Agui.thread_id chat_request) cfg router store)
      as [[[a info]|e] st]; cbn [fst] in *; [|exact H].
    destruct (validated_default cfg Hvalid) as (d & -> & _). cbn [fst].
    destruct H as [Hin _].
    unfold Pipeline.event_generator.
    destruct (proxy a (Forwarding.forwarding_request chat_request))
      as [events fin].
    exists a.
    destruct fin; eexists; (split; [exact Hin|]); cbn [app]; reflexivity.
Qed.

Lemma chat_answers_witness :
  SessionRange.thread_in_range (Some Samples.store_t1)
    (Agui.thread_id Samples.request) = true
  /\ UserMessage._extract_user_message Samples.request
     = Some "@metrics  show cpu"%string
  /\ match fst (Chat.chat Samples.clock Routing.NoMatch
                  (Some Samples.catalog) (Some Samples.router)
                  (Some Samples.store_t1) Samples.request
                  Samples.proxy_metrics_down "n1") with
     | Chat.HttpError _ _ => False
     | Chat.Escaped e =>
         Semantic.check_message "@metrics  show cpu" = Py.Raise e
         /\ forall h,
              Mention.parse_mention "@metrics  show cpu" = Some h ->
              Config.get_agent_by_handle Samples.catalog h = None
     | Chat.Streaming stream =>
         exists a rest,
           In a (Config.agents Samples.catalog)
           /\ stream
              = Pipeline.Forward a
                  (Forwarding.forwarding_request Samples.request)
                :: rest
     end.
Proof.
  split; [reflexivity|]. split; [reflexivity|].
  apply (proj2 (chat_answers Samples.unbuilt Samples.router
                  Samples.catalog Samples.toy_model Routing.NoMatch
                  Samples.clock (Some Samples.store_t1) Samples.request
                  Samples.proxy_metrics_down "n1"
                  eq_refl eq_refl eq_refl
                  (fun a H => match H with end) eq_refl)).
  - reflexivity.
  - discriminate.
Defined.
